(* ===== verification/_CoqProject ===== *)
-Q . S2P
Prelude.v
PyStr.v
Errors.v
PyBytes.v
PyHash.v
PyFloat.v
Protocol.v
Pgoutput.v
PgoutputSpec.v
Abc.v
Transaction.v
TransactionSpec.v
Client.v
ClientSpec.v
ClientSession.v
Delivery.v
Transport.v
Waits.v
Reconnect.v
Checkpoint.v
Isolation.v
Builder.v
Deployed.v
Handlers.v
Sink.v
Shards.v
ShardsSpec.v
ShardsLive.v
