(* ===== verification/Prelude.v ===== *)
(** * walbox: a verification development

    walbox is an asyncio library that consumes a PostgreSQL logical replication
    slot and hands each committed transaction to an application handler, with a
    checkpoint per consumer kept in a PostgreSQL table.  This library models the
    whole of [src/walbox] and the handlers of [src/examples], and proves that bytes sent by a server come out as the
    transactions the server committed, in order, and that the positions reported
    back and stored never run ahead of what was handled and made durable.  Where
    the code does less than its documentation says, the theorem states what the
    code does.

    ** The program

<<
    libpq --- transport.py --- client.py ---- abc.py (handler, checkpoint handle)
                                  |   |
                 protocol.py -----+   +------ checkpoint.py --- PostgreSQL
                 pgoutput.py -----+   builder.py wires the two
                 transaction.py --+   errors.py is used by all
>>

    [Client.run] loads the checkpoint, opens a replication connection and runs
    two tasks.  The receiver reads [CopyData] payloads, decodes the outer
    message, decodes the pgoutput message inside it, feeds the assembler and
    puts each completed transaction on a bounded queue, while a timer sends
    status updates.  The consumer takes transactions off the queue and calls the
    handler, which saves its checkpoint through a handle.  A lost connection is
    retried with a growing delay; [close] ends everything.

    The examples are four handlers and their wiring: publish to a broker then
    checkpoint, write and checkpoint in one PostgreSQL transaction, spread a
    transaction over shard queues with a worker each, and export metrics off the
    event loop.

    ** The files

    - [Prelude]: the [result] type for code that raises, [method] for code that
      also mutates its object (a method that raises keeps the mutations made
      before), notations, tactics, hints, and lemmas on lists and bytes.
    - [PyStr], [PyBytes], [PyFloat]: what the source uses of Python's [str],
      [bytes] and [float].  Strings are lists of code points, bytes are lists of
      [byte], floats are binary64 on the standard library's [spec_float].
      [PyBytes] has the cursor lemmas (a buffer seen as a prefix, a field and a
      rest) every decoder proof uses.
    - [Errors] ([errors.py]): [ErrorContext], the [WalboxError] classes, [enrich]
      and [__str__]; [exn] adds the built-in exceptions other components let
      escape, with [isinstance] for [except] clauses.
    - [Protocol] ([protocol.py]): [decode_replication_message],
      [encode_standby_status_update], [pg_now_micros].
    - [Pgoutput] ([pgoutput.py]): one decoder per message, [RelationCache],
      [Decoder] with its two dispatch tables.  [PgoutputSpec] has the server's
      side: [SMsg], [encode_msg], [denote_msg], [valid_msg].
    - [Abc] ([abc.py]): change events, transactions, the checkpoint handle,
      metrics, [WalboxOptions] and its validation.
    - [Transaction] ([transaction.py]): [_Pending], [TransactionAssembler] and its
      handlers, [feed].  [TransactionSpec] has abstract buckets, the concrete
      bucket's [repr], sessions of interleaved blocks and trees of savepoints.
    - [Client] ([client.py]): [asyncio.Queue], the state of [Client], the code
      between two awaits as a [method] per coroutine, and the program as a step
      function [step : event -> World -> option World] with its runs [steps] and
      [reachable].  [ClientSpec] has the invariants of every reachable world,
      [ClientSession] whole sessions, shutdown, backoff and the runs that show
      where delivery guarantees end, [Delivery] what restarts from the stored
      checkpoint lose.
    - [Transport] ([transport.py]): LSN text, [ReplicationTransport] over a class
      [PGconn] of libpq operations.  [Waits] runs a read and a flush as two tasks on
      one event loop, whose registrations they share.
    - [Checkpoint] ([checkpoint.py]): [PostgresCheckpointStore] over a class
      [Database], and the interface [CheckpointStore] it implements.
      [Isolation]: what transactions side by side see of each other, the interface
      [CheckpointTransactions] to a handler's own transaction, and a database with any
      number of connections.
    - [Builder] ([builder.py]): the two public constructors, and their clients' stores
      on one database.
    - [Reconnect]: [Transport] under [Client], from a failure libpq reports to the
      next connection, and what that costs.
    - [Deployed]: the client's steps with [load], [save] and the transaction a save
      joins run on a [CheckpointStore] and its database, and the proof that this
      refines [Client].
    - [Handlers] ([examples/broker.py], [examples/metrics.py]): the two handlers,
      the callback and exporter of the metrics queue, and what the four [main]s
      build; the broker is a class.
    - [Sink] ([examples/postgres.py]): the same-transaction handler over
      [Database] extended with the projection table.
    - [PyHash]: [hashlib.md5], [hexdigest] and [int(text, 16)], by RFC 1321.
      [Shards] ([examples/concurrency.py]): [ConcurrentHandler], its queues,
      workers, [handle] and [stop], as a step function like [Client]'s;
      [ShardsSpec] has its invariant and safety, [ShardsLive] its termination.

    ** Modelling choices

    The client is interleaved at its awaits.  An [event] says what an awaited
    operation did (a frame arrived, a write finished, the store committed) or
    which task the event loop runs next, and carries the clock readings of the
    step; the theorems quantify over every sequence of events, so over every
    server, store, handler and schedule.  A status write takes two steps, so that
    the inner task can finish while it is under way.  [History] is a ghost
    record of what an observer sees; the program never reads it.  In [Client] the
    server's connection and the checkpoint store appear through the outcomes of
    their operations; [Transport] and [Checkpoint] model them in full.

    [Shards] is interleaved the same way: the handler's task stops where a queue is
    full, at a [join] and at [checkpoint.save]; a worker at [get] and while it
    publishes.  The [join]s of the touched shards complete in any order, as the
    source iterates over a set.  The number of the call that put an item is ghost
    state: it lets a theorem speak of one call's items among those a cancelled call
    left in the queues.  [hashlib] is the standard library's, so its MD5 is modelled
    and tested on the RFC's example, and witnesses compute the shard of an entity.

    Python integers are [Z]; the wire widths are explicit in [int.to_bytes] and
    [int.from_bytes], and a value out of range raises [OverflowError].  Negative
    slice bounds, reads past the end of a buffer and partial mutations before an
    exception are kept as Python has them.

    Recursion is structural almost everywhere.  The loops of [Transport] that
    wait for the socket take fuel: [read_first_message], [write_completes] and
    [command_completes] show that a connection that becomes ready after [n] waits
    gives the result with any fuel above [n], so running out of fuel means only
    that the wait has not ended.  Hexadecimal text of an LSN is given as many
    digits as the number has bits, more than it needs.  No session theorem bounds
    the length of the session, and the bound of [shutdown_terminates] counts the
    steps of the program, not those of its environment.  [handle_terminates] counts
    every step of the pool but new calls, by a measure [pool_cost] that each one
    decreases.

    ** What the theorems show

    - Delivery: [ClientSession.end_to_end] composes the layers, from bytes to the
      handler; [TransactionSpec.conforming_session], [savepoint_delivery],
      [emission_exact], [reachable_wf] and [feed_failures_atomic] are the
      assembler's part, [PgoutputSpec.decode_session_correct] and its companions
      the decoder's, [ClientSpec.delivery_in_order] the queue's.
    - Durability: [ClientSpec.feedback_is_durable] and [positions_are_earned] for
      the client, the instance [Checkpoint.postgres_store_laws],
      [save_touches_one_row] and [load_never_negative] for the store,
      [Deployed.deployed_client_refines] and [deployed_feedback_held] for the two
      together, [Builder.built_consumers_isolated] for
      several consumers, [ClientSession.resumes_from_checkpoint] for restarts.
    - Restarts: [Delivery.at_least_once_across_restarts], at-least-once delivery
      over any number of processes that each opened one connection, on one store and
      one replication slot;
      [Reconnect.reconnect_skips_in_flight] shows why it says one.
    - Handlers: [Handlers.broker_publishes_before_checkpoint],
      [metrics_export_order] and [example_consumers_distinct];
      [Sink.sink_commit_atomic] and [sink_exactly_once] for the same-transaction
      checkpoint; [ShardsSpec.entity_order], [save_after_processing] and
      [saved_calls_clean] and [ShardsLive.handle_terminates] for the sharding one.
    - Where guarantees end: [Reconnect.reconnect_skips_in_flight] and
      [joined_save_told_early], and the runs
      [ClientSession.reconnect_skips_transaction], [reconnect_redelivers_saved],
      [reconnect_mid_transaction] and [joined_save_feedback], [Sink.redelivery_duplicates_rows],
      [ShardsLive.stale_failure_blames_next_call],
      [Checkpoint.joined_save_commits_with_caller] and
      [schema_flag_survives_rollback], [Waits.overlapping_waits_lost].
    - Life cycle: [ClientSession.shutdown_terminates], [backoff_schedule],
      [waiting_keeps_feedback], [keepalive_answered], [metrics_count_events].
    - Formats and bounds: [Protocol.decode_replication_message_iff],
      [encode_status_update_spec], [pg_now_micros_exact],
      [PgoutputSpec.fixed_size_messages_iff], [Transport.lsn_round_trip].
    - Transport: [Transport.read_first_message], [write_completes] and
      [command_completes] for every number of waits;
      [Reconnect.stream_failure_reconnects] for the connection that fails.
    - Errors: [Protocol.decode_replication_message_raises],
      [Transport.io_errors_reconnect], [command_outcomes], [Errors.enrich_merges],
      [Abc.options_validation].

    ** Parameters

    libpq ([PGconn]) and PostgreSQL ([Database]) are classes of operations; their
    documented behaviour is a class of laws ([PGconnErrors], [DatabaseLaws],
    [IsolationLaws] where several transactions are open, [SinkLaws] where a second table
    takes part), and each has a concrete instance ([Script], [Memory], [Server],
    [SinkMemory]) on which the theorems are run.  The broker is
    a class with a law too, the example's own stand-in an instance.  [Delivery]
    assumes of the server that it sends, in commit order, the transactions whose position
    is at or after both the one it is asked for and the one the slot was last told is
    flushed.  The handler, the metrics callback and the pool are arguments.

    ** Not modelled

    Logging; side effects of the [on_metrics] callback (only that it is called,
    with what, and that what it raises is swallowed, also when it is no
    [Exception]); the text of SQL statements (a datatype instead, quoted identifiers
    being psycopg's); [__init__.py], which only re-exports; signal handlers, and what
    the examples' [main]s do after the client is built but to run it; in
    [examples/metrics.py] the callback named bad, which sleeps; tests and benchmarks.
    In [Deployed] a handler's transaction begins at its first joined save (what it
    wrote before is its own business; [Sink] has it) and ends with its block, a failed
    statement ends it, and a save of the store's own waits for its row while one is
    open. *)
From stdpp Require Import base tactics list numbers strings gmap.
From Stdlib Require Export ZArith Lia.
From Stdlib Require Import Strings.Byte.

#[global] Open Scope Z_scope.

(** ** Python values

    [bytes] is a list of bytes; [str] is a list of code points, so a
    [pystr] can hold every string the program handles.  [lit] embeds an
    ASCII literal of the source. *)

Abbreviation bytes := (list byte).
Abbreviation pystr := (list Z).

(** The integer value of a byte, [0 <= b2z b < 256]. *)
Definition b2z (b : byte) : Z := Z.of_N (Byte.to_N b).

(** The byte of an integer, modulo 256. *)
Definition z2b (z : Z) : byte :=
  default x00 (Byte.of_N (Z.to_N (z mod 256))).

Definition lit (s : string) : pystr := b2z <$> String.list_byte_of_string s.

(** A bytes literal [b"..."] of the source. *)
Definition bs (s : string) : bytes := String.list_byte_of_string s.

(** [bool(n)] of an integer. *)
Definition truthy (n : Z) : bool := negb (n =? 0).

(** [k in d] and [d[k]] for a constant dispatch table. *)
Fixpoint table_get {K V} `{EqDecision K} (k : K) (d : list (K * V)) : option V :=
  match d with
  | [] => None
  | (k', v) :: d' => if bool_decide (k = k') then Some v else table_get k d'
  end.

(** ** Results: a value or a raised exception *)

Inductive result (E A : Type) : Type :=
| Ok (a : A)
| Raise (e : E).
Arguments Ok {E A} a.
Arguments Raise {E A} e.

#[global] Instance result_ret E : MRet (result E) := λ A a, Ok a.
#[global] Instance result_bind E : MBind (result E) := λ A B f m,
  match m with Ok a => f a | Raise e => Raise e end.
#[global] Instance result_fmap E : FMap (result E) := λ A B f m,
  match m with Ok a => Ok (f a) | Raise e => Raise e end.

Definition is_ok {E A} (r : result E A) : bool :=
  match r with Ok _ => true | Raise _ => false end.

Definition result_value {E A} (r : result E A) : option A :=
  match r with Ok a => Some a | Raise _ => None end.

#[global] Instance result_eq_dec `{EqDecision E, EqDecision A} :
  EqDecision (result E A).
Proof. solve_decision. Defined.

(** ** Methods: code that mutates an object

    A method of a class with state [S] maps the state before the call to
    the outcome and the state after it.  An exception keeps the mutations
    made before it was raised, as in Python. *)

Definition method (S E A : Type) : Type := S → result E A * S.

#[global] Instance method_ret S E : MRet (method S E) := λ A a s, (Ok a, s).
#[global] Instance method_bind S E : MBind (method S E) := λ A B f m s,
  match m s with
  | (Ok a, s') => f a s'
  | (Raise e, s') => (Raise e, s')
  end.

(** Read the object. *)
Definition get_self {S E} : method S E S := λ s, (Ok s, s).

(** Overwrite the object. *)
Definition put_self {S E} (s' : S) : method S E unit := λ _, (Ok tt, s').

Definition modify_self {S E} (f : S → S) : method S E unit := λ s, (Ok tt, f s).

Definition raise {S E A} (e : E) : method S E A := λ s, (Raise e, s).

(** Run a computation that does not touch the object. *)
Definition lift {S E A} (r : result E A) : method S E A := λ s, (r, s).

(** A loop [for x in l: body], stopping at the first exception. *)
Fixpoint for_each {S E A} (body : A → method S E unit) (l : list A) :
    method S E unit :=
  match l with
  | [] => mret tt
  | x :: l' => _ ← body x; for_each body l'
  end.

(** ** Tactics *)

(** Split on the innermost match or conditional of the goal. *)
Ltac case_step :=
  match goal with
  | |- context [match ?x with _ => _ end] =>
      lazymatch x with
      | context [match _ with _ => _ end] => fail
      | _ => destruct x eqn:?
      end
  end.

(** The same for hypothesis [H]. *)
Ltac case_step_in H :=
  match type of H with
  | context [match ?x with _ => _ end] =>
      lazymatch x with
      | context [match _ with _ => _ end] => fail
      | _ => destruct x eqn:?
      end
  end.

(** Turn boolean integer tests into propositions. *)
Ltac zbool :=
  repeat match goal with
  | H : (_ && _)%bool = true |- _ => apply andb_true_iff in H as [? ?]
  | H : (_ && _)%bool = false |- _ => apply andb_false_iff in H
  | H : (_ || _)%bool = true |- _ => apply orb_true_iff in H
  | H : (_ || _)%bool = false |- _ => apply orb_false_iff in H as [? ?]
  | H : (_ <? _)%Z = true |- _ => apply Z.ltb_lt in H
  | H : (_ <? _)%Z = false |- _ => apply Z.ltb_ge in H
  | H : (_ <=? _)%Z = true |- _ => apply Z.leb_le in H
  | H : (_ <=? _)%Z = false |- _ => apply Z.leb_gt in H
  | H : (_ =? _)%Z = true |- _ => apply Z.eqb_eq in H
  | H : (_ =? _)%Z = false |- _ => apply Z.eqb_neq in H
  | H : negb _ = true |- _ => apply negb_true_iff in H
  | H : negb _ = false |- _ => apply negb_false_iff in H
  | H : bool_decide _ = true |- _ => apply bool_decide_eq_true in H
  | H : bool_decide _ = false |- _ => apply bool_decide_eq_false in H
  end.

(** Decide a closed proposition by computation. *)
Ltac by_compute := apply (bool_decide_unpack _); vm_compute; exact I.

(** Lemmas that resolve side conditions shared by the components. *)
Create HintDb walbox.
Create Rewrite HintDb walbox.

(** ** Lemmas *)

(** *** Bytes *)

Lemma b2z_range b : 0 <= b2z b < 256.
Proof.
  unfold b2z. pose proof (Byte.to_N_bounded b). lia.
Qed.

Lemma b2z_z2b z : b2z (z2b z) = z mod 256.
Proof.
  unfold b2z, z2b. pose proof (Z.mod_pos_bound z 256 ltac:(lia)).
  destruct (Byte.of_N (Z.to_N (z mod 256))) as [b|] eqn:E; simpl.
  - apply Byte.to_of_N in E. rewrite E. lia.
  - apply Byte.of_N_None_iff in E. lia.
Qed.

Lemma z2b_b2z b : z2b (b2z b) = b.
Proof.
  unfold z2b. rewrite Z.mod_small by apply b2z_range. unfold b2z.
  by rewrite N2Z.id, Byte.of_to_N.
Qed.

Lemma b2z_small z : 0 <= z < 256 → b2z (z2b z) = z.
Proof. intros. rewrite b2z_z2b. by apply Z.mod_small. Qed.

Lemma b2z_inj b1 b2 : b2z b1 = b2z b2 → b1 = b2.
Proof. intros H. rewrite <- (z2b_b2z b1), <- (z2b_b2z b2). by rewrite H. Qed.

#[export] Hint Resolve b2z_range : walbox.

#[global] Instance byte_eq_dec : EqDecision byte := Byte.byte_eq_dec.

(** *** Results and methods *)

Lemma bind_ok {E A B} (m : result E A) (f : A → result E B) b :
  (x ← m; f x) = Ok b → ∃ a, m = Ok a ∧ f a = Ok b.
Proof. destruct m; simpl; [eauto | done]. Qed.

Lemma bind_raise {E A B} (m : result E A) (f : A → result E B) e :
  (x ← m; f x) = Raise e → m = Raise e ∨ ∃ a, m = Ok a ∧ f a = Raise e.
Proof. destruct m; simpl; naive_solver. Qed.

Lemma result_bind_assoc {E A B C} (m : result E A) (f : A → result E B)
    (g : B → result E C) :
  (y ← (x ← m; f x); g y) = (x ← m; y ← f x; g y).
Proof. by destruct m. Qed.

Lemma method_bind_assoc {S E A B C} (m : method S E A) (f : A → method S E B)
    (g : B → method S E C) s :
  (y ← (x ← m; f x); g y) s = (x ← m; y ← f x; g y) s.
Proof. unfold mbind, method_bind. by destruct (m s) as [[] ?]. Qed.

Lemma for_each_app {S E A} (body : A → method S E unit) l1 l2 s :
  for_each body (l1 ++ l2) s = (_ ← for_each body l1; for_each body l2) s.
Proof.
  revert s. induction l1 as [|x l1 IH]; intros s; [done|].
  cbn [for_each app]. unfold mbind, method_bind in *.
  destruct (body x s) as [[] s']; [apply IH | done].
Qed.

(** Invert a successful [result] computation step by step. *)
Ltac inv_ok H :=
  match type of H with
  | (mbind _ _) = Ok _ =>
      let a := fresh "v" in let Ha := fresh "Hv" in
      apply bind_ok in H as (a & Ha & H); inv_ok H
  | _ => idtac
  end.

(** *** Lists *)

Lemma drop_app_cons {A} (l k : list A) : drop (length l) (l ++ k) = k.
Proof. apply drop_app_length. Qed.

Lemma length_Z_nonneg {A} (l : list A) : 0 <= Z.of_nat (length l).
Proof. lia. Qed.
#[export] Hint Resolve length_Z_nonneg : walbox.

(** *** Filters *)

Lemma filter_all {A} (P : A → Prop) `{∀ x, Decision (P x)} (l : list A) :
  (∀ x, x ∈ l → P x) → filter P l = l.
Proof.
  induction l as [|x l IH]; intros Hl; [done|].
  rewrite filter_cons_True by (apply Hl, list_elem_of_here). f_equal.
  apply IH. intros y Hy. apply Hl. by apply list_elem_of_further.
Qed.

Lemma filter_none {A} (P : A → Prop) `{∀ x, Decision (P x)} (l : list A) :
  (∀ x, x ∈ l → ¬ P x) → filter P l = [].
Proof.
  induction l as [|x l IH]; intros Hl; [done|].
  rewrite filter_cons_False by (apply Hl, list_elem_of_here).
  apply IH. intros y Hy. apply Hl. by apply list_elem_of_further.
Qed.

Lemma filter_sublist {A} (P : A → Prop) `{!∀ x, Decision (P x)} (l k : list A) :
  l `sublist_of` k → filter P l `sublist_of` filter P k.
Proof.
  induction 1 as [|x l k _ IH|x l k _ IH]; [done|..]; rewrite ?filter_cons;
    case_decide; try done; by constructor.
Qed.
