(* ===== verification/PyStr.v ===== *)
(** Python string formatting used by the messages of the program: decimal
    and hexadecimal integers, [repr] of [bytes] and of [str], and
    [bytes.decode] with [errors="replace"] of a single byte. *)
From stdpp Require Import base tactics list numbers strings.
From Stdlib Require Import DecimalString DecimalZ Strings.Byte.
From S2P Require Import Prelude.

(** [str(n)], and [f"{n}"] of an integer. *)
Definition str_of_int (z : Z) : pystr := lit (NilZero.string_of_int (Z.to_int z)).

(** The upper-case hexadecimal digit of [0 <= d < 16]. *)
Definition hex_digit_upper (d : Z) : Z := if d <? 10 then 48 + d else 55 + d.

(** The lower-case hexadecimal digit of [0 <= d < 16]. *)
Definition hex_digit_lower (d : Z) : Z := if d <? 10 then 48 + d else 87 + d.

(** [n] lower-case hexadecimal digits of [z], most significant first. *)
Fixpoint hex_lower (n : nat) (z : Z) : pystr :=
  match n with
  | O => []
  | S n' => hex_lower n' (z / 16) ++ [hex_digit_lower (z mod 16)]
  end.

(** [repr] quotes with a single quote (39) unless the value has one and no
    double quote (34). *)
Definition repr_quote (s : list Z) : Z :=
  if bool_decide (39 ∈ s) && negb (bool_decide (34 ∈ s)) then 34 else 39.

(** The escapes [repr] uses for the ASCII range, shared by [str] and [bytes];
    [None] when the code point is outside printable ASCII. *)
Definition repr_ascii (quote c : Z) : option pystr :=
  if (c =? quote) || (c =? 92) then Some [92; c]
  else if c =? 9 then Some (lit "\t")
  else if c =? 10 then Some (lit "\n")
  else if c =? 13 then Some (lit "\r")
  else if (c <? 32) || (127 <=? c) then None
  else Some [c].

Definition repr_byte (quote c : Z) : pystr :=
  default (lit "\x" ++ hex_lower 2 c) (repr_ascii quote c).

(** [repr(b)] of a bytes value. *)
Definition repr_bytes (b : bytes) : pystr :=
  let codes := b2z <$> b in
  let quote := repr_quote codes in
  lit "b" ++ [quote] ++ mjoin (repr_byte quote <$> codes) ++ [quote].

Section repr_str.
(** [str.isprintable] of a code point above 127, from the Unicode
    character database of the interpreter. *)
Context (isprintable : Z → bool).

Definition repr_char (quote c : Z) : pystr :=
  match repr_ascii quote c with
  | Some s => s
  | None =>
      if (127 <? c) && isprintable c then [c]
      else if c <=? 255 then lit "\x" ++ hex_lower 2 c
      else if c <=? 65535 then lit "\u" ++ hex_lower 4 c
      else lit "\U" ++ hex_lower 8 c
  end.

(** [repr(s)] of a string. *)
Definition repr_str (s : pystr) : pystr :=
  let quote := repr_quote s in
  [quote] ++ mjoin (repr_char quote <$> s) ++ [quote].
End repr_str.

(** [b.decode(errors="replace")] where [b] has at most one byte: a byte that
    is not ASCII cannot be a whole UTF-8 sequence and becomes U+FFFD. *)
Definition decode_replace (b : bytes) : pystr :=
  (λ c, if b2z c <? 128 then b2z c else 65533) <$> b.

Example str_of_int_ex : str_of_int (-120) = lit "-120".
Proof. reflexivity. Qed.

