(* ===== verification/Errors.v ===== *)
(** The exceptions of the program ([walbox/errors.py]): the [ErrorContext]
    bundle, the [WalboxError] hierarchy with [enrich] and [__str__], and the
    built-in Python exceptions that the other components let escape. *)
From stdpp Require Import base tactics list numbers strings.
From S2P Require Import Prelude PyStr.

(** ** [ErrorContext] *)

Record ErrorContext := mkErrorContext {
  ec_slot : option pystr;
  ec_publication : option pystr;
  ec_lsn : option Z;
  ec_xid : option Z;
  ec_relation : option pystr;
  ec_message_type : option pystr;
}.

(** [ErrorContext()]: every field defaults to [None]. *)
Definition no_context : ErrorContext := mkErrorContext None None None None None None.

(** The keyword forms the raise sites use. *)
Definition ctx_message_type (m : string) : ErrorContext :=
  mkErrorContext None None None None None (Some (lit m)).
Definition ctx_message_type_str (m : pystr) : ErrorContext :=
  mkErrorContext None None None None None (Some m).
Definition ctx_xid (x : Z) : ErrorContext :=
  mkErrorContext None None None (Some x) None None.
Definition ctx_xid_lsn (x l : Z) : ErrorContext :=
  mkErrorContext None None (Some l) (Some x) None None.
Definition ctx_slot (s : pystr) : ErrorContext :=
  mkErrorContext (Some s) None None None None None.

#[global] Instance ErrorContext_eq_dec : EqDecision ErrorContext.
Proof. solve_decision. Defined.

(** ** The hierarchy *)

Inductive walbox_class :=
| cWalboxError
| cProtocolError
| cDecodeError
| cReplicationConnectionError
| cCheckpointError.

#[global] Instance walbox_class_eq_dec : EqDecision walbox_class.
Proof. solve_decision. Defined.

Record WalboxError := mkWalboxError {
  we_class : walbox_class;
  we_message : pystr;
  we_context : ErrorContext;
}.

#[global] Instance WalboxError_eq_dec : EqDecision WalboxError.
Proof. solve_decision. Defined.

(** [WalboxError.__init__]: a missing context is an empty one. *)
Definition WalboxError_init (cls : walbox_class) (m : pystr)
    (ctx : option ErrorContext) : WalboxError :=
  mkWalboxError cls m (default no_context ctx).

(** Every exception the modelled code raises or lets through. *)
Inductive exn :=
| Walbox (e : WalboxError)
| ValueError (m : pystr)
| UnicodeDecodeError
| IndexError
| KeyError
| OverflowError
| AssertionError
| QueueShutDown
| QueueFull
| CancelledError
| OperationalError (m : pystr)
| ProgrammingError (m : pystr)
| TypeError
| AttributeError
| ZeroDivisionError
| HandlerError (tag : Z).

#[global] Instance exn_eq_dec : EqDecision exn.
Proof. solve_decision. Defined.

Definition ProtocolError (m : pystr) (ctx : ErrorContext) : exn :=
  Walbox (WalboxError_init cProtocolError m (Some ctx)).
Definition ProtocolError0 (m : pystr) : exn :=
  Walbox (WalboxError_init cProtocolError m None).
Definition DecodeError (m : pystr) (ctx : ErrorContext) : exn :=
  Walbox (WalboxError_init cDecodeError m (Some ctx)).
Definition ReplicationConnectionError (m : pystr) (ctx : ErrorContext) : exn :=
  Walbox (WalboxError_init cReplicationConnectionError m (Some ctx)).
Definition CheckpointError (m : pystr) : exn :=
  Walbox (WalboxError_init cCheckpointError m None).

(** [issubclass]: every class of the hierarchy derives from [WalboxError]
    directly. *)
Definition issubclass (c d : walbox_class) : bool :=
  bool_decide (c = d) || bool_decide (d = cWalboxError).

(** [isinstance(e, C)], the test of an [except C] clause. *)
Definition isinstance (e : exn) (c : walbox_class) : bool :=
  match e with
  | Walbox w => issubclass (we_class w) c
  | _ => false
  end.

(** Outcomes of functions of the program. *)
Abbreviation py := (result exn).

(** ** [WalboxError.enrich] *)

(** [a if a is not None else b] *)
Definition or_else {A} (a b : option A) : option A :=
  match a with Some _ => a | None => b end.

Definition enrich_context (new old : ErrorContext) : ErrorContext :=
  mkErrorContext
    (or_else (ec_slot new) (ec_slot old))
    (or_else (ec_publication new) (ec_publication old))
    (or_else (ec_lsn new) (ec_lsn old))
    (or_else (ec_xid new) (ec_xid old))
    (or_else (ec_relation new) (ec_relation old))
    (or_else (ec_message_type new) (ec_message_type old)).

(** [enrich] mutates the exception in place; its keyword arguments are the
    fields of [kwargs]. *)
Definition enrich (kwargs : ErrorContext) : method WalboxError exn unit :=
  modify_self (λ self,
    mkWalboxError (we_class self) (we_message self)
      (enrich_context kwargs (we_context self))).

(** ** [WalboxError.__str__] *)

Section str.
Context (isprintable : Z → bool).

(** One [name=value!r] pair, absent when the value is [None]. *)
Definition str_field (name : string) (v : option pystr) : list pystr :=
  match v with
  | Some s => [lit name ++ lit "=" ++ repr_str isprintable s]
  | None => []
  end.

Definition int_field (name : string) (v : option Z) : list pystr :=
  match v with
  | Some n => [lit name ++ lit "=" ++ str_of_int n]
  | None => []
  end.

(** [", ".join(parts)] *)
Fixpoint join_comma (parts : list pystr) : pystr :=
  match parts with
  | [] => []
  | [p] => p
  | p :: rest => p ++ lit ", " ++ join_comma rest
  end.

Definition _render_context (c : ErrorContext) : pystr :=
  let fields :=
    str_field "slot" (ec_slot c) ++
    str_field "publication" (ec_publication c) ++
    int_field "lsn" (ec_lsn c) ++
    int_field "xid" (ec_xid c) ++
    str_field "relation" (ec_relation c) ++
    str_field "message_type" (ec_message_type c) in
  match fields with
  | [] => []
  | _ => lit " [" ++ join_comma fields ++ lit "]"
  end.

Definition WalboxError_str (e : WalboxError) : pystr :=
  let rendered := _render_context (we_context e) in
  match rendered with
  | [] => we_message e
  | _ => we_message e ++ rendered
  end.
End str.

(** ** Lemmas *)

Lemma or_else_assoc {A} (a b c : option A) :
  or_else (or_else a b) c = or_else a (or_else b c).
Proof. by destruct a. Qed.

Lemma or_else_None_r {A} (a : option A) : or_else a None = a.
Proof. by destruct a. Qed.

#[export] Hint Rewrite @or_else_assoc @or_else_None_r : walbox.

Lemma enrich_run kwargs e :
  enrich kwargs e =
  (Ok tt, mkWalboxError (we_class e) (we_message e)
            (enrich_context kwargs (we_context e))).
Proof. reflexivity. Qed.

Lemma enrich_context_assoc a b c :
  enrich_context (enrich_context a b) c = enrich_context a (enrich_context b c).
Proof. unfold enrich_context; simpl. by rewrite !or_else_assoc. Qed.

Lemma enrich_context_id_l c : enrich_context no_context c = c.
Proof. by destruct c. Qed.

Lemma enrich_context_idemp c : enrich_context c c = c.
Proof. destruct c as [[] [] [] [] [] []]; reflexivity. Qed.

Lemma enrich_context_id_r c : enrich_context c no_context = c.
Proof. unfold enrich_context; simpl. rewrite !or_else_None_r. by destruct c. Qed.

Lemma join_comma_cons p q rest :
  join_comma (p :: q :: rest) = p ++ lit ", " ++ join_comma (q :: rest).
Proof. reflexivity. Qed.

Lemma render_context_nil isprintable c :
  _render_context isprintable c = [] ↔ c = no_context.
Proof.
  split; [|by intros ->].
  unfold _render_context, str_field, int_field.
  destruct c as [[] [] [] [] [] []]; simpl; done.
Qed.

Lemma walbox_str_no_context isprintable cls m :
  WalboxError_str isprintable (WalboxError_init cls m None) = m.
Proof. reflexivity. Qed.

Lemma walbox_str_context isprintable e :
  WalboxError_str isprintable e = we_message e ++ _render_context isprintable (we_context e).
Proof.
  unfold WalboxError_str. destruct (_render_context _ _) eqn:E; [|done].
  by rewrite app_nil_r.
Qed.

Lemma isinstance_base e c :
  isinstance e c = true → isinstance e cWalboxError = true.
Proof.
  destruct e; simpl; try done. unfold issubclass. intros _.
  apply orb_true_iff. right. by apply bool_decide_eq_true.
Qed.

(** ** Properties *)

(** Enriching an error layer by layer is the same as enriching it once with
    the merged fields, the outermost layer winning; it never loses the class, the
    message or a field already set, and enriching with nothing, or twice with the
    same fields, changes nothing more. *)
Theorem enrich_merges e inner outer :
  let after k e := snd (enrich k e) in
  after outer (after inner e) = after (enrich_context outer inner) e ∧
  after inner (after inner e) = after inner e ∧
  after no_context e = e ∧
  we_class (after outer e) = we_class e ∧ we_message (after outer e) = we_message e ∧
  (is_Some (ec_lsn (we_context e)) → is_Some (ec_lsn (we_context (after outer e)))) ∧
  (is_Some (ec_xid (we_context e)) → is_Some (ec_xid (we_context (after outer e)))) ∧
  (is_Some (ec_slot (we_context e)) → is_Some (ec_slot (we_context (after outer e)))).
Proof.
  cbv zeta beta. rewrite !enrich_run. cbn [snd we_class we_message we_context].
  rewrite <- !enrich_context_assoc, enrich_context_idemp, enrich_context_id_l.
  split; [done|]. split; [done|]. split; [by destruct e|]. split; [done|]. split; [done|].
  unfold enrich_context; cbn. unfold or_else.
  split_and!; intros [x Hx]; rewrite Hx; case_step; by eexists.
Qed.

(** [str] of an error is its message followed by the fields that are set, in
    brackets; there are no brackets exactly when no field is set, and the text
    always starts with the message. *)
Theorem str_shows_context isprintable e :
  WalboxError_str isprintable e = we_message e ++ _render_context isprintable (we_context e) ∧
  (WalboxError_str isprintable e = we_message e ↔ we_context e = no_context).
Proof.
  rewrite walbox_str_context. split; [done|]. rewrite <- (render_context_nil isprintable).
  split; [|by intros ->; rewrite app_nil_r].
  intros H. apply (app_inv_head (we_message e)). by rewrite H, app_nil_r.
Qed.
