(* ===== verification/PyBytes.v ===== *)
(** The operations on Python [bytes] the decoders and encoders use: slices,
    indexing, [bytes.index], [int.from_bytes] and [int.to_bytes] in
    big-endian order, and strict UTF-8 decoding; with the cursor lemmas that
    let a decoder that walks an offset over a buffer be verified field by
    field. *)
From stdpp Require Import base tactics list numbers strings.
From Stdlib Require Import Strings.Byte.
From S2P Require Import Prelude PyStr Errors.

(** ** Slices and indexing *)

(** A slice bound: a negative one counts from the end, both are clamped. *)
Definition slice_bound (n i : Z) : Z :=
  if i <? 0 then Z.max 0 (n + i) else Z.min i n.

(** [buf[a:b]] *)
Definition py_slice (buf : bytes) (a b : Z) : bytes :=
  let n := Z.of_nat (length buf) in
  let a' := slice_bound n a in
  let b' := slice_bound n b in
  take (Z.to_nat (b' - a')) (drop (Z.to_nat a') buf).

(** [buf[a:]] *)
Definition py_slice_from (buf : bytes) (a : Z) : bytes :=
  py_slice buf a (Z.of_nat (length buf)).

(** [len(buf)] *)
Definition py_len {A} (buf : list A) : Z := Z.of_nat (length buf).

(** [buf[i]]: an integer in [0, 256), or [IndexError]. *)
Definition py_index (buf : bytes) (i : Z) : py Z :=
  let j := if i <? 0 then py_len buf + i else i in
  if (j <? 0) || (py_len buf <=? j) then Raise IndexError
  else match buf !! Z.to_nat j with
       | Some b => Ok (b2z b)
       | None => Raise IndexError
       end.

(** The position of the first zero byte of [l], counted from [i]. *)
Fixpoint find_zero (l : bytes) (i : Z) : option Z :=
  match l with
  | [] => None
  | b :: l' => if b2z b =? 0 then Some i else find_zero l' (i + 1)
  end.

(** [buf.index(b"\x00", offset)] *)
Definition py_index_zero (buf : bytes) (offset : Z) : py Z :=
  match find_zero (py_slice_from buf offset) (slice_bound (py_len buf) offset) with
  | Some i => Ok i
  | None => Raise (ValueError (lit "subsection not found"))
  end.

(** ** Integers *)

(** [int.from_bytes(b, "big")] *)
Definition from_bytes_big (b : bytes) : Z :=
  fold_left (λ acc x, acc * 256 + b2z x) b 0.

(** [int.from_bytes(b, "big", signed=True)]: two's complement. *)
Definition from_bytes_big_signed (b : bytes) : Z :=
  let n := from_bytes_big b in
  match b with
  | [] => 0
  | x :: _ => if b2z x <? 128 then n else n - 256 ^ py_len b
  end.

(** [n] big-endian bytes of [z] modulo [256 ^ n]. *)
Fixpoint be_bytes (n : nat) (z : Z) : bytes :=
  match n with
  | O => []
  | S n' => be_bytes n' (z / 256) ++ [z2b z]
  end.

(** [z.to_bytes(n, "big")] *)
Definition to_bytes_big (n : nat) (z : Z) : py bytes :=
  if (z <? 0) || (256 ^ Z.of_nat n <=? z) then Raise OverflowError
  else Ok (be_bytes n z).

(** ** UTF-8 *)

(** A continuation byte, [10xxxxxx]. *)
Definition is_cont (b : byte) : bool := (128 <=? b2z b) && (b2z b <? 192).

(** The second byte allowed after a leading byte: the exceptions exclude
    overlong forms, surrogates and code points above U+10FFFF. *)
Definition second_ok (b0 b1 : byte) : bool :=
  let c0 := b2z b0 in let c1 := b2z b1 in
  if c0 =? 224 then (160 <=? c1) && (c1 <? 192)
  else if c0 =? 237 then (128 <=? c1) && (c1 <? 160)
  else if c0 =? 240 then (144 <=? c1) && (c1 <? 192)
  else if c0 =? 244 then (128 <=? c1) && (c1 <? 144)
  else is_cont b1.

(** [b.decode("utf-8")], strict: [None] stands for [UnicodeDecodeError]. *)
Fixpoint utf8_decode_opt (l : bytes) : option pystr :=
  match l with
  | [] => Some []
  | b0 :: l0 =>
      let c0 := b2z b0 in
      if c0 <? 128 then cons c0 <$> utf8_decode_opt l0
      else if c0 <? 194 then None
      else match l0 with
      | [] => None
      | b1 :: l1 =>
          let c1 := b2z b1 - 128 in
          if c0 <? 224 then
            if is_cont b1
            then cons ((c0 - 192) * 64 + c1) <$> utf8_decode_opt l1
            else None
          else match l1 with
          | [] => None
          | b2 :: l2 =>
              let c2 := b2z b2 - 128 in
              if c0 <? 240 then
                if second_ok b0 b1 && is_cont b2
                then cons ((c0 - 224) * 4096 + c1 * 64 + c2) <$> utf8_decode_opt l2
                else None
              else match l2 with
              | [] => None
              | b3 :: l3 =>
                  let c3 := b2z b3 - 128 in
                  if (c0 <? 245) && second_ok b0 b1 && is_cont b2 && is_cont b3
                  then cons ((c0 - 240) * 262144 + c1 * 4096 + c2 * 64 + c3)
                         <$> utf8_decode_opt l3
                  else None
              end
          end
      end
  end.

Definition utf8_decode (l : bytes) : py pystr :=
  match utf8_decode_opt l with
  | Some s => Ok s
  | None => Raise UnicodeDecodeError
  end.

(** [b.decode("utf-8", errors="replace")]: each maximal prefix of a character
    that cannot be completed becomes one U+FFFD. *)
Fixpoint utf8_decode_replace (l : bytes) : pystr :=
  match l with
  | [] => []
  | b0 :: l0 =>
      let c0 := b2z b0 in
      if c0 <? 128 then c0 :: utf8_decode_replace l0
      else if (c0 <? 194) || (245 <=? c0) then 65533 :: utf8_decode_replace l0
      else match l0 with
      | [] => [65533]
      | b1 :: l1 =>
          let c1 := b2z b1 - 128 in
          if negb (second_ok b0 b1) then 65533 :: utf8_decode_replace l0
          else if c0 <? 224 then ((c0 - 192) * 64 + c1) :: utf8_decode_replace l1
          else match l1 with
          | [] => [65533]
          | b2 :: l2 =>
              let c2 := b2z b2 - 128 in
              if negb (is_cont b2) then 65533 :: utf8_decode_replace l1
              else if c0 <? 240 then
                ((c0 - 224) * 4096 + c1 * 64 + c2) :: utf8_decode_replace l2
              else match l2 with
              | [] => [65533]
              | b3 :: l3 =>
                  if negb (is_cont b3) then 65533 :: utf8_decode_replace l2
                  else ((c0 - 240) * 262144 + c1 * 4096 + c2 * 64 + (b2z b3 - 128))
                         :: utf8_decode_replace l3
              end
          end
      end
  end.

(** [s.encode()], for code points that are Unicode scalar values. *)
Definition utf8_char (c : Z) : bytes :=
  if c <? 128 then [z2b c]
  else if c <? 2048 then [z2b (192 + c / 64); z2b (128 + c mod 64)]
  else if c <? 65536 then
    [z2b (224 + c / 4096); z2b (128 + c / 64 mod 64); z2b (128 + c mod 64)]
  else
    [z2b (240 + c / 262144); z2b (128 + c / 4096 mod 64);
     z2b (128 + c / 64 mod 64); z2b (128 + c mod 64)].

Definition utf8_encode (s : pystr) : bytes := mjoin (utf8_char <$> s).

(** A Unicode scalar value. *)
Definition is_scalar (c : Z) : bool :=
  (0 <=? c) && (c <? 55296) || (57344 <=? c) && (c <? 1114112).

(** A string PostgreSQL can send: scalar values other than U+0000. *)
Definition is_text (s : pystr) : bool :=
  forallb is_scalar s.
Definition is_cstring (s : pystr) : bool :=
  forallb (λ c, is_scalar c && negb (c =? 0)) s.

(** ** The cursor

    [at_off buf off rest] says that [rest] is what is left of [buf] from the
    offset [off] on. *)
Definition at_off (buf : bytes) (off : Z) (rest : bytes) : Prop :=
  ∃ pre, buf = pre ++ rest ∧ off = py_len pre.

Lemma py_len_app {A} (x y : list A) : py_len (x ++ y) = py_len x + py_len y.
Proof. unfold py_len. rewrite length_app. lia. Qed.

Lemma py_len_cons {A} (x : A) (y : list A) : py_len (x :: y) = 1 + py_len y.
Proof. unfold py_len. cbn [length]. lia. Qed.

Lemma py_len_nil {A} : py_len (@nil A) = 0.
Proof. reflexivity. Qed.

Lemma py_len_nonneg {A} (x : list A) : 0 <= py_len x.
Proof. unfold py_len. lia. Qed.

#[export] Hint Resolve py_len_nonneg : walbox.
#[export] Hint Rewrite @py_len_app @py_len_cons @py_len_nil : walbox.

Lemma slice_bound_id n i : 0 <= i <= n → slice_bound n i = i.
Proof. intros. unfold slice_bound. case_step; zbool; lia. Qed.

Lemma slice_bound_clamp n i : 0 <= i → slice_bound n i = Z.min i n.
Proof. intros. unfold slice_bound. case_step; zbool; lia. Qed.

Lemma at_off_0 buf : at_off buf 0 buf.
Proof. by exists []. Qed.

Lemma at_off_step buf off x rest n :
  at_off buf off (x ++ rest) → n = py_len x → at_off buf (off + n) rest.
Proof.
  intros (pre & -> & ->) ->. exists (pre ++ x). split; [by rewrite app_assoc|].
  by rewrite py_len_app.
Qed.

Lemma at_off_cons buf off b rest :
  at_off buf off (b :: rest) → at_off buf (off + 1) rest.
Proof. intros H. by apply (at_off_step _ _ [b]). Qed.

(** A slice that starts at the cursor, even past the end of the buffer. *)
Lemma slice_at_take buf off rest n :
  at_off buf off rest → 0 <= n → py_slice buf off (off + n) = take (Z.to_nat n) rest.
Proof.
  intros (pre & -> & ->) Hn. unfold py_slice.
  rewrite !slice_bound_clamp by (pose proof (py_len_nonneg pre); lia).
  rewrite length_app, Nat2Z.inj_add. unfold py_len.
  rewrite (Z.min_l (Z.of_nat (length pre))) by lia. rewrite Nat2Z.id, drop_app_length.
  destruct (decide (n <= Z.of_nat (length rest))).
  - f_equal. lia.
  - rewrite !take_ge; [done|lia..].
Qed.

Lemma slice_at buf off x rest n :
  at_off buf off (x ++ rest) → n = py_len x → py_slice buf off (off + n) = x.
Proof.
  intros H ->. rewrite (slice_at_take _ _ (x ++ rest)); [|done|apply py_len_nonneg].
  unfold py_len. rewrite Nat2Z.id. apply take_app_length.
Qed.

Lemma slice_at_cons buf off b rest :
  at_off buf off (b :: rest) → py_slice buf off (off + 1) = [b].
Proof. intros H. by apply (slice_at _ _ [b] rest). Qed.

Lemma slice_from_at buf off rest : at_off buf off rest → py_slice_from buf off = rest.
Proof.
  intros (pre & -> & ->). unfold py_slice_from.
  replace (Z.of_nat (length (pre ++ rest))) with (py_len pre + py_len rest)
    by (unfold py_len; rewrite length_app; lia).
  apply (slice_at _ _ rest []); [|done]. exists pre. by rewrite app_nil_r.
Qed.

Lemma py_index_lookup buf i :
  0 <= i →
  py_index buf i =
  match buf !! Z.to_nat i with Some b => Ok (b2z b) | None => Raise IndexError end.
Proof.
  intros Hi. unfold py_index, py_len. cbn zeta.
  rewrite (proj2 (Z.ltb_ge i 0)) by lia. cbn match.
  rewrite (proj2 (Z.ltb_ge i 0)) by lia. simpl.
  destruct (buf !! Z.to_nat i) eqn:E.
  - apply lookup_lt_Some in E. by rewrite (proj2 (Z.leb_gt _ _)) by lia.
  - by case_step.
Qed.

Lemma index_at buf off b rest :
  at_off buf off (b :: rest) → py_index buf off = Ok (b2z b).
Proof.
  intros (pre & -> & ->). rewrite py_index_lookup by apply py_len_nonneg.
  unfold py_len. by rewrite Nat2Z.id, list_lookup_middle.
Qed.

Lemma index_at_end buf off : at_off buf off [] → py_index buf off = Raise IndexError.
Proof.
  intros (pre & -> & ->). rewrite app_nil_r, py_index_lookup by apply py_len_nonneg.
  unfold py_len. rewrite Nat2Z.id. by rewrite lookup_ge_None_2.
Qed.

Definition no_zero (x : bytes) : bool := forallb (λ b, negb (b2z b =? 0)) x.

Lemma find_zero_app x rest i :
  no_zero x = true → find_zero (x ++ x00 :: rest) i = Some (i + py_len x).
Proof.
  revert i. induction x as [|b x IH]; intros i; simpl.
  - intros _. f_equal. rewrite py_len_nil. lia.
  - intros H. zbool. destruct (b2z b =? 0) eqn:E; [by zbool|].
    rewrite IH by done. f_equal. rewrite py_len_cons. lia.
Qed.

Lemma find_zero_none x i : no_zero x = true → find_zero x i = None.
Proof.
  revert i. induction x as [|b x IH]; intros i; simpl; [done|].
  intros H. zbool. destruct (b2z b =? 0) eqn:E; [by zbool|]. by apply IH.
Qed.

Lemma index_zero_at buf off x rest :
  at_off buf off (x ++ x00 :: rest) → no_zero x = true →
  py_index_zero buf off = Ok (off + py_len x).
Proof.
  intros H Hx. unfold py_index_zero. rewrite (slice_from_at _ _ _ H).
  destruct H as (pre & -> & ->).
  rewrite slice_bound_id by (rewrite py_len_app; split;
    [apply py_len_nonneg | pose proof (py_len_nonneg (x ++ x00 :: rest)); lia]).
  by rewrite find_zero_app.
Qed.

Lemma index_zero_none buf off rest :
  at_off buf off rest → no_zero rest = true →
  py_index_zero buf off = Raise (ValueError (lit "subsection not found")).
Proof.
  intros H Hr. unfold py_index_zero. rewrite (slice_from_at _ _ _ H).
  by rewrite find_zero_none.
Qed.

(** *** Integers *)

Lemma from_bytes_big_snoc l b :
  from_bytes_big (l ++ [b]) = from_bytes_big l * 256 + b2z b.
Proof. unfold from_bytes_big. by rewrite fold_left_app. Qed.

Lemma py_len_snoc {A} (l : list A) b : py_len (l ++ [b]) = py_len l + 1.
Proof. rewrite py_len_app, py_len_cons, py_len_nil. lia. Qed.

Lemma from_bytes_big_range l : 0 <= from_bytes_big l < 256 ^ py_len l.
Proof.
  induction l as [|b l IH] using rev_ind; [done|].
  rewrite from_bytes_big_snoc, py_len_snoc.
  rewrite Z.pow_add_r by (pose proof (py_len_nonneg l); lia).
  pose proof (b2z_range b). lia.
Qed.

Lemma length_be_bytes n z : length (be_bytes n z) = n.
Proof.
  revert z. induction n as [|n IH]; intros z; [done|].
  cbn [be_bytes]. rewrite length_app, IH. simpl. lia.
Qed.

Lemma py_len_be_bytes n z : py_len (be_bytes n z) = Z.of_nat n.
Proof. unfold py_len. by rewrite length_be_bytes. Qed.
#[export] Hint Rewrite py_len_be_bytes length_be_bytes : walbox.

Lemma from_be_bytes n z : from_bytes_big (be_bytes n z) = z mod 256 ^ Z.of_nat n.
Proof.
  revert z. induction n as [|n IH]; intros z.
  - simpl. by rewrite Z.mod_1_r.
  - cbn [be_bytes]. rewrite from_bytes_big_snoc, IH, b2z_z2b.
    rewrite Nat2Z.inj_succ, Z.pow_succ_r by lia.
    rewrite (Z.rem_mul_r z 256 (256 ^ Z.of_nat n)) by lia. lia.
Qed.

Lemma from_be_bytes_small n z :
  0 <= z < 256 ^ Z.of_nat n → from_bytes_big (be_bytes n z) = z.
Proof. intros. rewrite from_be_bytes. by apply Z.mod_small. Qed.

Lemma be_bytes_from l : be_bytes (length l) (from_bytes_big l) = l.
Proof.
  induction l as [|b l IH] using rev_ind; [done|].
  rewrite length_app, Nat.add_1_r. cbn [be_bytes].
  rewrite from_bytes_big_snoc. pose proof (b2z_range b).
  rewrite Z.div_add_l, (Z.div_small (b2z b)), Z.add_0_r by lia.
  rewrite IH. f_equal. f_equal. apply b2z_inj.
  rewrite b2z_z2b, Z.add_comm, Z.mod_add by lia. by apply Z.mod_small.
Qed.

Lemma be_bytes_from_len l n : n = length l → be_bytes n (from_bytes_big l) = l.
Proof. intros ->. apply be_bytes_from. Qed.

Lemma to_bytes_big_ok n z :
  0 <= z < 256 ^ Z.of_nat n → to_bytes_big n z = Ok (be_bytes n z).
Proof. intros. unfold to_bytes_big. case_step; zbool; [lia|done]. Qed.

Lemma to_bytes_big_overflow n z :
  z < 0 ∨ 256 ^ Z.of_nat n <= z → to_bytes_big n z = Raise OverflowError.
Proof. intros. unfold to_bytes_big. case_step; zbool; [done|lia]. Qed.

Lemma from_bytes_big_cons x l :
  from_bytes_big (x :: l) = b2z x * 256 ^ py_len l + from_bytes_big l.
Proof.
  induction l as [|b l IH] using rev_ind; [rewrite py_len_nil; unfold from_bytes_big; simpl; lia|].
  rewrite app_comm_cons, !from_bytes_big_snoc, IH, py_len_snoc.
  rewrite Z.pow_add_r by (pose proof (py_len_nonneg l); lia).
  lia.
Qed.

(** The two's complement reading of what a signed field carries. *)
Lemma from_be_bytes_signed n z :
  - (128 * 256 ^ Z.of_nat n) <= z < 128 * 256 ^ Z.of_nat n →
  from_bytes_big_signed (be_bytes (S n) z) = z.
Proof.
  intros Hz. unfold from_bytes_big_signed. pose proof (from_be_bytes (S n) z) as Hf.
  pose proof (py_len_be_bytes (S n) z) as Hl.
  destruct (be_bytes (S n) z) as [|x l] eqn:E; [by rewrite py_len_nil in Hl|].
  rewrite Hl. rewrite py_len_cons in Hl. rewrite Nat2Z.inj_succ, Z.pow_succ_r in * by lia.
  pose proof (from_bytes_big_range l) as Hr.
  rewrite from_bytes_big_cons in *. replace (py_len l) with (Z.of_nat n) in * by lia.
  set (p := 256 ^ Z.of_nat n) in *. assert (0 < p) by (apply Z.pow_pos_nonneg; lia).
  rewrite Hf. destruct (decide (0 <= z)).
  - rewrite Z.mod_small in * by lia. case_step; zbool; [lia|nia].
  - rewrite <- (Z_mod_plus_full z 1), Z.mod_small in * by lia.
    case_step; zbool; [nia|lia].
Qed.

(** *** Fixed layouts *)

Lemma py_len_bs s : py_len (bs s) = Z.of_nat (String.length s).
Proof.
  unfold py_len, bs, String.list_byte_of_string. rewrite List.length_map. f_equal.
  induction s as [|c s IH]; [done|]. simpl. by rewrite IH.
Qed.

Lemma py_len_take {A} (l : list A) n :
  (n <= length l)%nat → py_len (take n l) = Z.of_nat n.
Proof. intros. unfold py_len. rewrite length_take. lia. Qed.

Lemma py_len_drop {A} (l : list A) n : py_len (drop n l) = Z.max 0 (py_len l - Z.of_nat n).
Proof. unfold py_len. rewrite length_drop. lia. Qed.
#[export] Hint Rewrite py_len_bs @py_len_drop : walbox.

(** Compute lengths, then close by linear arithmetic. *)
Ltac len := autorewrite with walbox in *; cbn [String.length] in *; unfold py_len in *; lia.

Lemma py_slice_take_drop buf a b :
  0 <= a <= b → py_slice buf a b = take (Z.to_nat (b - a)) (drop (Z.to_nat a) buf).
Proof.
  intros Hab. destruct (decide (a <= py_len buf)) as [Ha|Ha].
  - replace b with (a + (b - a)) at 1 by lia. apply slice_at_take; [|lia].
    exists (take (Z.to_nat a) buf). rewrite take_drop. split; [done|].
    unfold py_len in *. rewrite length_take. lia.
  - unfold py_slice, py_len in *. rewrite !slice_bound_clamp by lia.
    rewrite !drop_ge by lia. by rewrite !take_nil.
Qed.

Lemma slice_skip x y a b :
  py_len x <= a <= b → py_slice (x ++ y) a b = py_slice y (a - py_len x) (b - py_len x).
Proof.
  intros H. pose proof (py_len_nonneg x). rewrite !py_slice_take_drop by lia.
  rewrite drop_app_ge by (unfold py_len in *; lia). f_equal; [lia|].
  f_equal. unfold py_len. lia.
Qed.

Lemma slice_here x y b : b = py_len x → py_slice (x ++ y) 0 b = x.
Proof. intros ->. apply (slice_at _ 0 x y (py_len x)); [apply at_off_0|done]. Qed.

Lemma slice_whole x b : b = py_len x → py_slice x 0 b = x.
Proof. intros H. rewrite <- (app_nil_r x) at 1. by apply slice_here. Qed.

Lemma slice_from_0 buf : py_slice_from buf 0 = buf.
Proof. apply slice_from_at, at_off_0. Qed.

Lemma slice_from_zero buf a : a = 0 → py_slice_from buf a = buf.
Proof. intros ->. apply slice_from_0. Qed.

Lemma slice_from_skip x y a :
  py_len x <= a → py_slice_from (x ++ y) a = py_slice_from y (a - py_len x).
Proof.
  intros H. pose proof (py_len_nonneg x). unfold py_slice_from.
  replace (Z.of_nat (length (x ++ y))) with (py_len x + py_len y)
    by (unfold py_len; rewrite length_app; lia).
  destruct (decide (a <= py_len x + py_len y)).
  - rewrite slice_skip by lia. f_equal. unfold py_len. lia.
  - unfold py_slice. unfold py_len in *. rewrite !slice_bound_clamp by lia.
    rewrite length_app. rewrite (drop_ge (x ++ y)), (drop_ge y);
      [by rewrite !take_nil|lia|rewrite length_app; lia].
Qed.

Lemma index_skip x y i :
  py_len x <= i → py_index (x ++ y) i = py_index y (i - py_len x).
Proof.
  intros H. pose proof (py_len_nonneg x). rewrite !py_index_lookup by lia.
  rewrite lookup_app_r by (unfold py_len in *; lia).
  replace (Z.to_nat i - length x)%nat with (Z.to_nat (i - py_len x))
    by (unfold py_len in *; lia). done.
Qed.

(** Evaluate slices and indices of a concatenation of fields of known
    lengths. *)
Ltac fields :=
  repeat first
    [ rewrite slice_here by len
    | rewrite slice_whole by len
    | rewrite slice_skip by len
    | rewrite slice_from_zero by len
    | rewrite slice_from_skip by len
    | rewrite index_skip by len ].

(** Reading a field of a buffer of sufficient length and encoding it again
    gives the bytes of the field. *)
Lemma be_field buf a b n :
  0 <= a → b = a + Z.of_nat n → b <= py_len buf →
  be_bytes n (from_bytes_big (py_slice buf a b)) = py_slice buf a b.
Proof.
  intros Ha -> Hb. apply be_bytes_from_len. rewrite py_slice_take_drop by lia.
  rewrite length_take, length_drop. unfold py_len in Hb. lia.
Qed.

(** Adjacent slices rejoin. *)
Lemma slice_join buf a b c :
  0 <= a <= b → b <= c → py_slice buf a b ++ py_slice buf b c = py_slice buf a c.
Proof.
  intros Hab Hbc. rewrite !py_slice_take_drop by lia.
  replace (Z.to_nat (c - a)) with (Z.to_nat (b - a) + Z.to_nat (c - b))%nat by lia.
  rewrite <- take_take_drop, drop_drop. do 3 f_equal. lia.
Qed.

Lemma slice_join_from buf a b :
  0 <= a <= b → b <= py_len buf →
  py_slice buf a b ++ py_slice_from buf b = py_slice_from buf a.
Proof. intros. unfold py_slice_from. apply slice_join; unfold py_len in *; lia. Qed.

Lemma slice_all buf n : n = py_len buf → py_slice buf 0 n = buf.
Proof. apply slice_whole. Qed.

Lemma slice_index buf i :
  0 <= i < py_len buf →
  ∃ b, py_slice buf i (i + 1) = [b] ∧ py_index buf i = Ok (b2z b).
Proof.
  intros Hi. destruct (lookup_lt_is_Some_2 buf (Z.to_nat i)) as [b Hb];
    [unfold py_len in Hi; lia|].
  exists b. rewrite py_index_lookup, Hb by lia. split; [|done].
  rewrite py_slice_take_drop by lia. replace (i + 1 - i) with 1 by lia.
  by rewrite (drop_S _ _ _ Hb).
Qed.

Lemma from_bytes_big_lt buf n m :
  py_len buf = n → m = 256 ^ n → 0 <= from_bytes_big buf < m.
Proof. intros <- ->. apply from_bytes_big_range. Qed.

Lemma py_len_slice buf a b :
  0 <= a <= b → b <= py_len buf → py_len (py_slice buf a b) = b - a.
Proof.
  intros. rewrite py_slice_take_drop by lia. unfold py_len in *.
  rewrite length_take, length_drop. lia.
Qed.

(** *** UTF-8 *)

(** Linear arithmetic with constant division and modulo. *)
Ltac zdiv := Z.to_euclidean_division_equations; lia.

(** Decide every boolean comparison of the goal by [zdiv]. *)
Ltac zcmp :=
  repeat match goal with
  | |- context [?a <? ?b] =>
      first [rewrite (proj2 (Z.ltb_lt a b)) by zdiv | rewrite (proj2 (Z.ltb_ge a b)) by zdiv]
  | |- context [?a <=? ?b] =>
      first [rewrite (proj2 (Z.leb_le a b)) by zdiv | rewrite (proj2 (Z.leb_gt a b)) by zdiv]
  end; cbn [andb orb negb].

Lemma is_cont_tail c : is_cont (z2b (128 + c mod 64)) = true.
Proof. unfold is_cont. rewrite b2z_small by zdiv. by zcmp. Qed.

Lemma second_ok_3 c :
  2048 <= c < 55296 ∨ 57344 <= c < 65536 →
  second_ok (z2b (224 + c / 4096)) (z2b (128 + c / 64 mod 64)) = true.
Proof.
  intros Hc. unfold second_ok, is_cont. rewrite !b2z_small by zdiv.
  repeat case_step; zbool; apply andb_true_iff;
    rewrite ?Z.leb_le, ?Z.ltb_lt; zdiv.
Qed.

Lemma second_ok_4 c :
  65536 <= c < 1114112 →
  second_ok (z2b (240 + c / 262144)) (z2b (128 + c / 4096 mod 64)) = true.
Proof.
  intros Hc. unfold second_ok, is_cont. rewrite !b2z_small by zdiv.
  repeat case_step; zbool; apply andb_true_iff;
    rewrite ?Z.leb_le, ?Z.ltb_lt; zdiv.
Qed.

Lemma utf8_decode_char c l :
  is_scalar c = true →
  utf8_decode_opt (utf8_char c ++ l) = cons c <$> utf8_decode_opt l.
Proof.
  intros Hs. assert (Hc : 0 <= c < 55296 ∨ 57344 <= c < 1114112).
  { unfold is_scalar in Hs. apply orb_true_iff in Hs. destruct Hs; zbool; lia. }
  unfold utf8_char. case_step; zbool; [|case_step; zbool; [|case_step; zbool]];
    cbn [app utf8_decode_opt]; rewrite !b2z_small by zdiv; zcmp.
  - done.
  - rewrite is_cont_tail. do 2 f_equal. zdiv.
  - rewrite second_ok_3, is_cont_tail by lia. cbn [andb]. do 2 f_equal. zdiv.
  - rewrite second_ok_4, !is_cont_tail by lia. cbn [andb]. do 2 f_equal. zdiv.
Qed.

Lemma utf8_encode_cons c s : utf8_encode (c :: s) = utf8_char c ++ utf8_encode s.
Proof. reflexivity. Qed.

Lemma utf8_decode_encode s : is_text s = true → utf8_decode (utf8_encode s) = Ok s.
Proof.
  intros Hs. unfold utf8_decode.
  assert (utf8_decode_opt (utf8_encode s) = Some s) as ->; [|done].
  induction s as [|c s IH]; [done|]. cbn in Hs. zbool.
  rewrite utf8_encode_cons, utf8_decode_char, IH by done. done.
Qed.

Lemma is_cstring_text s : is_cstring s = true → is_text s = true.
Proof.
  unfold is_cstring, is_text. rewrite !forallb_forall. intros H x Hx.
  specialize (H x Hx). by zbool.
Qed.

Lemma utf8_char_no_zero c :
  is_scalar c = true → c ≠ 0 → no_zero (utf8_char c) = true.
Proof.
  intros Hs Hc0. assert (Hc : 0 < c < 1114112).
  { unfold is_scalar in Hs. apply orb_true_iff in Hs. destruct Hs; zbool; lia. }
  unfold utf8_char. repeat case_step; zbool; cbn [no_zero forallb];
    rewrite !b2z_small by zdiv; repeat (apply andb_true_iff; split); try done;
    apply negb_true_iff, Z.eqb_neq; zdiv.
Qed.

Lemma no_zero_app x y : no_zero (x ++ y) = no_zero x && no_zero y.
Proof. apply forallb_app. Qed.

Lemma utf8_encode_no_zero s : is_cstring s = true → no_zero (utf8_encode s) = true.
Proof.
  induction s as [|c s IH]; [done|]. cbn [is_cstring forallb]. intros H. zbool.
  rewrite utf8_encode_cons, no_zero_app, utf8_char_no_zero, IH by done. done.
Qed.

#[export] Hint Resolve utf8_encode_no_zero is_cstring_text : walbox.
