(* ===== verification/PyHash.v ===== *)
(** [hashlib.md5] (RFC 1321) on bytes, as the sharding handler uses it: the digest,
    its hexadecimal text and [int(text, 16)]. *)
From stdpp Require Import base tactics list numbers strings.
From Stdlib Require Import Strings.Byte.
From S2P Require Import Prelude PyStr Errors PyBytes.

(** ** 32-bit words *)

Definition w32 (z : Z) : Z := z mod 4294967296.
Definition not32 (z : Z) : Z := 4294967295 - z.
Definition rotl32 (z n : Z) : Z := Z.lor (w32 (Z.shiftl z n)) (Z.shiftr z (32 - n)).

(** [n] bytes of [z], least significant first. *)
Fixpoint le_bytes (n : nat) (z : Z) : bytes :=
  match n with O => [] | S n' => z2b z :: le_bytes n' (z / 256) end.

Fixpoint from_bytes_little (b : bytes) : Z :=
  match b with [] => 0 | x :: b' => b2z x + 256 * from_bytes_little b' end.

(** ** The compression function *)

Definition md5_K : list Z :=
  [
    0xd76aa478; 0xe8c7b756; 0x242070db; 0xc1bdceee; 0xf57c0faf; 0x4787c62a;
    0xa8304613; 0xfd469501; 0x698098d8; 0x8b44f7af; 0xffff5bb1; 0x895cd7be;
    0x6b901122; 0xfd987193; 0xa679438e; 0x49b40821; 0xf61e2562; 0xc040b340;
    0x265e5a51; 0xe9b6c7aa; 0xd62f105d; 0x02441453; 0xd8a1e681; 0xe7d3fbc8;
    0x21e1cde6; 0xc33707d6; 0xf4d50d87; 0x455a14ed; 0xa9e3e905; 0xfcefa3f8;
    0x676f02d9; 0x8d2a4c8a; 0xfffa3942; 0x8771f681; 0x6d9d6122; 0xfde5380c;
    0xa4beea44; 0x4bdecfa9; 0xf6bb4b60; 0xbebfbc70; 0x289b7ec6; 0xeaa127fa;
    0xd4ef3085; 0x04881d05; 0xd9d4d039; 0xe6db99e5; 0x1fa27cf8; 0xc4ac5665;
    0xf4292244; 0x432aff97; 0xab9423a7; 0xfc93a039; 0x655b59c3; 0x8f0ccc92;
    0xffeff47d; 0x85845dd1; 0x6fa87e4f; 0xfe2ce6e0; 0xa3014314; 0x4e0811a1;
    0xf7537e82; 0xbd3af235; 0x2ad7d2bb; 0xeb86d391].

Definition md5_shifts : list (list Z) :=
  [[7; 12; 17; 22]; [5; 9; 14; 20]; [4; 11; 16; 23]; [6; 10; 15; 21]].

(** Shift of step [i]. *)
Definition md5_shift (i : nat) : Z := (md5_shifts !!! (i / 16)%nat) !!! (i mod 4)%nat.

(** The round function of step [i] and the word of the block it takes. *)
Definition md5_mix (i : nat) (b c d : Z) : Z * nat :=
  match (i / 16)%nat with
  | 0%nat => (Z.lor (Z.land b c) (Z.land (not32 b) d), i)
  | 1%nat => (Z.lor (Z.land d b) (Z.land (not32 d) c), ((5 * i + 1) mod 16)%nat)
  | 2%nat => (Z.lxor b (Z.lxor c d), ((3 * i + 5) mod 16)%nat)
  | _ => (Z.lxor c (Z.lor b (not32 d)), ((7 * i) mod 16)%nat)
  end.

Definition md5_state : Type := Z * Z * Z * Z.

Definition md5_step (words : list Z) (s : md5_state) (i : nat) : md5_state :=
  let '(a, b, c, d) := s in
  let '(f, g) := md5_mix i b c d in
  let f := w32 (f + a + md5_K !!! i + words !!! g) in
  (d, w32 (b + rotl32 f (md5_shift i)), b, c).

Definition md5_block (s : md5_state) (words : list Z) : md5_state :=
  let '(a, b, c, d) := s in
  let '(a', b', c', d') := foldl (md5_step words) s (seq 0 64) in
  (w32 (a + a'), w32 (b + b'), w32 (c + c'), w32 (d + d')).

(** ** Padding and blocks *)

Definition md5_pad (m : bytes) : bytes :=
  m ++ [x80] ++ replicate (Z.to_nat ((55 - py_len m) mod 64)) x00
    ++ le_bytes 8 (8 * py_len m).

(** The 32-bit words of a padded message, sixteen to a block. *)
Fixpoint chunks {A} (fuel n : nat) (l : list A) : list (list A) :=
  match fuel, l with
  | O, _ | _, [] => []
  | S fuel', _ => take n l :: chunks fuel' n (drop n l)
  end.

Definition md5_blocks (m : bytes) : list (list Z) :=
  let words := from_bytes_little <$> chunks (length m) 4 m in
  chunks (length words) 16 words.

Definition md5 (m : bytes) : bytes :=
  let '(a, b, c, d) :=
    foldl md5_block (0x67452301, 0xefcdab89, 0x98badcfe, 0x10325476) (md5_blocks (md5_pad m)) in
  le_bytes 4 a ++ le_bytes 4 b ++ le_bytes 4 c ++ le_bytes 4 d.

(** [hexdigest()]: two lower-case digits for each byte. *)
Definition hexdigest (digest : bytes) : pystr :=
  mjoin ((λ x, [hex_digit_lower (b2z x / 16); hex_digit_lower (b2z x mod 16)]) <$> digest).

(** [int(text, 16)] of lower-case hexadecimal digits. *)
Definition hex_digit_value (c : Z) : Z := if c <? 58 then c - 48 else c - 87.
Definition int_of_hex (text : pystr) : Z := foldl (λ acc c, 16 * acc + hex_digit_value c) 0 text.

(** ** Lemmas *)

Lemma hex_digit_round_trip d : 0 <= d < 16 → hex_digit_value (hex_digit_lower d) = d.
Proof.
  unfold hex_digit_value, hex_digit_lower. intros Hd.
  destruct (d <? 10) eqn:E; zbool.
  - rewrite (proj2 (Z.ltb_lt _ _)); lia.
  - rewrite (proj2 (Z.ltb_ge _ _)); lia.
Qed.

Lemma int_of_hex_acc acc digest :
  foldl (λ acc c, 16 * acc + hex_digit_value c) acc (hexdigest digest)
  = foldl (λ acc x, 256 * acc + b2z x) acc digest.
Proof.
  revert acc. induction digest as [|x digest IH]; intros acc; [done|].
  change (hexdigest (x :: digest)) with
    (hex_digit_lower (b2z x / 16) :: hex_digit_lower (b2z x mod 16) :: hexdigest digest).
  cbn [foldl]. rewrite IH. f_equal. pose proof (b2z_range x).
  pose proof (Z.div_mod (b2z x) 16 ltac:(lia)). pose proof (Z.mod_pos_bound (b2z x) 16 ltac:(lia)).
  rewrite !hex_digit_round_trip; [lia|lia|].
  split; [apply Z.div_pos; lia|apply Z.div_lt_upper_bound; lia].
Qed.

(** The number read back from the text of a digest is the digest's own. *)
Lemma int_of_hexdigest digest :
  int_of_hex (hexdigest digest) = foldl (λ acc x, 256 * acc + b2z x) 0 digest.
Proof. apply int_of_hex_acc. Qed.

Lemma int_of_hex_nonneg digest : 0 <= int_of_hex (hexdigest digest).
Proof.
  rewrite int_of_hexdigest. cut (∀ acc, 0 <= acc → 0 <= foldl (λ acc x, 256 * acc + b2z x) acc digest).
  { intros H. by apply H. }
  induction digest as [|x digest IH]; intros acc Hacc; [done|]. cbn [foldl]. apply IH.
  pose proof (b2z_range x). lia.
Qed.

(** The test suite of RFC 1321, a message of two blocks included. *)
Example md5_rfc1321 :
  (λ m, hexdigest (md5 m)) <$>
    [ []; bs "a"; bs "abc"; bs "message digest"; bs "abcdefghijklmnopqrstuvwxyz";
      bs "ABCDEFGHIJKLMNOPQRSTUVWXYZabcdefghijklmnopqrstuvwxyz0123456789" ]
  = [ lit "d41d8cd98f00b204e9800998ecf8427e"; lit "0cc175b9c0f1b6a831c399e269772661";
      lit "900150983cd24fb0d6963f7d28e17f72"; lit "f96b697d7cb7938d525a2f31aaf161d0";
      lit "c3fcd3d76192e4007dfb496cca67e13b"; lit "d174ab98d277d9f5a5611c2c9f419d9f" ].
Proof. vm_compute. reflexivity. Qed.
