(* ===== verification/PyFloat.v ===== *)
(** Python floats: IEEE 754 binary64 with round-to-nearest-even, on the
    standard library's executable [spec_float], and the lemmas that bound
    the rounding of the divisions and products the program performs. *)
From stdpp Require Import base tactics list numbers strings.
From Stdlib Require Import SpecFloat.
From S2P Require Import Prelude PyStr Errors.

Abbreviation float := spec_float.

(** [float(n)] of an integer. *)
Definition f_of_int (n : Z) : float := binary_normalize 53 1024 n 0 false.

(** [a / b] of integers, [b > 0]: the correctly rounded quotient (the exact
    operands are not rounded first). *)
Definition int_truediv (a : Z) (b : positive) : float :=
  match a with
  | Z0 => S754_zero false
  | Zpos m => SFdiv 53 1024 (S754_finite false m 0) (S754_finite false b 0)
  | Zneg m => SFdiv 53 1024 (S754_finite true m 0) (S754_finite false b 0)
  end.

Definition f_add (a b : float) : float := SFadd 53 1024 a b.
Definition f_sub (a b : float) : float := SFsub 53 1024 a b.
Definition f_mul (a b : float) : float := SFmul 53 1024 a b.

(** [min(a, b)] and [max(a, b)] keep the first argument on a tie. *)
Definition f_min (a b : float) : float := if SFltb b a then b else a.
Definition f_max (a b : float) : float := if SFltb a b then b else a.

(** [int(x)]: truncation towards zero. *)
Definition f_trunc (x : float) : py Z :=
  match x with
  | S754_zero _ => Ok 0
  | S754_infinity _ => Raise OverflowError
  | S754_nan => Raise (ValueError (lit "cannot convert float NaN to integer"))
  | S754_finite s m e =>
      let n := if 0 <=? e then Zpos m * 2 ^ e else Zpos m / 2 ^ (- e) in
      Ok (if s then - n else n)
  end.

Example f_trunc_ex : f_trunc (f_mul (int_truediv 7 2) (f_of_int 3)) = Ok 10.
Proof. reflexivity. Qed.

(** ** Lemmas on rounding *)

Lemma digits2_bounds p :
  2 ^ (Zpos (digits2_pos p) - 1) <= Zpos p < 2 ^ Zpos (digits2_pos p).
Proof.
  induction p as [p IH|p IH|]; cbn [digits2_pos]; [| |done];
    rewrite Pos2Z.inj_succ, Z.pow_succ_r by lia;
    replace (Z.succ (Zpos (digits2_pos p)) - 1) with (Z.succ (Zpos (digits2_pos p) - 1)) by lia;
    rewrite Z.pow_succ_r by lia; lia.
Qed.

(** The number of digits of [z] is where it lies among the powers of two. *)
Lemma zdigits2_eq z d : 0 < d → 2 ^ (d - 1) <= z < 2 ^ d → Zdigits2 z = d.
Proof.
  intros Hd [H1 H2]. assert (0 < z) by (pose proof (Z.pow_pos_nonneg 2 (d - 1)); lia).
  destruct z as [|p|]; try lia. cbn [Zdigits2]. destruct (digits2_bounds p) as [H3 H4].
  destruct (Z.lt_trichotomy (Zpos (digits2_pos p)) d) as [Hlt|[->|Hlt]]; [|done|].
  - assert (2 ^ Zpos (digits2_pos p) <= 2 ^ (d - 1)) by (apply Z.pow_le_mono_r; lia). lia.
  - assert (2 ^ d <= 2 ^ (Zpos (digits2_pos p) - 1)) by (apply Z.pow_le_mono_r; lia). lia.
Qed.

Lemma iter_pos_nat {A} (f : A → A) n x : SpecFloat.iter_pos f n x = Nat.iter (Pos.to_nat n) f x.
Proof.
  revert x. induction n as [n IH|n IH|]; intros x; cbn [SpecFloat.iter_pos]; [| |done].
  - rewrite !IH, Pos2Nat.inj_xI, <- !Nat.iter_add. rewrite Nat.iter_succ_r.
    do 2 f_equal. lia.
  - rewrite !IH, Pos2Nat.inj_xO, <- !Nat.iter_add. f_equal. lia.
Qed.

(** [mrs] is [P] shifted right by [k], with what was shifted out in its two
    bits. *)
Definition shr_at (P k : Z) (mrs : shr_record) : Prop :=
  ∃ rem, P = shr_m mrs * 2 ^ k + rem ∧ 0 <= rem < 2 ^ k ∧ 0 <= shr_m mrs ∧
    match shr_r mrs, shr_s mrs with
    | false, false => rem = 0
    | false, true => 0 < rem ∧ 2 * rem < 2 ^ k
    | true, false => 2 * rem = 2 ^ k
    | true, true => 2 ^ k < 2 * rem
    end.

Lemma shr_1_at P k mrs : 0 <= k → shr_at P k mrs → shr_at P (k + 1) (shr_1 mrs).
Proof.
  intros Hk (rem & HP & Hr & Hm & Hb). destruct mrs as [m r s]. cbn [shr_m shr_r shr_s] in *.
  assert (Hpow : 2 ^ (k + 1) = 2 * 2 ^ k) by (rewrite Z.pow_add_r by lia; lia).
  unfold shr_at. rewrite Hpow. clear Hpow. set (M := 2 ^ k) in *. clearbody M.
  destruct m as [|[p|p|]|p]; [..|lia]; cbn [shr_1 shr_m shr_r shr_s];
    [exists rem|exists (rem + M)|exists rem|exists (rem + M)];
    rewrite ?(Pos2Z.inj_xI p), ?(Pos2Z.inj_xO p) in HP;
    destruct r, s; cbn [orb]; (split; [rewrite HP; ring|clear HP; lia]).
Qed.

Lemma shr_n_at P n mrs : shr_at P 0 mrs → shr_at P (Z.of_nat n) (Nat.iter n shr_1 mrs).
Proof.
  intros H. induction n as [|n IH]; [done|].
  rewrite Nat2Z.inj_succ, <- Z.add_1_r. apply shr_1_at; [lia|exact IH].
Qed.

(** Rounding to nearest: an integer closer than one half is the result. *)
Lemma round_at P k mrs n :
  0 < k → shr_at P k mrs → 2 * Z.abs (P - n * 2 ^ k) < 2 ^ k →
  round_nearest_even (shr_m mrs) (loc_of_shr_record mrs) = n.
Proof.
  intros Hk (rem & HP & Hr & Hm & Hb) Hn. destruct mrs as [m r s]. cbn [shr_m shr_r shr_s] in *.
  assert (Hpos : 0 < 2 ^ k) by (apply Z.pow_pos_nonneg; lia).
  assert (Hcase : n = m ∨ n = m + 1 ∧ 2 ^ k < 2 * rem).
  { assert (Hlo : m <= n) by nia. assert (Hhi : n <= m + 1) by nia. nia. }
  destruct r, s; cbn; destruct Hcase as [->|[-> ?]]; try done; nia.
Qed.

(** A rounded significand of full width is the result. *)
Lemma round_aux_full mx ex lx mrs e n :
  shr_fexp 53 1024 mx ex lx = (mrs, e) →
  round_nearest_even (shr_m mrs) (loc_of_shr_record mrs) = n →
  2 ^ 52 <= n < 2 ^ 53 → -1074 <= e <= 971 →
  binary_round_aux 53 1024 false mx ex lx = S754_finite false (Z.to_pos n) e.
Proof.
  intros Hs Hn Hr He. unfold binary_round_aux. rewrite Hs, Hn.
  unfold shr_fexp at 1. rewrite (zdigits2_eq n 53) by lia.
  assert (Hf : fexp 53 1024 (53 + e) = e) by (unfold fexp, emin; lia).
  rewrite Hf, Z.sub_diag. cbn [shr shr_record_of_loc shr_m].
  destruct n as [|p|p]; [lia| |lia]. cbn [Z.to_pos].
  by rewrite (proj2 (Z.leb_le _ _)) by lia.
Qed.

(** The nearest integer to the quotient [a / b], ties to even. *)
Definition nearest (a b n : Z) : Prop := 2 * Z.abs (a - n * b) <= b.

(** Division of integers whose quotient lies in [2^29, 2^30): the significand is
    the integer nearest to [a * 2^23 / b]. *)
Lemma truediv_nearest a b :
  2 ^ 49 <= Zpos a < 2 ^ 50 → 2 ^ 19 <= Zpos b < 2 ^ 20 → Z.even (Zpos b) = true →
  2 ^ 52 * Zpos b <= Zpos a * 2 ^ 23 → Zpos a * 2 ^ 23 < (2 ^ 53 - 1) * Zpos b →
  ∃ n, int_truediv (Zpos a) b = S754_finite false (Z.to_pos n) (-23) ∧
       2 ^ 52 <= n < 2 ^ 53 ∧ nearest (Zpos a * 2 ^ 23) (Zpos b) n.
Proof.
  intros Ha Hb Hev Hlo Hhi. unfold int_truediv, SFdiv, SFdiv_core_binary.
  rewrite (zdigits2_eq (Zpos a) 50), (zdigits2_eq (Zpos b) 20) by lia.
  change (Z.min (fexp 53 1024 (50 + 0 - (20 + 0))) (0 - 0)) with (-23).
  change (0 - 0 - -23) with 23. rewrite Z.shiftl_mul_pow2 by lia.
  set (A := Zpos a * 2 ^ 23) in *. set (B := Zpos b) in *.
  pose proof (Z_div_mod A B ltac:(lia)) as Hdm. destruct (Z.div_eucl A B) as [q r].
  destruct Hdm as [HA Hr]. unfold new_location. rewrite Hev. unfold new_location_even.
  assert (Hq : 2 ^ 52 <= q < 2 ^ 53 - 1) by nia.
  assert (Hshr : ∀ l, shr_fexp 53 1024 q (-23) l = (shr_record_of_loc q l, -23)).
  { intros l. unfold shr_fexp. by rewrite (zdigits2_eq q 53) by lia. }
  assert (Hfin : ∀ l n, round_nearest_even q l = n → (l = loc_Exact ∨ ∃ c, l = loc_Inexact c) →
            2 ^ 52 <= n < 2 ^ 53 →
            binary_round_aux 53 1024 (xorb false false) q (-23) l
            = S754_finite false (Z.to_pos n) (-23)).
  { intros l n Hn _ Hrange. apply (round_aux_full _ _ _ _ _ n (Hshr l)); [|done|lia].
    rewrite <- Hn. by destruct l as [|[]]. }
  destruct (Z.eqb_spec r 0) as [->|Hr0].
  - exists q. split; [apply Hfin; [done|by left|lia]|]. split; [lia|]. unfold nearest. lia.
  - destruct (Z.compare_spec (2 * r) B) as [Hc|Hc|Hc].
    + destruct (Z.even q) eqn:Heq; [exists q|exists (q + 1)];
        (split; [apply Hfin; [cbn; by rewrite Heq|right; by eexists|lia]|]);
        (split; [lia|unfold nearest; lia]).
    + exists q. split; [apply Hfin; [done|right; by eexists|lia]|]. split; [lia|].
      unfold nearest. lia.
    + exists (q + 1). split; [apply Hfin; [done|right; by eexists|lia]|]. split; [lia|].
      unfold nearest. lia.
Qed.

(** The product with [1000000.0], rounded: exact when it is within one part in
    [2^4] of an integer, which the significand then is eight times of. *)
Lemma mul_million n us :
  2 ^ 52 <= n < 2 ^ 53 → 2 ^ 49 < us < 2 ^ 50 → nearest (us * 2 ^ 23) 1000000 n →
  f_mul (S754_finite false (Z.to_pos n) (-23)) (f_of_int 1000000)
  = S754_finite false (Z.to_pos (8 * us)) (-3).
Proof.
  intros Hn Hus Hnear. unfold nearest in Hnear.
  assert (Hm : f_of_int 1000000 = S754_finite false 8589934592000000 (-33)) by reflexivity.
  rewrite Hm. unfold f_mul, SFmul. cbn [xorb].
  change (-23 + -33) with (-56).
  assert (HP : Zpos (Z.to_pos n * 8589934592000000) = n * 1000000 * 2 ^ 33).
  { rewrite Pos2Z.inj_mul, Z2Pos.id by lia. lia. }
  set (P := Zpos (Z.to_pos n * 8589934592000000)) in *.
  assert (HPr : 2 ^ 105 <= P < 2 ^ 106) by lia.
  assert (Hshr : shr_fexp 53 1024 P (-56) loc_Exact
                 = (SpecFloat.iter_pos shr_1 53 (Build_shr_record P false false), -3)).
  { unfold shr_fexp. by rewrite (zdigits2_eq P 106) by lia. }
  apply (round_aux_full _ _ _ _ _ (8 * us) Hshr); [|lia|lia].
  rewrite iter_pos_nat. change (Pos.to_nat 53) with 53%nat.
  apply (round_at P (Z.of_nat 53)); [lia| |].
  - apply shr_n_at. exists 0. cbn. lia.
  - change (2 ^ Z.of_nat 53) with 9007199254740992. lia.
Qed.

(** Seconds and back to microseconds: the conversion loses nothing in this
    range. *)
Lemma micros_exact us :
  2 ^ 49 < us < 2 ^ 30 * 1000000 →
  f_trunc (f_mul (int_truediv us 1000000) (f_of_int 1000000)) = Ok us.
Proof.
  intros Hus. destruct us as [|a|a]; [lia| |lia].
  destruct (truediv_nearest a 1000000) as (n & -> & Hn & Hnear);
    [lia|lia|done|lia|lia|].
  rewrite (mul_million n (Zpos a)) by (done || lia).
  cbn [f_trunc Z.leb Z.compare]. change (- -3) with 3. change (2 ^ 3) with 8. f_equal.
  rewrite Z2Pos.id by lia. rewrite Z.mul_comm. by apply Z.div_mul.
Qed.
