(* ===== verification/Protocol.v ===== *)
(** The outer replication messages ([walbox/protocol.py]): decoding of
    [XLogData] and [PrimaryKeepaliveMessage], encoding of
    [StandbyStatusUpdate], and the PostgreSQL clock. *)
From stdpp Require Import base tactics list numbers strings.
From Stdlib Require Import Strings.Byte.
From S2P Require Import Prelude PyStr Errors PyBytes PyFloat.

Definition _XLOG_DATA_HEADER_LEN : Z := 25.
Definition _PRIMARY_KEEPALIVE_LEN : Z := 18.

(** ** Messages *)

Record XLogData := mkXLogData {
  x_wal_start : Z;
  x_wal_end : Z;
  x_send_time : Z;
  x_payload : bytes;
}.

Record PrimaryKeepalive := mkPrimaryKeepalive {
  k_wal_end : Z;
  k_send_time : Z;
  k_reply_requested : bool;
}.

Record StandbyStatusUpdate := mkStandbyStatusUpdate {
  written_lsn : Z;
  flushed_lsn : Z;
  applied_lsn : Z;
  client_time : Z;
  reply_requested : bool;
}.

Inductive ReplicationMessage :=
| RXLogData (m : XLogData)
| RPrimaryKeepalive (m : PrimaryKeepalive).

#[global] Instance XLogData_eq_dec : EqDecision XLogData.
Proof. solve_decision. Defined.
#[global] Instance PrimaryKeepalive_eq_dec : EqDecision PrimaryKeepalive.
Proof. solve_decision. Defined.
#[global] Instance ReplicationMessage_eq_dec : EqDecision ReplicationMessage.
Proof. solve_decision. Defined.

(** ** Decoding *)

Definition decode_xlog_data (payload : bytes) : py XLogData :=
  if (py_len payload <? _XLOG_DATA_HEADER_LEN)
     || negb (bool_decide (py_slice payload 0 1 = bs "w"))
  then Raise (ProtocolError (lit "not a valid XLogData message")
                (ctx_message_type "XLogData"))
  else Ok {| x_wal_start := from_bytes_big (py_slice payload 1 9);
             x_wal_end := from_bytes_big (py_slice payload 9 17);
             x_send_time := from_bytes_big (py_slice payload 17 25);
             x_payload := py_slice_from payload 25 |}.

Definition decode_primary_keepalive (payload : bytes) : py PrimaryKeepalive :=
  if negb (py_len payload =? _PRIMARY_KEEPALIVE_LEN)
     || negb (bool_decide (py_slice payload 0 1 = bs "k"))
  then Raise (ProtocolError (lit "not a valid PrimaryKeepaliveMessage")
                (ctx_message_type "PrimaryKeepalive"))
  else
    reply ← py_index payload 17;
    Ok {| k_wal_end := from_bytes_big (py_slice payload 1 9);
          k_send_time := from_bytes_big (py_slice payload 9 17);
          k_reply_requested := negb (reply =? 0) |}.

Definition decode_replication_message (payload : bytes) : py ReplicationMessage :=
  if bool_decide (payload = []) then
    Raise (ProtocolError0 (lit "empty replication message payload"))
  else
    let other := py_slice payload 0 1 in
    if bool_decide (other = bs "w") then RXLogData <$> decode_xlog_data payload
    else if bool_decide (other = bs "k") then
      RPrimaryKeepalive <$> decode_primary_keepalive payload
    else Raise (ProtocolError0
                  (lit "unknown replication message type " ++ repr_bytes other)).

(** ** Encoding *)

Definition encode_standby_status_update (update : StandbyStatusUpdate) : py bytes :=
  written ← to_bytes_big 8 (written_lsn update + 1);
  flushed ← to_bytes_big 8 (flushed_lsn update + 1);
  applied ← to_bytes_big 8 (applied_lsn update + 1);
  time ← to_bytes_big 8 (client_time update);
  Ok (bs "r" ++ written ++ flushed ++ applied ++ time
        ++ [z2b (if reply_requested update then 1 else 0)]).

(** [pg_now_micros]: a [datetime] is given by its distance from the PostgreSQL
    epoch in microseconds, the resolution of [datetime]; [clock] is what
    [datetime.now(UTC)] returns. *)
Definition pg_now_micros (now : option Z) (clock : Z) : py Z :=
  let moment := default clock now in
  f_trunc (f_mul (int_truediv moment 1000000) (f_of_int 1000000)).

(** ** The wire format, from the server's side *)

Definition u64 (z : Z) : bool := (0 <=? z) && (z <? 2 ^ 64).
Definition u32 (z : Z) : bool := (0 <=? z) && (z <? 2 ^ 32).

Definition wf_xlog_data (m : XLogData) : bool :=
  u64 (x_wal_start m) && u64 (x_wal_end m) && u64 (x_send_time m).

Definition encode_xlog_data (m : XLogData) : bytes :=
  bs "w" ++ be_bytes 8 (x_wal_start m) ++ be_bytes 8 (x_wal_end m)
    ++ be_bytes 8 (x_send_time m) ++ x_payload m.

Definition wf_keepalive (m : PrimaryKeepalive) : bool :=
  u64 (k_wal_end m) && u64 (k_send_time m).

(** The reply byte is a flag: any non-zero value requests a reply. *)
Definition encode_keepalive (m : PrimaryKeepalive) (reply : byte) : bytes :=
  bs "k" ++ be_bytes 8 (k_wal_end m) ++ be_bytes 8 (k_send_time m) ++ [reply].

Definition wf_update (u : StandbyStatusUpdate) : bool :=
  u64 (written_lsn u + 1) && u64 (flushed_lsn u + 1) && u64 (applied_lsn u + 1)
  && u64 (client_time u).

(** What the server reads from a status update: the three positions, the
    client's clock and the reply flag. *)
Definition server_read_status (p : bytes) : option (Z * Z * Z * Z * bool) :=
  if (py_len p =? 34) && bool_decide (py_slice p 0 1 = bs "r") then
    Some (from_bytes_big (py_slice p 1 9),
          from_bytes_big (py_slice p 9 17),
          from_bytes_big (py_slice p 17 25),
          from_bytes_big (py_slice p 25 33),
          bool_decide (py_slice p 33 34 ≠ [x00]))
  else None.

(** ** Lemmas *)

Lemma u64_range z : u64 z = true ↔ 0 <= z < 256 ^ Z.of_nat 8.
Proof. unfold u64. rewrite andb_true_iff, Z.leb_le, Z.ltb_lt. done. Qed.

Lemma u32_range z : u32 z = true ↔ 0 <= z < 256 ^ Z.of_nat 4.
Proof. unfold u32. rewrite andb_true_iff, Z.leb_le, Z.ltb_lt. done. Qed.

Lemma from_be8 z : u64 z = true → from_bytes_big (be_bytes 8 z) = z.
Proof. intros H. by apply from_be_bytes_small, u64_range. Qed.

Lemma from_be4 z : u32 z = true → from_bytes_big (be_bytes 4 z) = z.
Proof. intros H. by apply from_be_bytes_small, u32_range. Qed.

Lemma u64_field buf a b :
  0 <= a → b = a + 8 → b <= py_len buf → u64 (from_bytes_big (py_slice buf a b)) = true.
Proof.
  intros. apply u64_range. apply from_bytes_big_lt with 8; [|done].
  rewrite py_len_slice; lia.
Qed.

Lemma u32_field buf a b :
  0 <= a → b = a + 4 → b <= py_len buf → u32 (from_bytes_big (py_slice buf a b)) = true.
Proof.
  intros. apply u32_range. apply from_bytes_big_lt with 4; [|done].
  rewrite py_len_slice; lia.
Qed.

(** A conjunction of boolean side conditions, each closed by [tac]. *)
Ltac bool_conj tac :=
  repeat match goal with |- (_ && _)%bool = true => apply andb_true_iff; split end; tac.

(** Close the field equations of a fixed layout: evaluate the slices of the
    encoded message and read the integers back. *)
Ltac read_fields := fields; rewrite ?from_be8, ?from_be4 by done.

(** Put a buffer of known length back together from its slices. *)
Ltac rejoin :=
  rewrite ?(be_field _ _ _ 8), ?(be_field _ _ _ 4) by lia;
  rewrite ?slice_join_from, ?slice_join by lia.

Lemma decode_xlog_encode m :
  wf_xlog_data m = true → decode_xlog_data (encode_xlog_data m) = Ok m.
Proof.
  destruct m as [ws we st pl]. unfold wf_xlog_data, decode_xlog_data, encode_xlog_data.
  cbn [x_wal_start x_wal_end x_send_time x_payload]. intros H. zbool.
  rewrite (proj2 (Z.ltb_ge _ _)) by (unfold _XLOG_DATA_HEADER_LEN; len).
  fields. rewrite bool_decide_true by done. cbn [orb negb].
  by rewrite !from_be8 by done.
Qed.

Lemma decode_xlog_inv p m :
  decode_xlog_data p = Ok m → wf_xlog_data m = true ∧ p = encode_xlog_data m.
Proof.
  unfold decode_xlog_data. case_step; [done|]. intros [= <-].
  unfold _XLOG_DATA_HEADER_LEN in *. zbool. unfold encode_xlog_data, wf_xlog_data.
  cbn [x_wal_start x_wal_end x_send_time x_payload]. split.
  - bool_conj ltac:(apply u64_field; lia).
  - rewrite <- H0. rejoin. by rewrite slice_from_0.
Qed.

Lemma decode_keepalive_encode m reply :
  wf_keepalive m = true → k_reply_requested m = negb (b2z reply =? 0) →
  decode_primary_keepalive (encode_keepalive m reply) = Ok m.
Proof.
  destruct m as [we st rr]. unfold wf_keepalive, decode_primary_keepalive, encode_keepalive.
  cbn [k_wal_end k_send_time k_reply_requested]. intros H ->. zbool.
  rewrite (proj2 (Z.eqb_eq _ _)) by (unfold _PRIMARY_KEEPALIVE_LEN; len).
  fields. rewrite bool_decide_true by done. cbn [orb negb].
  rewrite !from_be8 by done. done.
Qed.

Lemma decode_keepalive_inv p m :
  decode_primary_keepalive p = Ok m →
  wf_keepalive m = true ∧
  ∃ reply, p = encode_keepalive m reply ∧ k_reply_requested m = negb (b2z reply =? 0).
Proof.
  unfold decode_primary_keepalive. case_step; [done|].
  unfold _PRIMARY_KEEPALIVE_LEN in *. zbool.
  destruct (slice_index p 17) as (b & Hs & ->); [lia|]. intros [= <-].
  unfold encode_keepalive, wf_keepalive. cbn [k_wal_end k_send_time k_reply_requested].
  split; [bool_conj ltac:(apply u64_field; lia)|].
  exists b. split; [|done]. rewrite <- Hs, <- H0. rejoin. by rewrite slice_all.
Qed.

Lemma decode_xlog_raise p e :
  decode_xlog_data p = Raise e → isinstance e cProtocolError = true.
Proof. unfold decode_xlog_data. case_step; [|done]. by intros [= <-]. Qed.

Lemma decode_keepalive_raise p e :
  decode_primary_keepalive p = Raise e → isinstance e cProtocolError = true.
Proof.
  unfold decode_primary_keepalive. case_step; [by intros [= <-]|].
  unfold _PRIMARY_KEEPALIVE_LEN in *. zbool.
  by destruct (slice_index p 17) as (b & _ & ->); [lia|].
Qed.

Lemma encode_xlog_kind m : py_slice (encode_xlog_data m) 0 1 = bs "w".
Proof. by apply (slice_here (bs "w")). Qed.

Lemma encode_keepalive_kind m b : py_slice (encode_keepalive m b) 0 1 = bs "k".
Proof. by apply (slice_here (bs "k")). Qed.

Lemma to_bytes_8 z :
  to_bytes_big 8 z = if u64 z then Ok (be_bytes 8 z) else Raise OverflowError.
Proof.
  destruct (u64 z) eqn:E.
  - by apply to_bytes_big_ok, u64_range.
  - apply to_bytes_big_overflow. unfold u64 in E. zbool. destruct E; zbool; lia.
Qed.

(** The server's reading of an encoded update. *)
Lemma encode_update_cases u :
  if wf_update u then
    ∃ p, encode_standby_status_update u = Ok p ∧ py_len p = 34 ∧
         server_read_status p =
           Some (written_lsn u + 1, flushed_lsn u + 1, applied_lsn u + 1,
                 client_time u, reply_requested u)
  else encode_standby_status_update u = Raise OverflowError.
Proof.
  unfold wf_update, encode_standby_status_update.
  rewrite !to_bytes_8.
  destruct (u64 (written_lsn u + 1)) eqn:?; [|done].
  destruct (u64 (flushed_lsn u + 1)) eqn:?; [|done].
  destruct (u64 (applied_lsn u + 1)) eqn:?; [|done].
  destruct (u64 (client_time u)) eqn:?; [|done].
  cbn [andb mbind result_bind]. eexists. split; [done|]. split; [len|].
  unfold server_read_status. rewrite (proj2 (Z.eqb_eq _ _)) by len.
  fields. rewrite bool_decide_true, !from_be8 by done. cbn [andb].
  by destruct (reply_requested u).
Qed.

(** ** Properties *)

(** C28: A payload decodes to a message exactly when it is the wire
    encoding of that message with every field in range: the decoder neither
    accepts a malformed frame nor loses or invents data.  The reply byte of a
    keepalive is the only freedom (any non-zero byte is a request). *)
Theorem decode_replication_message_iff p r :
  decode_replication_message p = Ok r ↔
  match r with
  | RXLogData m => wf_xlog_data m = true ∧ p = encode_xlog_data m
  | RPrimaryKeepalive m =>
      wf_keepalive m = true ∧
      ∃ reply, p = encode_keepalive m reply ∧
               k_reply_requested m = negb (b2z reply =? 0)
  end.
Proof.
  unfold decode_replication_message. split.
  - case_step; [done|]. case_step; zbool; [|case_step; zbool; [|done]].
    + destruct (decode_xlog_data p) eqn:E; [|done]. intros [= <-].
      by apply decode_xlog_inv.
    + destruct (decode_primary_keepalive p) eqn:E; [|done]. intros [= <-].
      by apply decode_keepalive_inv.
  - destruct r as [m|m].
    + intros [Hwf ->]. rewrite bool_decide_false by done.
      rewrite encode_xlog_kind. cbn zeta. rewrite bool_decide_true by done.
      by rewrite decode_xlog_encode.
    + intros (Hwf & reply & -> & Hr). rewrite bool_decide_false by done.
      rewrite encode_keepalive_kind. cbn zeta.
      rewrite bool_decide_false, bool_decide_true by done.
      by rewrite (decode_keepalive_encode _ reply).
Qed.

(** C29: The only exception the frame decoder lets out is
    [ProtocolError]: no index, value or other built-in error escapes on any
    input. *)
Theorem decode_replication_message_raises p :
  match decode_replication_message p with
  | Ok _ => True
  | Raise e => isinstance e cProtocolError = true
  end.
Proof.
  unfold decode_replication_message. case_step; [done|].
  case_step; zbool; [|case_step; zbool].
  - destruct (decode_xlog_data p) eqn:E; [done|]. by eapply decode_xlog_raise.
  - destruct (decode_primary_keepalive p) eqn:E; [done|]. by eapply decode_keepalive_raise.
  - done.
Qed.

(** C30: A status update is encoded exactly when its clock and each of its
    positions plus one fit in 64 unsigned bits; the payload then has 34 bytes
    and the server reads from it each position plus one, the clock and the
    flag.  Otherwise [OverflowError] is raised and nothing is produced. *)
Theorem encode_status_update_spec u :
  if wf_update u then
    ∃ p, encode_standby_status_update u = Ok p ∧ py_len p = 34 ∧
         server_read_status p =
           Some (written_lsn u + 1, flushed_lsn u + 1, applied_lsn u + 1,
                 client_time u, reply_requested u)
  else encode_standby_status_update u = Raise OverflowError.
Proof. apply encode_update_cases. Qed.

(** C31: From November 2017 to January 2034 the client's clock is exact: in that
    range, converting the elapsed time to float seconds and back to microseconds
    is off by nothing, however the floats round on the way. *)
Theorem pg_now_micros_exact us clock :
  2 ^ 49 < us < 2 ^ 30 * 1000000 →
  pg_now_micros (Some us) clock = Ok us ∧ pg_now_micros None us = Ok us.
Proof. intros H. split; by apply micros_exact. Qed.

(** A clock just after midnight on 2025-01-01. *)
Lemma pg_now_micros_exact_witness :
  pg_now_micros (Some 789004800123457) 0 = Ok 789004800123457.
Proof. apply (pg_now_micros_exact 789004800123457 0). lia. Defined.

(** Outside that range the conversion through float seconds drops
    microseconds: a clock 249 microseconds after the epoch, or one in February
    2034, reads one microsecond early. *)
Theorem pg_now_micros_truncates :
  pg_now_micros (Some 249) 0 = Ok 248 ∧
  pg_now_micros (Some 1077886151557886) 0 = Ok 1077886151557885.
Proof. split; vm_compute; reflexivity. Qed.
