(* ===== verification/Pgoutput.v ===== *)
(** The pgoutput sub-protocol ([walbox/pgoutput.py]): the message types, the
    relation cache, one decoder per message kind and the stateful [Decoder].
    Every function walks an offset over the payload as the source does; the
    Python errors of a short or malformed buffer ([IndexError], [ValueError],
    [UnicodeDecodeError], [KeyError]) are kept apart from [DecodeError]. *)
From stdpp Require Import base tactics list numbers strings gmap.
From Stdlib Require Import Strings.Byte.
From S2P Require Import Prelude PyStr Errors PyBytes.

Definition _BEGIN_LEN : Z := 21.
Definition _COMMIT_LEN : Z := 26.
Definition _STREAM_START_LEN : Z := 6.
Definition _STREAM_STOP_LEN : Z := 1.
Definition _STREAM_COMMIT_LEN : Z := 30.
Definition _STREAM_ABORT_LEN : Z := 9.

(** ** Message types *)

Record Column := mkColumn {
  col_name : pystr;
  col_type_oid : Z;
  col_type_modifier : Z;
  is_key : bool;
}.

Record Relation := mkRelation {
  rel_relation_id : Z;
  rel_namespace : pystr;
  rel_name : pystr;
  replica_identity : pystr;
  columns : list Column;
}.

Definition qualified_name (r : Relation) : pystr :=
  rel_namespace r ++ lit "." ++ rel_name r.

(** [dict[str, str | None]] *)
Abbreviation row := (gmap pystr (option pystr)).

Record Begin := mkBegin {
  final_lsn : Z;
  begin_commit_time : Z;
  begin_xid : Z;
}.

Record Insert := mkInsert {
  ins_relation_id : Z;
  ins_table : pystr;
  ins_new : row;
  ins_subxid : option Z;
}.

Record Update := mkUpdate {
  upd_relation_id : Z;
  upd_table : pystr;
  upd_old : option row;
  upd_new : row;
  upd_subxid : option Z;
}.

Record Delete := mkDelete {
  del_relation_id : Z;
  del_table : pystr;
  del_old : row;
  del_subxid : option Z;
}.

Record Commit := mkCommit {
  flags : Z;
  commit_lsn : Z;
  end_lsn : Z;
  commit_time : Z;
}.

Record Truncate := mkTruncate {
  tables : list pystr;
  cascade : bool;
  restart_identity : bool;
  tru_subxid : option Z;
}.

Record Type_ := mkType {
  typ_type_oid : Z;
  typ_namespace : pystr;
  typ_name : pystr;
}.

Record Origin := mkOrigin {
  origin_lsn : Z;
  org_name : pystr;
}.

Record Message := mkMessage {
  transactional : bool;
  msg_lsn : Z;
  prefix : pystr;
  content : bytes;
}.

Record StreamStart := mkStreamStart {
  ss_xid : Z;
  first_segment : bool;
}.

Record StreamStop := mkStreamStop {}.

Record StreamCommit := mkStreamCommit {
  sc_xid : Z;
  sc_commit_lsn : Z;
  sc_end_lsn : Z;
  sc_commit_time : Z;
}.

Record StreamAbort := mkStreamAbort {
  sa_xid : Z;
  sa_subxid : Z;
}.

Inductive PgoutputMessage :=
| PRelation (m : Relation)
| PBegin (m : Begin)
| PInsert (m : Insert)
| PUpdate (m : Update)
| PDelete (m : Delete)
| PCommit (m : Commit)
| PTruncate (m : Truncate)
| PType (m : Type_)
| POrigin (m : Origin)
| PMessage (m : Message)
| PStreamStart (m : StreamStart)
| PStreamStop (m : StreamStop)
| PStreamCommit (m : StreamCommit)
| PStreamAbort (m : StreamAbort).

#[global] Instance Column_eq_dec : EqDecision Column.
Proof. solve_decision. Defined.
#[global] Instance Relation_eq_dec : EqDecision Relation.
Proof. solve_decision. Defined.
#[global] Instance Begin_eq_dec : EqDecision Begin.
Proof. solve_decision. Defined.
#[global] Instance Insert_eq_dec : EqDecision Insert.
Proof. solve_decision. Defined.
#[global] Instance Update_eq_dec : EqDecision Update.
Proof. solve_decision. Defined.
#[global] Instance Delete_eq_dec : EqDecision Delete.
Proof. solve_decision. Defined.
#[global] Instance Commit_eq_dec : EqDecision Commit.
Proof. solve_decision. Defined.
#[global] Instance Truncate_eq_dec : EqDecision Truncate.
Proof. solve_decision. Defined.
#[global] Instance Type__eq_dec : EqDecision Type_.
Proof. solve_decision. Defined.
#[global] Instance Origin_eq_dec : EqDecision Origin.
Proof. solve_decision. Defined.
#[global] Instance Message_eq_dec : EqDecision Message.
Proof. solve_decision. Defined.
#[global] Instance StreamStart_eq_dec : EqDecision StreamStart.
Proof. solve_decision. Defined.
#[global] Instance StreamStop_eq_dec : EqDecision StreamStop.
Proof. solve_decision. Defined.
#[global] Instance StreamCommit_eq_dec : EqDecision StreamCommit.
Proof. solve_decision. Defined.
#[global] Instance StreamAbort_eq_dec : EqDecision StreamAbort.
Proof. solve_decision. Defined.
#[global] Instance PgoutputMessage_eq_dec : EqDecision PgoutputMessage.
Proof. solve_decision. Defined.

(** ** [RelationCache] *)

Abbreviation RelationCache := (gmap Z Relation).

(** [RelationCache.__init__] *)
Definition RelationCache_init : RelationCache := ∅.

(** [RelationCache.add]: overwriting and first caching differ only in the log
    line. *)
Definition RelationCache_add (relation : Relation) : method RelationCache exn unit :=
  modify_self (λ self, <[rel_relation_id relation := relation]> self).

(** [RelationCache.get]: the context names ["Insert"] whatever the message. *)
Definition RelationCache_get (self : RelationCache) (relation_id : Z) : py Relation :=
  match self !! relation_id with
  | Some r => Ok r
  | None =>
      Raise (DecodeError
        (lit "no Relation message seen yet for relation " ++ str_of_int relation_id)
        (ctx_message_type "Insert"))
  end.

(** ** Shared readers *)

(** [int.from_bytes(buf[offset : offset + n], "big")] *)
Definition read_int (buf : bytes) (offset n : Z) : Z :=
  from_bytes_big (py_slice buf offset (offset + n)).

Definition _read_cstring (buf : bytes) (offset : Z) : py (pystr * Z) :=
  end_ ← py_index_zero buf offset;
  s ← utf8_decode (py_slice buf offset end_);
  Ok (s, end_ + 1).

(** The guard [payload[0:1] != kind] of every decoder. *)
Definition check_kind (payload : bytes) (kind : string) (msg : string)
    (message_type : string) : py unit :=
  if bool_decide (py_slice payload 0 1 = bs kind) then Ok tt
  else Raise (DecodeError (lit msg) (ctx_message_type message_type)).

(** The guard [len(payload) != n or payload[0:1] != kind]. *)
Definition check_len_kind (payload : bytes) (n : Z) (kind : string) (msg : string)
    (message_type : string) : py unit :=
  if negb (py_len payload =? n) || negb (bool_decide (py_slice payload 0 1 = bs kind))
  then Raise (DecodeError (lit msg) (ctx_message_type message_type))
  else Ok tt.

(** [subxid] and the offset after it, in a row-change message. *)
Definition read_subxid (payload : bytes) (offset : Z) (streaming : bool) : option Z * Z :=
  if streaming then (Some (read_int payload offset 4), offset + 4) else (None, offset).

(** ** [decode_relation] *)

(** One iteration of the column loop. *)
Definition decode_column (payload : bytes) (offset : Z) : py (Column * Z) :=
  flags ← py_index payload offset;
  let offset := offset + 1 in
  '(name, offset) ← _read_cstring payload offset;
  let type_oid := read_int payload offset 4 in
  let offset := offset + 4 in
  let type_modifier := from_bytes_big_signed (py_slice payload offset (offset + 4)) in
  let offset := offset + 4 in
  Ok (mkColumn name type_oid type_modifier (truthy (Z.land flags 1)), offset).

Fixpoint decode_columns (payload : bytes) (n : nat) (offset : Z) : py (list Column) :=
  match n with
  | O => Ok []
  | S n' =>
      '(c, offset) ← decode_column payload offset;
      cs ← decode_columns payload n' offset;
      Ok (c :: cs)
  end.

Definition decode_relation (payload : bytes) (streaming : bool) : py Relation :=
  _ ← check_kind payload "R" "not a valid Relation message" "Relation";
  let offset := 1 in
  let offset := if streaming then offset + 4 else offset in
  let relation_id := read_int payload offset 4 in
  let offset := offset + 4 in
  '(namespace, offset) ← _read_cstring payload offset;
  '(name, offset) ← _read_cstring payload offset;
  identity ← py_index payload offset;
  let offset := offset + 1 in
  let n_columns := read_int payload offset 2 in
  let offset := offset + 2 in
  cs ← decode_columns payload (Z.to_nat n_columns) offset;
  Ok (mkRelation relation_id namespace name [identity] cs).

(** ** Fixed-size messages *)

Definition decode_begin (payload : bytes) : py Begin :=
  _ ← check_len_kind payload _BEGIN_LEN "B" "not a valid Begin message" "Begin";
  Ok (mkBegin (from_bytes_big (py_slice payload 1 9))
              (from_bytes_big (py_slice payload 9 17))
              (from_bytes_big (py_slice payload 17 21))).

Definition decode_commit (payload : bytes) : py Commit :=
  _ ← check_len_kind payload _COMMIT_LEN "C" "not a valid Commit message" "Commit";
  fl ← py_index payload 1;
  Ok (mkCommit fl
        (from_bytes_big (py_slice payload 2 10))
        (from_bytes_big (py_slice payload 10 18))
        (from_bytes_big (py_slice payload 18 26))).

Definition decode_stream_start (payload : bytes) : py StreamStart :=
  _ ← check_len_kind payload _STREAM_START_LEN "S" "not a valid StreamStart message"
        "StreamStart";
  let xid := from_bytes_big (py_slice payload 1 5) in
  first ← py_index payload 5;
  Ok (mkStreamStart xid (truthy first)).

Definition decode_stream_stop (payload : bytes) : py StreamStop :=
  _ ← check_len_kind payload _STREAM_STOP_LEN "E" "not a valid StreamStop message"
        "StreamStop";
  Ok mkStreamStop.

Definition decode_stream_commit (payload : bytes) : py StreamCommit :=
  _ ← check_len_kind payload _STREAM_COMMIT_LEN "c" "not a valid StreamCommit message"
        "StreamCommit";
  Ok (mkStreamCommit (from_bytes_big (py_slice payload 1 5))
        (from_bytes_big (py_slice payload 6 14))
        (from_bytes_big (py_slice payload 14 22))
        (from_bytes_big (py_slice payload 22 30))).

Definition decode_stream_abort (payload : bytes) : py StreamAbort :=
  _ ← check_len_kind payload _STREAM_ABORT_LEN "A" "not a valid StreamAbort message"
        "StreamAbort";
  Ok (mkStreamAbort (from_bytes_big (py_slice payload 1 5))
        (from_bytes_big (py_slice payload 5 9))).

(** ** Row-change messages *)

(** One iteration of the loop of [_decode_tuple_data]. *)
Definition decode_tuple_column (buf : bytes) (offset : Z) (column : Column) (r : row) :
    py (row * Z) :=
  let marker := py_slice buf offset (offset + 1) in
  let offset := offset + 1 in
  if bool_decide (marker = bs "n") then Ok (<[col_name column := None]> r, offset)
  else if bool_decide (marker = bs "u") then Ok (r, offset)
  else if bool_decide (marker = bs "t") then
    let length := read_int buf offset 4 in
    let offset := offset + 4 in
    v ← utf8_decode (py_slice buf offset (offset + length));
    Ok (<[col_name column := Some v]> r, offset + length)
  else Raise (DecodeError
         (lit "unknown TupleData column marker " ++ repr_bytes marker)
         (ctx_message_type "Insert")).

Fixpoint decode_tuple_columns (buf : bytes) (offset : Z) (cols : list Column) (r : row) :
    py (row * Z) :=
  match cols with
  | [] => Ok (r, offset)
  | column :: cols' =>
      '(r, offset) ← decode_tuple_column buf offset column r;
      decode_tuple_columns buf offset cols' r
  end.

Definition _decode_tuple_data (buf : bytes) (offset : Z) (cols : list Column) :
    py (row * Z) :=
  let n_columns := read_int buf offset 2 in
  let offset := offset + 2 in
  if negb (n_columns =? py_len cols) then
    Raise (DecodeError
      (lit "TupleData has " ++ str_of_int n_columns
         ++ lit " columns but the cached relation has " ++ str_of_int (py_len cols))
      (ctx_message_type "Insert"))
  else decode_tuple_columns buf offset cols ∅.

(** The dict comprehension of [_restrict_to_key_columns]. *)
Fixpoint restrict_loop (r : row) (cols : list Column) (acc : row) : py row :=
  match cols with
  | [] => Ok acc
  | column :: cols' =>
      if is_key column then
        match r !! col_name column with
        | Some v => restrict_loop r cols' (<[col_name column := v]> acc)
        | None => Raise KeyError
        end
      else restrict_loop r cols' acc
  end.

Definition _restrict_to_key_columns (r : row) (cols : list Column) : py row :=
  restrict_loop r cols ∅.

Definition decode_insert (payload : bytes) (relations : RelationCache) (streaming : bool) :
    py Insert :=
  _ ← check_kind payload "I" "not a valid Insert message" "Insert";
  let '(subxid, offset) := read_subxid payload 1 streaming in
  let relation_id := read_int payload offset 4 in
  let offset := offset + 4 in
  if negb (bool_decide (py_slice payload offset (offset + 1) = bs "N")) then
    Raise (DecodeError (lit "Insert is missing the new-tuple marker 'N'")
             (ctx_message_type "Insert"))
  else
    let offset := offset + 1 in
    relation ← RelationCache_get relations relation_id;
    '(new, _) ← _decode_tuple_data payload offset (columns relation);
    Ok (mkInsert relation_id (qualified_name relation) new subxid).

(** The optional old tuple of an [Update]; a [K] tuple is restricted to the
    key columns. *)
Definition decode_old_tuple (payload : bytes) (offset : Z) (marker : bytes)
    (cols : list Column) : py (row * Z) :=
  '(old, offset) ← _decode_tuple_data payload offset cols;
  old ← (if bool_decide (marker = bs "K") then _restrict_to_key_columns old cols
         else Ok old);
  Ok (old, offset).

(** [marker in {b"K", b"O"}] *)
Definition is_old_marker (marker : bytes) : bool :=
  bool_decide (marker = bs "K") || bool_decide (marker = bs "O").

Definition decode_update (payload : bytes) (relations : RelationCache) (streaming : bool) :
    py Update :=
  _ ← check_kind payload "U" "not a valid Update message" "Update";
  let '(subxid, offset) := read_subxid payload 1 streaming in
  let relation_id := read_int payload offset 4 in
  let offset := offset + 4 in
  relation ← RelationCache_get relations relation_id;
  let marker := py_slice payload offset (offset + 1) in
  '(old, offset) ←
    (if is_old_marker marker then
       '(old, offset) ← decode_old_tuple payload (offset + 1) marker (columns relation);
       Ok (Some old, offset)
     else Ok (None, offset));
  if negb (bool_decide (py_slice payload offset (offset + 1) = bs "N")) then
    Raise (DecodeError (lit "Update is missing the new-tuple marker 'N'")
             (ctx_message_type "Update"))
  else
    let offset := offset + 1 in
    '(new, _) ← _decode_tuple_data payload offset (columns relation);
    Ok (mkUpdate relation_id (qualified_name relation) old new subxid).

Definition decode_delete (payload : bytes) (relations : RelationCache) (streaming : bool) :
    py Delete :=
  _ ← check_kind payload "D" "not a valid Delete message" "Delete";
  let '(subxid, offset) := read_subxid payload 1 streaming in
  let relation_id := read_int payload offset 4 in
  let offset := offset + 4 in
  relation ← RelationCache_get relations relation_id;
  let marker := py_slice payload offset (offset + 1) in
  let offset := offset + 1 in
  if negb (is_old_marker marker) then
    Raise (DecodeError
      (lit "Delete is missing a key/old-row marker, got " ++ repr_bytes marker)
      (ctx_message_type "Delete"))
  else
    '(old, _) ← decode_old_tuple payload offset marker (columns relation);
    Ok (mkDelete relation_id (qualified_name relation) old subxid).

(** The relation loop of [decode_truncate]. *)
Fixpoint decode_truncate_tables (payload : bytes) (relations : RelationCache) (n : nat)
    (offset : Z) : py (list pystr) :=
  match n with
  | O => Ok []
  | S n' =>
      let relation_id := read_int payload offset 4 in
      let offset := offset + 4 in
      relation ← RelationCache_get relations relation_id;
      rest ← decode_truncate_tables payload relations n' offset;
      Ok (qualified_name relation :: rest)
  end.

Definition decode_truncate (payload : bytes) (relations : RelationCache)
    (streaming : bool) : py Truncate :=
  _ ← check_kind payload "T" "not a valid Truncate message" "Truncate";
  let '(subxid, offset) := read_subxid payload 1 streaming in
  let n_relations := read_int payload offset 4 in
  let offset := offset + 4 in
  fl ← py_index payload offset;
  let offset := offset + 1 in
  names ← decode_truncate_tables payload relations (Z.to_nat n_relations) offset;
  Ok (mkTruncate names (truthy (Z.land fl 1)) (truthy (Z.land fl 2)) subxid).

(** ** Messages that are decoded and dropped *)

Definition decode_type (payload : bytes) (streaming : bool) : py Type_ :=
  _ ← check_kind payload "Y" "not a valid Type message" "Type";
  let offset := 1 in
  let offset := if streaming then offset + 4 else offset in
  let type_oid := read_int payload offset 4 in
  let offset := offset + 4 in
  '(namespace, offset) ← _read_cstring payload offset;
  '(name, _) ← _read_cstring payload offset;
  Ok (mkType type_oid namespace name).

Definition decode_origin (payload : bytes) : py Origin :=
  _ ← check_kind payload "O" "not a valid Origin message" "Origin";
  let origin_lsn := from_bytes_big (py_slice payload 1 9) in
  '(name, _) ← _read_cstring payload 9;
  Ok (mkOrigin origin_lsn name).

Definition decode_message (payload : bytes) (streaming : bool) : py Message :=
  _ ← check_kind payload "M" "not a valid Message message" "Message";
  let offset := 1 in
  let offset := if streaming then offset + 4 else offset in
  fl ← py_index payload offset;
  let offset := offset + 1 in
  let lsn := read_int payload offset 8 in
  let offset := offset + 8 in
  '(pre, offset) ← _read_cstring payload offset;
  let length := read_int payload offset 4 in
  let offset := offset + 4 in
  Ok (mkMessage (truthy fl) lsn pre (py_slice payload offset (offset + length))).

(** ** [Decoder] *)

Record Decoder := mkDecoder {
  _relations : RelationCache;
  _streaming_active : bool;
}.

Definition Decoder_init : Decoder := mkDecoder RelationCache_init false.

Definition set_streaming (b : bool) (d : Decoder) : Decoder :=
  mkDecoder (_relations d) b.

Definition _STATELESS_DECODERS : list (bytes * (bytes → py PgoutputMessage)) :=
  [ (bs "B", λ p, PBegin <$> decode_begin p);
    (bs "C", λ p, PCommit <$> decode_commit p);
    (bs "c", λ p, PStreamCommit <$> decode_stream_commit p);
    (bs "A", λ p, PStreamAbort <$> decode_stream_abort p);
    (bs "O", λ p, POrigin <$> decode_origin p) ].

Definition _STREAMING_AWARE_DECODERS : list (bytes * (bytes → bool → py PgoutputMessage)) :=
  [ (bs "Y", λ p s, PType <$> decode_type p s);
    (bs "M", λ p s, PMessage <$> decode_message p s) ].

Definition _STREAMING_AWARE_RELATION_DECODERS :
    list (bytes * (bytes → RelationCache → bool → py PgoutputMessage)) :=
  [ (bs "I", λ p r s, PInsert <$> decode_insert p r s);
    (bs "U", λ p r s, PUpdate <$> decode_update p r s);
    (bs "D", λ p r s, PDelete <$> decode_delete p r s);
    (bs "T", λ p r s, PTruncate <$> decode_truncate p r s) ].

(** [self._relations.add(relation)] *)
Definition decoder_add (relation : Relation) : method Decoder exn unit := λ self,
  let '(r, relations) := RelationCache_add relation (_relations self) in
  (r, mkDecoder relations (_streaming_active self)).

(** [Decoder.decode] *)
Definition decode (payload : bytes) : method Decoder exn PgoutputMessage :=
  let kind := py_slice payload 0 1 in
  if bool_decide (kind = bs "S") then
    message ← lift (decode_stream_start payload);
    _ ← modify_self (set_streaming true);
    mret (PStreamStart message)
  else if bool_decide (kind = bs "E") then
    _ ← modify_self (set_streaming false);
    message ← lift (decode_stream_stop payload);
    mret (PStreamStop message)
  else if bool_decide (kind = bs "R") then
    self ← get_self;
    relation ← lift (decode_relation payload (_streaming_active self));
    _ ← decoder_add relation;
    mret (PRelation relation)
  else
    self ← get_self;
    match table_get kind _STREAMING_AWARE_DECODERS with
    | Some dec => lift (dec payload (_streaming_active self))
    | None =>
    match table_get kind _STREAMING_AWARE_RELATION_DECODERS with
    | Some dec => lift (dec payload (_relations self) (_streaming_active self))
    | None =>
    match table_get kind _STATELESS_DECODERS with
    | Some dec => lift (dec payload)
    | None =>
        raise (DecodeError
          (lit "unsupported pgoutput message type " ++ repr_bytes kind)
          (ctx_message_type_str (decode_replace kind)))
    end end end.

(** Decoding a connection's payloads one after the other. *)
Fixpoint decode_all (payloads : list bytes) : method Decoder exn (list PgoutputMessage) :=
  match payloads with
  | [] => mret []
  | p :: rest =>
      m ← decode p;
      ms ← decode_all rest;
      mret (m :: ms)
  end.
