(* ===== verification/PgoutputSpec.v ===== *)
(** The pgoutput wire format from the server's side, and the proof that the
    decoders of [Pgoutput] recover what the server encodes.

    [SMsg] is what a server sends: a row change carries the cells of its tuples
    (NULL, unchanged TOAST value, or text) rather than the dictionary the client
    builds.  [encode_msg] lays a message out, [denote_msg] is the value the
    client must see, [valid_msg] is what PostgreSQL guarantees of a message, and
    [next_server] follows the relations described so far and the streaming
    bracket. *)
From stdpp Require Import base tactics list numbers strings gmap.
From Stdlib Require Import Strings.Byte.
From S2P Require Import Prelude PyStr Errors PyBytes Protocol Pgoutput.

(** ** Server messages *)

Inductive cell :=
| CNull
| CUnchanged
| CText (s : pystr).

(** Which columns an old tuple holds: ['K'] the key, ['O'] all of them. *)
Inductive old_kind := OldKey | OldAll.

Inductive SMsg :=
| SRelation (xid : Z) (r : Relation)
| SBegin (m : Begin)
| SInsert (xid rid : Z) (new : list cell)
| SUpdate (xid rid : Z) (old : option (old_kind * list cell)) (new : list cell)
| SDelete (xid rid : Z) (kind : old_kind) (old : list cell)
| SCommit (m : Commit)
| STruncate (xid : Z) (rids : list Z) (cascade restart : bool)
| SType (xid : Z) (m : Type_)
| SOrigin (m : Origin)
| SMessage (xid : Z) (m : Message)
| SStreamStart (m : StreamStart)
| SStreamStop
| SStreamCommit (m : StreamCommit)
| SStreamAbort (m : StreamAbort).

(** ** Layout *)

Definition enc_cstr (s : pystr) : bytes := utf8_encode s ++ [x00].

Definition enc_bool (b : bool) : byte := if b then x01 else x00.

Definition enc_column (c : Column) : bytes :=
  [enc_bool (is_key c)] ++ enc_cstr (col_name c) ++ be_bytes 4 (col_type_oid c)
    ++ be_bytes 4 (col_type_modifier c).

Definition enc_columns (cs : list Column) : bytes := mjoin (enc_column <$> cs).

(** The [Int32 xid] that precedes the body inside a streaming bracket. *)
Definition enc_xid (streaming : bool) (xid : Z) : bytes :=
  if streaming then be_bytes 4 xid else [].

Definition enc_cell (c : cell) : bytes :=
  match c with
  | CNull => bs "n"
  | CUnchanged => bs "u"
  | CText s => bs "t" ++ be_bytes 4 (py_len (utf8_encode s)) ++ utf8_encode s
  end.

Definition enc_cells (cs : list cell) : bytes := mjoin (enc_cell <$> cs).

(** [TupleData] *)
Definition enc_tuple (cs : list cell) : bytes :=
  be_bytes 2 (py_len cs) ++ enc_cells cs.

Definition enc_old_kind (k : old_kind) : bytes :=
  match k with OldKey => bs "K" | OldAll => bs "O" end.

Definition encode_msg (streaming : bool) (m : SMsg) : bytes :=
  match m with
  | SRelation xid r =>
      bs "R" ++ enc_xid streaming xid ++ be_bytes 4 (rel_relation_id r)
        ++ enc_cstr (rel_namespace r) ++ enc_cstr (rel_name r)
        ++ (z2b <$> replica_identity r)
        ++ be_bytes 2 (py_len (columns r)) ++ enc_columns (columns r)
  | SBegin m =>
      bs "B" ++ be_bytes 8 (final_lsn m) ++ be_bytes 8 (begin_commit_time m)
        ++ be_bytes 4 (begin_xid m)
  | SInsert xid rid new =>
      bs "I" ++ enc_xid streaming xid ++ be_bytes 4 rid ++ bs "N" ++ enc_tuple new
  | SUpdate xid rid old new =>
      bs "U" ++ enc_xid streaming xid ++ be_bytes 4 rid
        ++ match old with
           | Some (k, cells) => enc_old_kind k ++ enc_tuple cells
           | None => []
           end
        ++ bs "N" ++ enc_tuple new
  | SDelete xid rid k old =>
      bs "D" ++ enc_xid streaming xid ++ be_bytes 4 rid ++ enc_old_kind k ++ enc_tuple old
  | SCommit m =>
      bs "C" ++ [z2b (flags m)] ++ be_bytes 8 (commit_lsn m) ++ be_bytes 8 (end_lsn m)
        ++ be_bytes 8 (commit_time m)
  | STruncate xid rids cascade restart =>
      bs "T" ++ enc_xid streaming xid ++ be_bytes 4 (py_len rids)
        ++ [z2b ((if cascade then 1 else 0) + (if restart then 2 else 0))]
        ++ mjoin (be_bytes 4 <$> rids)
  | SType xid m =>
      bs "Y" ++ enc_xid streaming xid ++ be_bytes 4 (typ_type_oid m)
        ++ enc_cstr (typ_namespace m) ++ enc_cstr (typ_name m)
  | SOrigin m => bs "O" ++ be_bytes 8 (origin_lsn m) ++ enc_cstr (org_name m)
  | SMessage xid m =>
      bs "M" ++ enc_xid streaming xid ++ [enc_bool (transactional m)]
        ++ be_bytes 8 (msg_lsn m) ++ enc_cstr (prefix m)
        ++ be_bytes 4 (py_len (content m)) ++ content m
  | SStreamStart m =>
      bs "S" ++ be_bytes 4 (ss_xid m) ++ [enc_bool (first_segment m)]
  | SStreamStop => bs "E"
  | SStreamCommit m =>
      bs "c" ++ be_bytes 4 (sc_xid m) ++ [x00] ++ be_bytes 8 (sc_commit_lsn m)
        ++ be_bytes 8 (sc_end_lsn m) ++ be_bytes 8 (sc_commit_time m)
  | SStreamAbort m => bs "A" ++ be_bytes 4 (sa_xid m) ++ be_bytes 4 (sa_subxid m)
  end.

(** ** Meaning *)

(** The dictionary of a tuple: a NULL is [None], an unchanged TOAST value is
    absent; only the columns selected by [keep]. *)
Fixpoint row_of (keep : Column → bool) (cols : list Column) (cells : list cell)
    (acc : row) : row :=
  match cols, cells with
  | c :: cols', v :: cells' =>
      row_of keep cols' cells'
        (if keep c then
           match v with
           | CNull => <[col_name c := None]> acc
           | CUnchanged => acc
           | CText s => <[col_name c := Some s]> acc
           end
         else acc)
  | _, _ => acc
  end.

Definition tuple_row (r : Relation) (cells : list cell) : row :=
  row_of (λ _, true) (columns r) cells ∅.

Definition old_row (r : Relation) (k : old_kind) (cells : list cell) : row :=
  match k with
  | OldKey => row_of is_key (columns r) cells ∅
  | OldAll => tuple_row r cells
  end.

(** The relation a message refers to; the default is never reached by a valid
    message. *)
Definition rel_of (d : Decoder) (rid : Z) : Relation :=
  default (mkRelation rid [] [] [] []) (_relations d !! rid).

Definition sub_of (d : Decoder) (xid : Z) : option Z :=
  if _streaming_active d then Some xid else None.

Definition denote_msg (d : Decoder) (m : SMsg) : PgoutputMessage :=
  match m with
  | SRelation _ r => PRelation r
  | SBegin m => PBegin m
  | SInsert xid rid new =>
      PInsert (mkInsert rid (qualified_name (rel_of d rid))
                 (tuple_row (rel_of d rid) new) (sub_of d xid))
  | SUpdate xid rid old new =>
      PUpdate (mkUpdate rid (qualified_name (rel_of d rid))
                 ((λ '(k, cells), old_row (rel_of d rid) k cells) <$> old)
                 (tuple_row (rel_of d rid) new) (sub_of d xid))
  | SDelete xid rid k old =>
      PDelete (mkDelete rid (qualified_name (rel_of d rid))
                 (old_row (rel_of d rid) k old) (sub_of d xid))
  | SCommit m => PCommit m
  | STruncate xid rids cascade restart =>
      PTruncate (mkTruncate ((λ rid, qualified_name (rel_of d rid)) <$> rids)
                   cascade restart (sub_of d xid))
  | SType _ m => PType m
  | SOrigin m => POrigin m
  | SMessage _ m => PMessage m
  | SStreamStart m => PStreamStart m
  | SStreamStop => PStreamStop mkStreamStop
  | SStreamCommit m => PStreamCommit m
  | SStreamAbort m => PStreamAbort m
  end.

Definition next_server (d : Decoder) (m : SMsg) : Decoder :=
  match m with
  | SRelation _ r =>
      mkDecoder (<[rel_relation_id r := r]> (_relations d)) (_streaming_active d)
  | SStreamStart _ => set_streaming true d
  | SStreamStop => set_streaming false d
  | _ => d
  end.

(** ** Validity *)

Definition u16 (z : Z) : bool := (0 <=? z) && (z <? 2 ^ 16).
Definition u8 (z : Z) : bool := (0 <=? z) && (z <? 2 ^ 8).
Definition i32 (z : Z) : bool := (- 2 ^ 31 <=? z) && (z <? 2 ^ 31).

Definition wf_column (c : Column) : bool :=
  is_cstring (col_name c) && u32 (col_type_oid c) && i32 (col_type_modifier c).

(** PostgreSQL column names are distinct. *)
Definition wf_relation (r : Relation) : bool :=
  u32 (rel_relation_id r) && is_cstring (rel_namespace r) && is_cstring (rel_name r)
  && match replica_identity r with [c] => u8 c | _ => false end
  && u16 (py_len (columns r)) && forallb wf_column (columns r)
  && bool_decide (NoDup (col_name <$> columns r)).

Definition wf_cell (c : cell) : bool :=
  match c with CText s => is_text s && u32 (py_len (utf8_encode s)) | _ => true end.

Definition wf_cells (r : Relation) (cells : list cell) : bool :=
  (py_len cells =? py_len (columns r)) && u16 (py_len cells) && forallb wf_cell cells.

(** A key tuple never omits a key column. *)
Fixpoint key_present (cols : list Column) (cells : list cell) : bool :=
  match cols, cells with
  | c :: cols', v :: cells' =>
      (negb (is_key c) || negb (match v with CUnchanged => true | _ => false end))
      && key_present cols' cells'
  | _, _ => true
  end.

Definition wf_old (r : Relation) (k : old_kind) (cells : list cell) : bool :=
  wf_cells r cells && match k with OldKey => key_present (columns r) cells | OldAll => true end
  && bool_decide (NoDup (col_name <$> columns r)).

(** The relation id of a change was described before. *)
Definition known (d : Decoder) (rid : Z) : bool :=
  u32 rid && match _relations d !! rid with Some _ => true | None => false end.

Definition valid_msg (d : Decoder) (m : SMsg) : bool :=
  match m with
  | SRelation xid r => u32 xid && wf_relation r
  | SBegin m => u64 (final_lsn m) && u64 (begin_commit_time m) && u32 (begin_xid m)
  | SInsert xid rid new => u32 xid && known d rid && wf_cells (rel_of d rid) new
  | SUpdate xid rid old new =>
      u32 xid && known d rid && wf_cells (rel_of d rid) new
      && match old with
         | Some (k, cells) => wf_old (rel_of d rid) k cells
         | None => true
         end
  | SDelete xid rid k old => u32 xid && known d rid && wf_old (rel_of d rid) k old
  | SCommit m =>
      u8 (flags m) && u64 (commit_lsn m) && u64 (end_lsn m) && u64 (commit_time m)
  | STruncate xid rids _ _ => u32 xid && u32 (py_len rids) && forallb (known d) rids
  | SType xid m =>
      u32 xid && u32 (typ_type_oid m) && is_cstring (typ_namespace m)
      && is_cstring (typ_name m)
  | SOrigin m => u64 (origin_lsn m) && is_cstring (org_name m)
  | SMessage xid m =>
      u32 xid && u64 (msg_lsn m) && is_cstring (prefix m) && u32 (py_len (content m))
  | SStreamStart m => u32 (ss_xid m)
  | SStreamStop => true
  | SStreamCommit m =>
      u32 (sc_xid m) && u64 (sc_commit_lsn m) && u64 (sc_end_lsn m)
      && u64 (sc_commit_time m)
  | SStreamAbort m => u32 (sa_xid m) && u32 (sa_subxid m)
  end.

(** A whole connection. *)
Fixpoint encode_session (d : Decoder) (ms : list SMsg) : list bytes :=
  match ms with
  | [] => []
  | m :: ms' => encode_msg (_streaming_active d) m :: encode_session (next_server d m) ms'
  end.

Fixpoint denote_session (d : Decoder) (ms : list SMsg) : list PgoutputMessage :=
  match ms with
  | [] => []
  | m :: ms' => denote_msg d m :: denote_session (next_server d m) ms'
  end.

Fixpoint valid_session (d : Decoder) (ms : list SMsg) : bool :=
  match ms with
  | [] => true
  | m :: ms' => valid_msg d m && valid_session (next_server d m) ms'
  end.

Definition final_server (d : Decoder) (ms : list SMsg) : Decoder :=
  fold_left next_server ms d.

(** ** Reading fields at the cursor *)

Lemma u8_range z : u8 z = true ↔ 0 <= z < 256 ^ Z.of_nat 1.
Proof. unfold u8. rewrite andb_true_iff, Z.leb_le, Z.ltb_lt. done. Qed.

Lemma u16_range z : u16 z = true ↔ 0 <= z < 256 ^ Z.of_nat 2.
Proof. unfold u16. rewrite andb_true_iff, Z.leb_le, Z.ltb_lt. done. Qed.

Lemma i32_range z : i32 z = true ↔ - (128 * 256 ^ Z.of_nat 3) <= z < 128 * 256 ^ Z.of_nat 3.
Proof. unfold i32. rewrite andb_true_iff, Z.leb_le, Z.ltb_lt. done. Qed.

Lemma read_int_at buf off n z rest :
  at_off buf off (be_bytes n z ++ rest) → 0 <= z < 256 ^ Z.of_nat n →
  read_int buf off (Z.of_nat n) = z ∧ at_off buf (off + Z.of_nat n) rest.
Proof.
  intros H Hz. split.
  - unfold read_int. rewrite (slice_at _ _ _ _ _ H) by (by rewrite py_len_be_bytes).
    by apply from_be_bytes_small.
  - apply (at_off_step _ _ _ _ _ H). by rewrite py_len_be_bytes.
Qed.

Lemma read_u32_at buf off z rest :
  at_off buf off (be_bytes 4 z ++ rest) → u32 z = true →
  read_int buf off 4 = z ∧ at_off buf (off + 4) rest.
Proof. intros H Hz. by apply (read_int_at _ _ 4), u32_range. Qed.

Lemma read_u64_at buf off z rest :
  at_off buf off (be_bytes 8 z ++ rest) → u64 z = true →
  read_int buf off 8 = z ∧ at_off buf (off + 8) rest.
Proof. intros H Hz. by apply (read_int_at _ _ 8), u64_range. Qed.

Lemma read_u16_at buf off z rest :
  at_off buf off (be_bytes 2 z ++ rest) → u16 z = true →
  read_int buf off 2 = z ∧ at_off buf (off + 2) rest.
Proof. intros H Hz. by apply (read_int_at _ _ 2), u16_range. Qed.

Lemma read_i32_at buf off z rest :
  at_off buf off (be_bytes 4 z ++ rest) → i32 z = true →
  from_bytes_big_signed (py_slice buf off (off + 4)) = z ∧ at_off buf (off + 4) rest.
Proof.
  intros H Hz. rewrite (slice_at _ _ _ _ _ H) by (by rewrite py_len_be_bytes). split.
  - by apply from_be_bytes_signed, i32_range.
  - apply (at_off_step _ _ _ _ _ H). by rewrite py_len_be_bytes.
Qed.

Lemma read_cstring_at buf off s rest :
  at_off buf off (enc_cstr s ++ rest) → is_cstring s = true →
  ∃ off', _read_cstring buf off = Ok (s, off') ∧ at_off buf off' rest.
Proof.
  unfold enc_cstr. rewrite <- (assoc_L (++)). intros H Hs. unfold _read_cstring.
  rewrite (index_zero_at _ _ _ _ H) by auto with walbox. cbn [mbind result_bind].
  rewrite (slice_at _ _ _ _ _ H) by done.
  rewrite utf8_decode_encode by auto with walbox. cbn [mbind result_bind].
  eexists. split; [done|]. apply (at_off_cons _ _ x00).
  by apply (at_off_step _ _ _ _ _ H).
Qed.

Lemma check_kind_bs k rest msg ty :
  String.length k = 1%nat → check_kind (bs k ++ rest) k msg ty = Ok tt.
Proof.
  intros Hk. unfold check_kind. rewrite slice_here by (rewrite py_len_bs, Hk; done).
  by rewrite bool_decide_true.
Qed.

Lemma at_off_kind k rest : String.length k = 1%nat → at_off (bs k ++ rest) 1 rest.
Proof. intros Hk. exists (bs k). by rewrite py_len_bs, Hk. Qed.

(** Consume one field: [next_field L] replaces the hypothesis [Hat] on the
    cursor by the one after the field, and rewrites the value read. *)
Ltac next_field Hat L :=
  let Hv := fresh "Hv" in
  eapply L in Hat as [Hv Hat]; [rewrite ?Hv; clear Hv | first [done | by zbool | idtac]].

Lemma read_xid_at buf off xid rest streaming :
  at_off buf off (enc_xid streaming xid ++ rest) → u32 xid = true →
  ∃ off', read_subxid buf off streaming =
            ((if streaming then Some xid else None), off') ∧
          (if streaming then off + 4 else off) = off' ∧
          at_off buf off' rest.
Proof.
  intros H Hx. unfold read_subxid, enc_xid in *. destruct streaming; [|eauto].
  destruct (read_u32_at _ _ _ _ H Hx) as [-> ?]. eauto.
Qed.

(** ** Columns and tuples *)

Lemma enc_bool_truthy b : truthy (b2z (enc_bool b)) = b.
Proof. by destruct b. Qed.

Lemma enc_bool_flag b : truthy (Z.land (b2z (enc_bool b)) 1) = b.
Proof. by destruct b. Qed.

Lemma decode_column_at buf off c rest :
  at_off buf off (enc_column c ++ rest) → wf_column c = true →
  ∃ off', decode_column buf off = Ok (c, off') ∧ at_off buf off' rest.
Proof.
  destruct c as [nm oid md key]. unfold enc_column, wf_column.
  cbn [col_name col_type_oid col_type_modifier is_key].
  rewrite <- !(assoc_L (++)). intros H Hwf. zbool. unfold decode_column.
  rewrite (index_at _ _ _ _ H). apply at_off_cons in H. cbn [mbind result_bind].
  destruct (read_cstring_at _ _ _ _ H) as (off1 & -> & Hat1); [done|].
  cbn [mbind result_bind].
  destruct (read_u32_at _ _ _ _ Hat1) as [-> Hat2]; [done|].
  destruct (read_i32_at _ _ _ _ Hat2) as [-> Hat3]; [done|].
  rewrite enc_bool_flag. eauto.
Qed.

Lemma decode_columns_at buf off cs rest :
  at_off buf off (enc_columns cs ++ rest) → forallb wf_column cs = true →
  decode_columns buf (length cs) off = Ok cs.
Proof.
  revert off. induction cs as [|c cs IH]; intros off H Hwf; [done|].
  cbn [forallb] in Hwf. zbool. cbn [length decode_columns].
  change (enc_columns (c :: cs)) with (enc_column c ++ enc_columns cs) in H.
  rewrite <- (assoc_L (++)) in H.
  destruct (decode_column_at _ _ _ _ H) as (off' & -> & H'); [done|].
  cbn [mbind result_bind]. by rewrite (IH _ H').
Qed.

(** The dictionary after one cell. *)
Definition put_cell (c : Column) (v : cell) (r : row) : row :=
  match v with
  | CNull => <[col_name c := None]> r
  | CUnchanged => r
  | CText s => <[col_name c := Some s]> r
  end.

Lemma decode_cell_at buf off c v r rest :
  at_off buf off (enc_cell v ++ rest) → wf_cell v = true →
  ∃ off', decode_tuple_column buf off c r = Ok (put_cell c v r, off') ∧
          at_off buf off' rest.
Proof.
  intros H Hwf. unfold decode_tuple_column.
  destruct v as [| |s]; cbn [enc_cell wf_cell] in *;
    rewrite <- ?(assoc_L (++)) in H.
  1,2: rewrite (slice_at _ _ _ _ 1 H) by done;
    cbn; eexists; (split; [done|]); by apply (at_off_step _ _ _ _ _ H).
  zbool. rewrite (slice_at _ _ _ _ 1 H) by done.
  apply (at_off_step _ _ _ _ 1) in H; [|done]. cbn.
  destruct (read_u32_at _ _ _ _ H) as [-> Hat2]; [done|].
  rewrite (slice_at _ _ _ _ _ Hat2) by done. rewrite utf8_decode_encode by done. cbn.
  eexists. split; [done|]. by apply (at_off_step _ _ _ _ _ Hat2).
Qed.

Lemma decode_cells_at buf off cols cells r rest :
  at_off buf off (enc_cells cells ++ rest) → length cells = length cols →
  forallb wf_cell cells = true →
  ∃ off', decode_tuple_columns buf off cols r =
            Ok (row_of (λ _, true) cols cells r, off') ∧ at_off buf off' rest.
Proof.
  revert off cells r. induction cols as [|c cols IH]; intros off cells r H Hl Hwf.
  - destruct cells; [|done]. by exists off.
  - destruct cells as [|v cells]; [done|]. cbn [forallb] in Hwf. zbool.
    change (enc_cells (v :: cells)) with (enc_cell v ++ enc_cells cells) in H.
    rewrite <- (assoc_L (++)) in H. cbn [decode_tuple_columns].
    destruct (decode_cell_at _ _ c _ r _ H) as (off1 & -> & Hat1); [done|].
    cbn [mbind result_bind]. apply (IH _ _ (put_cell c v r) Hat1); [|done].
    by injection Hl.
Qed.

Lemma decode_tuple_at buf off r cells rest :
  at_off buf off (enc_tuple cells ++ rest) → wf_cells r cells = true →
  ∃ off', _decode_tuple_data buf off (columns r) = Ok (tuple_row r cells, off') ∧
          at_off buf off' rest.
Proof.
  unfold enc_tuple, wf_cells. rewrite <- (assoc_L (++)). intros H Hwf. zbool.
  unfold _decode_tuple_data. cbn zeta.
  destruct (read_u16_at _ _ _ _ H) as [-> Hat1]; [done|].
  match goal with E : py_len cells = _ |- _ => rewrite E end. rewrite Z.eqb_refl. cbn [negb].
  apply (decode_cells_at _ _ _ _ _ _ Hat1); [unfold py_len in *; lia|done].
Qed.

(** ** Key tuples *)

Lemma row_of_lookup_ne keep cols cells acc n :
  n ∉ (col_name <$> cols) → row_of keep cols cells acc !! n = acc !! n.
Proof.
  revert cells acc. induction cols as [|c cols IH]; intros [|v cells] acc Hn; try done.
  cbn in Hn. apply not_elem_of_cons in Hn as [Hne Hn]. cbn [row_of].
  rewrite IH by done. destruct (keep c); [|done].
  destruct v; [by rewrite lookup_insert_ne|done|by rewrite lookup_insert_ne].
Qed.

(** The value the dictionary holds for a cell that is present. *)
Definition cell_value (v : cell) : option (option pystr) :=
  match v with CNull => Some None | CUnchanged => None | CText s => Some (Some s) end.

Lemma row_of_lookup cols cells acc :
  NoDup (col_name <$> cols) → length cells = length cols →
  key_present cols cells = true →
  Forall2 (λ c v, is_key c = true →
             row_of (λ _, true) cols cells acc !! col_name c = cell_value v ∧
             v ≠ CUnchanged) cols cells.
Proof.
  revert cells acc. induction cols as [|c cols IH]; intros [|v cells] acc Hnd Hl Hk;
    try done.
  cbn in Hnd. apply NoDup_cons in Hnd as [Hnin Hnd]. cbn [key_present] in Hk. zbool.
  constructor.
  - intros Hkey. rewrite Hkey in H. cbn [row_of].
    rewrite row_of_lookup_ne by done.
    destruct v; [|by destruct H|]; (split; [|done]); cbn [cell_value]; by rewrite lookup_insert_eq.
  - cbn [row_of]. apply IH; [done| |done]. by injection Hl.
Qed.

Lemma restrict_loop_row full cols cells acc :
  Forall2 (λ c v, is_key c = true → full !! col_name c = cell_value v ∧ v ≠ CUnchanged)
    cols cells →
  restrict_loop full cols acc = Ok (row_of is_key cols cells acc).
Proof.
  intros H. revert acc. induction H as [|c v cols cells Hcv _ IH]; intros acc; [done|].
  cbn [restrict_loop row_of]. destruct (is_key c); [|apply IH].
  destruct Hcv as [-> Hne]; [done|]. destruct v; [|done|]; apply IH.
Qed.

Lemma decode_old_at buf off r k cells rest :
  at_off buf off (enc_tuple cells ++ rest) → wf_old r k cells = true →
  ∃ off', decode_old_tuple buf off (enc_old_kind k) (columns r) =
            Ok (old_row r k cells, off') ∧ at_off buf off' rest.
Proof.
  unfold wf_old. intros H Hwf. zbool. unfold decode_old_tuple.
  destruct (decode_tuple_at _ _ r _ _ H) as (off' & -> & H'); [done|].
  cbn [mbind result_bind]. exists off'. split; [|done]. destruct k; [|done].
  cbn [enc_old_kind old_row]. rewrite bool_decide_true by done.
  unfold _restrict_to_key_columns, tuple_row.
  erewrite restrict_loop_row; [done|]. apply row_of_lookup; [done| |done].
  match goal with E : wf_cells _ _ = true |- _ => unfold wf_cells in E end.
  zbool. unfold py_len in *. lia.
Qed.

(** ** One decoder per message kind *)

Lemma decode_relation_encode s xid r :
  u32 xid = true → wf_relation r = true →
  decode_relation (encode_msg s (SRelation xid r)) s = Ok r.
Proof.
  intros Hx Hwf. destruct r as [rid ns nm ri cols]. unfold wf_relation in Hwf.
  cbn [rel_relation_id rel_namespace rel_name replica_identity columns] in Hwf. zbool.
  destruct ri as [|c [|]]; try done. cbn [encode_msg rel_relation_id rel_namespace rel_name
    replica_identity columns fmap list_fmap].
  unfold decode_relation. rewrite check_kind_bs by done. cbn [mbind result_bind].
  set (buf := bs "R" ++ _).
  assert (Hat : at_off buf 1 _) by (by apply at_off_kind). cbv zeta.
  destruct (read_xid_at _ _ _ _ _ Hat Hx) as (o1 & _ & -> & Hat1).
  destruct (read_u32_at _ _ _ _ Hat1) as [-> Hat2]; [done|].
  destruct (read_cstring_at _ _ _ _ Hat2) as (o3 & -> & Hat3); [done|].
  cbn [mbind result_bind].
  destruct (read_cstring_at _ _ _ _ Hat3) as (o4 & -> & Hat4); [done|].
  cbn [mbind result_bind].
  rewrite (index_at _ _ _ _ Hat4). apply at_off_cons in Hat4. cbn [mbind result_bind].
  destruct (read_u16_at _ _ _ _ Hat4) as [-> Hat5]; [done|].
  rewrite <- (app_nil_r (enc_columns cols)) in Hat5.
  unfold py_len. rewrite Nat2Z.id, (decode_columns_at _ _ _ _ Hat5) by done.
  cbn [mbind result_bind]. by rewrite b2z_small by (by apply u8_range).
Qed.

Lemma cache_get_known d rid :
  known d rid = true → RelationCache_get (_relations d) rid = Ok (rel_of d rid).
Proof.
  unfold known, RelationCache_get, rel_of. intros H. zbool.
  by destruct (_relations d !! rid).
Qed.

Lemma known_u32 d rid : known d rid = true → u32 rid = true.
Proof. unfold known. intros H. by zbool. Qed.

Lemma decode_insert_encode d xid rid new :
  valid_msg d (SInsert xid rid new) = true →
  PInsert <$> decode_insert (encode_msg (_streaming_active d) (SInsert xid rid new))
                (_relations d) (_streaming_active d)
  = Ok (denote_msg d (SInsert xid rid new)).
Proof.
  cbn [valid_msg denote_msg encode_msg]. intros Hv. zbool. unfold decode_insert, sub_of.
  rewrite check_kind_bs by done. cbn [mbind result_bind].
  set (buf := bs "I" ++ _). assert (Hat : at_off buf 1 _) by (by apply at_off_kind).
  destruct (read_xid_at _ _ _ _ _ Hat) as (o1 & -> & _ & Hat1); [done|].
  destruct (read_u32_at _ _ _ _ Hat1) as [-> Hat2]; [by eapply known_u32|].
  rewrite (slice_at _ _ _ _ 1 Hat2), bool_decide_true by done. cbn [negb].
  rewrite (cache_get_known d rid) by done. cbn [mbind result_bind].
  apply (at_off_step _ _ _ _ 1) in Hat2; [|done].
  rewrite <- (app_nil_r (enc_tuple new)) in Hat2.
  by destruct (decode_tuple_at _ _ (rel_of d rid) _ _ Hat2) as (o3 & -> & _).
Qed.

Lemma is_old_marker_kind k : is_old_marker (enc_old_kind k) = true.
Proof. by destruct k. Qed.

Lemma py_len_old_kind k : py_len (enc_old_kind k) = 1.
Proof. by destruct k. Qed.

Lemma decode_update_encode d xid rid old new :
  valid_msg d (SUpdate xid rid old new) = true →
  PUpdate <$> decode_update (encode_msg (_streaming_active d) (SUpdate xid rid old new))
                (_relations d) (_streaming_active d)
  = Ok (denote_msg d (SUpdate xid rid old new)).
Proof.
  cbn [valid_msg denote_msg encode_msg]. intros Hv. zbool. unfold decode_update, sub_of.
  rewrite check_kind_bs by done. cbn [mbind result_bind].
  set (buf := bs "U" ++ _). assert (Hat : at_off buf 1 _) by (by apply at_off_kind).
  destruct (read_xid_at _ _ _ _ _ Hat) as (o1 & -> & _ & Hat1); [done|].
  destruct (read_u32_at _ _ _ _ Hat1) as [-> Hat2]; [by eapply known_u32|].
  rewrite (cache_get_known d rid) by done. cbn [mbind result_bind].
  assert (Htail : ∀ o old', at_off buf o (bs "N" ++ enc_tuple new) →
    (if negb (bool_decide (py_slice buf o (o + 1) = bs "N"))
     then Raise (DecodeError (lit "Update is missing the new-tuple marker 'N'")
                   (ctx_message_type "Update"))
     else '(new, _) ← _decode_tuple_data buf (o + 1) (columns (rel_of d rid));
          Ok (mkUpdate rid (qualified_name (rel_of d rid)) old' new
                (if _streaming_active d then Some xid else None)))
    = Ok (mkUpdate rid (qualified_name (rel_of d rid)) old' (tuple_row (rel_of d rid) new)
                (if _streaming_active d then Some xid else None))).
  { intros o old' Ho. rewrite (slice_at _ _ _ _ 1 Ho), bool_decide_true by done.
    cbn [negb]. apply (at_off_step _ _ _ _ 1) in Ho; [|done].
    rewrite <- (app_nil_r (enc_tuple new)) in Ho.
    by destruct (decode_tuple_at _ _ (rel_of d rid) _ _ Ho) as (o3 & -> & _). }
  destruct old as [[k cells]|].
  - rewrite <- (assoc_L (++)) in Hat2.
    rewrite (slice_at _ _ _ _ 1 Hat2) by (by rewrite py_len_old_kind).
    rewrite is_old_marker_kind.
    apply (at_off_step _ _ _ _ 1) in Hat2; [|by rewrite py_len_old_kind].
    destruct (decode_old_at _ _ (rel_of d rid) k _ _ Hat2) as (o3 & -> & Hat3); [done|].
    cbn [mbind result_bind]. by rewrite (Htail _ _ Hat3).
  - cbn [app] in Hat2.
    assert (is_old_marker (py_slice buf (o1 + 4) (o1 + 4 + 1)) = false) as ->
      by (by rewrite (slice_at _ _ _ _ 1 Hat2)).
    cbn [mbind result_bind]. by rewrite (Htail _ _ Hat2).
Qed.

Lemma decode_delete_encode d xid rid k old :
  valid_msg d (SDelete xid rid k old) = true →
  PDelete <$> decode_delete (encode_msg (_streaming_active d) (SDelete xid rid k old))
                (_relations d) (_streaming_active d)
  = Ok (denote_msg d (SDelete xid rid k old)).
Proof.
  cbn [valid_msg denote_msg encode_msg]. intros Hv. zbool. unfold decode_delete, sub_of.
  rewrite check_kind_bs by done. cbn [mbind result_bind].
  set (buf := bs "D" ++ _). assert (Hat : at_off buf 1 _) by (by apply at_off_kind).
  destruct (read_xid_at _ _ _ _ _ Hat) as (o1 & -> & _ & Hat1); [done|].
  destruct (read_u32_at _ _ _ _ Hat1) as [-> Hat2]; [by eapply known_u32|].
  rewrite (cache_get_known d rid) by done. cbn [mbind result_bind].
  rewrite (slice_at _ _ _ _ 1 Hat2) by (by rewrite py_len_old_kind).
  rewrite is_old_marker_kind. cbn [negb].
  apply (at_off_step _ _ _ _ 1) in Hat2; [|by rewrite py_len_old_kind].
  rewrite <- (app_nil_r (enc_tuple old)) in Hat2.
  by destruct (decode_old_at _ _ (rel_of d rid) k _ _ Hat2) as (o3 & -> & _).
Qed.

Lemma decode_truncate_tables_at d buf off rids :
  at_off buf off (mjoin (be_bytes 4 <$> rids)) → forallb (known d) rids = true →
  decode_truncate_tables buf (_relations d) (length rids) off
  = Ok ((λ rid, qualified_name (rel_of d rid)) <$> rids).
Proof.
  revert off. induction rids as [|rid rids IH]; intros off Hat Hk; [done|].
  cbn [forallb] in Hk. zbool. cbn [length decode_truncate_tables].
  change (mjoin (be_bytes 4 <$> rid :: rids))
    with (be_bytes 4 rid ++ mjoin (be_bytes 4 <$> rids)) in Hat.
  destruct (read_u32_at _ _ _ _ Hat) as [-> Hat']; [by eapply known_u32|].
  rewrite (cache_get_known d rid) by done. cbn [mbind result_bind].
  by rewrite (IH _ Hat').
Qed.

Lemma decode_truncate_encode d xid rids c r :
  valid_msg d (STruncate xid rids c r) = true →
  PTruncate <$> decode_truncate (encode_msg (_streaming_active d) (STruncate xid rids c r))
                  (_relations d) (_streaming_active d)
  = Ok (denote_msg d (STruncate xid rids c r)).
Proof.
  cbn [valid_msg denote_msg encode_msg]. intros Hv. zbool. unfold decode_truncate, sub_of.
  rewrite check_kind_bs by done. cbn [mbind result_bind].
  set (buf := bs "T" ++ _). assert (Hat : at_off buf 1 _) by (by apply at_off_kind).
  destruct (read_xid_at _ _ _ _ _ Hat) as (o1 & -> & _ & Hat1); [done|].
  destruct (read_u32_at _ _ _ _ Hat1) as [-> Hat2]; [done|].
  rewrite (index_at _ _ _ _ Hat2). apply at_off_cons in Hat2. cbn [mbind result_bind].
  unfold py_len. rewrite Nat2Z.id, (decode_truncate_tables_at d _ _ _ Hat2) by done.
  cbn [mbind result_bind fmap result_fmap]. rewrite b2z_small by (by destruct c, r).
  by destruct c, r.
Qed.

Lemma decode_type_encode s xid m :
  u32 xid && u32 (typ_type_oid m) && is_cstring (typ_namespace m)
  && is_cstring (typ_name m) = true →
  decode_type (encode_msg s (SType xid m)) s = Ok m.
Proof.
  destruct m as [oid ns nm]. cbn [encode_msg typ_type_oid typ_namespace typ_name].
  intros Hv. zbool. unfold decode_type.
  rewrite check_kind_bs by done. cbn [mbind result_bind].
  set (buf := bs "Y" ++ _). assert (Hat : at_off buf 1 _) by (by apply at_off_kind).
  cbv zeta. destruct (read_xid_at _ _ _ _ _ Hat) as (o1 & _ & -> & Hat1); [done|].
  destruct (read_u32_at _ _ _ _ Hat1) as [-> Hat2]; [done|].
  destruct (read_cstring_at _ _ _ _ Hat2) as (o3 & -> & Hat3); [done|].
  cbn [mbind result_bind]. rewrite <- (app_nil_r (enc_cstr nm)) in Hat3.
  by destruct (read_cstring_at _ _ _ _ Hat3) as (o4 & -> & _).
Qed.

Lemma decode_origin_encode m :
  u64 (origin_lsn m) && is_cstring (org_name m) = true →
  decode_origin (encode_msg false (SOrigin m)) = Ok m.
Proof.
  destruct m as [l nm]. cbn [encode_msg origin_lsn org_name].
  intros Hv. zbool. unfold decode_origin.
  rewrite check_kind_bs by done. cbn [mbind result_bind].
  set (buf := bs "O" ++ _). assert (Hat : at_off buf 1 _) by (by apply at_off_kind).
  destruct (read_u64_at _ _ _ _ Hat) as [Hl Hat2]; [done|].
  unfold read_int in Hl. change (1 + 8) with 9 in *. cbv zeta. rewrite Hl.
  rewrite <- (app_nil_r (enc_cstr nm)) in Hat2.
  by destruct (read_cstring_at _ _ _ _ Hat2) as (o4 & -> & _).
Qed.

Lemma decode_message_encode s xid m :
  u32 xid && u64 (msg_lsn m) && is_cstring (prefix m) && u32 (py_len (content m)) = true →
  decode_message (encode_msg s (SMessage xid m)) s = Ok m.
Proof.
  destruct m as [t l p c]. cbn [encode_msg transactional msg_lsn prefix content].
  intros Hv. zbool. unfold decode_message.
  rewrite check_kind_bs by done. cbn [mbind result_bind].
  set (buf := bs "M" ++ _). assert (Hat : at_off buf 1 _) by (by apply at_off_kind).
  cbv zeta. destruct (read_xid_at _ _ _ _ _ Hat) as (o1 & _ & -> & Hat1); [done|].
  rewrite (index_at _ _ _ _ Hat1). apply at_off_cons in Hat1. cbn [mbind result_bind].
  destruct (read_u64_at _ _ _ _ Hat1) as [-> Hat2]; [done|].
  destruct (read_cstring_at _ _ _ _ Hat2) as (o3 & -> & Hat3); [done|].
  cbn [mbind result_bind].
  destruct (read_u32_at _ _ _ _ Hat3) as [-> Hat4]; [done|].
  rewrite <- (app_nil_r c) in Hat4 at 1. rewrite (slice_at _ _ _ _ _ Hat4) by done.
  by rewrite enc_bool_truthy.
Qed.

(** ** Fixed-size messages: both directions *)

Lemma check_len_kind_ok p n k msg ty :
  check_len_kind p n k msg ty = Ok tt ↔ py_len p = n ∧ py_slice p 0 1 = bs k.
Proof.
  unfold check_len_kind. case_step; zbool; [|naive_solver].
  split; [done|]. intros [? ?]. destruct Heqb; zbool; done.
Qed.

Lemma check_len_kind_bind {A} p n k msg ty (f : unit → py A) a :
  (u ← check_len_kind p n k msg ty; f u) = Ok a →
  py_len p = n ∧ py_slice p 0 1 = bs k ∧ f tt = Ok a.
Proof.
  intros (u & Hc & Hf)%bind_ok. destruct u. apply check_len_kind_ok in Hc as [? ?]. done.
Qed.

(** Run the guard of a fixed-size message on its own encoding. *)
Ltac pass_guard :=
  rewrite (proj2 (check_len_kind_ok _ _ _ _ _))
    by (split; [len | by apply (slice_here (bs _))]); cbn [mbind result_bind].

Lemma decode_begin_encode m :
  valid_msg Decoder_init (SBegin m) = true → decode_begin (encode_msg false (SBegin m)) = Ok m.
Proof.
  destruct m as [l t x]. cbn [valid_msg encode_msg final_lsn begin_commit_time begin_xid].
  intros H. zbool. unfold decode_begin, _BEGIN_LEN. pass_guard. fields.
  by rewrite !from_be8, from_be4.
Qed.

Lemma decode_begin_inv p m :
  decode_begin p = Ok m →
  valid_msg Decoder_init (SBegin m) = true ∧ p = encode_msg false (SBegin m).
Proof.
  unfold decode_begin, _BEGIN_LEN. intros (Hl & Hk & [= <-])%check_len_kind_bind.
  cbn [valid_msg encode_msg final_lsn begin_commit_time begin_xid]. split.
  - bool_conj ltac:(first [apply u64_field; lia | apply u32_field; lia]).
  - rewrite <- Hk. rejoin. by rewrite slice_all.
Qed.

Lemma decode_commit_encode m :
  valid_msg Decoder_init (SCommit m) = true → decode_commit (encode_msg false (SCommit m)) = Ok m.
Proof.
  destruct m as [f c e t]. cbn [valid_msg encode_msg flags commit_lsn end_lsn commit_time].
  intros H. zbool. unfold decode_commit, _COMMIT_LEN. pass_guard. fields.
  erewrite index_at by (apply at_off_0). cbn [mbind result_bind].
  rewrite !from_be8, b2z_small by (done || by apply u8_range). done.
Qed.

Lemma decode_commit_inv p m :
  decode_commit p = Ok m →
  valid_msg Decoder_init (SCommit m) = true ∧ p = encode_msg false (SCommit m).
Proof.
  unfold decode_commit, _COMMIT_LEN. intros (Hl & Hk & H)%check_len_kind_bind.
  destruct (slice_index p 1) as (b & Hb & Hi); [lia|]. rewrite Hi in H.
  cbn [mbind result_bind] in H. injection H as <-.
  cbn [valid_msg encode_msg flags commit_lsn end_lsn commit_time]. split.
  - bool_conj ltac:(first [apply u64_field; lia | apply u8_range, b2z_range]).
  - rewrite <- Hk, z2b_b2z, <- Hb. rejoin. by rewrite slice_all.
Qed.

Lemma decode_stream_start_encode xid b :
  u32 xid = true →
  decode_stream_start (bs "S" ++ be_bytes 4 xid ++ [b]) = Ok (mkStreamStart xid (truthy (b2z b))).
Proof.
  intros H. unfold decode_stream_start, _STREAM_START_LEN. pass_guard. fields.
  erewrite index_at by (apply at_off_0). cbn [mbind result_bind]. by rewrite from_be4.
Qed.

Lemma decode_stream_start_inv p m :
  decode_stream_start p = Ok m →
  u32 (ss_xid m) = true ∧
  ∃ b, p = bs "S" ++ be_bytes 4 (ss_xid m) ++ [b] ∧ first_segment m = truthy (b2z b).
Proof.
  unfold decode_stream_start, _STREAM_START_LEN. intros (Hl & Hk & H)%check_len_kind_bind.
  destruct (slice_index p 5) as (b & Hb & Hi); [lia|]. rewrite Hi in H.
  cbn [mbind result_bind] in H. injection H as <-. cbn [ss_xid first_segment].
  split; [apply u32_field; lia|]. exists b. split; [|done].
  rewrite <- Hk, <- Hb. rejoin. by rewrite slice_all.
Qed.

Lemma decode_stream_stop_iff p m :
  decode_stream_stop p = Ok m ↔ p = bs "E".
Proof.
  split.
  - unfold decode_stream_stop, _STREAM_STOP_LEN. intros (Hl & Hk & _)%check_len_kind_bind.
    by rewrite slice_all in Hk.
  - intros ->. by destruct m.
Qed.

Lemma decode_stream_commit_encode m b :
  valid_msg Decoder_init (SStreamCommit m) = true →
  decode_stream_commit
    (bs "c" ++ be_bytes 4 (sc_xid m) ++ [b] ++ be_bytes 8 (sc_commit_lsn m)
       ++ be_bytes 8 (sc_end_lsn m) ++ be_bytes 8 (sc_commit_time m)) = Ok m.
Proof.
  destruct m as [x c e t].
  cbn [valid_msg sc_xid sc_commit_lsn sc_end_lsn sc_commit_time].
  intros H. zbool. unfold decode_stream_commit, _STREAM_COMMIT_LEN. pass_guard. fields.
  by rewrite !from_be8, from_be4.
Qed.

Lemma decode_stream_commit_inv p m :
  decode_stream_commit p = Ok m →
  valid_msg Decoder_init (SStreamCommit m) = true ∧
  ∃ b, p = bs "c" ++ be_bytes 4 (sc_xid m) ++ [b] ++ be_bytes 8 (sc_commit_lsn m)
             ++ be_bytes 8 (sc_end_lsn m) ++ be_bytes 8 (sc_commit_time m).
Proof.
  unfold decode_stream_commit, _STREAM_COMMIT_LEN.
  intros (Hl & Hk & [= <-])%check_len_kind_bind.
  cbn [valid_msg sc_xid sc_commit_lsn sc_end_lsn sc_commit_time]. split.
  - bool_conj ltac:(first [apply u64_field; lia | apply u32_field; lia]).
  - destruct (slice_index p 5) as (b & Hb & _); [lia|]. exists b.
    rewrite <- Hk, <- Hb. rejoin. by rewrite slice_all.
Qed.

Lemma decode_stream_abort_encode m :
  valid_msg Decoder_init (SStreamAbort m) = true →
  decode_stream_abort (encode_msg false (SStreamAbort m)) = Ok m.
Proof.
  destruct m as [x y]. cbn [valid_msg encode_msg sa_xid sa_subxid].
  intros H. zbool. unfold decode_stream_abort, _STREAM_ABORT_LEN. pass_guard. fields.
  by rewrite !from_be4.
Qed.

Lemma decode_stream_abort_inv p m :
  decode_stream_abort p = Ok m →
  valid_msg Decoder_init (SStreamAbort m) = true ∧ p = encode_msg false (SStreamAbort m).
Proof.
  unfold decode_stream_abort, _STREAM_ABORT_LEN.
  intros (Hl & Hk & [= <-])%check_len_kind_bind.
  cbn [valid_msg encode_msg sa_xid sa_subxid]. split.
  - bool_conj ltac:(apply u32_field; lia).
  - rewrite <- Hk. rejoin. by rewrite slice_all.
Qed.

(** ** The stateful decoder *)

Lemma kind_bs k rest : String.length k = 1%nat → py_slice (bs k ++ rest) 0 1 = bs k.
Proof. intros H. apply slice_here. by rewrite py_len_bs, H. Qed.

(** The byte that announces a message kind. *)
Definition kind_of (m : PgoutputMessage) : bytes :=
  match m with
  | PRelation _ => bs "R" | PBegin _ => bs "B" | PInsert _ => bs "I"
  | PUpdate _ => bs "U" | PDelete _ => bs "D" | PCommit _ => bs "C"
  | PTruncate _ => bs "T" | PType _ => bs "Y" | POrigin _ => bs "O"
  | PMessage _ => bs "M" | PStreamStart _ => bs "S" | PStreamStop _ => bs "E"
  | PStreamCommit _ => bs "c" | PStreamAbort _ => bs "A"
  end.

(** The decoder state after a decoded message. *)
Definition next_client (d : Decoder) (m : PgoutputMessage) : Decoder :=
  match m with
  | PRelation r =>
      mkDecoder (<[rel_relation_id r := r]> (_relations d)) (_streaming_active d)
  | PStreamStart _ => set_streaming true d
  | PStreamStop _ => set_streaming false d
  | _ => d
  end.

Lemma fmap_ok_inv {A B} (f : A → B) (r : py A) b :
  f <$> r = Ok b → ∃ a, r = Ok a ∧ b = f a.
Proof. destruct r; cbn; [|done]. intros [= <-]. eauto. Qed.

(** Case analysis on the dispatch of [decode]: the kinds in source order. *)
Lemma decode_cases p d :
  let kind := py_slice p 0 1 in
  let s := _streaming_active d in
  let rels := _relations d in
  (kind = bs "S" ∧ decode p d =
     match decode_stream_start p with
     | Ok m => (Ok (PStreamStart m), set_streaming true d)
     | Raise e => (Raise e, d) end) ∨
  (kind = bs "E" ∧ decode p d = (PStreamStop <$> decode_stream_stop p, set_streaming false d)) ∨
  (kind = bs "R" ∧ decode p d =
     match decode_relation p s with
     | Ok r => (Ok (PRelation r), next_client d (PRelation r))
     | Raise e => (Raise e, d) end) ∨
  (kind = bs "Y" ∧ decode p d = (PType <$> decode_type p s, d)) ∨
  (kind = bs "M" ∧ decode p d = (PMessage <$> decode_message p s, d)) ∨
  (kind = bs "I" ∧ decode p d = (PInsert <$> decode_insert p rels s, d)) ∨
  (kind = bs "U" ∧ decode p d = (PUpdate <$> decode_update p rels s, d)) ∨
  (kind = bs "D" ∧ decode p d = (PDelete <$> decode_delete p rels s, d)) ∨
  (kind = bs "T" ∧ decode p d = (PTruncate <$> decode_truncate p rels s, d)) ∨
  (kind = bs "B" ∧ decode p d = (PBegin <$> decode_begin p, d)) ∨
  (kind = bs "C" ∧ decode p d = (PCommit <$> decode_commit p, d)) ∨
  (kind = bs "c" ∧ decode p d = (PStreamCommit <$> decode_stream_commit p, d)) ∨
  (kind = bs "A" ∧ decode p d = (PStreamAbort <$> decode_stream_abort p, d)) ∨
  (kind = bs "O" ∧ decode p d = (POrigin <$> decode_origin p, d)) ∨
  ((∀ m, kind ≠ kind_of m) ∧ ∃ msg ctx, decode p d = (Raise (DecodeError msg ctx), d)).
Proof.
  cbn zeta. unfold decode, mbind, method_bind. cbn zeta.
  destruct (bool_decide (py_slice p 0 1 = bs "S")) eqn:E1; zbool.
  { left. split; [done|]. unfold lift. by destruct (decode_stream_start p). }
  destruct (bool_decide (py_slice p 0 1 = bs "E")) eqn:E2; zbool.
  { right; left. split; [done|]. unfold lift, modify_self. by destruct (decode_stream_stop p). }
  destruct (bool_decide (py_slice p 0 1 = bs "R")) eqn:E3; zbool.
  { do 2 right; left. split; [done|]. unfold lift. cbn. by destruct (decode_relation p _). }
  unfold get_self, _STREAMING_AWARE_DECODERS, _STREAMING_AWARE_RELATION_DECODERS,
    _STATELESS_DECODERS. cbn [table_get].
  do 3 right.
  repeat match goal with
  | |- context [bool_decide (py_slice p 0 1 = ?k)] =>
      let E := fresh "E" in
      destruct (bool_decide (py_slice p 0 1 = k)) eqn:E; zbool;
      [left; split; done | right]
  end.
  split; [intros []; done|]. eexists _, _. reflexivity.
Qed.

(** One message: the client sees its meaning and ends up in the server's
    state. *)
Lemma decode_msg_step d m :
  valid_msg d m = true →
  decode (encode_msg (_streaming_active d) m) d = (Ok (denote_msg d m), next_server d m).
Proof.
  intros Hv. pose proof (decode_cases (encode_msg (_streaming_active d) m) d) as H.
  cbn zeta in H.
  assert (Hkind : py_slice (encode_msg (_streaming_active d) m) 0 1 = kind_of (denote_msg d m))
    by (destruct m; first [by apply kind_bs | done]).
  rewrite Hkind in H.
  repeat (destruct H as [[Hk H]|H]; [destruct m; try discriminate Hk; rewrite H|]);
    [..|by destruct (proj1 H (denote_msg d m))].
  - cbn [valid_msg encode_msg] in *. rewrite decode_stream_start_encode by done.
    rewrite enc_bool_truthy. by destruct m.
  - done.
  - cbn [valid_msg] in Hv. zbool. by rewrite decode_relation_encode.
  - by rewrite decode_type_encode.
  - by rewrite decode_message_encode.
  - by rewrite decode_insert_encode.
  - by rewrite decode_update_encode.
  - by rewrite decode_delete_encode.
  - by rewrite decode_truncate_encode.
  - change (encode_msg _ _) with (encode_msg false (SBegin m)).
    by rewrite (decode_begin_encode m Hv).
  - change (encode_msg _ _) with (encode_msg false (SCommit m)).
    by rewrite (decode_commit_encode m Hv).
  - cbn [encode_msg]. by rewrite (decode_stream_commit_encode m _ Hv).
  - change (encode_msg _ _) with (encode_msg false (SStreamAbort m)).
    by rewrite (decode_stream_abort_encode m Hv).
  - change (encode_msg _ _) with (encode_msg false (SOrigin m)).
    by rewrite (decode_origin_encode m Hv).
Qed.

Lemma decode_all_session d ms :
  valid_session d ms = true →
  decode_all (encode_session d ms) d = (Ok (denote_session d ms), final_server d ms).
Proof.
  revert d. induction ms as [|m ms IH]; intros d Hv; [done|].
  cbn [valid_session] in Hv. zbool. cbn [encode_session decode_all].
  unfold mbind, method_bind in *. rewrite decode_msg_step by done.
  by rewrite IH.
Qed.

(** ** Exceptions *)

(** The exceptions a malformed payload can cause. *)
Definition decode_exn (e : exn) : bool :=
  match e with
  | Walbox w => bool_decide (we_class w = cDecodeError)
  | ValueError _ | UnicodeDecodeError | IndexError | KeyError => true
  | _ => false
  end.

(** A computation that raises nothing else. *)
Definition safe {A} (r : py A) : Prop :=
  match r with Ok _ => True | Raise e => decode_exn e = true end.

Lemma safe_ok {A} (a : A) : safe (Ok a).
Proof. done. Qed.

Lemma safe_bind {A B} (r : py A) (f : A → py B) :
  safe r → (∀ a, safe (f a)) → safe (x ← r; f x).
Proof. destruct r; cbn; auto. Qed.

Lemma safe_fmap {A B} (f : A → B) (r : py A) : safe r → safe (f <$> r).
Proof. by destruct r. Qed.

Lemma safe_index buf i : safe (py_index buf i).
Proof. unfold py_index. repeat case_step; done. Qed.

Lemma safe_cstring buf off : safe (_read_cstring buf off).
Proof.
  unfold _read_cstring. apply safe_bind; [unfold py_index_zero; by case_step|].
  intros e. apply safe_bind; [unfold utf8_decode; by case_step|done].
Qed.

Lemma safe_utf8 b : safe (utf8_decode b).
Proof. unfold utf8_decode. by case_step. Qed.

Lemma safe_check_kind p k msg ty : safe (check_kind p k msg ty).
Proof. unfold check_kind. by case_step. Qed.

Lemma safe_check_len_kind p n k msg ty : safe (check_len_kind p n k msg ty).
Proof. unfold check_len_kind. by case_step. Qed.

Lemma safe_cache_get rels rid : safe (RelationCache_get rels rid).
Proof. unfold RelationCache_get. by case_step. Qed.

#[export] Hint Resolve safe_ok safe_index safe_cstring safe_utf8 safe_check_kind
  safe_check_len_kind safe_cache_get safe_fmap : walbox.

(** Follow a decoder through its sequence of reads. *)
Ltac safe_step :=
  repeat first
    [ progress intros
    | progress cbn zeta
    | match goal with |- safe (let '(_, _) := ?x in _) => destruct x end
    | match goal with |- safe (if ?x then _ else _) => destruct x end
    | match goal with |- safe (mbind _ _) => apply safe_bind end
    | solve [auto with walbox] ].

Lemma safe_raise_decode {A} msg ctx : safe (Raise (DecodeError msg ctx) : py A).
Proof. done. Qed.
#[export] Hint Resolve safe_raise_decode : walbox.

Lemma safe_columns p n off : safe (decode_columns p n off).
Proof.
  revert off. induction n as [|n IH]; intros off; [done|]. cbn [decode_columns].
  apply safe_bind; [unfold decode_column; safe_step|]. safe_step.
Qed.

Lemma safe_tuple_columns buf off cols r : safe (decode_tuple_columns buf off cols r).
Proof.
  revert off r. induction cols as [|c cols IH]; intros o r; [done|].
  cbn [decode_tuple_columns]. apply safe_bind; [|intros []; apply IH].
  unfold decode_tuple_column. cbn zeta. safe_step.
Qed.

Lemma safe_tuple buf off cols : safe (_decode_tuple_data buf off cols).
Proof. unfold _decode_tuple_data. cbn zeta. case_step; [done|]. apply safe_tuple_columns. Qed.

Lemma safe_restrict r cols : safe (_restrict_to_key_columns r cols).
Proof.
  unfold _restrict_to_key_columns. generalize (∅ : row).
  induction cols as [|c cols IH]; intros acc; [done|]. cbn [restrict_loop].
  destruct (is_key c); [|done]. by destruct (r !! _).
Qed.

#[export] Hint Resolve safe_columns safe_tuple safe_restrict : walbox.

Lemma safe_old buf off m cols : safe (decode_old_tuple buf off m cols).
Proof. unfold decode_old_tuple. safe_step. Qed.
#[export] Hint Resolve safe_old : walbox.

Lemma safe_truncate_tables p rels n off : safe (decode_truncate_tables p rels n off).
Proof.
  revert off. induction n as [|n IH]; intros off; [done|]. cbn [decode_truncate_tables].
  cbn zeta. safe_step.
Qed.
#[export] Hint Resolve safe_truncate_tables : walbox.

Lemma safe_relation p s : safe (decode_relation p s).
Proof. unfold decode_relation. cbn zeta. safe_step. Qed.

Lemma safe_insert p r s : safe (decode_insert p r s).
Proof. unfold decode_insert. cbn zeta. safe_step. Qed.

Lemma safe_update p r s : safe (decode_update p r s).
Proof. unfold decode_update. cbn zeta. safe_step. Qed.

Lemma safe_delete p r s : safe (decode_delete p r s).
Proof. unfold decode_delete. cbn zeta. safe_step. Qed.

Lemma safe_truncate p r s : safe (decode_truncate p r s).
Proof. unfold decode_truncate. cbn zeta. safe_step. Qed.

Lemma safe_type p s : safe (decode_type p s).
Proof. unfold decode_type. cbn zeta. safe_step. Qed.

Lemma safe_message p s : safe (decode_message p s).
Proof. unfold decode_message. cbn zeta. safe_step. Qed.

Lemma safe_origin p : safe (decode_origin p).
Proof. unfold decode_origin. safe_step. Qed.

Lemma safe_begin p : safe (decode_begin p).
Proof. unfold decode_begin. safe_step. Qed.

Lemma safe_commit p : safe (decode_commit p).
Proof. unfold decode_commit. safe_step. Qed.

Lemma safe_stream_start p : safe (decode_stream_start p).
Proof. unfold decode_stream_start. cbn zeta. safe_step. Qed.

Lemma safe_stream_stop p : safe (decode_stream_stop p).
Proof. unfold decode_stream_stop. safe_step. Qed.

Lemma safe_stream_commit p : safe (decode_stream_commit p).
Proof. unfold decode_stream_commit. safe_step. Qed.

Lemma safe_stream_abort p : safe (decode_stream_abort p).
Proof. unfold decode_stream_abort. safe_step. Qed.

#[export] Hint Resolve safe_relation safe_insert safe_update safe_delete safe_truncate
  safe_type safe_message safe_origin safe_begin safe_commit safe_stream_start
  safe_stream_stop safe_stream_commit safe_stream_abort : walbox.

(** ** Typing of decoded changes *)

(** Every column of the row is a column of the relation. *)
Definition row_typed (r : Relation) (w : row) : Prop :=
  ∀ n, is_Some (w !! n) → n ∈ (col_name <$> columns r).

(** A decoded change names a cached relation and only its columns, and carries
    a subtransaction id exactly inside a streaming bracket. *)
Definition change_typed (d : Decoder) (m : PgoutputMessage) : Prop :=
  let sub (x : option Z) := is_Some x ↔ _streaming_active d = true in
  match m with
  | PInsert m =>
      sub (ins_subxid m) ∧
      ∃ r, _relations d !! ins_relation_id m = Some r ∧
           ins_table m = qualified_name r ∧ row_typed r (ins_new m)
  | PUpdate m =>
      sub (upd_subxid m) ∧
      ∃ r, _relations d !! upd_relation_id m = Some r ∧
           upd_table m = qualified_name r ∧ row_typed r (upd_new m) ∧
           (∀ old, upd_old m = Some old → row_typed r old)
  | PDelete m =>
      sub (del_subxid m) ∧
      ∃ r, _relations d !! del_relation_id m = Some r ∧
           del_table m = qualified_name r ∧ row_typed r (del_old m)
  | PTruncate m =>
      sub (tru_subxid m) ∧
      Forall (λ n, ∃ rid r, _relations d !! rid = Some r ∧ n = qualified_name r) (tables m)
  | _ => True
  end.

Lemma cache_get_ok rels rid r :
  RelationCache_get rels rid = Ok r → rels !! rid = Some r.
Proof. unfold RelationCache_get. destruct (rels !! rid); [|done]. by intros [= ->]. Qed.

Lemma read_subxid_some p off s : is_Some (read_subxid p off s).1 ↔ s = true.
Proof. unfold read_subxid. destruct s; cbn; split; try done; by intros [? ?]. Qed.

Lemma tuple_column_dom buf off c r r' off' n :
  decode_tuple_column buf off c r = Ok (r', off') →
  is_Some (r' !! n) → n = col_name c ∨ is_Some (r !! n).
Proof.
  unfold decode_tuple_column. cbn zeta. intros H Hn.
  repeat case_step_in H; try done.
  - injection H as <- _. apply lookup_insert_is_Some in Hn as [->|[_ ?]]; auto.
  - injection H as <- _. by right.
  - destruct (utf8_decode _); [|done]. injection H as <- _.
    apply lookup_insert_is_Some in Hn as [->|[_ ?]]; auto.
Qed.

Lemma tuple_columns_dom buf off cols r r' off' n :
  decode_tuple_columns buf off cols r = Ok (r', off') →
  is_Some (r' !! n) → n ∈ (col_name <$> cols) ∨ is_Some (r !! n).
Proof.
  revert off r. induction cols as [|c cols IH]; intros off r H Hn.
  - injection H as <- _. by right.
  - cbn [decode_tuple_columns] in H. apply bind_ok in H as ([r1 o1] & H1 & H).
    destruct (IH _ _ H Hn) as [?|Hn']; [left; by apply elem_of_cons; right|].
    destruct (tuple_column_dom _ _ _ _ _ _ _ H1 Hn') as [->|?]; [left|by right].
    by apply elem_of_cons; left.
Qed.

Lemma tuple_data_typed buf off rel r off' :
  _decode_tuple_data buf off (columns rel) = Ok (r, off') → row_typed rel r.
Proof.
  unfold _decode_tuple_data. cbn zeta. case_step; [done|]. intros H n Hn.
  destruct (tuple_columns_dom _ _ _ _ _ _ _ H Hn) as [?|[? Hx]]; [done|].
  by rewrite lookup_empty in Hx.
Qed.

Lemma restrict_loop_dom r cols acc r' n :
  restrict_loop r cols acc = Ok r' →
  is_Some (r' !! n) → n ∈ (col_name <$> cols) ∨ is_Some (acc !! n).
Proof.
  revert acc. induction cols as [|c cols IH]; intros acc H Hn.
  - injection H as <-. by right.
  - cbn [restrict_loop] in H.
    assert (Hcase : ∃ acc', restrict_loop r cols acc' = Ok r' ∧
              (is_Some (acc' !! n) → n = col_name c ∨ is_Some (acc !! n))).
    { destruct (is_key c); [|by eauto]. destruct (r !! _); [|done].
      eexists. split; [done|]. intros Hx. apply lookup_insert_is_Some in Hx as [->|[_ ?]]; auto. }
    destruct Hcase as (acc' & H' & Hacc). destruct (IH _ H' Hn) as [?|Hn'].
    + left. by apply elem_of_cons; right.
    + destruct (Hacc Hn') as [->|?]; [left; by apply elem_of_cons; left|by right].
Qed.

Lemma old_tuple_typed buf off mk rel r off' :
  decode_old_tuple buf off mk (columns rel) = Ok (r, off') → row_typed rel r.
Proof.
  unfold decode_old_tuple. intros ([r1 o1] & H1 & H)%bind_ok.
  apply bind_ok in H as (r2 & H2 & [= <- <-]). case_step_in H2.
  - intros n Hn. destruct (restrict_loop_dom _ _ _ _ _ H2 Hn) as [?|[? Hx]]; [done|].
    by rewrite lookup_empty in Hx.
  - injection H2 as <-. by eapply tuple_data_typed.
Qed.

Lemma decode_insert_typed p d m :
  decode_insert p (_relations d) (_streaming_active d) = Ok m → change_typed d (PInsert m).
Proof.
  unfold decode_insert. pose proof (read_subxid_some p 1 (_streaming_active d)) as Hs.
  destruct (read_subxid _ _ _) as [sub off]. cbn zeta.
  intros (u & _ & H)%bind_ok. case_step_in H; [done|].
  apply bind_ok in H as (r & Hr & H). apply bind_ok in H as ([new o] & Hn & [= <-]).
  split; [done|]. exists r. cbn. split; [by apply cache_get_ok|]. split; [done|].
  by eapply tuple_data_typed.
Qed.

Lemma decode_update_typed p d m :
  decode_update p (_relations d) (_streaming_active d) = Ok m → change_typed d (PUpdate m).
Proof.
  unfold decode_update. pose proof (read_subxid_some p 1 (_streaming_active d)) as Hs.
  destruct (read_subxid _ _ _) as [sub off]. cbn zeta.
  intros (u & _ & H)%bind_ok. apply bind_ok in H as (r & Hr & H).
  apply bind_ok in H as ([old o1] & Hold & H). case_step_in H; [done|].
  apply bind_ok in H as ([new o] & Hn & [= <-]).
  split; [done|]. exists r. cbn. split; [by apply cache_get_ok|]. split; [done|].
  split; [by eapply tuple_data_typed|]. intros old' ->. case_step_in Hold; [|done].
  apply bind_ok in Hold as ([x y] & Hx & [= -> ->]). by eapply old_tuple_typed.
Qed.

Lemma decode_delete_typed p d m :
  decode_delete p (_relations d) (_streaming_active d) = Ok m → change_typed d (PDelete m).
Proof.
  unfold decode_delete. pose proof (read_subxid_some p 1 (_streaming_active d)) as Hs.
  destruct (read_subxid _ _ _) as [sub off]. cbn zeta.
  intros (u & _ & H)%bind_ok. apply bind_ok in H as (r & Hr & H). case_step_in H; [done|].
  apply bind_ok in H as ([old o] & Hn & [= <-]).
  split; [done|]. exists r. cbn. split; [by apply cache_get_ok|]. split; [done|].
  by eapply old_tuple_typed.
Qed.

Lemma decode_truncate_typed p d m :
  decode_truncate p (_relations d) (_streaming_active d) = Ok m →
  change_typed d (PTruncate m).
Proof.
  unfold decode_truncate. pose proof (read_subxid_some p 1 (_streaming_active d)) as Hs.
  destruct (read_subxid _ _ _) as [sub off]. cbn zeta.
  intros (u & _ & H)%bind_ok. apply bind_ok in H as (fl & _ & H).
  apply bind_ok in H as (names & Hn & [= <-]). split; [done|]. cbn [tables].
  revert names Hn. generalize (off + 4 + 1). generalize (Z.to_nat (read_int p off 4)).
  induction n as [|n IH]; intros o names Hn; [by injection Hn as <-|].
  cbn [decode_truncate_tables] in Hn. apply bind_ok in Hn as (r & Hr & Hn).
  apply bind_ok in Hn as (rest & Hrest & [= <-]).
  constructor; [|by eapply IH]. apply cache_get_ok in Hr. eauto.
Qed.

(** A stateless decoder in [decode]: the outcome of [r] with the state kept. *)
Lemma lifted_step {A} (f : A → PgoutputMessage) (r : py A) p d :
  safe r → (∀ a, py_slice p 0 1 = kind_of (f a) ∧ d = next_client d (f a)) →
  match (f <$> r, d) with
  | (Ok m, d') => py_slice p 0 1 = kind_of m ∧ d' = next_client d m
  | (Raise e, d') =>
      decode_exn e = true ∧
      (d' = d ∨ py_slice p 0 1 = bs "E" ∧ d' = set_streaming false d)
  end.
Proof. destruct r; cbn; auto. Qed.

(** ** Properties *)

(** C10: every connection the server can produce is decoded faithfully: from the
    initial state, the payloads of any valid sequence of messages (relations,
    transactions, streaming brackets, type, origin and logical messages) decode
    to exactly their meanings, in order, and the decoder ends with the server's
    relations and bracket state. *)
Theorem decode_session_correct ms :
  valid_session Decoder_init ms = true →
  decode_all (encode_session Decoder_init ms) Decoder_init =
    (Ok (denote_session Decoder_init ms), final_server Decoder_init ms).
Proof. apply decode_all_session. Qed.

(** A connection with a described table, a streamed chunk with an update that
    omits a TOAST value and a key-only old tuple, an aborted savepoint, and an
    ordinary transaction with an insert, a delete and a truncate. *)
Definition sample_relation : Relation :=
  mkRelation 16384 (lit "public") (lit "outbox") (lit "d")
    [ mkColumn (lit "id") 20 (-1) true; mkColumn (lit "body") 25 (-1) false ].

Definition sample_session : list SMsg :=
  [ SStreamStart (mkStreamStart 700 true);
    SRelation 700 sample_relation;
    SUpdate 701 16384 (Some (OldKey, [CText (lit "7"); CNull])) [CText (lit "8"); CUnchanged];
    SStreamStop;
    SStreamAbort (mkStreamAbort 700 701);
    SBegin (mkBegin 1000 5 800);
    SInsert 0 16384 [CText (lit "1"); CText [233; 8364; 128512]];
    SDelete 0 16384 OldAll [CText (lit "1"); CNull];
    STruncate 0 [16384] true false;
    SOrigin (mkOrigin 9 (lit "o"));
    SCommit (mkCommit 0 1000 1010 6);
    SStreamCommit (mkStreamCommit 700 1020 1030 7) ].

Lemma decode_session_correct_witness :
  valid_session Decoder_init sample_session = true ∧
  decode_all (encode_session Decoder_init sample_session) Decoder_init =
    (Ok (denote_session Decoder_init sample_session),
     final_server Decoder_init sample_session).
Proof.
  split; [vm_compute; reflexivity|].
  apply (decode_session_correct sample_session). vm_compute. reflexivity.
Defined.

(** C26: the fixed-size messages are decoded exactly: a payload is accepted if and
    only if it is the encoding of the result with every field in range; the
    reserved byte of a [StreamCommit] and the value of the first-segment flag
    are the only freedom. *)
Theorem fixed_size_messages_iff p :
  (∀ m, decode_begin p = Ok m ↔
     valid_msg Decoder_init (SBegin m) = true ∧ p = encode_msg false (SBegin m)) ∧
  (∀ m, decode_commit p = Ok m ↔
     valid_msg Decoder_init (SCommit m) = true ∧ p = encode_msg false (SCommit m)) ∧
  (∀ m, decode_stream_start p = Ok m ↔
     u32 (ss_xid m) = true ∧
     ∃ b, p = bs "S" ++ be_bytes 4 (ss_xid m) ++ [b] ∧ first_segment m = truthy (b2z b)) ∧
  (∀ m, decode_stream_stop p = Ok m ↔ p = bs "E") ∧
  (∀ m, decode_stream_commit p = Ok m ↔
     valid_msg Decoder_init (SStreamCommit m) = true ∧
     ∃ b, p = bs "c" ++ be_bytes 4 (sc_xid m) ++ [b] ++ be_bytes 8 (sc_commit_lsn m)
                ++ be_bytes 8 (sc_end_lsn m) ++ be_bytes 8 (sc_commit_time m)) ∧
  (∀ m, decode_stream_abort p = Ok m ↔
     valid_msg Decoder_init (SStreamAbort m) = true ∧ p = encode_msg false (SStreamAbort m)).
Proof.
  split_and!; intros m.
  - split; [apply decode_begin_inv|]. intros [? ->]. by apply decode_begin_encode.
  - split; [apply decode_commit_inv|]. intros [? ->]. by apply decode_commit_encode.
  - split; [apply decode_stream_start_inv|]. intros (Hx & b & -> & Hb).
    rewrite decode_stream_start_encode by done. rewrite <- Hb. by destruct m.
  - apply decode_stream_stop_iff.
  - split; [apply decode_stream_commit_inv|]. intros (? & b & ->).
    by apply decode_stream_commit_encode.
  - split; [apply decode_stream_abort_inv|]. intros [? ->]. by apply decode_stream_abort_encode.
Qed.

(** One call of [Decoder.decode], on any payload and in any state.  A decoded
    message is of the kind its first byte announces, and the state changes only
    as that message says: a relation replaces the cached one with its id, a
    stream start or stop sets the bracket flag.  A failure raises one of the
    decoding exceptions and leaves the state unchanged, except that a malformed
    [StreamStop] still closes the bracket. *)
Theorem decode_step_spec p d :
  match decode p d with
  | (Ok m, d') => py_slice p 0 1 = kind_of m ∧ d' = next_client d m
  | (Raise e, d') =>
      decode_exn e = true ∧
      (d' = d ∨ py_slice p 0 1 = bs "E" ∧ d' = set_streaming false d)
  end.
Proof.
  pose proof (decode_cases p d) as H. cbn zeta in H.
  repeat (destruct H as [[Hk H]|H]; [rewrite H; clear H|]);
    [..|destruct H as (_ & msg & ctx & ->); split; [done|by left]];
    try (apply lifted_step; [auto with walbox | by split]).
  - pose proof (safe_stream_start p). destruct (decode_stream_start p); cbn; auto.
  - pose proof (safe_stream_stop p). destruct (decode_stream_stop p); cbn; auto.
  - pose proof (safe_relation p (_streaming_active d)).
    destruct (decode_relation p _); cbn; auto.
Qed.

(** C27: no change is ever decoded against an unknown table: on any payload, a
    decoded insert, update, delete or truncate names tables whose relation is
    cached, its rows hold only columns of that relation, and it carries a
    subtransaction id exactly when a streaming bracket is open. *)
Theorem decoded_changes_typed p d :
  match fst (decode p d) with
  | Ok m => change_typed d m
  | Raise _ => True
  end.
Proof.
  pose proof (decode_cases p d) as H. cbn zeta in H.
  repeat (destruct H as [[Hk H]|H]; [rewrite H; clear H|]);
    [..|by destruct H as (_ & msg & ctx & ->)].
  - by destruct (decode_stream_start p).
  - by destruct (decode_stream_stop p).
  - by destruct (decode_relation p _).
  - by destruct (decode_type p _).
  - by destruct (decode_message p _).
  - destruct (decode_insert p _ _) eqn:E; [|done]. by eapply decode_insert_typed.
  - destruct (decode_update p _ _) eqn:E; [|done]. by eapply decode_update_typed.
  - destruct (decode_delete p _ _) eqn:E; [|done]. by eapply decode_delete_typed.
  - destruct (decode_truncate p _ _) eqn:E; [|done]. by eapply decode_truncate_typed.
  - by destruct (decode_begin p).
  - by destruct (decode_commit p).
  - by destruct (decode_stream_commit p).
  - by destruct (decode_stream_abort p).
  - by destruct (decode_origin p).
Qed.

(** short payloads are not always reported as [DecodeError].  A truncated
    relation raises the [ValueError] of [bytes.index] or an [IndexError], a key
    tuple without its key column raises [KeyError], an invalid text raises
    [UnicodeDecodeError]; and a column value cut short on the wire is accepted
    as the shorter value. *)
Theorem short_payload_behaviour :
  let d := mkDecoder {[16384 := sample_relation]} false in
  let head k := bs k ++ be_bytes 4 16384 in
  fst (decode (bs "R") d) = Raise (ValueError (lit "subsection not found")) ∧
  fst (decode (head "R" ++ [x00; x00]) d) = Raise IndexError ∧
  fst (decode (head "D" ++ bs "K" ++ be_bytes 2 2 ++ bs "un") d) = Raise KeyError ∧
  fst (decode (head "I" ++ bs "N" ++ be_bytes 2 2 ++ bs "nt" ++ be_bytes 4 1 ++ [xff]) d)
    = Raise UnicodeDecodeError ∧
  fst (decode (head "I" ++ bs "N" ++ be_bytes 2 2 ++ bs "nt" ++ be_bytes 4 100 ++ bs "abc") d)
    = Ok (PInsert (mkInsert 16384 (lit "public.outbox")
            (<[lit "body" := Some (lit "abc")]> {[lit "id" := None]}) None)).
Proof. cbv zeta. by_compute. Qed.
