(* ===== verification/Abc.v ===== *)
(** The shared value types ([walbox/abc.py]): change events and transactions,
    the checkpoint handle a handler receives, the metrics snapshot, and the
    client options with their validation. *)
From stdpp Require Import base tactics list numbers strings gmap.
From S2P Require Import Prelude PyStr Errors PyFloat Pgoutput.

(** ** Changes and transactions *)

Inductive ChangeKind := INSERT | UPDATE | DELETE | TRUNCATE.

(** The [StrEnum] value of a kind. *)
Definition ChangeKind_value (k : ChangeKind) : pystr :=
  match k with
  | INSERT => lit "insert"
  | UPDATE => lit "update"
  | DELETE => lit "delete"
  | TRUNCATE => lit "truncate"
  end.

Record ChangeEvent := mkChangeEvent {
  kind : ChangeKind;
  table : pystr;
  new : option row;
  old : option row;
}.

Record Transaction := mkTransaction {
  tx_xid : Z;
  tx_commit_lsn : Z;
  tx_commit_time : Z;
  tx_changes : list ChangeEvent;
}.

#[global] Instance ChangeKind_eq_dec : EqDecision ChangeKind.
Proof. solve_decision. Defined.
#[global] Instance ChangeEvent_eq_dec : EqDecision ChangeEvent.
Proof. solve_decision. Defined.
#[global] Instance Transaction_eq_dec : EqDecision Transaction.
Proof. solve_decision. Defined.

(** ** [CheckpointHandle]

    [W] is the state the store and the callback act on, [Conn] the type of the
    caller's connections. *)
Section CheckpointHandle.
Context {W Conn : Type}.

Record CheckpointHandle := mkCheckpointHandle {
  _store_save : Z → option Conn → method W exn unit;
  _on_saved : option (Z → float → method W exn unit);
  _max_lsn : option Z;
}.

Definition max_lsn_exceeded (h : CheckpointHandle) (lsn : Z) : option Z :=
  match _max_lsn h with
  | Some m => if m <? lsn then Some m else None
  | None => None
  end.

(** [CheckpointHandle.save]; [started_at] and [now] are the two readings of
    [time.monotonic()]. *)
Definition CheckpointHandle_save (h : CheckpointHandle) (lsn : Z)
    (connection : option Conn) (started_at now : float) : method W exn unit :=
  match max_lsn_exceeded h lsn with
  | Some m =>
      raise (CheckpointError
        (lit "refusing to save checkpoint lsn=" ++ str_of_int lsn
           ++ lit ": greater than the dispatched transaction's commit_lsn="
           ++ str_of_int m))
  | None =>
      _ ← _store_save h lsn connection;
      match _on_saved h with
      | Some on_saved => on_saved lsn (f_sub now started_at)
      | None => mret tt
      end
  end.
End CheckpointHandle.
Arguments CheckpointHandle : clear implicits.

(** ** [Metrics] *)

Record Metrics := mkMetrics {
  m_consumer_name : pystr;
  m_receive_lsn : Z;
  m_checkpoint_lsn : Z;
  m_replication_lag_bytes : Z;
  m_transactions_processed : Z;
  m_changes_processed : Z;
  m_reconnect_count : Z;
  m_last_handler_latency_seconds : float;
  m_queue_depth : Z;
  m_last_keepalive_at : float;
  m_last_checkpoint_latency_seconds : float;
  m_transactions_since_checkpoint : Z;
}.

(** ** [WalboxOptions] *)

(** [str.isspace] of one code point: the Unicode whitespace of Python. *)
Definition is_space (c : Z) : bool :=
  ((9 <=? c) && (c <=? 13)) || ((28 <=? c) && (c <=? 32))
  || (c =? 133) || (c =? 160) || (c =? 5760) || ((8192 <=? c) && (c <=? 8202))
  || (c =? 8232) || (c =? 8233) || (c =? 8239) || (c =? 8287) || (c =? 12288).

Fixpoint lstrip (s : pystr) : pystr :=
  match s with
  | [] => []
  | c :: s' => if is_space c then lstrip s' else s
  end.

(** [s.strip()] *)
Definition strip (s : pystr) : pystr := rev (lstrip (rev (lstrip s))).

Record WalboxOptions := mkWalboxOptions {
  consumer_name : pystr;
  dsn : pystr;
  slot_name : pystr;
  publication_name : pystr;
  max_pending_transactions : Z;
  status_interval : Z;
  on_metrics : option (Metrics → py unit);
}.

(** [not value or not value.strip()] *)
Definition is_blank (value : pystr) : bool :=
  bool_decide (value = []) || bool_decide (strip value = []).

(** The loop over the required fields. *)
Fixpoint check_not_blank (fields : list (string * pystr)) : py unit :=
  match fields with
  | [] => Ok tt
  | (name, value) :: rest =>
      if is_blank value then Raise (ValueError (lit name ++ lit " must not be blank"))
      else check_not_blank rest
  end.

Definition WalboxOptions_post_init (o : WalboxOptions) : py unit :=
  _ ← check_not_blank
        [ ("consumer_name", consumer_name o); ("dsn", dsn o);
          ("slot_name", slot_name o); ("publication_name", publication_name o) ]%string;
  if max_pending_transactions o <=? 0 then
    Raise (ValueError (lit "max_pending_transactions must be > 0"))
  else if status_interval o <=? 0 then
    Raise (ValueError (lit "status_interval must be > 0"))
  else Ok tt.

(** ** Lemmas *)

Lemma lstrip_nil s : lstrip s = [] ↔ forallb is_space s = true.
Proof.
  induction s as [|c s IH]; [done|]. cbn. destruct (is_space c); [done|]. done.
Qed.

Lemma lstrip_suffix s : ∃ pre, s = pre ++ lstrip s ∧ forallb is_space pre = true.
Proof.
  induction s as [|c s (pre & Hs & Hp)]; [by exists []|]. cbn.
  destruct (is_space c) eqn:E; [|by exists []].
  exists (c :: pre). cbn. by rewrite E, <- Hs.
Qed.

Lemma forallb_rev {A} (f : A → bool) l : forallb f (rev l) = forallb f l.
Proof.
  induction l as [|x l IH]; [done|]. cbn. rewrite forallb_app, IH. cbn.
  rewrite andb_true_r. apply andb_comm.
Qed.

Lemma strip_nil s : strip s = [] ↔ forallb is_space s = true.
Proof.
  unfold strip. rewrite <- (lstrip_nil s). split.
  - intros H. apply (f_equal (@rev Z)) in H. rewrite rev_involutive in H. cbn in H.
    apply lstrip_nil in H. rewrite forallb_rev in H.
    destruct (lstrip_suffix s) as (pre & Hs & Hp).
    apply lstrip_nil. rewrite Hs, forallb_app, Hp. done.
  - by intros ->.
Qed.

(** A value is blank when it has no character other than whitespace. *)
Lemma is_blank_spec s : is_blank s = forallb is_space s.
Proof.
  unfold is_blank. apply eq_true_iff_eq. rewrite orb_true_iff, !bool_decide_eq_true, strip_nil.
  split; [|by right]. intros [->|?]; done.
Qed.

(** ** Properties *)

(** Options are accepted exactly when every required name has a character
    that is not whitespace and both bounds are positive; otherwise [ValueError]
    is raised, and a blank name is reported before a bad bound. *)
Theorem options_validation o :
  let names_ok :=
    negb (forallb is_space (consumer_name o)) && negb (forallb is_space (dsn o))
    && negb (forallb is_space (slot_name o)) && negb (forallb is_space (publication_name o)) in
  if names_ok && (0 <? max_pending_transactions o) && (0 <? status_interval o)
  then WalboxOptions_post_init o = Ok tt
  else ∃ m, WalboxOptions_post_init o = Raise (ValueError m) ∧
            (names_ok = false →
             ∃ name, m = lit name ++ lit " must not be blank").
Proof.
  cbn zeta. unfold WalboxOptions_post_init. cbn [check_not_blank]. rewrite !is_blank_spec.
  destruct (forallb is_space (consumer_name o)); [eexists; split; [done|intros _; by eexists]|].
  destruct (forallb is_space (dsn o)); [eexists; split; [done|intros _; by eexists]|].
  destruct (forallb is_space (slot_name o)); [eexists; split; [done|intros _; by eexists]|].
  destruct (forallb is_space (publication_name o)); [eexists; split; [done|intros _; by eexists]|].
  cbn [negb andb mbind result_bind]. rewrite !Z.leb_antisym.
  destruct (0 <? max_pending_transactions o), (0 <? status_interval o);
    cbn [andb negb]; first [done | by eexists].
Qed.

(** [CheckpointHandle.save] never lets a handler get ahead of its
    transaction: above the bound it raises [CheckpointError] and neither the
    store nor the callback runs; otherwise the store is called once with that
    position and connection, its failure is passed on, and only after its
    success is the progress callback told the same position. *)
Theorem checkpoint_handle_save_spec {W Conn} (h : CheckpointHandle W Conn) lsn conn t0 t1 w :
  match _max_lsn h with
  | Some m => m < lsn
  | None => False
  end ∧
  (∃ e, CheckpointHandle_save h lsn conn t0 t1 w = (Raise e, w) ∧
        isinstance e cCheckpointError = true)
  ∨
  match _max_lsn h with
  | Some m => lsn <= m
  | None => True
  end ∧
  CheckpointHandle_save h lsn conn t0 t1 w =
    match _store_save h lsn conn w with
    | (Raise e, w') => (Raise e, w')
    | (Ok _, w') =>
        match _on_saved h with
        | Some f => f lsn (f_sub t1 t0) w'
        | None => (Ok tt, w')
        end
    end.
Proof.
  unfold CheckpointHandle_save, max_lsn_exceeded.
  destruct (_max_lsn h) as [m|]; [destruct (m <? lsn) eqn:E; zbool|].
  - left. split; [done|]. eexists. by split.
  - right. split; [done|]. unfold mbind, method_bind.
    destruct (_store_save h lsn conn w) as [[] ?]; [|done]. by destruct (_on_saved h).
  - right. split; [done|]. unfold mbind, method_bind.
    destruct (_store_save h lsn conn w) as [[] ?]; [|done]. by destruct (_on_saved h).
Qed.
