(* ===== verification/Transaction.v ===== *)
(** Transaction assembly ([walbox/transaction.py]): the per-transaction buffers
    and every handler of [TransactionAssembler].  A [_Pending] is mutated in
    place through the dictionary that holds it, so each handler writes the
    changed bucket back under its xid. *)
From stdpp Require Import base tactics list numbers strings gmap.
From S2P Require Import Prelude PyStr Errors PyBytes Pgoutput Abc.

(** ** State *)

Record _Pending := mkPending {
  changes : list ChangeEvent;
  pend_final_lsn : option Z;
  subxact_boundaries : gmap Z Z;
}.

Record TransactionAssembler := mkAssembler {
  _pending : gmap Z _Pending;
  _current_xid : option Z;
  _active_stream_xid : option Z;
}.

#[global] Instance Pending_eq_dec : EqDecision _Pending.
Proof. solve_decision. Defined.
#[global] Instance TransactionAssembler_eq_dec : EqDecision TransactionAssembler.
Proof. solve_decision. Defined.

(** [TransactionAssembler.__init__] *)
Definition TransactionAssembler_init : TransactionAssembler := mkAssembler ∅ None None.

Definition set_pending (p : gmap Z _Pending) (a : TransactionAssembler) :=
  mkAssembler p (_current_xid a) (_active_stream_xid a).
Definition set_current (x : option Z) (a : TransactionAssembler) :=
  mkAssembler (_pending a) x (_active_stream_xid a).
Definition set_active (x : option Z) (a : TransactionAssembler) :=
  mkAssembler (_pending a) (_current_xid a) x.

Abbreviation asm := (method TransactionAssembler exn).

(** [xid in self._pending] *)
Definition has_bucket (xid : Z) (a : TransactionAssembler) : bool :=
  match _pending a !! xid with Some _ => true | None => false end.

(** ** Ordinary transactions *)

Definition _begin (message : Begin) : asm unit :=
  self ← get_self;
  match _current_xid self with
  | Some _ =>
      raise (ProtocolError (lit "received Begin while a transaction is already open")
               (ctx_xid (begin_xid message)))
  | None =>
      if has_bucket (begin_xid message) self then
        raise (ProtocolError
          (lit "received Begin for xid " ++ str_of_int (begin_xid message)
             ++ lit " which already has an open streaming bucket")
          (ctx_xid (begin_xid message)))
      else
        _ ← modify_self (set_current (Some (begin_xid message)));
        modify_self (λ self,
          set_pending (<[begin_xid message := mkPending [] (Some (final_lsn message)) ∅]>
                         (_pending self)) self)
  end.

Definition _active_xid (message_kind : string) : asm Z :=
  self ← get_self;
  match _active_stream_xid self with
  | Some x => mret x
  | None =>
      match _current_xid self with
      | Some x => mret x
      | None => raise (ProtocolError0
                  (lit "received " ++ lit message_kind ++ lit " with no open transaction"))
      end
  end.

(** The boundary bookkeeping and the append on one bucket. *)
Definition append_to (p : _Pending) (change : ChangeEvent) (subxid : option Z) : _Pending :=
  let boundaries :=
    match subxid with
    | Some s =>
        match subxact_boundaries p !! s with
        | Some _ => subxact_boundaries p
        | None => <[s := py_len (changes p)]> (subxact_boundaries p)
        end
    | None => subxact_boundaries p
    end in
  mkPending (changes p ++ [change]) (pend_final_lsn p) boundaries.

Definition _append_change (xid : Z) (change : ChangeEvent) (subxid : option Z) : asm unit :=
  self ← get_self;
  match _pending self !! xid with
  | None =>
      raise (ProtocolError
        (lit "received a change for xid " ++ str_of_int xid ++ lit " with no open bucket")
        (ctx_xid xid))
  | Some p => put_self (set_pending (<[xid := append_to p change subxid]> (_pending self)) self)
  end.

Definition _append_insert (message : Insert) : asm unit :=
  xid ← _active_xid "Insert";
  _append_change xid (mkChangeEvent INSERT (ins_table message) (Some (ins_new message)) None)
    (ins_subxid message).

Definition _append_update (message : Update) : asm unit :=
  xid ← _active_xid "Update";
  _append_change xid
    (mkChangeEvent UPDATE (upd_table message) (Some (upd_new message)) (upd_old message))
    (upd_subxid message).

Definition _append_delete (message : Delete) : asm unit :=
  xid ← _active_xid "Delete";
  _append_change xid (mkChangeEvent DELETE (del_table message) None (Some (del_old message)))
    (del_subxid message).

Definition _append_truncate (message : Truncate) : asm unit :=
  xid ← _active_xid "Truncate";
  for_each (λ table,
      _append_change xid (mkChangeEvent TRUNCATE table None None) (tru_subxid message))
    (tables message).

(** [_build_transaction]: the commit is given by its [end_lsn] and
    [commit_time], the fields [Commit] and [StreamCommit] share. *)
Definition _build_transaction (xid : Z) (chs : list ChangeEvent) (end_lsn commit_time : Z) :
    Transaction :=
  mkTransaction xid (end_lsn - 1) commit_time chs.

Definition _finish (message : Commit) : asm Transaction :=
  self ← get_self;
  match _current_xid self with
  | None => raise (ProtocolError0 (lit "received Commit with no open transaction"))
  | Some xid =>
      match _pending self !! xid with
      | None => raise KeyError
      | Some pending =>
          if bool_decide (pend_final_lsn pending ≠ Some (commit_lsn message)) then
            raise (ProtocolError
              (lit "Begin.final_lsn does not match Commit.commit_lsn")
              (ctx_xid_lsn xid (commit_lsn message)))
          else
            let transaction :=
              _build_transaction xid (changes pending) (end_lsn message) (commit_time message) in
            _ ← modify_self (λ self, set_pending (delete xid (_pending self)) self);
            _ ← modify_self (set_current None);
            mret transaction
      end
  end.

(** ** Streamed transactions *)

Definition stream_start (message : StreamStart) : asm unit :=
  self ← get_self;
  _ ← (if first_segment message then
         if has_bucket (ss_xid message) self then
           raise (ProtocolError
             (lit "duplicate StreamStart(first_segment=True) for xid "
                ++ str_of_int (ss_xid message))
             (ctx_xid (ss_xid message)))
         else modify_self (λ self,
                set_pending (<[ss_xid message := mkPending [] None ∅]> (_pending self)) self)
       else if negb (has_bucket (ss_xid message) self) then
         raise (ProtocolError
           (lit "StreamStart continuation for unknown xid " ++ str_of_int (ss_xid message))
           (ctx_xid (ss_xid message)))
       else mret tt);
  modify_self (set_active (Some (ss_xid message))).

Definition stream_stop : asm unit := modify_self (set_active None).

(** [if self._active_stream_xid == xid: self._active_stream_xid = None] *)
Definition close_active (xid : Z) : asm unit :=
  modify_self (λ self,
    if bool_decide (_active_stream_xid self = Some xid) then set_active None self else self).

Definition stream_commit (message : StreamCommit) : asm Transaction :=
  self ← get_self;
  match _pending self !! sc_xid message with
  | None =>
      raise (ProtocolError
        (lit "received StreamCommit for unknown xid " ++ str_of_int (sc_xid message))
        (ctx_xid (sc_xid message)))
  | Some pending =>
      _ ← modify_self (λ self, set_pending (delete (sc_xid message) (_pending self)) self);
      _ ← close_active (sc_xid message);
      mret (_build_transaction (sc_xid message) (changes pending)
              (sc_end_lsn message) (sc_commit_time message))
  end.

(** The subtransactions whose first change lies in the discarded region. *)
Definition stale_subxids (boundaries : gmap Z Z) (boundary : Z) : list Z :=
  fst <$> filter (λ '(_, index), boundary <= index) (map_to_list boundaries).

(** The truncation of a bucket at a subtransaction's first change. *)
Definition discard_from (p : _Pending) (subxid boundary : Z) : _Pending :=
  let boundaries := delete subxid (subxact_boundaries p) in
  mkPending (take (Z.to_nat boundary) (changes p)) (pend_final_lsn p)
    (foldr delete boundaries (stale_subxids boundaries boundary)).

Definition stream_abort (message : StreamAbort) : asm unit :=
  if sa_subxid message =? sa_xid message then
    _ ← modify_self (λ self, set_pending (delete (sa_xid message) (_pending self)) self);
    close_active (sa_xid message)
  else
    self ← get_self;
    match _pending self !! sa_xid message with
    | None => mret tt
    | Some pending =>
        match subxact_boundaries pending !! sa_subxid message with
        | None => mret tt
        | Some boundary =>
            modify_self (λ self,
              set_pending (<[sa_xid message := discard_from pending (sa_subxid message) boundary]>
                             (_pending self)) self)
        end
    end.

(** ** Dispatch *)

(** [_feed_stream_message], on the four streaming kinds. *)
Definition _feed_stream_message (message : PgoutputMessage) : asm (option Transaction) :=
  match message with
  | PStreamStart m => _ ← stream_start m; mret None
  | PStreamStop _ => _ ← stream_stop; mret None
  | PStreamCommit m => t ← stream_commit m; mret (Some t)
  | PStreamAbort m => _ ← stream_abort m; mret None
  | _ => raise AssertionError
  end.

Definition feed (message : PgoutputMessage) : asm (option Transaction) :=
  match message with
  | PBegin m => _ ← _begin m; mret None
  | PInsert m => _ ← _append_insert m; mret None
  | PUpdate m => _ ← _append_update m; mret None
  | PDelete m => _ ← _append_delete m; mret None
  | PTruncate m => _ ← _append_truncate m; mret None
  | PCommit m => t ← _finish m; mret (Some t)
  | PRelation _ => mret None
  | PStreamStart _ | PStreamStop _ | PStreamCommit _ | PStreamAbort _ =>
      _feed_stream_message message
  | PType _ | POrigin _ | PMessage _ => raise AssertionError
  end.

(** Feeding a sequence of messages, in wire order: the transactions emitted. *)
Fixpoint feed_all (messages : list PgoutputMessage) : asm (list Transaction) :=
  match messages with
  | [] => mret []
  | m :: rest =>
      t ← feed m;
      ts ← feed_all rest;
      mret (match t with Some t => t :: ts | None => ts end)
  end.
