(* ===== verification/TransactionSpec.v ===== *)
(** What transaction assembly promises, and the proof that the handlers of
    [Transaction] keep the promise.

    The abstract bucket of a transaction is the list of its changes, each with
    the subtransaction that made it; rolling a subtransaction back cuts the list
    at that subtransaction's first change ([cut_at]).  The concrete bucket keeps
    the changes and, per subtransaction, an index ([repr]).  On top of it sit
    two specifications of a server: [Block] sequences, in which chunks of
    streamed transactions, ordinary transactions, aborts and commits interleave;
    and [items], the tree of savepoints of one streamed transaction. *)
From stdpp Require Import base tactics list numbers strings gmap.
From S2P Require Import Prelude PyStr Errors PyBytes Pgoutput Abc Transaction.

(** ** Abstract buckets *)

Abbreviation tagged := (list (ChangeEvent * option Z)).

(** The changes before the first one of subtransaction [s]; all of them when it
    made none. *)
Fixpoint cut_at (s : Z) (t : tagged) : tagged :=
  match t with
  | [] => []
  | (c, tag) :: t' => if bool_decide (tag = Some s) then [] else (c, tag) :: cut_at s t'
  end.

(** The position of the first change of subtransaction [s]. *)
Fixpoint first_index (s : Z) (t : tagged) : option Z :=
  match t with
  | [] => None
  | (_, tag) :: t' =>
      if bool_decide (tag = Some s) then Some 0 else Z.succ <$> first_index s t'
  end.

(** The concrete bucket [p] represents [t]. *)
Definition repr (p : _Pending) (t : tagged) : Prop :=
  changes p = t.*1 ∧ ∀ s, subxact_boundaries p !! s = first_index s t.

(** The changes a row message carries, in order. *)
Definition events_of (m : PgoutputMessage) : tagged :=
  match m with
  | PInsert m =>
      [(mkChangeEvent INSERT (ins_table m) (Some (ins_new m)) None, ins_subxid m)]
  | PUpdate m =>
      [(mkChangeEvent UPDATE (upd_table m) (Some (upd_new m)) (upd_old m), upd_subxid m)]
  | PDelete m =>
      [(mkChangeEvent DELETE (del_table m) None (Some (del_old m)), del_subxid m)]
  | PTruncate m =>
      (λ tb, (mkChangeEvent TRUNCATE tb None None, tru_subxid m)) <$> tables m
  | _ => []
  end.

(** The messages that may occur inside a transaction: row changes and
    relations. *)
Definition is_row (m : PgoutputMessage) : bool :=
  match m with
  | PInsert _ | PUpdate _ | PDelete _ | PTruncate _ | PRelation _ => true
  | _ => false
  end.

(** *** The bucket invariant *)

(** Boundaries point at distinct positions inside the buffer. *)
Definition wf_bucket (p : _Pending) : Prop :=
  (∀ s i, subxact_boundaries p !! s = Some i → 0 <= i < py_len (changes p)) ∧
  (∀ s1 s2 i, subxact_boundaries p !! s1 = Some i →
              subxact_boundaries p !! s2 = Some i → s1 = s2).

(** Only the open ordinary transaction has a final LSN. *)
Definition wf_assembler (a : TransactionAssembler) : Prop :=
  (∀ x p, _pending a !! x = Some p → wf_bucket p) ∧
  (∀ x p l, _pending a !! x = Some p → pend_final_lsn p = Some l →
            _current_xid a = Some x).

(** *** Lemmas on abstract buckets *)

Lemma first_index_range s t i : first_index s t = Some i → 0 <= i < py_len t.
Proof.
  revert i. induction t as [|[c tag] t IH]; intros i; [done|]. cbn [first_index].
  rewrite py_len_cons. case_bool_decide.
  - intros [= <-]. pose proof (py_len_nonneg t). lia.
  - intros (j & Hj & ->)%fmap_Some. specialize (IH _ Hj). lia.
Qed.

Lemma first_index_app s t u :
  first_index s (t ++ u) =
  match first_index s t with
  | Some i => Some i
  | None => (λ i, py_len t + i) <$> first_index s u
  end.
Proof.
  induction t as [|[c tag] t IH]; [cbn; by destruct (first_index s u)|].
  cbn [first_index app]. case_bool_decide; [done|]. rewrite IH.
  destruct (first_index s t); [done|]. destruct (first_index s u) as [i|]; [|done].
  cbn. f_equal. rewrite py_len_cons. lia.
Qed.

Lemma cut_at_take s t i :
  first_index s t = Some i → cut_at s t = take (Z.to_nat i) t.
Proof.
  revert i. induction t as [|[c tag] t IH]; intros i; [done|]. cbn [first_index cut_at].
  case_bool_decide; [by intros [= <-]|].
  intros (j & Hj & ->)%fmap_Some. pose proof (first_index_range _ _ _ Hj).
  rewrite Z2Nat.inj_succ by lia. cbn. by rewrite (IH _ Hj).
Qed.

Lemma cut_at_absent s t : first_index s t = None → cut_at s t = t.
Proof.
  induction t as [|[c tag] t IH]; [done|]. cbn [first_index cut_at].
  case_bool_decide as Htag; [done|]. intros H. rewrite IH; [done|].
  by destruct (first_index s t).
Qed.

(** What a cut does to the positions of the other subtransactions. *)
Lemma first_index_take s t n :
  first_index s (take n t) =
  match first_index s t with
  | Some i => if i <? Z.of_nat n then Some i else None
  | None => None
  end.
Proof.
  revert n. induction t as [|[c tag] t IH]; intros n; [by destruct n|].
  destruct n as [|n].
  - destruct (first_index s ((c, tag) :: t)) as [i|] eqn:E; [|done].
    apply first_index_range in E. by rewrite (proj2 (Z.ltb_ge _ _)) by lia.
  - cbn [take first_index]. case_bool_decide.
    + by rewrite (proj2 (Z.ltb_lt _ _)) by lia.
    + rewrite IH. destruct (first_index s t) as [i|]; [|done]. cbn.
      destruct (i <? Z.of_nat n) eqn:E; zbool.
      * by rewrite (proj2 (Z.ltb_lt _ _)) by lia.
      * by rewrite (proj2 (Z.ltb_ge _ _)) by lia.
Qed.

Lemma first_index_inj s1 s2 t i :
  first_index s1 t = Some i → first_index s2 t = Some i → s1 = s2.
Proof.
  revert i. induction t as [|[c tag] t IH]; intros i; [done|]. cbn [first_index].
  do 2 case_bool_decide; subst; try congruence.
  - intros [= <-] (j & Hj & Hi)%fmap_Some. apply first_index_range in Hj. lia.
  - intros (j & Hj & ->)%fmap_Some [= Hi]. apply first_index_range in Hj. lia.
  - intros (j & Hj & ->)%fmap_Some (k & Hk & Hi)%fmap_Some.
    assert (j = k) as <- by lia. by eapply IH.
Qed.

Lemma cut_at_app_absent s t u :
  first_index s t = None → cut_at s (t ++ u) = t ++ cut_at s u.
Proof.
  induction t as [|[c tag] t IH]; [done|]. cbn [first_index cut_at app].
  case_bool_decide as Htag; [done|]. intros H. rewrite IH; [done|].
  by destruct (first_index s t).
Qed.

Lemma first_index_none s t : first_index s t = None ↔ Some s ∉ t.*2.
Proof.
  induction t as [|[c tag] t IH]; [split; [intros _; apply not_elem_of_nil|done]|].
  cbn [first_index]. rewrite fmap_cons, not_elem_of_cons. cbn [snd].
  case_bool_decide.
  - split; [done|]. by intros [? _].
  - rewrite fmap_None, IH. split; [by split; [congruence|] | by intros [_ ?]].
Qed.

(** *** Representation *)

Lemma repr_empty l : repr (mkPending [] l ∅) [].
Proof. split; [done|]. intros s. apply lookup_empty. Qed.

Lemma repr_len p t : repr p t → py_len (changes p) = py_len t.
Proof. intros [-> _]. unfold py_len. by rewrite length_fmap. Qed.

Lemma repr_append p t c tag :
  repr p t → repr (append_to p c tag) (t ++ [(c, tag)]).
Proof.
  intros Hr. pose proof (repr_len _ _ Hr) as Hl. destruct Hr as [Hc Hb]. split.
  - cbn [append_to changes]. by rewrite fmap_app, Hc.
  - intros s. rewrite first_index_app. cbn [append_to subxact_boundaries first_index].
    destruct tag as [u|].
    + rewrite (Hb u). destruct (decide (s = u)) as [->|Hne].
      * destruct (first_index u t) as [i|] eqn:E; [by rewrite Hb, E|].
        rewrite lookup_insert_eq, bool_decide_true by done. cbn. f_equal. lia.
      * rewrite bool_decide_false by congruence.
        destruct (first_index u t); rewrite ?lookup_insert_ne by done; rewrite Hb;
          by destruct (first_index s t).
    + rewrite Hb. rewrite bool_decide_false by done. by destruct (first_index s t).
Qed.

Lemma foldr_delete_lookup (l : list Z) (m : gmap Z Z) k :
  foldr delete m l !! k = if bool_decide (k ∈ l) then None else m !! k.
Proof.
  induction l as [|x l IH]; [by rewrite bool_decide_false by apply not_elem_of_nil|].
  cbn [foldr]. destruct (decide (k = x)) as [->|Hne].
  - rewrite lookup_delete_eq, bool_decide_true; [done|]. apply elem_of_cons. by left.
  - rewrite lookup_delete_ne by done. rewrite IH. repeat case_bool_decide; try done.
    + by destruct H0; apply elem_of_cons; right.
    + by apply elem_of_cons in H0 as [?|?].
Qed.

Lemma elem_of_stale boundaries b k :
  k ∈ stale_subxids boundaries b ↔ ∃ i, boundaries !! k = Some i ∧ b <= i.
Proof.
  unfold stale_subxids. rewrite list_elem_of_fmap. split.
  - intros ([k' i] & -> & Hin). apply list_elem_of_filter in Hin as [Hb Hin].
    apply elem_of_map_to_list in Hin. eauto.
  - intros (i & Hk & Hb). exists (k, i). split; [done|].
    apply list_elem_of_filter. split; [done|]. by apply elem_of_map_to_list.
Qed.

Lemma repr_discard p t s i :
  repr p t → subxact_boundaries p !! s = Some i → repr (discard_from p s i) (cut_at s t).
Proof.
  intros [Hc Hb] Hs. rewrite Hb in Hs. pose proof (first_index_range _ _ _ Hs) as Hi.
  rewrite (cut_at_take _ _ _ Hs). split.
  - cbn [discard_from changes]. by rewrite Hc, fmap_take.
  - intros k. cbn [discard_from subxact_boundaries].
    rewrite foldr_delete_lookup, first_index_take, Z2Nat.id by lia.
    destruct (decide (k = s)) as [->|Hne].
    + rewrite lookup_delete_eq, Hs, Z.ltb_irrefl. by case_bool_decide.
    + rewrite lookup_delete_ne, Hb by done. case_bool_decide as Hst.
      * apply elem_of_stale in Hst as (j & Hj & Hle).
        rewrite lookup_delete_ne, Hb in Hj by done. rewrite Hj.
        by rewrite (proj2 (Z.ltb_ge _ _)) by lia.
      * destruct (first_index k t) as [j|] eqn:Hj; [|done].
        destruct (j <? i) eqn:E; [done|]. zbool. destruct Hst.
        apply elem_of_stale. exists j. by rewrite lookup_delete_ne, Hb.
Qed.

Lemma repr_wf p t : repr p t → wf_bucket p.
Proof.
  intros Hr. pose proof (repr_len _ _ Hr) as Hl. destruct Hr as [_ Hb]. split.
  - intros s i. rewrite Hb, Hl. apply first_index_range.
  - intros s1 s2 i. rewrite !Hb. apply first_index_inj.
Qed.

(** ** Handlers on an assembler state *)

(** Every buffer represents a tagged list, and only the open ordinary
    transaction has a final LSN. *)
Definition asm_inv (a : TransactionAssembler) : Prop :=
  (∀ x p, _pending a !! x = Some p → ∃ t, repr p t) ∧
  (∀ x p l, _pending a !! x = Some p → pend_final_lsn p = Some l →
            _current_xid a = Some x).

Lemma asm_inv_wf a : asm_inv a → wf_assembler a.
Proof.
  intros [Hr Hf]. split; [|done]. intros x p Hp.
  destruct (Hr x p Hp) as [t Ht]. by eapply repr_wf.
Qed.

(** The bucket a row change goes to. *)
Definition target (a : TransactionAssembler) : option Z :=
  match _active_stream_xid a with Some x => Some x | None => _current_xid a end.

(** Appending tagged changes to a bucket. *)
Definition append_all (p : _Pending) (t : tagged) : _Pending :=
  fold_left (λ p '(c, tag), append_to p c tag) t p.

Lemma append_all_final p t : pend_final_lsn (append_all p t) = pend_final_lsn p.
Proof.
  revert p. induction t as [|[c tag] t IH]; intros p; [done|]. cbn [append_all fold_left].
  unfold append_all in IH. by rewrite IH.
Qed.

Lemma repr_append_all p t u : repr p t → repr (append_all p u) (t ++ u).
Proof.
  revert p t. induction u as [|[c tag] u IH]; intros p t Hr; [by rewrite app_nil_r|].
  cbn [append_all fold_left]. rewrite cons_middle, app_assoc.
  apply IH. by apply repr_append.
Qed.

Definition put_bucket (x : Z) (p : _Pending) (a : TransactionAssembler) :=
  set_pending (<[x := p]> (_pending a)) a.

Lemma put_bucket_twice x p q a : put_bucket x p (put_bucket x q a) = put_bucket x p a.
Proof. unfold put_bucket, set_pending. cbn. by rewrite insert_insert_eq. Qed.

Lemma put_bucket_id x p a : _pending a !! x = Some p → put_bucket x p a = a.
Proof. intros H. unfold put_bucket, set_pending. rewrite insert_id by done. by destruct a. Qed.

Lemma append_change_run x c tag a p :
  _pending a !! x = Some p →
  _append_change x c tag a = (Ok tt, put_bucket x (append_to p c tag) a).
Proof. intros H. unfold _append_change, mbind, method_bind, get_self. by rewrite H. Qed.

(** The loop of [_append_truncate]. *)
Lemma append_loop_run x (mk : pystr → ChangeEvent) tag names a p :
  _pending a !! x = Some p →
  for_each (λ tb, _append_change x (mk tb) tag) names a =
    (Ok tt, put_bucket x (append_all p ((λ tb, (mk tb, tag)) <$> names)) a).
Proof.
  revert a p. induction names as [|tb names IH]; intros a p H.
  - cbn. by rewrite put_bucket_id.
  - cbn [for_each]. unfold mbind, method_bind. rewrite (append_change_run _ _ _ _ _ H).
    rewrite (IH _ (append_to p (mk tb) tag)) by (cbn; apply lookup_insert_eq).
    by rewrite put_bucket_twice.
Qed.

(** [_active_xid] resolves to [target]. *)
Lemma active_xid_run k a :
  _active_xid k a =
  match target a with
  | Some x => (Ok x, a)
  | None => (Raise (ProtocolError0
               (lit "received " ++ lit k ++ lit " with no open transaction")), a)
  end.
Proof.
  unfold _active_xid, target, mbind, method_bind, get_self.
  destruct (_active_stream_xid a); [done|]. by destruct (_current_xid a).
Qed.

(** A row message on an open bucket appends its changes to it and touches
    nothing else. *)
Lemma feed_row_run m a x p :
  is_row m = true → target a = Some x → _pending a !! x = Some p →
  feed m a = (Ok None, put_bucket x (append_all p (events_of m)) a).
Proof.
  intros Hm Ht Hp. destruct m; try discriminate Hm; cbn [feed events_of];
    unfold mbind, method_bind, _append_insert, _append_update, _append_delete,
      _append_truncate, mbind, method_bind; rewrite ?active_xid_run, ?Ht.
  - cbn. by rewrite put_bucket_id.
  - by rewrite (append_change_run _ _ _ _ _ Hp).
  - by rewrite (append_change_run _ _ _ _ _ Hp).
  - by rewrite (append_change_run _ _ _ _ _ Hp).
  - by rewrite (append_loop_run _ (λ tb, mkChangeEvent TRUNCATE tb None None) _ _ _ _ Hp).
Qed.

(** A row message without an open bucket raises and changes nothing; a truncate
    of no table and a relation have nothing to append. *)
Lemma feed_row_fail m a :
  is_row m = true →
  match target a with Some x => _pending a !! x = None | None => True end →
  (∃ e, feed m a = (Raise e, a) ∧ isinstance e cProtocolError = true) ∨
  feed m a = (Ok None, a).
Proof.
  intros Hm Ht. destruct m as [m|m|m|m|m|m|m|m|m|m|m|m|m|m]; try discriminate Hm;
    cbn [feed]; unfold mbind, method_bind, _append_insert, _append_update, _append_delete,
      _append_truncate, mbind, method_bind; rewrite ?active_xid_run;
    [by right|..]; (destruct (target a) as [x|]; [|left; by eexists]);
    unfold _append_change, mbind, method_bind, get_self.
  1-3: rewrite Ht; left; by eexists.
  destruct (tables m); [by right|]. left. cbn [for_each].
  unfold mbind, method_bind. rewrite Ht. by eexists.
Qed.

(** *** The remaining handlers, as equations *)

Lemma begin_run m a :
  feed (PBegin m) a =
  if bool_decide (_current_xid a = None ∧ _pending a !! begin_xid m = None) then
    (Ok None, put_bucket (begin_xid m) (mkPending [] (Some (final_lsn m)) ∅)
                (set_current (Some (begin_xid m)) a))
  else (fst (feed (PBegin m) a), a).
Proof.
  cbn [feed]. unfold _begin, mbind, method_bind, get_self, raise, modify_self, has_bucket.
  destruct (_current_xid a); [by rewrite bool_decide_false by (by intros [? ?])|].
  destruct (_pending a !! begin_xid m); [by rewrite bool_decide_false by (by intros [? ?])|].
  by rewrite bool_decide_true.
Qed.

Lemma commit_run m a x p :
  _current_xid a = Some x → _pending a !! x = Some p →
  pend_final_lsn p = Some (commit_lsn m) →
  feed (PCommit m) a =
    (Ok (Some (mkTransaction x (end_lsn m - 1) (commit_time m) (changes p))),
     set_current None (set_pending (delete x (_pending a)) a)).
Proof.
  intros Hx Hp Hl. cbn [feed].
  unfold _finish, mbind, method_bind, get_self, raise, modify_self.
  by rewrite Hx, Hp, bool_decide_false by naive_solver.
Qed.

Lemma stream_start_run m a :
  feed (PStreamStart m) a =
  match first_segment m, _pending a !! ss_xid m with
  | true, None =>
      (Ok None, set_active (Some (ss_xid m)) (put_bucket (ss_xid m) (mkPending [] None ∅) a))
  | false, Some _ => (Ok None, set_active (Some (ss_xid m)) a)
  | _, _ => (fst (feed (PStreamStart m) a), a)
  end.
Proof.
  cbn [feed _feed_stream_message].
  unfold stream_start, mbind, method_bind, get_self, raise, modify_self, has_bucket.
  destruct (first_segment m), (_pending a !! ss_xid m) eqn:E; cbn; rewrite ?E; done.
Qed.

(** Forgetting the active bracket of a transaction that ends. *)
Definition drop_active (x : Z) (a : TransactionAssembler) : TransactionAssembler :=
  if bool_decide (_active_stream_xid a = Some x) then set_active None a else a.

Lemma stream_commit_run m a p :
  _pending a !! sc_xid m = Some p →
  feed (PStreamCommit m) a =
    (Ok (Some (mkTransaction (sc_xid m) (sc_end_lsn m - 1) (sc_commit_time m) (changes p))),
     drop_active (sc_xid m) (set_pending (delete (sc_xid m) (_pending a)) a)).
Proof.
  intros Hp. cbn [feed _feed_stream_message].
  unfold stream_commit, mbind, method_bind, get_self, modify_self. by rewrite Hp.
Qed.

Lemma stream_abort_run m a :
  feed (PStreamAbort m) a =
  (Ok None,
   if sa_subxid m =? sa_xid m then
     drop_active (sa_xid m) (set_pending (delete (sa_xid m) (_pending a)) a)
   else
     match _pending a !! sa_xid m with
     | None => a
     | Some p =>
         match subxact_boundaries p !! sa_subxid m with
         | None => a
         | Some b => put_bucket (sa_xid m) (discard_from p (sa_subxid m) b) a
         end
     end).
Proof.
  cbn [feed _feed_stream_message].
  unfold stream_abort, mbind, method_bind, get_self, modify_self, close_active.
  destruct (sa_subxid m =? sa_xid m); [done|].
  destruct (_pending a !! sa_xid m) as [p|]; [|done].
  by destruct (subxact_boundaries p !! sa_subxid m).
Qed.

(** *** The invariant is preserved *)

Lemma inv_put x p t a :
  asm_inv a → repr p t →
  (∀ l, pend_final_lsn p = Some l → _current_xid a = Some x) →
  asm_inv (put_bucket x p a).
Proof.
  intros [Hr Hf] Hp Hl. split; cbn.
  - intros y q. destruct (decide (y = x)) as [->|?].
    + rewrite lookup_insert_eq. intros [= <-]. eauto.
    + rewrite lookup_insert_ne by done. apply Hr.
  - intros y q l. destruct (decide (y = x)) as [->|?].
    + rewrite lookup_insert_eq. intros [= <-]. apply Hl.
    + rewrite lookup_insert_ne by done. apply Hf.
Qed.

Lemma inv_delete x a :
  asm_inv a → asm_inv (set_pending (delete x (_pending a)) a).
Proof.
  intros [Hr Hf]. split; cbn.
  - intros y q Hq. apply lookup_delete_Some in Hq as [_ Hq]. eauto.
  - intros y q l Hq. apply lookup_delete_Some in Hq as [_ Hq]. eauto.
Qed.

Lemma inv_active x a : asm_inv a → asm_inv (set_active x a).
Proof. done. Qed.

Lemma inv_drop_active x a : asm_inv a → asm_inv (drop_active x a).
Proof. unfold drop_active. intros. case_bool_decide; done. Qed.

Lemma inv_finish x a :
  asm_inv a → _current_xid a = Some x →
  asm_inv (set_current None (set_pending (delete x (_pending a)) a)).
Proof.
  intros [Hr Hf] Hx. split; cbn.
  - intros y q Hq. apply lookup_delete_Some in Hq as [_ Hq]. eauto.
  - intros y q l Hq Hl. apply lookup_delete_Some in Hq as [Hne Hq].
    specialize (Hf _ _ _ Hq Hl). congruence.
Qed.

Lemma inv_begin x l a :
  asm_inv a → _current_xid a = None →
  asm_inv (put_bucket x (mkPending [] (Some l) ∅) (set_current (Some x) a)).
Proof.
  intros [Hr Hf] Hn. apply (inv_put _ _ []); [|apply repr_empty|done].
  split; [done|]. intros y q l' Hq Hl. specialize (Hf _ _ _ Hq Hl). congruence.
Qed.

Lemma feed_commit_cases m a :
  (∃ e, feed (PCommit m) a = (Raise e, a)) ∨
  ∃ x p, _current_xid a = Some x ∧ _pending a !! x = Some p ∧
         pend_final_lsn p = Some (commit_lsn m).
Proof.
  cbn [feed]. unfold _finish, mbind, method_bind, get_self, raise, modify_self.
  destruct (_current_xid a) as [x|]; [|left; by eexists].
  destruct (_pending a !! x) as [p|] eqn:Hp; [|left; by eexists].
  case_bool_decide; [left; by eexists|]. right. by exists x, p.
Qed.

Lemma feed_inv m a : asm_inv a → asm_inv (snd (feed m a)).
Proof.
  intros Hi. destruct (is_row m) eqn:Hm.
  - destruct (target a) as [x|] eqn:Ht; [destruct (_pending a !! x) as [p|] eqn:Hp|].
    + rewrite (feed_row_run _ _ _ _ Hm Ht Hp). cbn.
      destruct (proj1 Hi _ _ Hp) as [t Hr].
      apply (inv_put _ _ (t ++ events_of m)); [done|by apply repr_append_all|].
      rewrite append_all_final. intros l. by apply (proj2 Hi).
    + destruct (feed_row_fail m a Hm) as [(e & -> & _)| ->]; by rewrite ?Ht.
    + destruct (feed_row_fail m a Hm) as [(e & -> & _)| ->]; by rewrite ?Ht.
  - destruct m as [m|m|m|m|m|m|m|m|m|m|m|m|m|m]; try discriminate Hm; try done.
    + rewrite begin_run. case_bool_decide as Hb; [|done]. apply inv_begin; [done|apply Hb].
    + destruct (feed_commit_cases m a) as [[e ->]|(x & p & Hx & Hp & Hl)]; [done|].
      rewrite (commit_run _ _ _ _ Hx Hp Hl). by apply inv_finish.
    + rewrite stream_start_run. repeat case_step; try done.
      apply inv_active, (inv_put _ _ []); [done|apply repr_empty|done].
    + destruct (_pending a !! sc_xid m) as [p|] eqn:Hp.
      * rewrite (stream_commit_run _ _ _ Hp). by apply inv_drop_active, inv_delete.
      * cbn. unfold stream_commit, mbind, method_bind, get_self. by rewrite Hp.
    + rewrite stream_abort_run. cbn [snd]. case_step; [by apply inv_drop_active, inv_delete|].
      destruct (_pending a !! sa_xid m) as [p|] eqn:Hp; [|done].
      destruct (subxact_boundaries p !! _) as [b|] eqn:Hb; [|done].
      destruct (proj1 Hi _ _ Hp) as [t Hr].
      eapply inv_put; [done|by eapply repr_discard|].
      intros l Hl. by apply (proj2 Hi _ p l).
Qed.

Lemma init_inv : asm_inv TransactionAssembler_init.
Proof. split; intros x p; cbn; by rewrite lookup_empty. Qed.

Lemma feed_all_inv ms a : asm_inv a → asm_inv (snd (feed_all ms a)).
Proof.
  revert a. induction ms as [|m ms IH]; intros a Hi; [done|]. cbn [feed_all].
  unfold mbind, method_bind in *. pose proof (feed_inv m a Hi) as Hm.
  destruct (feed m a) as [[t|e] a1]; [|done]. specialize (IH a1 Hm).
  by destruct (feed_all ms a1) as [[] ?].
Qed.

(** *** Failures *)

Lemma feed_raise m a e a' :
  feed m a = (Raise e, a') →
  a' = a ∧
  (isinstance e cProtocolError = true ∨
   (e = KeyError ∧ ∃ c x, m = PCommit c ∧ _current_xid a = Some x ∧ _pending a !! x = None) ∨
   (e = AssertionError ∧ match m with PType _ | POrigin _ | PMessage _ => True | _ => False end)).
Proof.
  destruct (is_row m) eqn:Hm.
  { assert (Hok : ∀ x p, target a = Some x → _pending a !! x = Some p →
              feed m a ≠ (Raise e, a')).
    { intros x p Ht Hp. by rewrite (feed_row_run _ _ _ _ Hm Ht Hp). }
    intros H. destruct (feed_row_fail m a Hm) as [(e' & He & Hi)|Ho]; [|..].
    - destruct (target a) as [x|] eqn:Ht; [|done].
      destruct (_pending a !! x) as [p|] eqn:Hp; [|done]. by destruct (Hok x p).
    - rewrite He in H. injection H as <- <-. split; [done|by left].
    - by rewrite Ho in H. }
  destruct m as [m|m|m|m|m|m|m|m|m|m|m|m|m|m]; try discriminate Hm;
    cbn [feed _feed_stream_message];
    unfold _begin, _finish, stream_start, stream_stop, stream_commit, stream_abort,
      close_active, has_bucket, mbind, method_bind, get_self, raise, modify_self;
    intros H.
  - repeat case_step_in H; try done; injection H as <- <-; simplify_eq; split; auto.
  - repeat case_step_in H; try done; injection H as <- <-; simplify_eq; split; eauto 10.
  - injection H as <- <-. split; auto.
  - injection H as <- <-. split; auto.
  - injection H as <- <-. split; auto.
  - repeat case_step_in H; try done; injection H as <- <-; simplify_eq; split; auto.
  - done.
  - repeat case_step_in H; try done; injection H as <- <-; simplify_eq; split; auto.
  - repeat case_step_in H; try done; injection H as <- <-; simplify_eq; split; auto.
Qed.

(** ** A conforming server: interleaved blocks *)

(** What a server sends between two commits or aborts: a whole ordinary
    transaction, one chunk of a streamed transaction (the first or a later one),
    the abort of a streamed (sub)transaction, or the commit of a streamed one. *)
Inductive block :=
| BOrdinary (b : Begin) (rows : list PgoutputMessage) (c : Commit)
| BChunk (xid : Z) (first : bool) (rows : list PgoutputMessage)
| BAbort (m : StreamAbort)
| BCommit (m : StreamCommit).

Definition block_messages (b : block) : list PgoutputMessage :=
  match b with
  | BOrdinary b rows c => PBegin b :: rows ++ [PCommit c]
  | BChunk xid first rows =>
      PStreamStart (mkStreamStart xid first) :: rows ++ [PStreamStop mkStreamStop]
  | BAbort m => [PStreamAbort m]
  | BCommit m => [PStreamCommit m]
  end.

Definition rows_events (rows : list PgoutputMessage) : tagged := mjoin (events_of <$> rows).

(** The streamed transactions in progress on the server. *)
Abbreviation inflight := (gmap Z tagged).

Definition is_inflight (s : inflight) (x : Z) : bool :=
  match s !! x with Some _ => true | None => false end.

Definition valid_block (s : inflight) (b : block) : bool :=
  match b with
  | BOrdinary b rows c =>
      negb (is_inflight s (begin_xid b)) && (final_lsn b =? commit_lsn c)
      && forallb is_row rows
  | BChunk xid first rows => Bool.eqb first (negb (is_inflight s xid)) && forallb is_row rows
  | BAbort _ => true
  | BCommit m => is_inflight s (sc_xid m)
  end.

Definition block_next (s : inflight) (b : block) : inflight :=
  match b with
  | BOrdinary _ _ _ => s
  | BChunk xid _ rows => <[xid := default [] (s !! xid) ++ rows_events rows]> s
  | BAbort m =>
      if sa_subxid m =? sa_xid m then delete (sa_xid m) s
      else alter (cut_at (sa_subxid m)) (sa_xid m) s
  | BCommit m => delete (sc_xid m) s
  end.

(** What the client must deliver for a block. *)
Definition block_output (s : inflight) (b : block) : list Transaction :=
  match b with
  | BOrdinary b rows c =>
      [mkTransaction (begin_xid b) (end_lsn c - 1) (commit_time c) ((rows_events rows).*1)]
  | BCommit m =>
      [mkTransaction (sc_xid m) (sc_end_lsn m - 1) (sc_commit_time m)
         ((default [] (s !! sc_xid m)).*1)]
  | BChunk _ _ _ | BAbort _ => []
  end.

Fixpoint valid_blocks (s : inflight) (bs : list block) : bool :=
  match bs with
  | [] => true
  | b :: bs' => valid_block s b && valid_blocks (block_next s b) bs'
  end.

Fixpoint blocks_output (s : inflight) (bs : list block) : list Transaction :=
  match bs with
  | [] => []
  | b :: bs' => block_output s b ++ blocks_output (block_next s b) bs'
  end.

Definition blocks_messages (bs : list block) : list PgoutputMessage :=
  mjoin (block_messages <$> bs).

Definition blocks_final (s : inflight) (bs : list block) : inflight :=
  fold_left block_next bs s.

(** Between blocks nothing is open and the buffers are the in-flight
    transactions. *)
Definition sim (a : TransactionAssembler) (s : inflight) : Prop :=
  _current_xid a = None ∧ _active_stream_xid a = None ∧
  ∀ x, match _pending a !! x, s !! x with
       | Some p, Some t => repr p t ∧ pend_final_lsn p = None
       | None, None => True
       | _, _ => False
       end.

(** *** Sequencing *)

Lemma feed_all_app l1 l2 a ts1 a1 r :
  feed_all l1 a = (Ok ts1, a1) → feed_all l2 a1 = r →
  feed_all (l1 ++ l2) a =
    match r with
    | (Ok ts2, a2) => (Ok (ts1 ++ ts2), a2)
    | (Raise e, a2) => (Raise e, a2)
    end.
Proof.
  revert a ts1. induction l1 as [|m l1 IH]; intros a ts1 H1 H2.
  - injection H1 as <- <-. cbn [app]. rewrite H2. by destruct r as [[] ?].
  - cbn [app feed_all] in *. unfold mbind, method_bind in *.
    destruct (feed m a) as [[t|e] a']; [|done].
    destruct (feed_all l1 a') as [[ts'|e] a''] eqn:E; [|done].
    injection H1 as <- <-. rewrite (IH _ _ E H2).
    destruct r as [[]]; [|done]. by destruct t.
Qed.

Lemma feed_all_cons m l a t a1 r :
  feed m a = (Ok t, a1) → feed_all l a1 = r →
  feed_all (m :: l) a =
    match r with
    | (Ok ts, a2) => (Ok (match t with Some t => t :: ts | None => ts end), a2)
    | (Raise e, a2) => (Raise e, a2)
    end.
Proof.
  intros H1 H2. cbn [feed_all]. unfold mbind, method_bind. rewrite H1, H2.
  by destruct r as [[] ?].
Qed.

(** A run of row messages fills one bucket. *)
Lemma feed_rows_run rows a x p :
  forallb is_row rows = true → target a = Some x → _pending a !! x = Some p →
  feed_all rows a = (Ok [], put_bucket x (append_all p (rows_events rows)) a).
Proof.
  revert a p. induction rows as [|m rows IH]; intros a p Hr Ht Hp.
  - cbn. by rewrite put_bucket_id.
  - cbn [forallb] in Hr. zbool.
    erewrite feed_all_cons; [| by apply feed_row_run |].
    2:{ apply IH; [done|done|]. cbn. apply lookup_insert_eq. }
    rewrite put_bucket_twice. unfold rows_events. cbn. unfold append_all.
    by rewrite fold_left_app.
Qed.

(** *** One block *)

Lemma sim_inflight a s x :
  sim a s →
  match _pending a !! x with
  | Some p => ∃ t, s !! x = Some t ∧ repr p t ∧ pend_final_lsn p = None
  | None => s !! x = None
  end.
Proof.
  intros (_ & _ & H). specialize (H x).
  destruct (_pending a !! x), (s !! x) as [t|]; try done. by exists t.
Qed.

Lemma sim_put a s x p t :
  sim a s → repr p t → pend_final_lsn p = None → sim (put_bucket x p a) (<[x := t]> s).
Proof.
  intros (Hc & Ha & H) Hr Hf. split_and!; try done. intros y. cbn.
  destruct (decide (y = x)) as [->|?]; [by rewrite !lookup_insert_eq|].
  rewrite !lookup_insert_ne by done. apply H.
Qed.

Lemma sim_delete a s x :
  sim a s → sim (set_pending (delete x (_pending a)) a) (delete x s).
Proof.
  intros (Hc & Ha & H). split_and!; try done. intros y. cbn.
  destruct (decide (y = x)) as [->|?]; [by rewrite !lookup_delete_eq|].
  rewrite !lookup_delete_ne by done. apply H.
Qed.

Lemma sim_drop_active a s x : sim a s → sim (drop_active x a) s.
Proof. intros H. unfold drop_active. case_bool_decide; [|done]. by destruct H as (? & ? & ?). Qed.

Lemma is_inflight_sim a s x :
  sim a s → is_inflight s x = false → _pending a !! x = None.
Proof.
  intros H Hi. pose proof (sim_inflight _ _ x H) as Hs. unfold is_inflight in Hi.
  destruct (_pending a !! x); [|done]. destruct Hs as (t & Ht & _). by rewrite Ht in Hi.
Qed.

Lemma is_inflight_sim_some a s x :
  sim a s → is_inflight s x = true →
  ∃ p t, _pending a !! x = Some p ∧ s !! x = Some t ∧ repr p t ∧ pend_final_lsn p = None.
Proof.
  intros H Hi. pose proof (sim_inflight _ _ x H) as Hs. unfold is_inflight in Hi.
  destruct (_pending a !! x) as [p|]; [|by rewrite Hs in Hi].
  destruct Hs as (t & Ht & Hr). by exists p, t.
Qed.

Lemma ordinary_block_run a s b rows c :
  sim a s → valid_block s (BOrdinary b rows c) = true →
  ∃ a', feed_all (block_messages (BOrdinary b rows c)) a =
          (Ok (block_output s (BOrdinary b rows c)), a') ∧
        sim a' s.
Proof.
  intros Hs Hv. cbn [valid_block] in Hv. zbool.
  assert (Hn : _pending a !! begin_xid b = None) by (by eapply is_inflight_sim).
  destruct Hs as (Hc & Ha & Hp). cbn [block_messages block_output].
  set (p0 := mkPending [] (Some (final_lsn b)) ∅).
  set (p1 := append_all p0 (rows_events rows)).
  set (a1 := put_bucket (begin_xid b) p0 (set_current (Some (begin_xid b)) a)).
  assert (Hr : repr p1 (rows_events rows)) by (apply (repr_append_all _ []), repr_empty).
  eexists. split.
  - erewrite feed_all_cons; [| rewrite begin_run, bool_decide_true by done; reflexivity |].
    2:{ eapply feed_all_app.
        - apply (feed_rows_run rows a1 (begin_xid b) p0); [done| |].
          + unfold target, a1. cbn. by rewrite Ha.
          + unfold a1. cbn. apply lookup_insert_eq.
        - unfold a1. rewrite put_bucket_twice.
          eapply feed_all_cons; [|reflexivity].
          apply (commit_run _ _ (begin_xid b) p1).
          + done.
          + cbn. apply lookup_insert_eq.
          + unfold p1. rewrite append_all_final. cbn. by f_equal. }
    cbn. destruct Hr as [-> _]. reflexivity.
  - split_and!; [done|done|]. intros x. cbn. specialize (Hp x).
    destruct (decide (x = begin_xid b)) as [->|Hne].
    + rewrite lookup_delete_eq. rewrite Hn in Hp. done.
    + rewrite lookup_delete_ne, lookup_insert_ne by done. exact Hp.
Qed.

Lemma chunk_block_run a s x first rows :
  sim a s → valid_block s (BChunk x first rows) = true →
  ∃ a', feed_all (block_messages (BChunk x first rows)) a = (Ok [], a') ∧
        sim a' (block_next s (BChunk x first rows)).
Proof.
  intros Hs Hv. cbn [valid_block] in Hv. zbool. cbn [block_messages block_next].
  assert (Hstart : ∃ p t, repr p t ∧ pend_final_lsn p = None ∧ t = default [] (s !! x) ∧
    feed (PStreamStart (mkStreamStart x first)) a =
      (Ok None, set_active (Some x) (put_bucket x p a))).
  { rewrite stream_start_run. cbn [ss_xid first_segment].
    apply eqb_prop in H. destruct (is_inflight s x) eqn:Hi; subst first; cbn [negb].
    - destruct (is_inflight_sim_some _ _ _ Hs Hi) as (p & t & Hp & Ht & Hr & Hf).
      exists p, t. rewrite Hp, Ht. split_and!; try done. by rewrite put_bucket_id.
    - rewrite (is_inflight_sim _ _ _ Hs Hi).
      exists (mkPending [] None ∅), [].
      split; [apply repr_empty|]. split; [done|]. split; [|done].
      unfold is_inflight in Hi. by destruct (s !! x). }
  destruct Hstart as (p & t & Hr & Hf & -> & Hstart).
  eexists. split.
  - erewrite feed_all_cons; [| exact Hstart |].
    2:{ eapply feed_all_app; [| eapply feed_all_cons; [done|reflexivity] ].
        apply (feed_rows_run _ _ x p); [done|done|]. cbn. apply lookup_insert_eq. }
    reflexivity.
  - assert (Hput : sim (put_bucket x (append_all p (rows_events rows)) (put_bucket x p a))
             (<[x := default [] (s !! x) ++ rows_events rows]> s)).
    { rewrite put_bucket_twice. apply sim_put; [done|by apply repr_append_all|].
      by rewrite append_all_final. }
    destruct Hput as (? & ? & ?). by split_and!.
Qed.

Lemma abort_block_run a s m :
  sim a s →
  ∃ a', feed_all (block_messages (BAbort m)) a = (Ok [], a') ∧ sim a' (block_next s (BAbort m)).
Proof.
  intros Hs. cbn [block_messages block_next]. eexists. split.
  - erewrite feed_all_cons; [| apply stream_abort_run | reflexivity]. reflexivity.
  - case_step; [by apply sim_drop_active, sim_delete|].
    pose proof (sim_inflight _ _ (sa_xid m) Hs) as Hi.
    destruct (_pending a !! sa_xid m) as [p|] eqn:Hp.
    + destruct Hi as (t & Ht & Hr & Hf).
      assert (alter (cut_at (sa_subxid m)) (sa_xid m) s
              = <[sa_xid m := cut_at (sa_subxid m) t]> s) as ->.
      { apply map_eq. intros y. rewrite lookup_alter, lookup_insert.
        case_decide as Hy; [subst y; by rewrite Ht|done]. }
      destruct (subxact_boundaries p !! sa_subxid m) as [i|] eqn:Hb.
      * apply sim_put; [done|by apply repr_discard|done].
      * rewrite (proj2 Hr) in Hb. rewrite cut_at_absent by done. by rewrite insert_id.
    + rewrite alter_id; [done|]. intros t Ht. by rewrite Hi in Ht.
Qed.

Lemma commit_block_run a s m :
  sim a s → valid_block s (BCommit m) = true →
  ∃ a', feed_all (block_messages (BCommit m)) a = (Ok (block_output s (BCommit m)), a') ∧
        sim a' (block_next s (BCommit m)).
Proof.
  intros Hs Hv. cbn [valid_block] in Hv. cbn [block_messages block_output block_next].
  destruct (is_inflight_sim_some _ _ _ Hs Hv) as (p & t & Hp & Ht & Hr & Hf).
  eexists. split.
  - erewrite feed_all_cons; [| by apply stream_commit_run | reflexivity].
    cbn. rewrite Ht. by destruct Hr as [-> _].
  - by apply sim_drop_active, sim_delete.
Qed.

Lemma block_run a s b :
  sim a s → valid_block s b = true →
  ∃ a', feed_all (block_messages b) a = (Ok (block_output s b), a') ∧ sim a' (block_next s b).
Proof.
  destruct b.
  - apply ordinary_block_run.
  - apply chunk_block_run.
  - intros Hs _. by apply abort_block_run.
  - apply commit_block_run.
Qed.

Lemma blocks_run a s bs :
  sim a s → valid_blocks s bs = true →
  ∃ a', feed_all (blocks_messages bs) a = (Ok (blocks_output s bs), a') ∧
        sim a' (blocks_final s bs).
Proof.
  revert a s. induction bs as [|b bs IH]; intros a s Hs Hv; [by exists a|].
  cbn [valid_blocks] in Hv. zbool.
  destruct (block_run a s b) as (a1 & H1 & Hs1); [done|done|].
  destruct (IH a1 (block_next s b)) as (a2 & H2 & Hs2); [done|done|].
  exists a2. split; [|done].
  change (blocks_messages (b :: bs)) with (block_messages b ++ blocks_messages bs).
  by rewrite (feed_all_app _ _ _ _ _ _ H1 H2).
Qed.

Lemma sim_init : sim TransactionAssembler_init ∅.
Proof. split_and!; [done|done|]. intros x. cbn. by rewrite !lookup_empty. Qed.

(** ** Savepoints

    One streamed transaction as the server executes it: changes and nested
    subtransactions.  A rolled back subtransaction carries the list of
    subtransaction ids for which the server sends a [StreamAbort], in the order
    it sends them; a released one carries [None]. *)
Inductive items :=
| INil
| IChange (c : ChangeEvent) (rest : items)
| ISub (sid : Z) (body : items) (aborts : option (list Z)) (rest : items).

(** What the server streams for the transaction. *)
Inductive op :=
| OChange (c : ChangeEvent) (tag : option Z)
| OAbort (sid : Z).

(** [emit sid is]: the stream of the items executed under subtransaction [sid]. *)
Fixpoint emit (sid : Z) (its : items) : list op :=
  match its with
  | INil => []
  | IChange c rest => OChange c (Some sid) :: emit sid rest
  | ISub s body aborts rest =>
      emit s body ++ (OAbort <$> default [] aborts) ++ emit sid rest
  end.

(** The changes that survive, each with the subtransaction that made it. *)
Fixpoint survivors (sid : Z) (its : items) : tagged :=
  match its with
  | INil => []
  | IChange c rest => (c, Some sid) :: survivors sid rest
  | ISub s body aborts rest =>
      match aborts with
      | None => survivors s body ++ survivors sid rest
      | Some _ => survivors sid rest
      end
  end.

(** The subtransactions opened, in order. *)
Fixpoint sub_ids (its : items) : list Z :=
  match its with
  | INil => []
  | IChange _ rest => sub_ids rest
  | ISub s body _ rest => s :: sub_ids body ++ sub_ids rest
  end.

(** The aborts of a rolled back subtransaction name it or its descendants, and
    cover every subtransaction with surviving changes in it. *)
Fixpoint aborts_cover (its : items) : bool :=
  match its with
  | INil => true
  | IChange _ rest => aborts_cover rest
  | ISub s body aborts rest =>
      aborts_cover body && aborts_cover rest &&
      match aborts with
      | None => true
      | Some l =>
          forallb (λ x, bool_decide (x ∈ s :: sub_ids body)) l
          && forallb (λ '(_, tag), existsb (λ x, bool_decide (tag = Some x)) l)
               (survivors s body)
      end
  end.

(** Subtransaction ids are assigned once, the top-level id included. *)
Definition valid_items (xid : Z) (its : items) : bool :=
  bool_decide (NoDup (xid :: sub_ids its)) && aborts_cover its.

Definition run_op (t : tagged) (o : op) : tagged :=
  match o with OChange c tag => t ++ [(c, tag)] | OAbort s => cut_at s t end.

Definition run_ops (t : tagged) (os : list op) : tagged := fold_left run_op os t.

Lemma run_ops_app t os1 os2 : run_ops t (os1 ++ os2) = run_ops (run_ops t os1) os2.
Proof. apply fold_left_app. Qed.

Lemma survivors_tags sid its x :
  Some x ∈ (survivors sid its).*2 → x = sid ∨ x ∈ sub_ids its.
Proof.
  revert sid. induction its as [|c rest IH|s body IHb aborts rest IHr]; intros sid.
  - intros H. by apply elem_of_nil in H.
  - cbn [survivors sub_ids fmap list_fmap]. intros [[= ->]|H]%elem_of_cons; auto.
  - cbn [survivors sub_ids]. rewrite elem_of_cons, elem_of_app. destruct aborts.
    + intros [?|?]%IHr; auto.
    + rewrite fmap_app, elem_of_app. intros [[?|?]%IHb|[?|?]%IHr]; auto.
Qed.

Lemma survivors_tag_some sid its c tag :
  (c, tag) ∈ survivors sid its → is_Some tag.
Proof.
  revert sid. induction its as [|c' rest IH|s body IHb aborts rest IHr]; intros sid.
  - intros H. by apply elem_of_nil in H.
  - cbn [survivors]. intros [[= -> ->]|H]%elem_of_cons; eauto.
  - cbn [survivors]. destruct aborts; [apply IHr|]. rewrite elem_of_app. intros [?|?]; eauto.
Qed.

(** Cutting at subtransactions that made no change of [t] keeps [t]. *)
Lemma run_aborts_app t u l :
  (∀ x, x ∈ l → Some x ∉ t.*2) →
  run_ops (t ++ u) (OAbort <$> l) = t ++ run_ops u (OAbort <$> l).
Proof.
  revert u. induction l as [|x l IH]; intros u Hl; [done|].
  cbn [fmap list_fmap run_ops fold_left run_op] in *.
  rewrite cut_at_app_absent by (apply first_index_none, Hl, elem_of_cons; auto).
  apply IH. intros y Hy. apply Hl, elem_of_cons. auto.
Qed.

(** Aborting every subtransaction of [u] leaves nothing of it. *)
Lemma run_aborts_all u l :
  (∀ c tag, (c, tag) ∈ u → ∃ x, x ∈ l ∧ tag = Some x) →
  run_ops u (OAbort <$> l) = [].
Proof.
  intros H.
  assert (Hgen : ∀ l u, match u with
                        | [] => True
                        | (_, tag) :: _ => ∃ x, x ∈ l ∧ tag = Some x
                        end → run_ops u (OAbort <$> l) = []).
  { clear. induction l as [|x l IH]; intros u H.
    - destruct u as [|[c tag] u]; [done|]. by destruct H as (x & ?%elem_of_nil & _).
    - cbn [fmap list_fmap run_ops fold_left run_op]. apply IH.
      destruct u as [|[c tag] u]; [done|]. cbn [cut_at]. case_bool_decide as Ht; [done|].
      destruct H as (y & [->|Hy]%elem_of_cons & ->); [done|]. eauto. }
  apply Hgen. destruct u as [|[c tag] u]; [done|]. apply (H c), elem_of_cons. auto.
Qed.

(** The aborts of a rolled back subtransaction undo exactly what it did. *)
Lemma run_rollback t s body l :
  forallb (λ x, bool_decide (x ∈ s :: sub_ids body)) l = true →
  forallb (λ '(_, tag), existsb (λ x, bool_decide (tag = Some x)) l) (survivors s body) = true →
  (∀ x, x ∈ s :: sub_ids body → Some x ∉ t.*2) →
  run_ops (t ++ survivors s body) (OAbort <$> l) = t.
Proof.
  rewrite !forallb_forall. intros Hsub Hcover Hfresh. rewrite run_aborts_app.
  - rewrite run_aborts_all, app_nil_r; [done|]. intros c tag Hin.
    apply list_elem_of_In, Hcover, existsb_exists in Hin as (x & Hx & Htag).
    exists x. zbool. by rewrite list_elem_of_In.
  - intros x Hx. apply list_elem_of_In, Hsub in Hx. zbool. by apply Hfresh.
Qed.

(** The stream of well-formed items adds exactly their survivors. *)
Lemma run_emit its : ∀ t sid,
  NoDup (sid :: sub_ids its) → aborts_cover its = true →
  (∀ x, x ∈ sub_ids its → Some x ∉ t.*2) →
  run_ops t (emit sid its) = t ++ survivors sid its.
Proof.
  induction its as [|c rest IH|s body IHb aborts rest IHr]; intros t sid Hnd Hcov Hfresh.
  - by rewrite app_nil_r.
  - cbn [emit survivors run_ops fold_left run_op]. cbn [aborts_cover sub_ids] in *.
    change (fold_left run_op (emit sid rest) ?t) with (run_ops t (emit sid rest)).
    rewrite IH; [by rewrite <- (assoc_L (++))|done|done|].
    intros x Hx. rewrite fmap_app, elem_of_app. intros [Hx'|Hx'].
    + by apply (Hfresh x).
    + apply list_elem_of_singleton in Hx'. injection Hx' as ->.
      by apply NoDup_cons in Hnd as [? _].
  - cbn [sub_ids aborts_cover] in *. zbool.
    apply NoDup_cons in Hnd as [Hsid Hnd]. apply NoDup_cons in Hnd as [Hs Hnd].
    apply NoDup_app in Hnd as (Hb & Hdis & Hr). rewrite not_elem_of_cons, not_elem_of_app in Hsid.
    destruct Hsid as (Hne & Hsb & Hsr). rewrite not_elem_of_app in Hs. destruct Hs as [Hs1 Hs2].
    setoid_rewrite elem_of_cons in Hfresh. setoid_rewrite elem_of_app in Hfresh.
    cbn [emit]. rewrite !run_ops_app.
    rewrite IHb; [|by apply NoDup_cons|done|by intros; apply Hfresh; auto].
    assert (Hrest : run_ops (t ++ survivors s body) (OAbort <$> default [] aborts)
                    = t ++ match aborts with None => survivors s body | Some _ => [] end).
    { destruct aborts as [l|]; [|done]. cbn [default]. zbool. rewrite app_nil_r.
      apply run_rollback; [done|done|]. intros x Hx%elem_of_cons. apply Hfresh. tauto. }
    rewrite Hrest. rewrite IHr; [|by apply NoDup_cons|done|].
    + cbn [survivors]. destruct aborts; [by rewrite app_nil_r|by rewrite <- (assoc_L (++))].
    + intros x Hx. rewrite fmap_app, elem_of_app. intros [Hx'|Hx']; [by apply (Hfresh x); auto|].
      destruct aborts; [by apply elem_of_nil in Hx'|].
      apply survivors_tags in Hx' as [->|Hx']; [done|]. by apply (Hdis x).
Qed.

(** *** A transaction's own blocks *)

(** What block [b] does to streamed transaction [x]. *)
Definition ops_of (x : Z) (b : block) : list op :=
  match b with
  | BChunk y _ rows =>
      if y =? x then (λ '(c, tag), OChange c tag) <$> rows_events rows else []
  | BAbort m =>
      if (sa_xid m =? x) && negb (sa_subxid m =? sa_xid m) then [OAbort (sa_subxid m)] else []
  | _ => []
  end.

Definition ops_on (x : Z) (bs : list block) : list op := mjoin (ops_of x <$> bs).

(** The block does not end streamed transaction [x]. *)
Definition keeps (x : Z) (b : block) : bool :=
  match b with
  | BAbort m => negb ((sa_xid m =? x) && (sa_subxid m =? sa_xid m))
  | BCommit m => negb (sc_xid m =? x)
  | _ => true
  end.

Lemma run_changes t u : run_ops t ((λ '(c, tag), OChange c tag) <$> u) = t ++ u.
Proof.
  revert t. induction u as [|[c tag] u IH]; intros t; [by rewrite app_nil_r|].
  cbn [fmap list_fmap run_ops fold_left run_op]. unfold run_ops in IH. unfold fmap in IH.
  rewrite IH. by rewrite <- (assoc_L (++)).
Qed.

(** Other transactions' blocks, ordinary transactions included, leave the buffer
    of [x] alone; its own blocks run its operations. *)
Lemma block_next_ops s b x :
  keeps x b = true →
  default [] (block_next s b !! x) = run_ops (default [] (s !! x)) (ops_of x b).
Proof.
  destruct b as [b rows c|y first rows|m|m]; cbn [keeps block_next ops_of]; intros Hk.
  - done.
  - destruct (y =? x) eqn:E; zbool.
    + subst y. by rewrite lookup_insert_eq, run_changes.
    + by rewrite lookup_insert_ne.
  - destruct (Z.eqb_spec (sa_xid m) x) as [Hx|Hx]; cbn [andb negb] in *.
    + rewrite <- Hx. rewrite Hk. apply negb_true_iff in Hk. rewrite Hk. rewrite lookup_alter_eq.
      by destruct (s !! sa_xid m).
    + case_step; [by rewrite lookup_delete_ne|by rewrite lookup_alter_ne].
  - zbool. by rewrite lookup_delete_ne.
Qed.

Lemma blocks_final_ops s bs x :
  forallb (keeps x) bs = true →
  default [] (blocks_final s bs !! x) = run_ops (default [] (s !! x)) (ops_on x bs).
Proof.
  revert s. induction bs as [|b bs IH]; intros s Hk; [done|].
  cbn [forallb] in Hk. zbool. unfold blocks_final in *. cbn [fold_left].
  rewrite IH by done. rewrite block_next_ops by done.
  change (ops_on x (b :: bs)) with (ops_of x b ++ ops_on x bs). by rewrite run_ops_app.
Qed.

Lemma valid_blocks_app s bs1 bs2 :
  valid_blocks s (bs1 ++ bs2) = valid_blocks s bs1 && valid_blocks (blocks_final s bs1) bs2.
Proof.
  revert s. induction bs1 as [|b bs1 IH]; intros s; [done|]. cbn [app valid_blocks].
  by rewrite IH, andb_assoc.
Qed.

Lemma blocks_output_app s bs1 bs2 :
  blocks_output s (bs1 ++ bs2) = blocks_output s bs1 ++ blocks_output (blocks_final s bs1) bs2.
Proof.
  revert s. induction bs1 as [|b bs1 IH]; intros s; [done|]. cbn [app blocks_output].
  by rewrite IH, (assoc_L (++)).
Qed.

(** ** Properties *)

(** C19: Whatever messages are fed, in whatever order and with whatever errors
    along the way, the assembler's state stays well formed: every recorded
    subtransaction boundary is a position inside its bucket's change list, two
    subtransactions never share a position, and only the bucket of the open
    ordinary transaction carries a [final_lsn]. *)
Theorem reachable_wf ms : wf_assembler (snd (feed_all ms TransactionAssembler_init)).
Proof. apply asm_inv_wf, feed_all_inv, init_inv. Qed.

(** The bucket a failing [_finish] does not find. *)
Definition lost_bucket (m : PgoutputMessage) (a : TransactionAssembler) : bool :=
  match m, _current_xid a with
  | PCommit _, Some x => negb (has_bucket x a)
  | _, _ => false
  end.

Definition is_filtered (m : PgoutputMessage) : bool :=
  match m with PType _ | POrigin _ | PMessage _ => true | _ => false end.

(** C20: [feed] is atomic and its failures are classified: when it raises, the
    assembler is exactly as before the call, and the exception is a
    [ProtocolError], except for the bare [KeyError] of a [Commit] whose bucket
    has disappeared, and the [AssertionError] of the three message kinds the
    client filters out. *)
Theorem feed_failures_atomic m a :
  match feed m a with
  | (Ok _, _) => True
  | (Raise e, a') =>
      a' = a ∧
      (isinstance e cProtocolError = true ∨
       e = KeyError ∧ lost_bucket m a = true ∨
       e = AssertionError ∧ is_filtered m = true)
  end.
Proof.
  destruct (feed m a) as [[r|e] a'] eqn:E; [done|].
  apply feed_raise in E as [-> [Hp|[(-> & c & x & -> & Hx & Hb)|[-> Hm]]]]; split; auto.
  - right. left. split; [done|]. unfold lost_bucket, has_bucket. by rewrite Hx, Hb.
  - right. right. split; [done|]. by destruct m.
Qed.

(** What the message that completes a transaction says of it. *)
Definition completes (m : PgoutputMessage) (t : Transaction) : Prop :=
  match m with
  | PCommit c => tx_commit_lsn t = end_lsn c - 1 ∧ tx_commit_time t = commit_time c
  | PStreamCommit c =>
      tx_xid t = sc_xid c ∧ tx_commit_lsn t = sc_end_lsn c - 1 ∧
      tx_commit_time t = sc_commit_time c
  | _ => False
  end.

Definition is_commit (m : PgoutputMessage) : bool :=
  match m with PCommit _ | PStreamCommit _ => true | _ => false end.

(** C21: A transaction is emitted by a [Commit] or a [StreamCommit] and by
    nothing else; it carries the commit's own time and the raw position
    [end_lsn - 1], exactly the changes buffered for its xid in order, and its
    bucket leaves the assembler, the other buckets untouched, so it can never be
    emitted again. *)
Theorem emission_exact m a :
  match feed m a with
  | (Ok (Some t), a') =>
      completes m t ∧
      (∃ p, _pending a !! tx_xid t = Some p ∧ tx_changes t = changes p) ∧
      _pending a' = delete (tx_xid t) (_pending a)
  | (Ok None, _) => is_commit m = false
  | (Raise _, _) => True
  end.
Proof.
  destruct m as [m|m|m|m|m|m|m|m|m|m|m|m|m|m]; cbn [is_commit completes];
    [| | | | | | | | | | | | |].
  all: try by (unfold feed, _feed_stream_message, mbind, method_bind, mret, method_ret;
               repeat case_step).
  all: unfold feed, _feed_stream_message, _finish, stream_commit, close_active,
         mbind, method_bind, mret, method_ret, get_self, raise, modify_self;
       repeat (case_step; simplify_eq/=); eauto 10.
Qed.

(** A session in which two streamed transactions, an ordinary transaction and a
    subtransaction abort are interleaved. *)
Definition sample_row (subxid : option Z) (table : string) : PgoutputMessage :=
  PTruncate (mkTruncate [lit table] false false subxid).

Definition sample_blocks : list block :=
  [ BChunk 700 true [sample_row (Some 700) "a"; sample_row (Some 701) "b"];
    BOrdinary (mkBegin 500 0 702) [sample_row None "c"] (mkCommit 0 500 540 9);
    BChunk 710 true [sample_row (Some 710) "d"];
    BAbort (mkStreamAbort 700 701);
    BChunk 700 false [sample_row (Some 700) "e"];
    BCommit (mkStreamCommit 700 0 600 10);
    BAbort (mkStreamAbort 710 710) ].

(** C8: A conforming session is assembled exactly: for any interleaving of
    ordinary transactions, chunks of any number of streamed transactions, aborts
    of streamed (sub)transactions and streamed commits, [feed] raises nothing
    and emits, in commit order, one transaction per commit, holding its own
    surviving changes; afterwards only the transactions still in progress on the
    server have buffers. *)
Theorem conforming_session bs :
  valid_blocks ∅ bs = true →
  ∃ a', feed_all (blocks_messages bs) TransactionAssembler_init = (Ok (blocks_output ∅ bs), a')
        ∧ sim a' (blocks_final ∅ bs).
Proof. intros Hv. by apply blocks_run; [apply sim_init|]. Qed.

Lemma conforming_session_witness :
  valid_blocks ∅ sample_blocks = true ∧
  (∃ a', feed_all (blocks_messages sample_blocks) TransactionAssembler_init
         = (Ok (blocks_output ∅ sample_blocks), a')
         ∧ sim a' (blocks_final ∅ sample_blocks)) ∧
  (λ t, (tx_xid t, table <$> tx_changes t)) <$> blocks_output ∅ sample_blocks
  = [(702, [lit "c"]); (700, [lit "a"; lit "e"])].
Proof.
  assert (Hv : valid_blocks ∅ sample_blocks = true) by (vm_compute; reflexivity).
  split; [exact Hv|]. split; [exact (conforming_session sample_blocks Hv)|].
  vm_compute. reflexivity.
Defined.

(** C9: Savepoints: a streamed transaction with any nesting of released and
    rolled back subtransactions, split into chunks anywhere and interleaved with
    anything else, is delivered with exactly the changes whose enclosing
    subtransactions all survived, in the order they were made. *)
Theorem savepoint_delivery bs m its :
  valid_blocks ∅ (bs ++ [BCommit m]) = true →
  forallb (keeps (sc_xid m)) bs = true →
  valid_items (sc_xid m) its = true →
  ops_on (sc_xid m) bs = emit (sc_xid m) its →
  ∃ a', feed_all (blocks_messages (bs ++ [BCommit m])) TransactionAssembler_init
        = (Ok (blocks_output ∅ bs
               ++ [mkTransaction (sc_xid m) (sc_end_lsn m - 1) (sc_commit_time m)
                     ((survivors (sc_xid m) its).*1)]), a').
Proof.
  intros Hv Hk Hi Ho.
  destruct (blocks_run TransactionAssembler_init ∅ _ sim_init Hv) as (a' & Hrun & _).
  exists a'. rewrite Hrun, blocks_output_app. cbn [blocks_output block_output].
  rewrite (app_nil_r [_]), (blocks_final_ops ∅ bs _ Hk), Ho.
  unfold valid_items in Hi. zbool. rewrite lookup_empty. cbn [default].
  rewrite run_emit; [done|done|done|]. intros x _ Hx. by apply elem_of_nil in Hx.
Qed.

(** [SAVEPOINT] 701 released, 702 rolled back with the released 703 inside it
    (the server aborts 703 first), and a change after the rollback. *)
Definition sample_change (name : string) : ChangeEvent :=
  mkChangeEvent TRUNCATE (lit name) None None.

Definition sample_items : items :=
  IChange (sample_change "a")
    (ISub 701 (IChange (sample_change "b") INil) None
      (ISub 702 (IChange (sample_change "c")
                   (ISub 703 (IChange (sample_change "d") INil) None
                      (IChange (sample_change "e") INil)))
         (Some [703; 702])
         (IChange (sample_change "f") INil))).

Definition sample_stream : list block :=
  [ BChunk 700 true [sample_row (Some 700) "a"; sample_row (Some 701) "b"];
    BOrdinary (mkBegin 500 0 709) [sample_row None "z"] (mkCommit 0 500 540 9);
    BChunk 700 false [sample_row (Some 702) "c"; sample_row (Some 703) "d";
                      sample_row (Some 702) "e"];
    BAbort (mkStreamAbort 700 703);
    BAbort (mkStreamAbort 700 702);
    BChunk 700 false [sample_row (Some 700) "f"] ].

Lemma savepoint_delivery_witness :
  (∃ a', feed_all (blocks_messages (sample_stream ++ [BCommit (mkStreamCommit 700 0 600 10)]))
           TransactionAssembler_init
         = (Ok (blocks_output ∅ sample_stream
                ++ [mkTransaction 700 (600 - 1) 10 ((survivors 700 sample_items).*1)]), a')) ∧
  (survivors 700 sample_items).*1 = [sample_change "a"; sample_change "b"; sample_change "f"].
Proof.
  split; [|vm_compute; reflexivity].
  apply (savepoint_delivery sample_stream (mkStreamCommit 700 0 600 10) sample_items);
    vm_compute; reflexivity.
Defined.

(** A [StreamCommit] for the xid of the open ordinary transaction, then its
    [Commit]. *)
Definition desync_commit : list PgoutputMessage :=
  [ PBegin (mkBegin 500 0 7); PStreamCommit (mkStreamCommit 7 0 600 10);
    PCommit (mkCommit 0 500 540 9) ].

(** A stream segment continuing the open ordinary transaction, its [Commit]
    inside the segment, then a row change. *)
Definition desync_segment : list PgoutputMessage :=
  [ PBegin (mkBegin 500 0 7); PStreamStart (mkStreamStart 7 false);
    PCommit (mkCommit 0 500 540 9); sample_row None "a" ].

(** The two guards of a desynchronised stream that the code takes to be
    unreachable are reachable through [feed]: a streamed commit of the open
    ordinary transaction makes the following [Commit] fail with a bare
    [KeyError], and a stream segment that outlives its transaction's [Commit]
    makes the next row change fail in [_append_change] with its own
    no-open-bucket [ProtocolError]. *)
Theorem desync_failures :
  fst (feed_all desync_commit TransactionAssembler_init) = Raise KeyError ∧
  fst (feed_all desync_segment TransactionAssembler_init)
  = Raise (ProtocolError (lit "received a change for xid 7 with no open bucket") (ctx_xid 7)).
Proof. split; vm_compute; reflexivity. Qed.
