(* ===== verification/Client.v ===== *)
(** The replication client ([walbox/client.py]): the state of [Client], the
    synchronous code between two awaits of each of its coroutines, and a step
    function that interleaves the receiver task, the task it waits for, the
    consumer task, the handler's checkpoint saves, the status timer and
    [close]. *)
From stdpp Require Import base tactics list numbers strings gmap.
From S2P Require Import Prelude PyStr Errors PyBytes PyFloat Protocol Pgoutput Abc Transaction.

(** ** [asyncio.Queue] *)

Record Queue (A : Type) := mkQueue {
  q_items : list A;
  q_maxsize : Z;
  q_shutdown : bool;
}.
Arguments mkQueue {A}. Arguments q_items {A}. Arguments q_maxsize {A}. Arguments q_shutdown {A}.

Section Queue.
Context {A : Type}.

Definition qsize (q : Queue A) : Z := py_len (q_items q).

(** A bound that is not positive is no bound. *)
Definition queue_full (q : Queue A) : bool :=
  (0 <? q_maxsize q) && (q_maxsize q <=? qsize q).

Definition put_nowait (item : A) : method (Queue A) exn unit := λ q,
  if q_shutdown q then (Raise QueueShutDown, q)
  else if queue_full q then (Raise QueueFull, q)
  else (Ok tt, mkQueue (q_items q ++ [item]) (q_maxsize q) (q_shutdown q)).

(** One wake-up of a task in [put]: [None] while it stays blocked. *)
Definition put_wakes (item : A) (q : Queue A) : option (py unit * Queue A) :=
  if q_shutdown q then Some (Raise QueueShutDown, q)
  else if queue_full q then None
  else Some (put_nowait item q).

(** One wake-up of a task in [get]: [None] while it stays blocked. *)
Definition get_wakes (q : Queue A) : option (py A * Queue A) :=
  match q_items q with
  | item :: rest => Some (Ok item, mkQueue rest (q_maxsize q) (q_shutdown q))
  | [] => if q_shutdown q then Some (Raise QueueShutDown, q) else None
  end.

(** [shutdown(immediate=True)] *)
Definition queue_shutdown (q : Queue A) : Queue A := mkQueue [] (q_maxsize q) true.
End Queue.

(** ** State *)

(** The metrics-only counters and gauges of [Client]. *)
Record Counters := mkCounters {
  _receive_lsn : Z;
  _transactions_processed : Z;
  _changes_processed : Z;
  _reconnect_count : Z;
  _last_handler_latency : float;
  _last_keepalive_wal_end : Z;
  _last_keepalive_at : float;
  _last_checkpoint_latency : float;
  _transactions_since_checkpoint : Z;
}.

Record Client := mkClient {
  options : WalboxOptions;
  _decoder : Decoder;
  _assembler : TransactionAssembler;
  _last_written_lsn : Z;
  _durable_lsn : Z;
  _next_backoff : float;
  _queue : Queue Transaction;
  _closing : bool;
  _next_status_at : float;
  counters : Counters;
}.

Definition _INITIAL_BACKOFF : float := f_of_int 1.
Definition _MAX_BACKOFF : float := f_of_int 60.

Definition _next_backoff_value (current : float) : float :=
  f_min (f_mul current (f_of_int 2)) _MAX_BACKOFF.

Definition f_zero : float := f_of_int 0.

(** [Client.__init__] *)
Definition Client_init (o : WalboxOptions) : Client :=
  mkClient o Decoder_init TransactionAssembler_init 0 0 _INITIAL_BACKOFF
    (mkQueue [] (max_pending_transactions o) false) false f_zero
    (mkCounters 0 0 0 0 f_zero 0 f_zero f_zero 0).

(** Attribute assignments. *)
Definition set_decoder d c := mkClient (options c) d (_assembler c) (_last_written_lsn c)
  (_durable_lsn c) (_next_backoff c) (_queue c) (_closing c) (_next_status_at c) (counters c).
Definition set_assembler a c := mkClient (options c) (_decoder c) a (_last_written_lsn c)
  (_durable_lsn c) (_next_backoff c) (_queue c) (_closing c) (_next_status_at c) (counters c).
Definition set_written l c := mkClient (options c) (_decoder c) (_assembler c) l
  (_durable_lsn c) (_next_backoff c) (_queue c) (_closing c) (_next_status_at c) (counters c).
Definition set_durable l c := mkClient (options c) (_decoder c) (_assembler c)
  (_last_written_lsn c) l (_next_backoff c) (_queue c) (_closing c) (_next_status_at c)
  (counters c).
Definition set_backoff b c := mkClient (options c) (_decoder c) (_assembler c)
  (_last_written_lsn c) (_durable_lsn c) b (_queue c) (_closing c) (_next_status_at c)
  (counters c).
Definition set_queue q c := mkClient (options c) (_decoder c) (_assembler c)
  (_last_written_lsn c) (_durable_lsn c) (_next_backoff c) q (_closing c) (_next_status_at c)
  (counters c).
Definition set_closing b c := mkClient (options c) (_decoder c) (_assembler c)
  (_last_written_lsn c) (_durable_lsn c) (_next_backoff c) (_queue c) b (_next_status_at c)
  (counters c).
Definition set_next_status t c := mkClient (options c) (_decoder c) (_assembler c)
  (_last_written_lsn c) (_durable_lsn c) (_next_backoff c) (_queue c) (_closing c) t
  (counters c).
Definition set_counters k c := mkClient (options c) (_decoder c) (_assembler c)
  (_last_written_lsn c) (_durable_lsn c) (_next_backoff c) (_queue c) (_closing c)
  (_next_status_at c) k.

Definition count_receive l k := mkCounters l (_transactions_processed k) (_changes_processed k)
  (_reconnect_count k) (_last_handler_latency k) (_last_keepalive_wal_end k)
  (_last_keepalive_at k) (_last_checkpoint_latency k) (_transactions_since_checkpoint k).
Definition count_dispatch (n : Z) k := mkCounters (_receive_lsn k)
  (_transactions_processed k + 1) (_changes_processed k + n)
  (_reconnect_count k) (_last_handler_latency k) (_last_keepalive_wal_end k)
  (_last_keepalive_at k) (_last_checkpoint_latency k) (_transactions_since_checkpoint k + 1).
Definition count_reconnect k := mkCounters (_receive_lsn k) (_transactions_processed k)
  (_changes_processed k) (_reconnect_count k + 1) (_last_handler_latency k)
  (_last_keepalive_wal_end k) (_last_keepalive_at k) (_last_checkpoint_latency k)
  (_transactions_since_checkpoint k).
Definition count_latency d k := mkCounters (_receive_lsn k) (_transactions_processed k)
  (_changes_processed k) (_reconnect_count k) d (_last_keepalive_wal_end k)
  (_last_keepalive_at k) (_last_checkpoint_latency k) (_transactions_since_checkpoint k).
Definition count_keepalive w t k := mkCounters (_receive_lsn k) (_transactions_processed k)
  (_changes_processed k) (_reconnect_count k) (_last_handler_latency k) w t
  (_last_checkpoint_latency k) (_transactions_since_checkpoint k).
Definition count_saved d k := mkCounters (_receive_lsn k) (_transactions_processed k)
  (_changes_processed k) (_reconnect_count k) (_last_handler_latency k)
  (_last_keepalive_wal_end k) (_last_keepalive_at k) d 0.

Abbreviation cm := (method Client exn).

(** A method call on an attribute. *)
Definition on_decoder {A} (m : method Decoder exn A) : cm A := λ self,
  let '(r, d) := m (_decoder self) in (r, set_decoder d self).
Definition on_assembler {A} (m : method TransactionAssembler exn A) : cm A := λ self,
  let '(r, a) := m (_assembler self) in (r, set_assembler a self).
Definition on_queue {A} (m : method (Queue Transaction) exn A) : cm A := λ self,
  let '(r, q) := m (_queue self) in (r, set_queue q self).

(** ** The code between awaits *)

(** [close] *)
Definition Client_close (self : Client) : Client :=
  set_queue (queue_shutdown (_queue self)) (set_closing true self).

(** [_send_status_update], up to [transport.write]: the frame it writes. *)
Definition _send_status_update (reply : bool) (clock : Z) : cm bytes :=
  self ← get_self;
  lift (time ← pg_now_micros None clock;
        encode_standby_status_update
          (mkStandbyStatusUpdate (_last_written_lsn self) (_durable_lsn self) (_durable_lsn self)
             time reply)).

Definition _record_durable_progress (lsn : Z) (latency : float) : cm unit :=
  modify_self (λ self,
    set_durable (Z.max (_durable_lsn self) lsn)
      (set_counters (count_saved latency (counters self)) self)).

Definition _current_metrics (self : Client) : Metrics :=
  let k := counters self in
  mkMetrics (consumer_name (options self)) (_receive_lsn k) (_durable_lsn self)
    (_last_keepalive_wal_end k - _receive_lsn k) (_transactions_processed k)
    (_changes_processed k) (_reconnect_count k) (_last_handler_latency k)
    (qsize (_queue self)) (_last_keepalive_at k) (_last_checkpoint_latency k)
    (_transactions_since_checkpoint k).

(** [_maybe_report_metrics]: the snapshot handed to the callback, if there is
    one; what the callback raises is swallowed. *)
Definition _maybe_report_metrics (self : Client) : option Metrics :=
  match on_metrics (options self) with
  | None => None
  | Some callback =>
      let m := _current_metrics self in
      match callback m with Ok _ => Some m | Raise _ => Some m end
  end.

(** Where a piece of the receiver's code stops: it goes back to the top of the
    loop, waits for a place in the queue, or waits for a status write. *)
Inductive awaiting :=
| Proceed
| AwaitPut (transaction : Transaction)
| AwaitWrite (frame : bytes).

Definition _enqueue (transaction : Transaction) : cm awaiting := λ self,
  match on_queue (put_nowait transaction) self with
  | (Ok _, self') => (Ok Proceed, self')
  | (Raise QueueFull, self') => (Ok (AwaitPut transaction), self')
  | (Raise e, self') => (Raise e, self')
  end.

(** [_handle_xlog_data] up to the call of [_enqueue]: the transaction the
    message completes. *)
Definition is_dropped (message : PgoutputMessage) : bool :=
  match message with PType _ | POrigin _ | PMessage _ => true | _ => false end.

Definition xlog_transaction (payload : bytes) : cm (option Transaction) :=
  message ← on_decoder (decode payload);
  if is_dropped message then mret None
  else on_assembler (feed message).

Definition _handle_xlog_data (xlog : XLogData) : cm awaiting :=
  _ ← modify_self (λ self,
        set_written (Z.max (_last_written_lsn self) (x_wal_start xlog)) self);
  _ ← modify_self (λ self,
        set_counters (count_receive (Z.max (_receive_lsn (counters self)) (x_wal_start xlog))
                        (counters self)) self);
  transaction ← xlog_transaction (x_payload xlog);
  match transaction with
  | None => mret Proceed
  | Some t => _enqueue t
  end.

(** [now] is the reading of [time.monotonic()], [clock] of the wall clock. *)
Definition _handle_keepalive (keepalive : PrimaryKeepalive) (now : float) (clock : Z) :
    cm awaiting :=
  _ ← modify_self (λ self,
        set_written (Z.max (_last_written_lsn self) (k_wal_end keepalive)) self);
  _ ← modify_self (λ self,
        set_counters (count_keepalive (k_wal_end keepalive) now (counters self)) self);
  if k_reply_requested keepalive then
    frame ← _send_status_update false clock;
    mret (AwaitWrite frame)
  else mret Proceed.

Definition _handle_frame (payload : bytes) (now : float) (clock : Z) : cm awaiting :=
  message ← lift (decode_replication_message payload);
  match message with
  | RXLogData xlog => _handle_xlog_data xlog
  | RPrimaryKeepalive keepalive => _handle_keepalive keepalive now clock
  end.

(** ** Tasks *)

(** The task [_await_with_status_updates] waits for: a [transport.read()] or a
    [queue.put(transaction)]. *)
Inductive inner_task :=
| ReadTask (outcome : option (py bytes))
| PutTask (transaction : Transaction) (outcome : option (py unit)).

Definition inner_done (i : inner_task) : bool :=
  match i with
  | ReadTask (Some _) | PutTask _ (Some _) => true
  | _ => false
  end.

(** The receiver: in [asyncio.wait], in the status write of a timer tick (the
    inner task still running), in the reply to a keepalive, or finished. *)
Inductive receiver :=
| RWaiting (i : inner_task)
| RUpdating (i : inner_task)
| RReplying
| RStopped (r : py unit).

(** The consumer: in [queue.get()], in the handler, in the store's [save] called
    from the handler ([stored] once the store has done its work), or finished. *)
Inductive consumer :=
| CGetting
| CHandling (transaction : Transaction) (started : float)
| CSaving (transaction : Transaction) (started : float) (lsn : Z) (save_started : float)
    (joined stored : bool)
| CStopped (r : py unit).

(** [run] raises one exception, or the group the task group raised. *)
Inductive outcome :=
| Returned
| Raised (e : exn)
| RaisedGroup (es : list exn).

Inductive connecting := DoConnect | DoCreateSlot | DoStart.
Inductive finishing := DoFinalUpdate | DoEndCopy.

(** Where [run] is. *)
Inductive Phase :=
| Loading
| Connecting (start_lsn : Z) (stage : connecting)
| Streaming (r : receiver) (c : consumer)
| Finishing (stage : finishing)
| Sleeping
| Ended (o : outcome).

(** What an observer has seen, in order: status frames written, start positions
    of the replication commands, positions the store committed, payloads handed
    to [_handle_frame], transactions handed to the handler, transactions whose
    handler returned, transactions discarded before reaching it, reconnect
    delays and metrics reports. *)
Record History := mkHistory {
  wire : list bytes;
  starts : list Z;
  committed : list Z;
  handled : list bytes;
  delivered : list Transaction;
  completed : list Transaction;
  dropped : list Transaction;
  delays : list float;
  reports : list Metrics;
}.

Definition no_history : History := mkHistory [] [] [] [] [] [] [] [] [].

(** The client, the position the checkpoint store holds, the one a handler has
    written on a connection of its own and not committed, and the phase. *)
Record World := mkWorld {
  client : Client;
  stored : option Z;
  uncommitted : option Z;
  phase : Phase;
  history : History;
}.

Definition with_client c w := mkWorld c (stored w) (uncommitted w) (phase w) (history w).
Definition with_phase p w := mkWorld (client w) (stored w) (uncommitted w) p (history w).
Definition with_history h w := mkWorld (client w) (stored w) (uncommitted w) (phase w) h.
Definition with_uncommitted u w := mkWorld (client w) (stored w) u (phase w) (history w).

Definition log_wire f h := mkHistory (wire h ++ [f]) (starts h) (committed h) (handled h)
  (delivered h) (completed h) (dropped h) (delays h) (reports h).
Definition log_start l h := mkHistory (wire h) (starts h ++ [l]) (committed h) (handled h)
  (delivered h) (completed h) (dropped h) (delays h) (reports h).
Definition log_committed l h := mkHistory (wire h) (starts h) (committed h ++ [l]) (handled h)
  (delivered h) (completed h) (dropped h) (delays h) (reports h).
Definition log_handled p h := mkHistory (wire h) (starts h) (committed h) (handled h ++ [p])
  (delivered h) (completed h) (dropped h) (delays h) (reports h).
Definition log_delivered t h := mkHistory (wire h) (starts h) (committed h) (handled h)
  (delivered h ++ [t]) (completed h) (dropped h) (delays h) (reports h).
Definition log_completed t h := mkHistory (wire h) (starts h) (committed h) (handled h)
  (delivered h) (completed h ++ [t]) (dropped h) (delays h) (reports h).
Definition log_dropped ts h := mkHistory (wire h) (starts h) (committed h) (handled h)
  (delivered h) (completed h) (dropped h ++ ts) (delays h) (reports h).
Definition log_delay d h := mkHistory (wire h) (starts h) (committed h) (handled h)
  (delivered h) (completed h) (dropped h) (delays h ++ [d]) (reports h).
Definition log_report m h := mkHistory (wire h) (starts h) (committed h) (handled h)
  (delivered h) (completed h) (dropped h) (delays h)
  (match m with Some m => reports h ++ [m] | None => reports h end).

(** The store's value becomes [lsn]. *)
Definition commit_store (lsn : Z) (w : World) : World :=
  mkWorld (client w) (Some lsn) (uncommitted w) (phase w) (log_committed lsn (history w)).

(** ** Steps *)

(** The transaction a pending put holds: lost when its task is cancelled. *)
Definition put_pending (i : inner_task) : list Transaction :=
  match i with PutTask t None => [t] | _ => [] end.

Definition receiver_pending (r : receiver) : list Transaction :=
  match r with RWaiting i | RUpdating i => put_pending i | _ => [] end.

(** [_receive_loop] catches [QueueShutDown]; everything else leaves it. *)
Definition receiver_exit (e : exn) : receiver :=
  RStopped (match e with QueueShutDown => Ok tt | _ => Raise e end).

(** The top of the loop: a new [transport.read()], or the end. *)
Definition loop_top (self : Client) : receiver :=
  if _closing self then RStopped (Ok tt) else RWaiting (ReadTask None).

(** The receiver leaves, abandoning what its inner task still holds. *)
Definition receiver_stop (r r' : receiver) (c : consumer) (w : World) : World :=
  with_phase (Streaming r' c) (with_history (log_dropped (receiver_pending r) (history w)) w).

(** The transaction [_enqueue] fails to put because the queue is shut down. *)
Definition refused (payload : bytes) (now : float) (clock : Z) (self : Client) :
    list Transaction :=
  match decode_replication_message payload with
  | Ok (RXLogData xlog) =>
      match xlog_transaction (x_payload xlog) self with
      | (Ok (Some t), self') =>
          match put_nowait t (_queue self') with
          | (Raise QueueShutDown, _) => [t]
          | _ => []
          end
      | _ => []
      end
  | _ => []
  end.

(** [await self._handle_frame(payload)]: the frame is taken, then the receiver
    waits or goes back to the top. *)
Definition receive_frame (payload : bytes) (now : float) (clock : Z) (c : consumer)
    (w : World) : World :=
  let '(r, self) := _handle_frame payload now clock (client w) in
  let w' := with_client self (with_history (log_handled payload (history w)) w) in
  match r with
  | Ok Proceed => with_phase (Streaming (loop_top self) c) w'
  | Ok (AwaitPut t) => with_phase (Streaming (RWaiting (PutTask t None)) c) w'
  | Ok (AwaitWrite frame) =>
      with_phase (Streaming RReplying c) (with_history (log_wire frame (history w')) w')
  | Raise e =>
      with_phase (Streaming (receiver_exit e) c)
        (with_history (log_dropped (refused payload now clock (client w)) (history w')) w')
  end.

(** The receiver's task resumes from [asyncio.wait] with the inner task done. *)
Definition receiver_resumes (i : inner_task) (now : float) (clock : Z) (c : consumer)
    (w : World) : option World :=
  match i with
  | ReadTask (Some (Ok payload)) => Some (receive_frame payload now clock c w)
  | ReadTask (Some (Raise e)) => Some (with_phase (Streaming (receiver_exit e) c) w)
  | PutTask _ (Some (Ok _)) => Some (with_phase (Streaming (loop_top (client w)) c) w)
  | PutTask _ (Some (Raise e)) => Some (with_phase (Streaming (receiver_exit e) c) w)
  | ReadTask None | PutTask _ None => None
  end.

(** The timer of [_await_with_status_updates] fires with the task not done. *)
Definition timer_fires (i : inner_task) (clock : Z) (c : consumer) (w : World) :
    option World :=
  if inner_done i then None
  else if _closing (client w) then
    Some (receiver_stop (RWaiting i) (receiver_exit QueueShutDown) c w)
  else
    match _send_status_update false clock (client w) with
    | (Ok frame, self) =>
        Some (with_phase (Streaming (RUpdating i) c)
                (with_client self (with_history (log_wire frame (history w)) w)))
    | (Raise e, self) =>
        Some (receiver_stop (RWaiting i) (receiver_exit e) c (with_client self w))
    end.

(** The tick's write is done: report the metrics and set the next deadline. *)
Definition tick_done (i : inner_task) (now : float) (c : consumer) (w : World) : World :=
  let self := client w in
  with_phase (Streaming (RWaiting i) c)
    (with_history (log_report (_maybe_report_metrics self) (history w))
      (with_client
        (set_next_status (f_add now (f_of_int (status_interval (options self)))) self) w)).

(** *** The consumer *)

(** [_process] up to the handler's first await. *)
Definition start_handler (t : Transaction) (q : Queue Transaction) (now : float)
    (r : receiver) (w : World) : World :=
  let self := set_queue q (client w) in
  let self := set_counters (count_dispatch (py_len (tx_changes t)) (counters self)) self in
  with_phase (Streaming r (CHandling t now))
    (with_history (log_delivered t (history w)) (with_client self w)).

Definition consumer_gets (now : float) (r : receiver) (w : World) : option World :=
  match get_wakes (_queue (client w)) with
  | None => None
  | Some (Raise e, q) =>
      Some (with_phase (Streaming r (CStopped (Ok tt))) (with_client (set_queue q (client w)) w))
  | Some (Ok t, q) => Some (start_handler t q now r w)
  end.

(** The handler calls [checkpoint.save(lsn)]: above the transaction's own
    position [CheckpointError] is raised in the handler. *)
Definition save_begins (t : Transaction) (started : float) (lsn : Z) (joined : bool)
    (now : float) (r : receiver) (w : World) : World :=
  if tx_commit_lsn t <? lsn then w
  else with_phase (Streaming r (CSaving t started lsn now joined false)) w.

(** The store has run its statement, and committed it unless it joined the
    handler's own connection. *)
Definition store_saves (t : Transaction) (started : float) (lsn : Z) (save_started : float)
    (joined : bool) (r : receiver) (w : World) : World :=
  with_phase (Streaming r (CSaving t started lsn save_started joined true))
    (if joined then with_uncommitted (Some lsn) w else commit_store lsn w).

Definition save_returns (t : Transaction) (started : float) (lsn : Z) (save_started : float)
    (now : float) (r : receiver) (w : World) : World :=
  with_phase (Streaming r (CHandling t started))
    (with_client (snd (_record_durable_progress lsn (f_sub now save_started) (client w))) w).

Definition handler_returns (t : Transaction) (started now : float) (r : receiver)
    (w : World) : World :=
  let self := client w in
  with_phase (Streaming r CGetting)
    (with_history (log_completed t (history w))
      (with_client (set_counters (count_latency (f_sub now started) (counters self)) self) w)).

(** *** [run] and [_run_once] *)

(** The test of the loop of [run]. *)
Definition run_top (w : World) : World :=
  with_phase (if _closing (client w) then Ended Returned else Loading) w.

(** The [except] clause of [run]; the delay of [_reconnect_delay] begins. *)
Definition run_catches (e : exn) (w : World) : World :=
  if isinstance e cReplicationConnectionError then
    if _closing (client w) then with_phase (Ended Returned) w
    else
      let self := client w in
      with_phase Sleeping
        (with_history (log_delay (_next_backoff self) (history w))
          (with_client (set_counters (count_reconnect (counters self)) self) w))
  else with_phase (Ended (Raised e)) w.

Definition delay_over (w : World) : World :=
  let self := client w in
  run_top (with_client (set_backoff (_next_backoff_value (_next_backoff self)) self) w).

(** [checkpoint_store.load()] and the lines up to [connect]. *)
Definition loaded (fails : option exn) (w : World) : World :=
  match fails with
  | Some e => run_catches e w
  | None =>
      let start_lsn := match stored w with None => 0 | Some l => l + 1 end in
      let durable := match stored w with None => 0 | Some l => l end in
      with_phase (Connecting start_lsn DoConnect)
        (with_client (set_durable durable (client w)) w)
  end.

(** One await of [connect], [create_slot_if_missing] and [start_replication]
    completes. *)
Definition connection_step (start_lsn : Z) (stage : connecting) (r : py unit) (now : float)
    (w : World) : World :=
  match r with
  | Raise e => run_catches e w
  | Ok _ =>
      match stage with
      | DoConnect => with_phase (Connecting start_lsn DoCreateSlot) w
      | DoCreateSlot => with_phase (Connecting start_lsn DoStart) w
      | DoStart =>
          let self := client w in
          let self := set_backoff _INITIAL_BACKOFF self in
          let self :=
            set_next_status (f_add now (f_of_int (status_interval (options self)))) self in
          with_phase (Streaming (loop_top self) CGetting)
            (with_history (log_start start_lsn (history w)) (with_client self w))
      end
  end.

Definition is_connection_error (e : exn) : bool := isinstance e cReplicationConnectionError.

(** What the two tasks raised; a cancelled task contributes nothing. *)
Definition task_errors (r : py unit) : list exn :=
  match r with
  | Raise CancelledError | Ok _ => []
  | Raise e => [e]
  end.

(** The end of the task group: the final update, or the group's exceptions, of
    which [except*] unwraps a connection error when there is nothing else. *)
Definition tasks_joined (r c : py unit) (clock : Z) (w : World) : World :=
  match task_errors r ++ task_errors c with
  | [] =>
      match _send_status_update false clock (client w) with
      | (Ok frame, self) =>
          with_phase (Finishing DoFinalUpdate)
            (with_client self (with_history (log_wire frame (history w)) w))
      | (Raise e, self) => run_catches e (with_client self w)
      end
  | e :: es =>
      if forallb is_connection_error (e :: es) then run_catches e w
      else with_phase (Ended (RaisedGroup (e :: es))) w
  end.

(** A task that raised makes the task group cancel the other.  The step is an offer: a
    handler that swallows [CancelledError] and goes on is the run that does not take it,
    in which the consumer's steps stay possible. *)
Definition failed (r : py unit) : bool :=
  match r with Raise CancelledError | Ok _ => false | Raise _ => true end.

Definition sibling_cancelled (r : receiver) (c : consumer) (w : World) : option World :=
  match r, c with
  | RStopped _, CStopped _ => None
  | RStopped x, _ =>
      if failed x then Some (with_phase (Streaming r (CStopped (Raise CancelledError))) w)
      else None
  | _, CStopped x =>
      if failed x then Some (receiver_stop r (RStopped (Raise CancelledError)) c w) else None
  | _, _ => None
  end.

(** *** Events *)

(** One atomic step of the program: what an awaited operation did, or which task
    the event loop runs next.  [now] and [clock] are the clock readings taken in
    the step. *)
Inductive event :=
| EClose
| ELoad (fails : option exn)
| ETransport (r : py unit) (now : float)
| EFrame (payload : bytes)
| EReadFails (e : exn)
| EPut
| EReceiver (now : float) (clock : Z)
| ETimer (clock : Z)
| EGet (now : float)
| ESave (lsn : Z) (joined : bool) (now : float)
| EStore
| ESaved (now : float)
| ESaveFails
| ECallerCommits
| ECallerRollsBack
| EHandlerReturns (now : float)
| EHandlerRaises (e : exn)
| ECancel
| EJoin (clock : Z)
| EWake
| ECancelRun.

(** The inner task moves on while the receiver waits or writes an update. *)
Definition inner_event (ev : event) (i : inner_task) (w : World) :
    option (inner_task * World) :=
  match ev, i with
  | EFrame payload, ReadTask None => Some (ReadTask (Some (Ok payload)), w)
  | EReadFails e, ReadTask None => Some (ReadTask (Some (Raise e)), w)
  | EPut, PutTask t None =>
      match put_wakes t (_queue (client w)) with
      | None => None
      | Some (Ok _, q) =>
          Some (PutTask t (Some (Ok tt)), with_client (set_queue q (client w)) w)
      | Some (Raise e, q) =>
          Some (PutTask t (Some (Raise e)),
                with_history (log_dropped [t] (history w))
                  (with_client (set_queue q (client w)) w))
      end
  | _, _ => None
  end.

Definition receiver_event (ev : event) (r : receiver) (c : consumer) (w : World) :
    option World :=
  match ev, r with
  | (EFrame _ | EReadFails _ | EPut), RWaiting i =>
      '(i', w') ← inner_event ev i w; Some (with_phase (Streaming (RWaiting i') c) w')
  | (EFrame _ | EReadFails _ | EPut), RUpdating i =>
      '(i', w') ← inner_event ev i w; Some (with_phase (Streaming (RUpdating i') c) w')
  | EReceiver now clock, RWaiting i => receiver_resumes i now clock c w
  | ETimer clock, RWaiting i => timer_fires i clock c w
  | ETransport (Ok _) now, RUpdating i => Some (tick_done i now c w)
  | ETransport (Raise e) _, RUpdating _ => Some (receiver_stop r (receiver_exit e) c w)
  | ETransport (Ok _) _, RReplying =>
      Some (with_phase (Streaming (loop_top (client w)) c) w)
  | ETransport (Raise e) _, RReplying => Some (receiver_stop r (receiver_exit e) c w)
  | _, _ => None
  end.

Definition consumer_event (ev : event) (r : receiver) (c : consumer) (w : World) :
    option World :=
  match ev, c with
  | EGet now, CGetting => consumer_gets now r w
  | ESave lsn joined now, CHandling t started => Some (save_begins t started lsn joined now r w)
  | EStore, CSaving t started lsn save_started joined false =>
      Some (store_saves t started lsn save_started joined r w)
  | ESaved now, CSaving t started lsn save_started _ true =>
      Some (save_returns t started lsn save_started now r w)
  | ESaveFails, CSaving t started _ _ _ _ =>
      Some (with_phase (Streaming r (CHandling t started)) w)
  | EHandlerReturns now, CHandling t started => Some (handler_returns t started now r w)
  | EHandlerRaises e, CHandling _ _ => Some (with_phase (Streaming r (CStopped (Raise e))) w)
  | _, _ => None
  end.

Definition streaming_event (ev : event) (r : receiver) (c : consumer) (w : World) :
    option World :=
  match ev with
  | EJoin clock =>
      match r, c with
      | RStopped x, CStopped y => Some (tasks_joined x y clock w)
      | _, _ => None
      end
  | ECancel => sibling_cancelled r c w
  | EFrame _ | EReadFails _ | EPut | EReceiver _ _ | ETimer _ | ETransport _ _ =>
      receiver_event ev r c w
  | _ => consumer_event ev r c w
  end.

(** [close()] may be called at any point; what is still queued is discarded. *)
Definition closed (w : World) : World :=
  with_history (log_dropped (q_items (_queue (client w))) (history w))
    (with_client (Client_close (client w)) w).

Definition caller_commits (w : World) : option World :=
  match uncommitted w with
  | Some lsn => Some (commit_store lsn (with_uncommitted None w))
  | None => None
  end.

(** The task of [run] is cancelled from outside: at any await of [run] the
    [CancelledError] ends it; the task group first cancels its tasks, and the
    receiver its inner task. *)
Definition run_cancelled (w : World) : option World :=
  match phase w with
  | Ended _ => None
  | Streaming r c =>
      Some (with_phase (Ended (Raised CancelledError))
              (receiver_stop r (RStopped (Raise CancelledError)) c w))
  | _ => Some (with_phase (Ended (Raised CancelledError)) w)
  end.

Definition step (ev : event) (w : World) : option World :=
  match ev with
  | EClose => Some (closed w)
  | ECancelRun => run_cancelled w
  | ECallerCommits => caller_commits w
  | ECallerRollsBack => Some (with_uncommitted None w)
  | _ =>
      match phase w, ev with
      | Loading, ELoad fails => Some (loaded fails w)
      | Connecting start_lsn stage, ETransport r now =>
          Some (connection_step start_lsn stage r now w)
      | Streaming r c, _ => streaming_event ev r c w
      | Finishing DoFinalUpdate, ETransport (Ok _) _ =>
          Some (with_phase (Finishing DoEndCopy) w)
      | Finishing DoEndCopy, ETransport (Ok _) _ => Some (run_top w)
      | Finishing _, ETransport (Raise e) _ => Some (run_catches e w)
      | Sleeping, EWake => Some (delay_over w)
      | _, _ => None
      end
  end.

(** A sequence of steps; [None] when one of them is not possible. *)
Fixpoint steps (evs : list event) (w : World) : option World :=
  match evs with
  | [] => Some w
  | ev :: rest => w' ← step ev w; steps rest w'
  end.

(** [run(handler)] called on a fresh client, the store holding [lsn]. *)
Definition run_start (o : WalboxOptions) (lsn : option Z) : World :=
  run_top (mkWorld (set_backoff _INITIAL_BACKOFF (Client_init o)) lsn None Loading
    (mkHistory [] [] (match lsn with Some l => [l] | None => [] end) [] [] [] [] [] [])).

(** The worlds the program can be in. *)
Definition reachable (o : WalboxOptions) (lsn : option Z) (w : World) : Prop :=
  ∃ evs, steps evs (run_start o lsn) = Some w.
