(* ===== verification/ClientSpec.v ===== *)
(** What the client guarantees: invariants of every world its tasks can reach,
    whatever the server, the store, the handler and the event loop do. *)
From stdpp Require Import base tactics list numbers strings gmap.
From S2P Require Import Prelude PyStr Errors PyBytes PyFloat Protocol Pgoutput PgoutputSpec Abc.
From S2P Require Import Transaction TransactionSpec Client.

(** ** Reasoning about steps *)

(** An invariant of the steps taken by the events [ok] allows. *)
Lemma steps_inv (ok : event → bool) (P : World → Prop) evs w w' :
  (∀ ev w w', ok ev = true → P w → step ev w = Some w' → P w') →
  forallb ok evs = true → P w → steps evs w = Some w' → P w'.
Proof.
  intros Hstep. revert w. induction evs as [|ev evs IH]; intros w Hok HP Hs.
  - by injection Hs as <-.
  - cbn [forallb] in Hok. zbool. cbn [steps] in Hs.
    destruct (step ev w) as [w1|] eqn:E; [|done].
    apply (IH w1); [done|by eapply Hstep|done].
Qed.

Lemma steps_app evs1 evs2 w :
  steps (evs1 ++ evs2) w = steps evs1 w ≫= steps evs2.
Proof.
  revert w. induction evs1 as [|ev evs1 IH]; intros w; [done|].
  cbn [app steps]. destruct (step ev w); [apply IH|done].
Qed.

(** *** Status updates *)

Lemma send_update_inv reply clock c r c' :
  _send_status_update reply clock c = (r, c') →
  c' = c ∧
  ∀ f, r = Ok f →
    ∃ u, encode_standby_status_update u = Ok f ∧
         written_lsn u = _last_written_lsn c ∧ flushed_lsn u = _durable_lsn c ∧
         applied_lsn u = _durable_lsn c ∧ reply_requested u = reply.
Proof.
  unfold _send_status_update, mbind, method_bind, get_self, lift. intros [= <- <-].
  split; [done|]. intros f (time & Ht & Hf)%bind_ok. eexists. by split; [exact Hf|].
Qed.

(** The three positions the server reads in frame [f]. *)
Definition told (f : bytes) : option (Z * Z * Z) :=
  match server_read_status f with
  | Some (written, flushed, applied, _, _) => Some (written, flushed, applied)
  | None => None
  end.

Lemma told_encoded u f :
  encode_standby_status_update u = Ok f →
  told f = Some (written_lsn u + 1, flushed_lsn u + 1, applied_lsn u + 1).
Proof.
  intros Hf. pose proof (encode_update_cases u) as H. destruct (wf_update u).
  - destruct H as (p & Hp & _ & Hr). rewrite Hf in Hp. injection Hp as ->.
    unfold told. by rewrite Hr.
  - by rewrite Hf in H.
Qed.

(** A frame of the client [c]. *)
Definition frame_of (c : Client) (f : bytes) : Prop :=
  told f = Some (_last_written_lsn c + 1, _durable_lsn c + 1, _durable_lsn c + 1).

Lemma send_update_frame reply clock c f c' :
  _send_status_update reply clock c = (Ok f, c') → c' = c ∧ frame_of c f.
Proof.
  intros (-> & H)%send_update_inv. split; [done|].
  destruct (H f eq_refl) as (u & Hu & Hw & Hf & Ha & _).
  unfold frame_of. by rewrite (told_encoded u f Hu), Hw, Hf, Ha.
Qed.

Lemma send_update_raise reply clock c e c' :
  _send_status_update reply clock c = (Raise e, c') → c' = c.
Proof. by intros [-> _]%send_update_inv. Qed.

(** *** Frames *)

(** The part of the receiver that turns payloads into transactions. *)
Abbreviation pipeline := (Decoder * TransactionAssembler)%type.

Definition pipeline_of (c : Client) : pipeline := (_decoder c, _assembler c).

Definition feed_message (m : PgoutputMessage) (a : TransactionAssembler) :
    option Transaction * TransactionAssembler :=
  if is_dropped m then (None, a)
  else match feed m a with
       | (Ok t, a') => (t, a')
       | (Raise _, a') => (None, a')
       end.

(** What one payload completes, and the pipeline after it. *)
Definition feed_payload (payload : bytes) (st : pipeline) : option Transaction * pipeline :=
  match decode_replication_message payload with
  | Ok (RXLogData x) =>
      match decode (x_payload x) (fst st) with
      | (Ok m, d) => let '(t, a) := feed_message m (snd st) in (t, (d, a))
      | (Raise _, d) => (None, (d, snd st))
      end
  | _ => (None, st)
  end.

Fixpoint feed_payloads (payloads : list bytes) (st : pipeline) : list Transaction * pipeline :=
  match payloads with
  | [] => ([], st)
  | p :: rest =>
      let '(t, st') := feed_payload p st in
      let '(ts, st'') := feed_payloads rest st' in
      (match t with Some t => t :: ts | None => ts end, st'')
  end.

(** The attributes a frame leaves alone. *)
Definition same_run (c c' : Client) : Prop :=
  options c' = options c ∧ _durable_lsn c' = _durable_lsn c ∧
  _next_backoff c' = _next_backoff c ∧ _closing c' = _closing c ∧
  _next_status_at c' = _next_status_at c ∧
  _transactions_processed (counters c') = _transactions_processed (counters c) ∧
  _changes_processed (counters c') = _changes_processed (counters c) ∧
  _reconnect_count (counters c') = _reconnect_count (counters c) ∧
  _transactions_since_checkpoint (counters c')
    = _transactions_since_checkpoint (counters c) ∧
  _last_written_lsn c <= _last_written_lsn c' ∧
  _receive_lsn (counters c) <= _receive_lsn (counters c').

(** What [_handle_frame] does: the pipeline advances by the payload; the
    transaction it completes, if any, is queued, waits for a place, or is refused
    by a queue that is shut down. *)
Definition frame_effect (payload : bytes) (now : float) (clock : Z) (c : Client)
    (r : py awaiting) (c' : Client) : Prop :=
  same_run c c' ∧ pipeline_of c' = snd (feed_payload payload (pipeline_of c)) ∧
  match fst (feed_payload payload (pipeline_of c)) with
  | Some t =>
      (r = Ok Proceed ∧ put_nowait t (_queue c) = (Ok tt, _queue c') ∧
         refused payload now clock c = []) ∨
      (r = Ok (AwaitPut t) ∧ _queue c' = _queue c ∧
         put_nowait t (_queue c) = (Raise QueueFull, _queue c) ∧
         refused payload now clock c = []) ∨
      (r = Raise QueueShutDown ∧ _queue c' = _queue c ∧ q_shutdown (_queue c) = true ∧
         refused payload now clock c = [t])
  | None =>
      _queue c' = _queue c ∧ refused payload now clock c = [] ∧
      (r = Ok Proceed ∨ (∃ f, r = Ok (AwaitWrite f) ∧ frame_of c' f) ∨ ∃ e, r = Raise e)
  end.

Lemma put_nowait_cases {A} (t : A) q :
  (q_shutdown q = false ∧ queue_full q = false ∧
     put_nowait t q = (Ok tt, mkQueue (q_items q ++ [t]) (q_maxsize q) (q_shutdown q))) ∨
  (q_shutdown q = false ∧ queue_full q = true ∧ put_nowait t q = (Raise QueueFull, q)) ∨
  (q_shutdown q = true ∧ put_nowait t q = (Raise QueueShutDown, q)).
Proof. unfold put_nowait. destruct (q_shutdown q), (queue_full q); auto. Qed.

Lemma xlog_transaction_run payload c :
  xlog_transaction payload c =
    match decode payload (_decoder c) with
    | (Ok m, d) =>
        if is_dropped m then (Ok None, set_decoder d c)
        else let '(r, a) := feed m (_assembler c) in (r, set_assembler a (set_decoder d c))
    | (Raise e, d) => (Raise e, set_decoder d c)
    end.
Proof.
  unfold xlog_transaction, on_decoder, on_assembler, mbind, method_bind.
  destruct (decode payload (_decoder c)) as [[m|e] d]; [|done]. by destruct (is_dropped m).
Qed.

Ltac same_run_tac := repeat split; cbn; lia.

(** The queue's answer to a transaction just assembled. *)
Lemma enqueue_effect t c r c' :
  _enqueue t c = (r, c') →
  (∃ q, c' = set_queue q c ∧
    ((r = Ok Proceed ∧ put_nowait t (_queue c) = (Ok tt, q)) ∨
     (r = Ok (AwaitPut t) ∧ q = _queue c ∧
        put_nowait t (_queue c) = (Raise QueueFull, _queue c)) ∨
     (r = Raise QueueShutDown ∧ q = _queue c ∧ q_shutdown (_queue c) = true ∧
        put_nowait t (_queue c) = (Raise QueueShutDown, _queue c)))).
Proof.
  unfold _enqueue, on_queue.
  destruct (put_nowait_cases t (_queue c)) as [(Hs & Hf & Hp)|[(Hs & Hf & Hp)|(Hs & Hp)]];
    rewrite Hp; intros [= <- <-]; eexists; split; eauto 10.
Qed.

Lemma xlog_effect x payload now clock c r c' :
  decode_replication_message payload = Ok (RXLogData x) →
  _handle_xlog_data x c = (r, c') → frame_effect payload now clock c r c'.
Proof.
  intros Hd. unfold frame_effect, feed_payload, refused, _handle_xlog_data.
  unfold mbind, method_bind, modify_self. rewrite Hd, !xlog_transaction_run.
  cbn [_decoder _assembler set_written set_counters pipeline_of fst snd].
  unfold feed_message. destruct (decode (x_payload x) (_decoder c)) as [[m|e] d];
    [|intros [= <- <-]; split; [same_run_tac|]; cbn; eauto 10].
  destruct (is_dropped m); [intros [= <- <-]; split; [same_run_tac|]; cbn; eauto 10|].
  destruct (feed m (_assembler c)) as [[[t|]|e] a];
    [|intros [= <- <-]; split; [same_run_tac|]; cbn; eauto 10 ..].
  intros (q & -> & H)%enqueue_effect. cbn [_queue set_assembler set_decoder set_counters set_written] in H |- *.
  split; [same_run_tac|]. split; [done|]. cbn [fst].
  destruct H as [(-> & Hp)|[(-> & -> & Hp)|(-> & -> & Hq & Hp)]]; rewrite Hp; auto 10.
Qed.

Lemma keepalive_effect k payload now clock c r c' :
  decode_replication_message payload = Ok (RPrimaryKeepalive k) →
  _handle_keepalive k now clock c = (r, c') → frame_effect payload now clock c r c'.
Proof.
  intros Hd. unfold frame_effect, feed_payload, refused, _handle_keepalive.
  unfold mbind, method_bind, modify_self. rewrite Hd. cbn [fst snd].
  destruct (k_reply_requested k); [|intros [= <- <-]; split; [same_run_tac|]; cbn; auto].
  destruct (_send_status_update _ _ _) as [[f|e] c1] eqn:Hs; intros [= <- <-].
  - apply send_update_frame in Hs as [-> Hf]. split; [same_run_tac|]. split; [done|].
    split; [done|]. split; [done|]. right. left. by eauto.
  - apply send_update_raise in Hs as ->. split; [same_run_tac|]. cbn. eauto 10.
Qed.

Lemma handle_frame_effect payload now clock c r c' :
  _handle_frame payload now clock c = (r, c') → frame_effect payload now clock c r c'.
Proof.
  unfold _handle_frame, mbind, method_bind, lift.
  destruct (decode_replication_message payload) as [[x|k]|e] eqn:Hd.
  - by apply xlog_effect.
  - by apply keepalive_effect.
  - intros [= <- <-]. unfold frame_effect, feed_payload, refused. rewrite Hd.
    split; [same_run_tac|]. cbn. eauto 10.
Qed.

(** *** Case analysis on a step *)

(** The payload step with the frame's effect in place of its code. *)
Lemma receive_frame_cases payload now clock c w :
  ∃ r self, frame_effect payload now clock (client w) r self ∧
    receive_frame payload now clock c w =
      let w' := with_client self (with_history (log_handled payload (history w)) w) in
      match r with
      | Ok Proceed => with_phase (Streaming (loop_top self) c) w'
      | Ok (AwaitPut t) => with_phase (Streaming (RWaiting (PutTask t None)) c) w'
      | Ok (AwaitWrite frame) =>
          with_phase (Streaming RReplying c) (with_history (log_wire frame (history w')) w')
      | Raise e =>
          with_phase (Streaming (receiver_exit e) c)
            (with_history (log_dropped (refused payload now clock (client w)) (history w')) w')
      end.
Proof.
  unfold receive_frame. destruct (_handle_frame payload now clock (client w)) as [r self] eqn:E.
  exists r, self. split; [by apply handle_frame_effect|]. by destruct r as [[]|].
Qed.

(** Split hypothesis [H : step ev w = Some w'] into the ways the step can go. *)
Ltac step_cases H :=
  unfold step, closed, caller_commits, run_cancelled, streaming_event, receiver_event, consumer_event,
    inner_event, receiver_resumes, timer_fires, sibling_cancelled, consumer_gets,
    mbind, option_bind in H;
  repeat (case_step_in H; try discriminate H; simplify_eq); simplify_eq.

Lemma put_wakes_cases {A} (t : A) q r q' :
  put_wakes t q = Some (r, q') →
  (r = Ok tt ∧ put_nowait t q = (Ok tt, q')) ∨
  (r = Raise QueueShutDown ∧ q_shutdown q = true ∧ q' = q).
Proof.
  unfold put_wakes. destruct (q_shutdown q) eqn:Hs; [intros [= <- <-]; auto|].
  destruct (queue_full q) eqn:Hf; [done|]. intros [= H].
  unfold put_nowait in *. rewrite Hs, Hf in *. injection H as <- <-. auto.
Qed.

Lemma get_wakes_cases {A} (q : Queue A) r q' :
  get_wakes q = Some (r, q') →
  (∃ t, r = Ok t ∧ q_items q = t :: q_items q' ∧ q_maxsize q' = q_maxsize q ∧
        q_shutdown q' = q_shutdown q) ∨
  (r = Raise QueueShutDown ∧ q_items q = [] ∧ q_shutdown q = true ∧ q' = q).
Proof.
  unfold get_wakes. destruct (q_items q) eqn:E.
  - destruct (q_shutdown q) eqn:?; [|done]. intros [= <- <-]. auto.
  - intros [= <- <-]. left. eauto.
Qed.

(** *** Feedback *)

(** Position [l] is covered by what the store has committed. *)
Definition covered (h : History) (l : Z) : Prop := l = 0 ∨ ∃ v, v ∈ committed h ∧ l <= v.

Definition told_covered (h : History) (f : bytes) : Prop :=
  ∃ written flushed, told f = Some (written, flushed + 1, flushed + 1) ∧ covered h flushed.

Record feedback_inv (w : World) : Prop := {
  fi_stored : ∀ v, stored w = Some v → v ∈ committed (history w);
  fi_durable : covered (history w) (_durable_lsn (client w));
  fi_saving : match phase w with
              | Streaming _ (CSaving _ _ lsn _ joined done) =>
                  joined = false ∧ (done = true → lsn ∈ committed (history w))
              | _ => True
              end;
  fi_wire : ∀ f, f ∈ wire (history w) → told_covered (history w) f;
}.

(** Checkpoints saved on the store's own connection only. *)
Definition own_connection (ev : event) : bool :=
  match ev with ESave _ joined _ => negb joined | ECallerCommits => false | _ => true end.

Lemma frame_covered h c f : frame_of c f → covered h (_durable_lsn c) → told_covered h f.
Proof. intros Hf Hc. by eexists _, _. Qed.

Lemma covered_mono h h' l :
  (∀ v, v ∈ committed h → v ∈ committed h') → covered h l → covered h' l.
Proof. intros H [?|(v & ? & ?)]; [by left|right]. eauto. Qed.

Lemma told_covered_mono h h' f :
  (∀ v, v ∈ committed h → v ∈ committed h') → told_covered h f → told_covered h' f.
Proof. intros H (a & b & ? & ?). eexists _, _. split; [done|]. by eapply covered_mono. Qed.


(** A step that commits nothing, saves nothing and leaves the durable position
    alone; the frames it writes carry the client's own positions. *)
Lemma feedback_quiet w w' frames :
  feedback_inv w →
  stored w' = stored w → committed (history w') = committed (history w) →
  _durable_lsn (client w') = _durable_lsn (client w) →
  wire (history w') = wire (history w) ++ frames →
  (∀ f, f ∈ frames → frame_of (client w') f) →
  match phase w' with
  | Streaming _ (CSaving _ _ lsn _ joined done) =>
      joined = false ∧ (done = true → lsn ∈ committed (history w))
  | _ => True
  end →
  feedback_inv w'.
Proof.
  intros [Hst Hdur Hsav Hwire] E1 E2 E3 E4 Hf Hs.
  constructor; rewrite ?E1, ?E2, ?E3; unfold covered, told_covered; rewrite ?E2; [done|done|done|].
  intros f. rewrite E4, elem_of_app. intros [Hin|Hin].
  - destruct (Hwire f Hin) as (a & b & Ht & Hc). exists a, b. split; [done|].
    unfold covered in *. by rewrite E2.
  - eexists _, _. split; [by apply Hf|]. unfold covered in *. by rewrite E2, E3.
Qed.

Ltac feedback_quiet_tac :=
  match goal with HI : feedback_inv ?w |- _ =>
    apply (feedback_quiet w _ []); [ exact HI | try first [reflexivity | assumption] .. | | ];
    [ symmetry; apply app_nil_r | by intros f Hf%elem_of_nil | cbn; try done; try assumption ]
  end.

Lemma feedback_catches e w : feedback_inv w → feedback_inv (run_catches e w).
Proof. intros HI. unfold run_catches. repeat case_step; feedback_quiet_tac. Qed.

Lemma feedback_top w : feedback_inv w → feedback_inv (run_top w).
Proof. intros HI. unfold run_top. case_step; feedback_quiet_tac. Qed.

(** A step that writes one frame of the client. *)
Lemma feedback_frame w w' f :
  feedback_inv w →
  stored w' = stored w → committed (history w') = committed (history w) →
  _durable_lsn (client w') = _durable_lsn (client w) →
  wire (history w') = wire (history w) ++ [f] → frame_of (client w') f →
  match phase w' with
  | Streaming _ (CSaving _ _ lsn _ joined done) =>
      joined = false ∧ (done = true → lsn ∈ committed (history w))
  | _ => True
  end →
  feedback_inv w'.
Proof.
  intros HI E1 E2 E3 E4 Hf. apply (feedback_quiet w w' [f]); try done.
  by intros f' ->%list_elem_of_singleton.
Qed.

Lemma feedback_receive payload now clock r c w :
  phase w = Streaming r c → feedback_inv w →
  feedback_inv (receive_frame payload now clock c w).
Proof.
  intros HP HI. pose proof (fi_saving w HI) as Hsav. rewrite HP in Hsav.
  destruct (receive_frame_cases payload now clock c w) as (x & self & He & ->).
  destruct He as ((_ & Hd & _) & _ & He). cbn zeta.
  destruct x as [[|t|f]|e]; [feedback_quiet_tac ..| |feedback_quiet_tac].
  destruct (fst (feed_payload payload (pipeline_of (client w)))).
  - by destruct He as [[? _]|[[? _]|[? _]]].
  - destruct He as (_ & _ & [?|[(f' & [= <-] & Hf)|[? ?]]]); [done| |done].
    by apply (feedback_frame w _ f).
Qed.

Lemma feedback_loaded fails w : feedback_inv w → feedback_inv (loaded fails w).
Proof.
  intros HI. unfold loaded. destruct fails; [by apply feedback_catches|].
  destruct HI as [Hst Hdur Hsav Hwire].
  constructor; try done. cbn. destruct (stored w) as [v|] eqn:E; [right|by left].
  exists v. split; [by apply Hst|done].
Qed.

Lemma feedback_store t started lsn save_started r w :
  feedback_inv w → feedback_inv (store_saves t started lsn save_started false r w).
Proof.
  intros [Hst Hdur Hsav Hwire].
  assert (Hmono : ∀ v, v ∈ committed (history w) → v ∈ committed (history w) ++ [lsn]).
  { intros v Hv. apply elem_of_app. by left. }
  assert (Hlast : lsn ∈ committed (history w) ++ [lsn]).
  { apply elem_of_app. right. by apply list_elem_of_singleton. }
  constructor; cbn.
  - by intros v [= <-].
  - by eapply covered_mono.
  - done.
  - intros f Hf. eapply told_covered_mono; [|by apply Hwire]. done.
Qed.

Lemma feedback_saved t started lsn save_started now r w :
  lsn ∈ committed (history w) → feedback_inv w →
  feedback_inv (save_returns t started lsn save_started now r w).
Proof.
  intros Hl [Hst Hdur Hsav Hwire]. constructor; cbn; try done.
  destruct (Z.max_spec (_durable_lsn (client w)) lsn) as [[_ ->]|[_ ->]]; [|done].
  right. by exists lsn.
Qed.

Lemma feedback_joined x y clock w : feedback_inv w → feedback_inv (tasks_joined x y clock w).
Proof.
  intros HI. unfold tasks_joined. case_step; [|case_step; [by apply feedback_catches|]].
  - destruct (_send_status_update _ _ _) as [[f|e] self] eqn:Hs.
    + apply send_update_frame in Hs as [-> Hf]. by apply (feedback_frame w _ f).
    + apply send_update_raise in Hs as ->. apply feedback_catches. feedback_quiet_tac.
      apply (fi_saving w HI).
  - feedback_quiet_tac.
Qed.

Lemma feedback_connection start_lsn stage r now w :
  feedback_inv w → feedback_inv (connection_step start_lsn stage r now w).
Proof.
  intros HI. unfold connection_step.
  destruct r; [destruct stage; feedback_quiet_tac|by apply feedback_catches].
Qed.

Lemma feedback_step ev w w' :
  own_connection ev = true → feedback_inv w → step ev w = Some w' → feedback_inv w'.
Proof.
  intros Hok HI H. pose proof (fi_saving w HI) as Hsav.
  destruct ev. all: step_cases H.
  all: try match goal with HP : phase _ = _ |- _ => rewrite HP in Hsav end.
  all: try (feedback_quiet_tac; fail).
  - by apply feedback_loaded.
  - by apply feedback_connection.
  - by apply feedback_catches.
  - by apply feedback_top.
  - by apply feedback_catches.
  - by eapply feedback_receive.
  - match goal with Hs : _send_status_update _ _ _ = (Ok ?f, _) |- _ =>
      apply send_update_frame in Hs as [-> Hf]; by apply (feedback_frame w _ f) end.
  - match goal with Hs : _send_status_update _ _ _ = (Raise _, _) |- _ =>
      apply send_update_raise in Hs as -> end. feedback_quiet_tac.
  - unfold save_begins. case_step; [done|]. feedback_quiet_tac. split; [by apply negb_true_iff|done].
  - destruct Hsav as [-> _]. by apply feedback_store.
  - destruct Hsav as [-> Hl]. by apply feedback_saved; [apply Hl|].
  - by apply feedback_joined.
  - unfold delay_over. apply feedback_top. feedback_quiet_tac. rewrite Heqp. done.
Qed.

(** *** Positions and delivered transactions *)

(** Position [l] is not past everything handed to the handler: it is the start,
    the position loaded initially, or at most a delivered transaction's. *)
Definition earned (init : option Z) (h : History) (l : Z) : Prop :=
  l = 0 ∨ init = Some l ∨ ∃ t, t ∈ delivered h ∧ l <= tx_commit_lsn t.

Definition told_earned (init : option Z) (h : History) (f : bytes) : Prop :=
  ∃ written flushed, told f = Some (written, flushed + 1, flushed + 1) ∧ earned init h flushed.

Definition consumer_earned (c : consumer) (h : History) : Prop :=
  match c with
  | CHandling t _ => t ∈ delivered h
  | CSaving t _ lsn _ _ _ => t ∈ delivered h ∧ lsn <= tx_commit_lsn t
  | _ => True
  end.

Record earned_inv (init : option Z) (w : World) : Prop := {
  ei_committed : ∀ v, v ∈ committed (history w) → earned init (history w) v;
  ei_stored : ∀ v, stored w = Some v → earned init (history w) v;
  ei_uncommitted : ∀ v, uncommitted w = Some v → earned init (history w) v;
  ei_durable : earned init (history w) (_durable_lsn (client w));
  ei_consumer : match phase w with
                | Streaming _ c => consumer_earned c (history w)
                | _ => True
                end;
  ei_wire : ∀ f, f ∈ wire (history w) → told_earned init (history w) f;
}.

Lemma earned_mono init h h' l :
  delivered h ⊆ delivered h' → earned init h l → earned init h' l.
Proof. intros H [?|[?|(t & ? & ?)]]; [by left|by right; left|right; right]. eauto. Qed.

Lemma earned_save init h t l : t ∈ delivered h → l <= tx_commit_lsn t → earned init h l.
Proof. intros. right. right. by exists t. Qed.

(** A step that saves nothing: the frames it writes are the client's, and the
    transactions delivered can only grow. *)
Lemma earned_quiet init w w' frames :
  earned_inv init w →
  stored w' = stored w → committed (history w') = committed (history w) →
  uncommitted w' = uncommitted w ∨ uncommitted w' = None →
  _durable_lsn (client w') = _durable_lsn (client w) →
  delivered (history w) ⊆ delivered (history w') →
  wire (history w') = wire (history w) ++ frames →
  (∀ f, f ∈ frames → frame_of (client w') f) →
  match phase w' with Streaming _ c => consumer_earned c (history w') | _ => True end →
  earned_inv init w'.
Proof.
  intros [Hc Hst Hu Hd Hcs Hw] E1 E2 E3 E4 E5 E6 Hf Hs.
  constructor; rewrite ?E1, ?E2, ?E4, ?E6; try done.
  - intros v Hv. eapply earned_mono; [exact E5|auto].
  - intros v Hv. eapply earned_mono; [exact E5|auto].
  - intros v Hv. eapply earned_mono; [exact E5|]. destruct E3 as [E3|E3]; rewrite E3 in Hv; [auto|done].
  - by eapply earned_mono.
  - intros f [Hin|Hin]%elem_of_app.
    + destruct (Hw f Hin) as (a & b & Ht & Hb). exists a, b. split; [done|]. apply (earned_mono _ (history w)); [done|]. done.
    + eexists _, _. split; [by apply Hf|]. rewrite E4. by eapply earned_mono.
Qed.

Ltac earned_quiet_tac :=
  match goal with HI : earned_inv ?init ?w |- _ =>
    apply (earned_quiet init w _ []);
    [ exact HI | try first [reflexivity | assumption | by left | by right] .. | | ];
    [ symmetry; apply app_nil_r | by intros f Hf%elem_of_nil | cbn; try done; try assumption ]
  end.

Lemma earned_frame init w w' f :
  earned_inv init w → frame_of (client w') f →
  stored w' = stored w → committed (history w') = committed (history w) →
  uncommitted w' = uncommitted w ∨ uncommitted w' = None →
  _durable_lsn (client w') = _durable_lsn (client w) →
  delivered (history w') = delivered (history w) →
  wire (history w') = wire (history w) ++ [f] →
  match phase w' with Streaming _ c => consumer_earned c (history w') | _ => True end →
  earned_inv init w'.
Proof.
  intros HI Hf ???? Hdel ??. apply (earned_quiet init w w' [f]); try done.
  - by rewrite Hdel.
  - by intros f' ->%list_elem_of_singleton.
Qed.

Lemma earned_catches init e w : earned_inv init w → earned_inv init (run_catches e w).
Proof. intros HI. unfold run_catches. repeat case_step; earned_quiet_tac. Qed.

Lemma earned_top init w : earned_inv init w → earned_inv init (run_top w).
Proof. intros HI. unfold run_top. case_step; earned_quiet_tac. Qed.

Lemma earned_loaded init fails w : earned_inv init w → earned_inv init (loaded fails w).
Proof.
  intros HI. unfold loaded. destruct fails; [by apply earned_catches|].
  destruct HI as [Hc Hst Hu Hd Hcs Hw]. constructor; try done. cbn.
  destruct (stored w) as [v|] eqn:E; [by apply Hst|by left].
Qed.

Lemma earned_connection init start_lsn stage r now w :
  earned_inv init w → earned_inv init (connection_step start_lsn stage r now w).
Proof.
  intros HI. unfold connection_step.
  destruct r; [destruct stage; earned_quiet_tac|by apply earned_catches].
Qed.

Lemma earned_receive init payload now clock r c w :
  phase w = Streaming r c → earned_inv init w →
  earned_inv init (receive_frame payload now clock c w).
Proof.
  intros HP HI. pose proof (ei_consumer init w HI) as Hcs. rewrite HP in Hcs.
  destruct (receive_frame_cases payload now clock c w) as (x & self & He & ->).
  destruct He as ((_ & Hd & _) & _ & He). cbn zeta.
  destruct x as [[|t|f]|e]; [earned_quiet_tac ..| |earned_quiet_tac].
  destruct (fst (feed_payload payload (pipeline_of (client w)))).
  - by destruct He as [[? _]|[[? _]|[? _]]].
  - destruct He as (_ & _ & [?|[(f' & [= <-] & Hf)|[? ?]]]); [done| |done].
    apply (earned_frame init w _ f); cbn; auto.
Qed.

Lemma earned_joined init x y clock w :
  earned_inv init w → earned_inv init (tasks_joined x y clock w).
Proof.
  intros HI. unfold tasks_joined. case_step; [|case_step; [by apply earned_catches|]].
  - destruct (_send_status_update _ _ _) as [[f|e] self] eqn:Hs.
    + apply send_update_frame in Hs as [-> Hf]. apply (earned_frame init w _ f); cbn; auto.
    + apply send_update_raise in Hs as ->. apply earned_catches. earned_quiet_tac.
      apply (ei_consumer init w HI).
  - earned_quiet_tac.
Qed.

Lemma earned_commit init lsn w :
  earned init (history w) lsn → earned_inv init w → earned_inv init (commit_store lsn w).
Proof.
  intros Hl [Hc Hst Hu Hd Hcs Hw]. constructor; cbn; try done.
  - intros v [Hv|Hv]%elem_of_app; [by apply Hc|]. by apply list_elem_of_singleton in Hv as ->.
  - by intros v [= <-].
Qed.

Lemma earned_phase init p w :
  match p with Streaming _ c => consumer_earned c (history w) | _ => True end →
  earned_inv init w → earned_inv init (with_phase p w).
Proof. intros Hp [Hc Hst Hu Hd Hcs Hw]. by constructor. Qed.

Lemma earned_saved init t started lsn save_started now r w :
  t ∈ delivered (history w) → lsn <= tx_commit_lsn t → earned_inv init w →
  earned_inv init (save_returns t started lsn save_started now r w).
Proof.
  intros Ht Hl [Hc Hst Hu Hd Hcs Hw]. constructor; cbn; try done.
  destruct (Z.max_spec (_durable_lsn (client w)) lsn) as [[_ ->]|[_ ->]]; [|done].
  by apply (earned_save _ _ t).
Qed.

Lemma earned_step init ev w w' :
  earned_inv init w → step ev w = Some w' → earned_inv init w'.
Proof.
  intros HI H. pose proof (ei_consumer init w HI) as Hcs.
  destruct ev. all: step_cases H.
  all: try match goal with HP : phase _ = _ |- _ => rewrite HP in Hcs end.
  all: try (earned_quiet_tac; fail).
  - by apply earned_loaded.
  - by apply earned_connection.
  - by apply earned_catches.
  - by apply earned_top.
  - by apply earned_catches.
  - by eapply earned_receive.
  - match goal with Hs : _send_status_update _ _ _ = (Ok ?f, _) |- _ =>
      apply send_update_frame in Hs as [-> Hf]; apply (earned_frame init w _ f); cbn; auto end.
  - match goal with Hs : _send_status_update _ _ _ = (Raise _, _) |- _ =>
      apply send_update_raise in Hs as -> end. earned_quiet_tac.
  - unfold start_handler. apply (earned_quiet init w _ []); cbn; auto.
    + intros x Hx. apply elem_of_app. by left.
    + by rewrite app_nil_r.
    + by intros f Hf%elem_of_nil.
    + apply elem_of_app. right. by apply list_elem_of_singleton.
  - unfold save_begins. case_step; [done|]. earned_quiet_tac. by zbool.
  - destruct Hcs as [Ht Hl]. unfold store_saves. apply earned_phase; [by case_step|].
    case_step; [|by apply earned_commit; [by eapply earned_save|]].
    destruct HI as [Hc Hst Hu Hd Hcs' Hw]. constructor; cbn; try done.
    intros v [= <-]. by eapply earned_save.
  - destruct Hcs as [Ht Hl]. by apply earned_saved.
  - destruct Hcs as [Ht Hl]. earned_quiet_tac.
  - apply earned_commit; [by apply (ei_uncommitted init w HI)|].
    earned_quiet_tac.
  - by apply earned_joined.
  - unfold delay_over. apply earned_top. earned_quiet_tac. rewrite Heqp. done.
Qed.

(** *** The flow of transactions *)

Definition initial_pipeline : pipeline := (Decoder_init, TransactionAssembler_init).

(** The transactions the payloads taken so far complete. *)
Definition assembled (h : History) : list Transaction :=
  fst (feed_payloads (handled h) initial_pipeline).

(** The transaction the receiver holds, waiting for a place in the queue. *)
Definition putting (w : World) : list Transaction :=
  match phase w with Streaming r _ => receiver_pending r | _ => [] end.

Definition queued (w : World) : list Transaction := q_items (_queue (client w)).

(** The transactions delivered, queued and waiting to be queued, in order. *)
Definition in_flow (w : World) : list Transaction :=
  delivered (history w) ++ queued w ++ putting w.

Definition option_list {A} (o : option A) : list A :=
  match o with Some x => [x] | None => [] end.

Lemma feed_payloads_snoc ps p st :
  feed_payloads (ps ++ [p]) st =
    (fst (feed_payloads ps st) ++ option_list (fst (feed_payload p (snd (feed_payloads ps st)))),
     snd (feed_payload p (snd (feed_payloads ps st)))).
Proof.
  revert st. induction ps as [|p' ps IH]; intros st; cbn [app feed_payloads fst snd].
  - destruct (feed_payload p st) as [[t|] st']; done.
  - destruct (feed_payload p' st) as [t st1]. rewrite IH.
    destruct (feed_payloads ps st1) as [ts st2]. cbn [fst snd]. by destruct t.
Qed.

Record flow_inv (w : World) : Prop := {
  fl_pipeline : pipeline_of (client w) = snd (feed_payloads (handled (history w)) initial_pipeline);
  fl_sublist : in_flow w `sublist_of` assembled (history w);
  fl_all : dropped (history w) = [] → in_flow w = assembled (history w);
  fl_max : q_maxsize (_queue (client w)) = max_pending_transactions (options (client w));
  fl_bound : 0 < max_pending_transactions (options (client w)) →
             py_len (queued w) <= max_pending_transactions (options (client w));
  fl_shutdown : q_shutdown (_queue (client w)) = _closing (client w);
  fl_closed : _closing (client w) = true → queued w = [];
}.

(** The attributes of the flow that most steps leave alone. *)
Definition same_flow (c c' : Client) : Prop :=
  pipeline_of c' = pipeline_of c ∧ _queue c' = _queue c ∧ _closing c' = _closing c ∧
  options c' = options c.

(** A step that takes no payload and moves no transaction, except that the one
    waiting for a place may be dropped. *)
Lemma flow_quiet w w' ds :
  flow_inv w → same_flow (client w) (client w') →
  handled (history w') = handled (history w) →
  delivered (history w') = delivered (history w) →
  dropped (history w') = dropped (history w) ++ ds →
  putting w = putting w' ++ ds → flow_inv w'.
Proof.
  intros [Hp Hs Ha Hm Hb Hsh Hc] (E1 & E2 & E3 & E4) E5 E6 E7 E8.
  assert (Hflow : in_flow w = in_flow w' ++ ds).
  { unfold in_flow, queued. by rewrite E2, E6, E8, !(assoc_L (++)). }
  constructor; unfold queued, assembled in *; rewrite ?E1, ?E2, ?E3, ?E4, ?E5; try done.
  - etrans; [|exact Hs]. rewrite Hflow. by apply sublist_inserts_r.
  - rewrite E7. intros [Hd ->]%app_nil. rewrite <- Ha, Hflow by done. by rewrite app_nil_r.
Qed.

Ltac same_flow_tac := repeat split; cbn; try reflexivity; try assumption.

Ltac flow_quiet_tac :=
  match goal with HI : flow_inv ?w |- _ =>
    apply (flow_quiet w _ []); [exact HI|same_flow_tac|reflexivity|reflexivity| |];
    [ symmetry; apply app_nil_r
    | rewrite app_nil_r; unfold putting; cbn;
      try match goal with HP : phase _ = _ |- _ => rewrite HP end; try reflexivity ]
  end.

Lemma flow_catches e w : putting w = [] → flow_inv w → flow_inv (run_catches e w).
Proof.
  intros HP HI. unfold run_catches.
  repeat case_step; apply (flow_quiet w _ []); rewrite ?app_nil_r; done.
Qed.

Lemma flow_top w : putting w = [] → flow_inv w → flow_inv (run_top w).
Proof.
  intros HP HI. unfold run_top.
  apply (flow_quiet w _ []); rewrite ?app_nil_r; try done. rewrite HP. by case_step.
Qed.

Lemma loop_top_pending c : receiver_pending (loop_top c) = [].
Proof. unfold loop_top. by destruct (_closing c). Qed.

Lemma flow_connection start_lsn stage r now w :
  phase w = Connecting start_lsn stage → flow_inv w →
  flow_inv (connection_step start_lsn stage r now w).
Proof.
  intros HP HI. assert (Hput : putting w = []) by (unfold putting; by rewrite HP).
  unfold connection_step. destruct r; [|by apply flow_catches].
  destruct stage; apply (flow_quiet w _ []); rewrite ?app_nil_r, ?Hput; try done.
  unfold putting. cbn [phase with_phase]. by rewrite loop_top_pending.
Qed.

Lemma flow_joined x y clock r c w :
  phase w = Streaming r c → receiver_pending r = [] →
  flow_inv w → flow_inv (tasks_joined x y clock w).
Proof.
  intros HP Hr HI. assert (Hput : putting w = []) by (unfold putting; by rewrite HP).
  unfold tasks_joined. case_step; [|case_step; [by apply flow_catches|]].
  - destruct (_send_status_update _ _ _) as [[f|e] self] eqn:Hs.
    + apply send_update_frame in Hs as [-> Hf].
      apply (flow_quiet w _ []); rewrite ?app_nil_r, ?Hput; done.
    + apply send_update_raise in Hs as ->. apply flow_catches; [done|].
      apply (flow_quiet w _ []); rewrite ?app_nil_r; done.
  - apply (flow_quiet w _ []); rewrite ?app_nil_r, ?Hput; done.
Qed.

Lemma assembled_snoc p h :
  assembled (log_handled p h) =
    assembled h ++ option_list (fst (feed_payload p (snd (feed_payloads (handled h) initial_pipeline)))).
Proof. unfold assembled. cbn [handled log_handled]. by rewrite feed_payloads_snoc. Qed.

(** The payload [p] is taken and completes [ts], which are queued, wait for a
    place or are dropped. *)
Lemma flow_taken w w' p qs ps ds :
  flow_inv w → putting w = [] →
  pipeline_of (client w') = snd (feed_payload p (pipeline_of (client w))) →
  handled (history w') = handled (history w) ++ [p] →
  delivered (history w') = delivered (history w) →
  dropped (history w') = dropped (history w) ++ ds →
  queued w' = queued w ++ qs → putting w' = ps →
  option_list (fst (feed_payload p (pipeline_of (client w)))) = qs ++ ps ++ ds →
  options (client w') = options (client w) →
  q_maxsize (_queue (client w')) = q_maxsize (_queue (client w)) →
  q_shutdown (_queue (client w')) = q_shutdown (_queue (client w)) →
  _closing (client w') = _closing (client w) →
  (0 < max_pending_transactions (options (client w)) →
   py_len (queued w') <= max_pending_transactions (options (client w))) →
  (_closing (client w) = true → qs = []) →
  flow_inv w'.
Proof.
  intros [Hp Hs Ha Hm Hb Hsh Hc] Hput E1 E2 E3 E4 E5 E6 E7 E8 E9 E10 E11 E12 E13.
  assert (Hnew : assembled (history w') = assembled (history w) ++ qs ++ ps ++ ds).
  { unfold assembled. rewrite E2, feed_payloads_snoc. cbn [fst]. by rewrite <- Hp, E7. }
  assert (Hold : in_flow w = delivered (history w) ++ queued w).
  { unfold in_flow. by rewrite Hput, app_nil_r. }
  assert (Hflow : in_flow w' = in_flow w ++ qs ++ ps).
  { rewrite Hold. unfold in_flow. by rewrite E3, E5, E6, <- !(assoc_L (++)). }
  constructor; rewrite ?E8, ?E9, ?E10, ?E11; try done.
  - rewrite E2, feed_payloads_snoc, E1. cbn [snd]. by rewrite Hp.
  - rewrite Hflow, Hnew, (assoc_L (++) qs), (assoc_L (++) (assembled _)).
    apply sublist_inserts_r. by apply sublist_app.
  - rewrite E4. intros [Hd ->]%app_nil. by rewrite Hflow, Hnew, Ha, app_nil_r.
  - intros Hcl. by rewrite E5, (Hc Hcl), (E13 Hcl).
Qed.

Lemma put_bound {A} (t : A) q q' m :
  put_nowait t q = (Ok tt, q') → q_maxsize q = m → 0 < m → py_len (q_items q) <= m →
  py_len (q_items q') <= m.
Proof.
  destruct (put_nowait_cases t q) as [(_ & Hf & ->)|[(_ & _ & ->)|(_ & ->)]]; [|done..].
  intros [= <-] <- Hm Hl. unfold queue_full, qsize in Hf. rewrite (proj2 (Z.ltb_lt _ _)) in Hf by done.
  cbn [andb q_items] in *. zbool. unfold py_len in *. rewrite length_app. cbn [length]. lia.
Qed.

Lemma put_ok_inv {A} (t : A) q q' :
  put_nowait t q = (Ok tt, q') →
  q_shutdown q = false ∧ q' = mkQueue (q_items q ++ [t]) (q_maxsize q) (q_shutdown q).
Proof.
  destruct (put_nowait_cases t q) as [(Hs & _ & ->)|[(_ & _ & ->)|(_ & ->)]]; [|done..].
  by intros [= <-].
Qed.

Lemma flow_receive payload now clock c w :
  phase w = Streaming (RWaiting (ReadTask (Some (Ok payload)))) c → flow_inv w →
  flow_inv (receive_frame payload now clock c w).
Proof.
  intros HP HI. assert (Hput : putting w = []) by (unfold putting; by rewrite HP).
  destruct (receive_frame_cases payload now clock c w) as (x & self & He & ->).
  destruct He as ((Ho & _ & _ & Hcl & _) & Hpipe & He). cbn zeta.
  pose proof (fl_shutdown w HI) as Hsh.
  destruct (fst (feed_payload payload (pipeline_of (client w)))) as [t|] eqn:Ht.
  - destruct He as [(-> & Hq & _)|[(-> & Hq & Hput' & _)|(-> & Hq & Hs & Hr)]].
    + pose proof (put_ok_inv _ _ _ Hq) as [Hns Hq'].
      apply (flow_taken w _ payload [t] [] []); rewrite ?Ht, ?app_nil_r; try done;
        unfold queued, putting; cbn; try done; rewrite ?Hq'; try done.
      * by rewrite loop_top_pending.
      * intros Hm. rewrite <- Hq'. eapply put_bound; [exact Hq|apply (fl_max w HI)|done|].
        by apply (fl_bound w HI).
      * rewrite Hns in Hsh. congruence.
    + apply (flow_taken w _ payload [] [t] []); rewrite ?Ht, ?app_nil_r; try done;
        unfold queued; cbn; rewrite ?Hq; try done. apply (fl_bound w HI).
    + apply (flow_taken w _ payload [] [] [t]); rewrite ?Ht, ?app_nil_r; try done;
        unfold queued; cbn; rewrite ?Hq, ?Hr, ?app_nil_r; try done. apply (fl_bound w HI).
  - destruct He as (Hq & Hr & He).
    apply (flow_taken w _ payload [] [] []); rewrite ?Ht, ?app_nil_r; try done;
      destruct x as [[|t|f]|e]; unfold queued; cbn; rewrite ?Hq, ?Hr, ?app_nil_r; try done;
      try apply (fl_bound w HI); unfold putting; cbn; rewrite ?loop_top_pending; try done.
    by destruct He as [?|[(? & ? & ?)|[? ?]]].
Qed.

(** A pending put gets its place. *)
Lemma flow_put w w' t q :
  flow_inv w → put_nowait t (_queue (client w)) = (Ok tt, q) →
  client w' = set_queue q (client w) → history w' = history w →
  putting w = [t] → putting w' = [] → flow_inv w'.
Proof.
  intros [Hp Hs Ha Hm Hb Hsh Hc] Hq E1 E2 Hput Hput'.
  pose proof (put_ok_inv _ _ _ Hq) as [Hns Hq'].
  assert (Hflow : in_flow w' = in_flow w).
  { unfold in_flow, queued. rewrite E1, E2, Hput, Hput', Hq'. cbn [_queue set_queue q_items].
    by rewrite app_nil_r. }
  constructor; rewrite ?Hflow, ?E1, ?E2; try done.
  - by rewrite Hq'.
  - intros Hmax. unfold queued. rewrite E1. by eapply put_bound; [exact Hq|..|apply Hb].
  - by rewrite Hq'.
  - cbn [_closing set_queue]. congruence.
Qed.

(** The consumer takes the next transaction. *)
Lemma flow_get w t q now r :
  phase w = Streaming r CGetting → flow_inv w →
  q_items (_queue (client w)) = t :: q_items q → q_maxsize q = q_maxsize (_queue (client w)) →
  q_shutdown q = q_shutdown (_queue (client w)) → flow_inv (start_handler t q now r w).
Proof.
  intros HP [Hp Hs Ha Hm Hb Hsh Hc] E1 E2 E3.
  assert (Hflow : in_flow (start_handler t q now r w) = in_flow w).
  { unfold in_flow, queued, putting. rewrite HP, E1. cbn. by rewrite <- (assoc_L (++)). }
  constructor; rewrite ?Hflow; try done.
  - cbn. congruence.
  - intros Hmax. unfold queued in *. rewrite E1 in Hb. specialize (Hb Hmax).
    unfold py_len in *. cbn in *. lia.
  - cbn. congruence.
  - intros Hcl. specialize (Hc Hcl). unfold queued in Hc. congruence.
Qed.

Lemma flow_close w : flow_inv w → flow_inv (closed w).
Proof.
  intros [Hp Hs Ha Hm Hb Hsh Hc].
  assert (Hflow : in_flow (closed w) = delivered (history w) ++ putting w) by done.
  constructor; try done.
  - rewrite Hflow. etrans; [|exact Hs]. unfold in_flow. apply sublist_app; [done|].
    by apply sublist_inserts_l.
  - cbn [history closed with_history dropped log_dropped]. intros [Hd Hq]%app_nil.
    specialize (Ha Hd). rewrite Hflow. unfold in_flow, queued in Ha. by rewrite Hq in Ha.
  - intros Hmax. change (py_len (queued (closed w))) with 0. cbn in Hmax |- *. lia.
Qed.

Lemma putting_streaming w r c : phase w = Streaming r c → putting w = receiver_pending r.
Proof. unfold putting. by intros ->. Qed.

Lemma flow_stop r r' c w :
  putting w = receiver_pending r → receiver_pending r' = [] → flow_inv w →
  flow_inv (receiver_stop r r' c w).
Proof.
  intros HP Hr HI. apply (flow_quiet w _ (receiver_pending r)); try done.
  unfold putting at 2. cbn. by rewrite Hr.
Qed.

Lemma flow_loop_top r c w :
  phase w = Streaming r c → receiver_pending r = [] → flow_inv w →
  flow_inv (with_phase (Streaming (loop_top (client w)) c) w).
Proof.
  intros HP Hr HI. apply (flow_quiet w _ []); rewrite ?app_nil_r; try done.
  unfold putting. rewrite HP. cbn. by rewrite loop_top_pending.
Qed.

(** The waiting put is woken: it gets its place or is refused. *)
Lemma flow_put_wakes w t r q f c :
  phase w = Streaming (f (PutTask t None)) c → f = RWaiting ∨ f = RUpdating →
  put_wakes t (_queue (client w)) = Some (r, q) → flow_inv w →
  match r with
  | Ok _ => flow_inv (with_phase (Streaming (f (PutTask t (Some (Ok tt)))) c)
                        (with_client (set_queue q (client w)) w))
  | Raise e => flow_inv (with_phase (Streaming (f (PutTask t (Some (Raise e)))) c)
                           (with_history (log_dropped [t] (history w))
                              (with_client (set_queue q (client w)) w)))
  end.
Proof.
  intros HP Hf Hw HI.
  assert (Hput : putting w = [t]) by (unfold putting; rewrite HP; by destruct Hf as [-> | ->]).
  apply put_wakes_cases in Hw as [[-> Hq]|(-> & Hs & ->)].
  - eapply flow_put; [exact HI|exact Hq|done|done|done|]. unfold putting. cbn. by destruct Hf as [-> | ->].
  - apply (flow_quiet w _ [t]); try done. rewrite Hput. unfold putting. cbn. by destruct Hf as [-> | ->].
Qed.

Lemma flow_step ev w w' : flow_inv w → step ev w = Some w' → flow_inv w'.
Proof.
  intros HI H. destruct ev. all: try (injection H as <-; by apply flow_close).
  all: step_cases H.
  all: try (flow_quiet_tac; fail).
  all: try match goal with HP : phase _ = Streaming _ _ |- _ =>
         pose proof (putting_streaming _ _ _ HP) as Hput
       end.
  all: try (apply flow_stop; [exact Hput|reflexivity|exact HI]).
  all: try (eapply flow_loop_top; [eassumption|reflexivity|exact HI]).
  all: try match goal with
    | HP : phase _ = Streaming (_ (PutTask _ None)) _, Hw : put_wakes _ _ = Some (_, _) |- _ =>
        apply (flow_put_wakes _ _ _ _ _ _ HP) in Hw; [exact Hw|by auto|exact HI]
    end.
  - unfold loaded. case_step; [apply flow_catches; [unfold putting; by rewrite Heqp|done]|].
    flow_quiet_tac.
  - by eapply flow_connection.
  - apply flow_catches; [unfold putting; by rewrite Heqp|done].
  - apply flow_top; [unfold putting; by rewrite Heqp|done].
  - apply flow_catches; [unfold putting; by rewrite Heqp|done].
  - by eapply flow_receive.
  - match goal with Hs : _send_status_update _ _ _ = (Ok _, _) |- _ =>
      apply send_update_frame in Hs as [-> _] end. flow_quiet_tac.
  - match goal with Hs : _send_status_update _ _ _ = (Raise _, _) |- _ =>
      apply send_update_raise in Hs as -> end.
    apply flow_stop; [exact Hput|reflexivity|flow_quiet_tac].
  - match goal with Hg : get_wakes _ = Some _ |- _ =>
      apply get_wakes_cases in Hg as [(t & [= <-] & H1 & H2 & H3)|(? & _)]; [|done] end.
    by eapply flow_get.
  - match goal with Hg : get_wakes _ = Some _ |- _ =>
      apply get_wakes_cases in Hg as [(t & ? & _)|(_ & _ & _ & ->)]; [done|] end.
    flow_quiet_tac.
  - unfold save_begins. case_step; [done|]. flow_quiet_tac.
  - unfold store_saves. case_step; flow_quiet_tac.
  - eapply flow_joined; [exact Heqp|reflexivity|exact HI].
  - unfold delay_over. apply flow_top; [unfold putting; cbn; by rewrite Heqp|].
    flow_quiet_tac.
  - by apply (flow_quiet w _ (receiver_pending r)).
Qed.

Lemma flow_init o lsn : flow_inv (run_start o lsn).
Proof.
  constructor; try done. intros Hmax. change (py_len (queued (run_start o lsn))) with 0. lia.
Qed.

Lemma feedback_init o lsn : feedback_inv (run_start o lsn).
Proof.
  constructor; try done.
  - cbn. intros v ->. by apply list_elem_of_singleton.
  - by left.
  - by intros f Hf%elem_of_nil.
Qed.

Lemma earned_init o lsn : earned_inv lsn (run_start o lsn).
Proof.
  constructor; try done.
  - cbn. intros v Hv. right. left. destruct lsn; [by apply list_elem_of_singleton in Hv as ->|].
    by apply elem_of_nil in Hv.
  - intros v Hv. right. by left.
  - by left.
  - by intros f Hf%elem_of_nil.
Qed.

(** An invariant of every reachable world. *)
Lemma reachable_inv (P : World → Prop) o lsn w :
  (∀ ev w w', P w → step ev w = Some w' → P w') → P (run_start o lsn) →
  reachable o lsn w → P w.
Proof.
  intros Hstep H0 [evs Hs]. apply (steps_inv (λ _, true) P evs (run_start o lsn) w); try done.
  - intros ev w1 w2 _. apply Hstep.
  - apply forallb_forall. done.
Qed.

(** ** Properties *)

(** A run: the checkpoint 99 is loaded, one ordinary transaction arrives, its
    handler saves its position, and the status timer fires before, during and
    after. *)
Definition sample_options : WalboxOptions :=
  mkWalboxOptions (lit "c") (lit "d") (lit "s") (lit "p") 2 10 None.

Definition sample_frame (wal : Z) (m : SMsg) : bytes :=
  encode_xlog_data (mkXLogData wal wal 0 (encode_msg false m)).

Definition sample_run : list event :=
  let now := f_of_int 3 in
  [ ELoad None; ETransport (Ok tt) now; ETransport (Ok tt) now; ETransport (Ok tt) now;
    ETimer 5; ETransport (Ok tt) now;
    EFrame (sample_frame 500 (SBegin (mkBegin 500 0 7))); EReceiver now 5;
    EFrame (sample_frame 500 (SCommit (mkCommit 0 500 540 9))); EReceiver now 5;
    EGet now; ESave 539 false now; ETimer 6; ETransport (Ok tt) now; EStore; ESaved now;
    ETimer 7; ETransport (Ok tt) now; EHandlerReturns now ].

Definition world_after (evs : list event) (w : World) : World := default w (steps evs w).

(** C4: Status updates tell the server only what the store durably holds: in any
    run in which checkpoints are saved on the store's own connection, whatever
    the interleaving, the failures and the reconnects, every frame written
    reports the same flushed and applied position, which is the start or at most
    a position the store had committed. *)
Theorem feedback_is_durable o lsn evs w :
  forallb own_connection evs = true →
  steps evs (run_start o lsn) = Some w →
  ∀ f, f ∈ wire (history w) → told_covered (history w) f.
Proof.
  intros Hok Hs. apply fi_wire.
  exact (steps_inv own_connection feedback_inv evs _ w feedback_step Hok (feedback_init o lsn) Hs).
Qed.

Lemma feedback_is_durable_witness :
  told <$> wire (history (world_after sample_run (run_start sample_options (Some 99))))
  = [Some (1, 100, 100); Some (501, 100, 100); Some (501, 540, 540)] ∧
  ∀ f, f ∈ wire (history (world_after sample_run (run_start sample_options (Some 99)))) →
    told_covered (history (world_after sample_run (run_start sample_options (Some 99)))) f.
Proof.
  split; [vm_compute; reflexivity|].
  apply (feedback_is_durable sample_options (Some 99) sample_run);
    vm_compute; reflexivity.
Defined.

(** C6: No position is acknowledged or stored ahead of the handler: in every
    reachable world, saves joining the handler's own transaction included, each
    position committed to the store and each flushed position sent to the server
    is the start, the position loaded initially, or at most the commit position
    of a transaction already handed to the handler. *)
Theorem positions_are_earned o lsn w :
  reachable o lsn w →
  (∀ v, v ∈ committed (history w) → earned lsn (history w) v) ∧
  (∀ v, stored w = Some v → earned lsn (history w) v) ∧
  (∀ f, f ∈ wire (history w) → told_earned lsn (history w) f).
Proof.
  intros H. destruct (reachable_inv (earned_inv lsn) o lsn w) as [? ? ? ? ? ?]; try done.
  - apply earned_step.
  - apply earned_init.
Qed.

Lemma positions_are_earned_witness :
  committed (history (world_after sample_run (run_start sample_options (Some 99)))) = [99; 539] ∧
  ∀ v, v ∈ [99; 539] →
    earned (Some 99) (history (world_after sample_run (run_start sample_options (Some 99)))) v.
Proof.
  split; [vm_compute; reflexivity|].
  assert (Hr : reachable sample_options (Some 99)
                 (world_after sample_run (run_start sample_options (Some 99)))).
  { exists sample_run. vm_compute. reflexivity. }
  exact (proj1 (positions_are_earned sample_options (Some 99) _ Hr)).
Defined.

(** C7: The queue neither invents, duplicates nor reorders: in every reachable
    world, the transactions delivered to the handler, then those queued, then
    the one waiting for a place, are in this order among those the payloads
    received so far complete, and are exactly these as long as none was
    discarded by a shutdown or a lost connection; the queue stays within
    [max_pending_transactions]. *)
Theorem delivery_in_order o lsn w :
  reachable o lsn w →
  in_flow w `sublist_of` assembled (history w) ∧
  (dropped (history w) = [] → in_flow w = assembled (history w)) ∧
  (0 < max_pending_transactions (options (client w)) →
   py_len (queued w) <= max_pending_transactions (options (client w))).
Proof.
  intros H. destruct (reachable_inv flow_inv o lsn w) as [? ? ? ? ? ? ?]; try done.
  - apply flow_step.
  - apply flow_init.
Qed.

Lemma delivery_in_order_witness :
  (tx_xid <$> assembled (history (world_after sample_run (run_start sample_options (Some 99))))) = [7]
  ∧ in_flow (world_after sample_run (run_start sample_options (Some 99)))
    = assembled (history (world_after sample_run (run_start sample_options (Some 99)))).
Proof.
  split; [vm_compute; reflexivity|].
  assert (Hr : reachable sample_options (Some 99)
                 (world_after sample_run (run_start sample_options (Some 99)))).
  { exists sample_run. vm_compute. reflexivity. }
  destruct (delivery_in_order sample_options (Some 99) _ Hr) as (_ & H & _).
  apply H. vm_compute. reflexivity.
Defined.
