(* ===== verification/ClientSession.v ===== *)
(** Whole sessions of the client: from the bytes a server sends to the
    transactions a handler receives, shutdown, reconnection and its backoff, and
    the runs that show where delivery guarantees end. *)
From stdpp Require Import base tactics list numbers strings gmap.
From Stdlib Require Import Strings.Byte.
From S2P Require Import Prelude PyStr Errors PyBytes PyFloat Protocol Pgoutput PgoutputSpec Abc.
From S2P Require Import Transaction TransactionSpec Client ClientSpec.

(** ** From bytes to transactions *)

(** What the server sends in [CopyData]: a piece of WAL or a keepalive. *)
Inductive server_frame :=
| FData (wal_start wal_end send_time : Z) (m : SMsg)
| FKeepalive (k : PrimaryKeepalive) (reply : byte).

Definition frame_messages (fs : list server_frame) : list SMsg :=
  mjoin ((λ f, match f with FData _ _ _ m => [m] | FKeepalive _ _ => [] end) <$> fs).

Fixpoint encode_frames (d : Decoder) (fs : list server_frame) : list bytes :=
  match fs with
  | [] => []
  | FData ws we st m :: fs' =>
      encode_xlog_data (mkXLogData ws we st (encode_msg (_streaming_active d) m))
        :: encode_frames (next_server d m) fs'
  | FKeepalive k reply :: fs' => encode_keepalive k reply :: encode_frames d fs'
  end.

Fixpoint valid_frames (d : Decoder) (fs : list server_frame) : bool :=
  match fs with
  | [] => true
  | FData ws we st m :: fs' =>
      u64 ws && u64 we && u64 st && valid_msg d m && valid_frames (next_server d m) fs'
  | FKeepalive k reply :: fs' =>
      wf_keepalive k && Bool.eqb (k_reply_requested k) (negb (b2z reply =? 0))
      && valid_frames d fs'
  end.

(** The messages the client does not drop. *)
Definition actionable (ms : list PgoutputMessage) : list PgoutputMessage :=
  filter (λ m, is_dropped m = false) ms.

Lemma feed_payload_data d a ws we st m :
  u64 ws = true → u64 we = true → u64 st = true → valid_msg d m = true →
  feed_payload (encode_xlog_data (mkXLogData ws we st (encode_msg (_streaming_active d) m)))
    (d, a)
  = let '(t, a') := feed_message (denote_msg d m) a in (t, (next_server d m, a')).
Proof.
  intros H1 H2 H3 Hm. unfold feed_payload, decode_replication_message.
  rewrite encode_xlog_kind. rewrite (bool_decide_false (_ = [])) by done.
  rewrite bool_decide_true by done. rewrite decode_xlog_encode; cbn [fmap result_fmap].
  - cbn [x_payload fst snd]. by rewrite decode_msg_step.
  - unfold wf_xlog_data. cbn. by rewrite H1, H2, H3.
Qed.

Lemma feed_payload_keepalive k reply st :
  wf_keepalive k = true → k_reply_requested k = negb (b2z reply =? 0) →
  feed_payload (encode_keepalive k reply) st = (None, st).
Proof.
  intros Hk Hr. unfold feed_payload, decode_replication_message. rewrite encode_keepalive_kind.
  rewrite (bool_decide_false (_ = [])) by done. rewrite bool_decide_false by done. rewrite bool_decide_true by done.
  by rewrite decode_keepalive_encode.
Qed.

(** A conforming stream of frames is decoded and assembled as the messages it
    carries. *)
Lemma feed_frames fs : ∀ d a ts a',
  valid_frames d fs = true →
  feed_all (actionable (denote_session d (frame_messages fs))) a = (Ok ts, a') →
  feed_payloads (encode_frames d fs) (d, a) = (ts, (final_server d (frame_messages fs), a')).
Proof.
  induction fs as [|[ws we st m|k reply] fs IH]; intros d a ts a' Hv Hf.
  - by injection Hf as <- <-.
  - cbn [valid_frames] in Hv. zbool. cbn [encode_frames feed_payloads].
    rewrite feed_payload_data by done.
    change (frame_messages (FData ws we st m :: fs)) with (m :: frame_messages fs) in *.
    cbn [denote_session actionable] in Hf. unfold actionable in Hf. rewrite filter_cons in Hf.
    unfold feed_message. destruct (is_dropped (denote_msg d m)) eqn:Hd.
    + rewrite decide_False in Hf by done. by rewrite (IH _ _ _ _ ltac:(done) Hf).
    + rewrite decide_True in Hf by done. cbn [feed_all] in Hf.
      unfold mbind, method_bind in Hf. destruct (feed (denote_msg d m) a) as [[t|e] a1]; [|done].
      destruct (feed_all _ a1) as [[ts'|e] a2] eqn:Hr; [|done]. injection Hf as <- <-.
      by rewrite (IH _ _ _ _ ltac:(done) Hr).
  - cbn [valid_frames] in Hv. zbool. cbn [encode_frames feed_payloads].
    rewrite feed_payload_keepalive; [|done|].
    + by rewrite (IH _ _ _ _ ltac:(done) Hf).
    + by apply eqb_prop.
Qed.

Lemma feed_payloads_prefix l1 l2 st :
  l1 `prefix_of` l2 → fst (feed_payloads l1 st) `prefix_of` fst (feed_payloads l2 st).
Proof.
  intros [l ->]. revert st. induction l1 as [|p l1 IH]; intros st; [apply prefix_nil|].
  cbn [app feed_payloads]. destruct (feed_payload p st) as [t st1]. specialize (IH st1).
  destruct (feed_payloads l1 st1) as [ts1 s1], (feed_payloads (l1 ++ l) st1) as [ts2 s2].
  cbn [fst] in *. destruct t; [by apply prefix_cons|done].
Qed.

(** The session's transactions, from its frames. *)
Lemma assembled_session h fs bs :
  valid_frames Decoder_init fs = true →
  actionable (denote_session Decoder_init (frame_messages fs)) = blocks_messages bs →
  valid_blocks ∅ bs = true →
  handled h `prefix_of` encode_frames Decoder_init fs →
  assembled h `prefix_of` blocks_output ∅ bs ∧
  (handled h = encode_frames Decoder_init fs → assembled h = blocks_output ∅ bs).
Proof.
  intros Hv Ha Hb Hp.
  destruct (blocks_run TransactionAssembler_init ∅ _ sim_init Hb) as (a' & Hrun & _).
  rewrite <- Ha in Hrun. pose proof (feed_frames _ _ _ _ _ Hv Hrun) as Hf.
  unfold assembled, initial_pipeline. split.
  - etrans; [by apply feed_payloads_prefix|]. by rewrite Hf.
  - intros ->. by rewrite Hf.
Qed.

(** *** Shutdown *)

(** How many more steps the program takes by itself once [close] was called: an
    upper bound in each place it can be. *)
Definition inner_left (i : inner_task) : Z := if inner_done i then 2 else 4.

Definition receiver_left (r : receiver) : Z :=
  match r with
  | RWaiting i => inner_left i
  | RUpdating i => inner_left i + 1
  | RReplying => 1
  | RStopped _ => 0
  end.

Definition consumer_left (c : consumer) : Z :=
  match c with
  | CGetting => 1
  | CHandling _ _ => 2
  | CSaving _ _ _ _ _ false => 4
  | CSaving _ _ _ _ _ true => 3
  | CStopped _ => 0
  end.

Definition steps_left (w : World) : Z :=
  match phase w with
  | Loading => 13
  | Connecting _ DoConnect => 12
  | Connecting _ DoCreateSlot => 11
  | Connecting _ DoStart => 10
  | Streaming r c => 4 + receiver_left r + consumer_left c
  | Sleeping => 3
  | Finishing DoFinalUpdate => 2
  | Finishing DoEndCopy => 1
  | Ended _ => 0
  end.

(** Steps that are not the program's own: further calls of [close], what the
    handler does with its own connection, and its calls of [save]. *)
Definition external (ev : event) : bool :=
  match ev with EClose | ECallerCommits | ECallerRollsBack | ECancelRun => true | _ => false end.

Definition is_save (ev : event) : bool := match ev with ESave _ _ _ => true | _ => false end.

Definition closing (w : World) : Prop :=
  _closing (client w) = true ∧ q_shutdown (_queue (client w)) = true ∧ queued w = [].

Lemma catches_closing e w :
  _closing (client w) = true →
  steps_left (run_catches e w) = 0 ∧ client (run_catches e w) = client w.
Proof. intros H. unfold run_catches. rewrite H. by case_step. Qed.

Lemma loop_top_closing c : _closing c = true → loop_top c = RStopped (Ok tt).
Proof. intros H. unfold loop_top. by rewrite H. Qed.

Ltac left_tac :=
  unfold steps_left, receiver_stop, with_phase, with_client, with_history; cbn;
  unfold inner_left; cbn; repeat case_step; simplify_eq/=; try lia.

Lemma catches_shut e w w1 :
  closing w → client w1 = client w → closing (run_catches e w1) ∧ steps_left (run_catches e w1) = 0.
Proof.
  intros (Hc & Hs & Hq) E. destruct (catches_closing e w1) as [H1 H2]; [by rewrite E|].
  split; [|done]. unfold closing, queued in *. by rewrite H2, E.
Qed.

(** A step that changes neither the flag nor the queue keeps the shutdown. *)
Lemma closing_same w w' :
  closing w → _closing (client w') = _closing (client w) →
  _queue (client w') = _queue (client w) → closing w'.
Proof. unfold closing, queued. intros (? & ? & ?) -> ->. done. Qed.

Lemma receive_closing payload now clock c w :
  closing w →
  closing (receive_frame payload now clock c w) ∧
  steps_left (receive_frame payload now clock c w) <= 4 + 1 + consumer_left c.
Proof.
  intros Hw. destruct Hw as (Hc & Hs & Hq).
  destruct (receive_frame_cases payload now clock c w) as (x & self & He & ->).
  destruct He as ((_ & _ & _ & Hcl & _) & _ & He). cbn zeta.
  rewrite Hc in Hcl.
  destruct (fst (feed_payload payload (pipeline_of (client w)))) as [t|].
  - destruct He as [(-> & Hq' & _)|[(-> & Hq' & Hp & _)|(-> & Hq' & _)]].
    + apply put_ok_inv in Hq' as [? _]. congruence.
    + unfold put_nowait in Hp. by rewrite Hs in Hp.
    + split; [|left_tac]. by apply (closing_same w); [done|cbn; congruence|].
  - destruct He as (Hq' & _ & He).
    assert (Hcl' : ∀ h p, closing (with_phase p (with_history h (with_client self w)))).
    { intros. apply (closing_same w); [done|cbn; congruence|done]. }
    destruct He as [->|[(f & -> & _)|[e ->]]].
    + split; [apply Hcl'|]. rewrite loop_top_closing by done. left_tac.
    + split; [apply Hcl'|]. left_tac.
    + split; [apply Hcl'|]. left_tac.
Qed.

Lemma left_range w : 0 <= steps_left w <= 13.
Proof.
  unfold steps_left. destruct (phase w) as [| ? []|r c|[]| |]; try lia.
  destruct r as [i|i| |]; cbn; unfold inner_left; try destruct (inner_done i);
    destruct c as [| | ????? []|]; cbn; lia.
Qed.

Lemma loaded_closing fails w :
  phase w = Loading → closing w →
  closing (loaded fails w) ∧ steps_left (loaded fails w) <= steps_left w - 1.
Proof.
  intros HP Hw. unfold steps_left at 2. rewrite HP. unfold loaded. destruct fails as [e|].
  - destruct (catches_shut e w w Hw eq_refl) as [? ->]. split; [done|lia].
  - split; [by apply (closing_same w)|left_tac].
Qed.

Lemma connection_closing start_lsn stage r now w :
  phase w = Connecting start_lsn stage → closing w →
  closing (connection_step start_lsn stage r now w) ∧
  steps_left (connection_step start_lsn stage r now w) <= steps_left w - 1.
Proof.
  intros HP Hw. unfold steps_left at 2. rewrite HP. unfold connection_step.
  destruct r as [u|e].
  - destruct stage; (split; [by apply (closing_same w)|]); [left_tac..|].
    unfold steps_left. cbn [phase with_phase]. rewrite loop_top_closing by apply Hw. cbn. lia.
  - destruct (catches_shut e w w Hw eq_refl) as [? ->]. split; [done|]. destruct stage; lia.
Qed.

Lemma joined_closing x y clock w :
  phase w = Streaming (RStopped x) (CStopped y) → closing w →
  closing (tasks_joined x y clock w) ∧
  steps_left (tasks_joined x y clock w) <= steps_left w - 1.
Proof.
  intros HP Hw. unfold steps_left at 2. rewrite HP. cbn [receiver_left consumer_left].
  unfold tasks_joined. case_step.
  - destruct (_send_status_update _ _ _) as [[f|e] self] eqn:E.
    + apply send_update_frame in E as [-> _]. split; [by apply (closing_same w)|left_tac].
    + apply send_update_raise in E as ->.
      destruct (catches_shut e w (with_client (client w) w) Hw eq_refl) as [? ->].
      split; [done|lia].
  - case_step.
    + destruct (catches_shut e w w Hw eq_refl) as [? ->]. split; [done|lia].
    + split; [by apply (closing_same w)|left_tac].
Qed.

Lemma top_closing w w1 :
  closing w → client w1 = client w → closing (run_top w1) ∧ steps_left (run_top w1) = 0.
Proof.
  intros Hw E. unfold run_top, steps_left. cbn [phase with_phase]. rewrite E, (proj1 Hw).
  split; [|done]. apply (closing_same w); [done|cbn; by rewrite E..].
Qed.

Lemma shut_no_put w t u q :
  closing w → put_wakes t (_queue (client w)) = Some (Ok u, q) → False.
Proof.
  intros (_ & Hs & _) Hw. apply put_wakes_cases in Hw as [[_ Hp]|(? & _)]; [|done].
  apply put_ok_inv in Hp as [? _]. congruence.
Qed.

Lemma closing_step ev w w' :
  closing w → step ev w = Some w' →
  closing w' ∧
  steps_left w' <=
    steps_left w + (if is_save ev then 2 else if external ev then 0 else -1).
Proof.
  intros Hw H.
  assert (Hcl := Hw). destruct Hcl as (Hc & Hs & Hq).
  destruct ev; step_cases H; cbn [is_save external];
    try (split; [apply (closing_same w); [exact Hw|reflexivity..]|];
         unfold steps_left at 2;
         match goal with HP : phase _ = _ |- _ => rewrite HP end; left_tac; fail).
  - cbn. split; [|unfold steps_left; cbn; lia]. unfold closing, queued. by cbn.
  - by apply loaded_closing.
  - by eapply connection_closing.
  - split; [by apply (closing_same w)|]. unfold steps_left. rewrite Heqp. cbn [phase with_phase].
    rewrite loop_top_closing by done. cbn. lia.
  - destruct (catches_shut e w w Hw eq_refl) as [? ->]. split; [done|].
    unfold steps_left. rewrite Heqp. lia.
  - destruct (catches_shut e w w Hw eq_refl) as [? ->]. split; [done|].
    unfold steps_left. rewrite Heqp. lia.
  - exfalso. by eapply shut_no_put.
  - apply put_wakes_cases in Heqo as [[? _]|(_ & _ & ->)]; [done|].
    split; [by apply (closing_same w)|]. unfold steps_left. rewrite Heqp. left_tac.
  - exfalso. by eapply shut_no_put.
  - apply put_wakes_cases in Heqo as [[? _]|(_ & _ & ->)]; [done|].
    split; [by apply (closing_same w)|]. unfold steps_left. rewrite Heqp. left_tac.
  - destruct (receive_closing a now clock c w Hw) as [? Hle]. split; [done|].
    unfold steps_left at 2. rewrite Heqp. cbn. lia.
  - split; [by apply (closing_same w)|]. unfold steps_left. rewrite Heqp. cbn [phase with_phase].
    rewrite loop_top_closing by done. cbn. lia.
  - apply get_wakes_cases in Heqo as [(t & _ & Hi & _)|(? & _)]; [|done].
    unfold queued in Hq. congruence.
  - apply get_wakes_cases in Heqo as [(t & ? & _)|(_ & _ & _ & ->)]; [done|].
    split; [by apply (closing_same w)|]. unfold steps_left. rewrite Heqp. left_tac.
  - unfold save_begins. case_step; (split; [by apply (closing_same w)|]);
      unfold steps_left; cbn; rewrite ?Heqp; cbn; lia.
  - unfold store_saves. split; [apply (closing_same w); [done|by case_step..]|].
    unfold steps_left at 2. rewrite Heqp. left_tac.
  - split; [by apply (closing_same w)|]. unfold steps_left. cbn. lia.
  - split; [by apply (closing_same w)|]. unfold steps_left. cbn. lia.
  - by eapply joined_closing.
  - split; [by apply (closing_same w)|]. pose proof (left_range w). cbn. lia.
Qed.


(** Until [run] has ended there is always a step the program can take by itself. *)
Lemma closing_progress w :
  closing w → (∃ o, phase w = Ended o) ∨
  ∃ ev w', external ev = false ∧ is_save ev = false ∧ step ev w = Some w'.
Proof.
  intros (Hc & Hs & Hq).
  destruct (phase w) as [| |r c|[]| |o] eqn:HP; [right ..|by left; exists o].
  - exists (ELoad None). unfold step. rewrite HP. by eexists.
  - exists (ETransport (Ok tt) f_zero). unfold step. rewrite HP. by eexists.
  - destruct r as [i|i| |x].
    + destruct (inner_done i) eqn:Hi.
      * exists (EReceiver f_zero 0). unfold step. rewrite HP.
        destruct i as [[[]|]|t [[]|]]; try discriminate Hi; by eexists.
      * exists (ETimer 0). unfold step. rewrite HP. cbn. unfold timer_fires.
        rewrite Hi, Hc. by eexists.
    + exists (ETransport (Ok tt) f_zero). unfold step. rewrite HP. by eexists.
    + exists (ETransport (Ok tt) f_zero). unfold step. rewrite HP. by eexists.
    + destruct c as [|t s|t s l s' j []|y].
      * exists (EGet f_zero). unfold step. rewrite HP. cbn. unfold consumer_gets, get_wakes.
        unfold queued in Hq. rewrite Hq, Hs. by eexists.
      * exists (EHandlerReturns f_zero). unfold step. rewrite HP. by eexists.
      * exists (ESaved f_zero). unfold step. rewrite HP. by eexists.
      * exists EStore. unfold step. rewrite HP. by eexists.
      * exists (EJoin 0). unfold step. rewrite HP. by eexists.
  - exists (ETransport (Ok tt) f_zero). unfold step. rewrite HP. by eexists.
  - exists (ETransport (Ok tt) f_zero). unfold step. rewrite HP. by eexists.
  - exists EWake. unfold step. rewrite HP. by eexists.
Qed.

Definition own_steps (evs : list event) : list event :=
  filter (λ ev, external ev = false ∧ is_save ev = false) evs.
Definition saves (evs : list event) : list event := filter (λ ev, is_save ev = true) evs.

Lemma closing_run evs : ∀ w w',
  closing w → steps evs w = Some w' →
  closing w' ∧ py_len (own_steps evs) + steps_left w' <= steps_left w + 2 * py_len (saves evs).
Proof.
  unfold py_len. induction evs as [|ev evs IH]; intros w w' Hw H.
  - injection H as <-. split; [done|]. cbn. lia.
  - cbn [steps] in H. destruct (step ev w) as [w1|] eqn:E; [|done].
    destruct (closing_step _ _ _ Hw E) as [Hw1 Hl]. destruct (IH _ _ Hw1 H) as [Hw' Hle].
    split; [done|]. unfold own_steps, saves in *. rewrite !filter_cons.
    destruct ev; cbn [is_save external] in *; repeat case_decide; try tauto;
      cbn [length]; lia.
Qed.

Lemma reachable_closing o lsn w :
  reachable o lsn w → _closing (client w) = true → closing w.
Proof.
  intros H Hc. destruct (reachable_inv flow_inv o lsn w) as [_ _ _ _ _ Hs Hq]; try done.
  - apply flow_step.
  - apply flow_init.
  - unfold closing. rewrite Hs. auto.
Qed.

(** The handler is given nothing more. *)
Lemma closing_delivered ev w w' :
  closing w → step ev w = Some w' → delivered (history w') = delivered (history w).
Proof.
  intros Hw H. assert (Hcl := Hw). destruct Hcl as (Hc & Hs & Hq).
  destruct ev; step_cases H; try done.
  - unfold loaded, run_catches. by repeat case_step.
  - unfold connection_step, run_catches. by repeat case_step.
  - unfold run_catches. by repeat case_step.
  - unfold run_catches. by repeat case_step.
  - destruct (receive_frame_cases a now clock c w) as (x & self & _ & ->). by destruct x as [[]|].
  - apply get_wakes_cases in Heqo as [(t & _ & Hi & _)|(? & _)]; [|done].
    unfold queued in Hq. congruence.
  - unfold save_begins. by case_step.
  - unfold store_saves. by case_step.
  - unfold tasks_joined, run_catches. by repeat case_step.
Qed.

(** *** Backoff *)

(** The delay before the [n]-th reconnect in a row, in seconds. *)
Definition backoff_seconds (n : nat) : Z := Z.min (2 ^ Z.of_nat n) 60.

Lemma backoff_iterates n :
  Nat.iter n _next_backoff_value _INITIAL_BACKOFF = f_of_int (backoff_seconds n).
Proof.
  do 6 (destruct n as [|n]; [vm_compute; reflexivity|]).
  assert (Hn : ∀ m, (6 <= m)%nat → backoff_seconds m = 60).
  { intros m Hm. unfold backoff_seconds. apply Z.min_r.
    assert (2 ^ 6 <= 2 ^ Z.of_nat m) by (apply Z.pow_le_mono_r; lia). lia. }
  rewrite (Hn (S _)) by lia. induction n as [|n IH]; [vm_compute; reflexivity|].
  change (Nat.iter (S (S (S (S (S (S (S n))))))) _next_backoff_value _INITIAL_BACKOFF)
    with (_next_backoff_value (Nat.iter (S (S (S (S (S (S n)))))) _next_backoff_value
            _INITIAL_BACKOFF)).
  rewrite IH. vm_compute. reflexivity.
Qed.

(** An attempt to connect that fails, and the wait after it. *)
Definition failed_attempt (m : pystr) (ctx : ErrorContext) (now : float) : list event :=
  [ELoad None; ETransport (Raise (ReplicationConnectionError m ctx)) now; EWake].

Definition failed_attempts (k : nat) m ctx now : list event :=
  mjoin (replicate k (failed_attempt m ctx now)).

(** An attempt that succeeds, and the loss of its connection. *)
Definition lost_connection (m : pystr) (ctx : ErrorContext) (now : float) (clock : Z) :
    list event :=
  [ ELoad None; ETransport (Ok tt) now; ETransport (Ok tt) now; ETransport (Ok tt) now;
    EReadFails (ReplicationConnectionError m ctx); EReceiver now clock; ECancel; EJoin clock ].

(** What is in the loop of [run] after [k] failures in a row. *)
Definition after_failures (k : nat) (w w' : World) : Prop :=
  phase w' = Loading ∧ _closing (client w') = false ∧ stored w' = stored w ∧
  _next_backoff (client w') = Nat.iter k _next_backoff_value (_next_backoff (client w)) ∧
  _reconnect_count (counters (client w')) = _reconnect_count (counters (client w)) + Z.of_nat k ∧
  delays (history w')
    = delays (history w)
        ++ ((λ n, Nat.iter n _next_backoff_value (_next_backoff (client w))) <$> seq 0 k) ∧
  starts (history w') = starts (history w).

Lemma step_load fails w : phase w = Loading → step (ELoad fails) w = Some (loaded fails w).
Proof. intros HP. unfold step. by rewrite HP. Qed.

Lemma step_connecting l stage r now w :
  phase w = Connecting l stage → step (ETransport r now) w = Some (connection_step l stage r now w).
Proof. intros HP. unfold step. by rewrite HP. Qed.

Lemma step_wake w : phase w = Sleeping → step EWake w = Some (delay_over w).
Proof. intros HP. unfold step. by rewrite HP. Qed.

(** The world after the load and after a failure of [connect]. *)
Lemma catches_open e w :
  isinstance e cReplicationConnectionError = true → _closing (client w) = false →
  run_catches e w =
    with_phase Sleeping
      (with_history (log_delay (_next_backoff (client w)) (history w))
        (with_client (set_counters (count_reconnect (counters (client w))) (client w)) w)).
Proof. intros He Hc. unfold run_catches. by rewrite He, Hc. Qed.

Lemma one_failure m ctx now w :
  phase w = Loading → _closing (client w) = false →
  ∃ w', steps (failed_attempt m ctx now) w = Some w' ∧ after_failures 1 w w'.
Proof.
  intros HP Hc. unfold failed_attempt. cbn [steps]. rewrite step_load by done.
  cbn [mbind option_bind]. erewrite step_connecting by reflexivity.
  cbn [mbind option_bind connection_step]. rewrite catches_open by done.
  rewrite step_wake by done. eexists. split; [reflexivity|].
  unfold after_failures, delay_over, run_top. cbn. by rewrite Hc.
Qed.

Lemma many_failures k m ctx now w :
  phase w = Loading → _closing (client w) = false →
  ∃ w', steps (failed_attempts k m ctx now) w = Some w' ∧ after_failures k w w'.
Proof.
  intros HP Hc. induction k as [|k IH].
  - exists w. split; [done|]. unfold after_failures. cbn. rewrite app_nil_r.
    repeat split; try done. lia.
  - destruct IH as (w1 & H1 & P1 & C1 & S1 & B1 & R1 & D1 & T1).
    destruct (one_failure m ctx now w1 P1 C1) as (w2 & H2 & P2 & C2 & S2 & B2 & R2 & D2 & T2).
    exists w2. split.
    + unfold failed_attempts in *. rewrite replicate_S_end, join_app, steps_app, H1.
      cbn [mbind option_bind mjoin list_join]. by rewrite app_nil_r.
    + split; [done|]. split; [done|]. split; [congruence|].
      split; [by rewrite B2, B1|]. split; [lia|]. split; [|congruence].
      rewrite D2, D1, (seq_S k 0), fmap_app, <- (assoc_L (++)). cbn. by rewrite B1.
Qed.

(** *** Counters *)

Definition changes_in (ts : list Transaction) : Z :=
  foldr (λ t n, py_len (tx_changes t) + n) 0 ts.

Lemma changes_in_snoc ts t : changes_in (ts ++ [t]) = changes_in ts + py_len (tx_changes t).
Proof. induction ts as [|t' ts IH]; cbn; [|unfold changes_in in IH; rewrite IH]; lia. Qed.

Record counters_inv (w : World) : Prop := {
  ci_processed : _transactions_processed (counters (client w)) = py_len (delivered (history w));
  ci_changes : _changes_processed (counters (client w)) = changes_in (delivered (history w));
  ci_reconnects : _reconnect_count (counters (client w)) = py_len (delays (history w));
  ci_receive : 0 <= _receive_lsn (counters (client w));
  ci_written : 0 <= _last_written_lsn (client w);
  ci_since : 0 <= _transactions_since_checkpoint (counters (client w))
               <= _transactions_processed (counters (client w));
}.

Lemma counters_quiet w w' :
  counters_inv w →
  _transactions_processed (counters (client w')) = _transactions_processed (counters (client w)) →
  _changes_processed (counters (client w')) = _changes_processed (counters (client w)) →
  _reconnect_count (counters (client w')) = _reconnect_count (counters (client w)) →
  _transactions_since_checkpoint (counters (client w'))
    = _transactions_since_checkpoint (counters (client w)) ∨
  _transactions_since_checkpoint (counters (client w')) = 0 →
  _receive_lsn (counters (client w)) <= _receive_lsn (counters (client w')) →
  _last_written_lsn (client w) <= _last_written_lsn (client w') →
  delivered (history w') = delivered (history w) → delays (history w') = delays (history w) →
  counters_inv w'.
Proof.
  intros [H1 H2 H3 H4 H5 H6] E1 E2 E3 E4 E5 E6 E7 E8.
  constructor; rewrite ?E1, ?E2, ?E3, ?E7, ?E8; try done; [lia..|].
  destruct E4 as [-> | ->]; lia.
Qed.

Ltac counters_quiet_tac :=
  match goal with HI : counters_inv ?w |- _ =>
    apply (counters_quiet w);
    [ exact HI | first [reflexivity | by left | by right | cbn; lia] .. ]
  end.

Lemma counters_catches e w : counters_inv w → counters_inv (run_catches e w).
Proof.
  intros HI. unfold run_catches. repeat case_step; [counters_quiet_tac| |counters_quiet_tac].
  destruct HI as [H1 H2 H3 H4 H5 H6]. constructor; cbn; try done.
  rewrite H3. unfold py_len. rewrite length_app. cbn. lia.
Qed.

Lemma counters_receive payload now clock c w :
  counters_inv w → counters_inv (receive_frame payload now clock c w).
Proof.
  intros HI. destruct (receive_frame_cases payload now clock c w) as (x & self & He & ->).
  destruct He as ((_ & _ & _ & _ & _ & E1 & E2 & E3 & E4 & E5 & E6) & _ & _). cbn zeta.
  destruct x as [[|t|f]|e]; apply (counters_quiet w); cbn; auto.
Qed.

Lemma counters_dispatch t q now r w :
  counters_inv w → counters_inv (start_handler t q now r w).
Proof.
  intros [H1 H2 H3 H4 H5 H6]. constructor; cbn; try done.
  - rewrite H1. unfold py_len. rewrite length_app. cbn. lia.
  - rewrite H2. symmetry. apply changes_in_snoc.
  - lia.
Qed.

Lemma counters_step ev w w' : counters_inv w → step ev w = Some w' → counters_inv w'.
Proof.
  intros HI H. destruct ev; step_cases H; try (counters_quiet_tac; fail).
  - unfold loaded. case_step; [by apply counters_catches|counters_quiet_tac].
  - unfold connection_step.
    destruct r; [destruct stage; counters_quiet_tac|by apply counters_catches].
  - by apply counters_catches.
  - by apply counters_catches.
  - by apply counters_receive.
  - match goal with Hs : _send_status_update _ _ _ = (Ok _, _) |- _ =>
      apply send_update_frame in Hs as [-> _] end. counters_quiet_tac.
  - match goal with Hs : _send_status_update _ _ _ = (Raise _, _) |- _ =>
      apply send_update_raise in Hs as -> end. counters_quiet_tac.
  - by apply counters_dispatch.
  - unfold save_begins. case_step; [done|counters_quiet_tac].
  - unfold store_saves. case_step; counters_quiet_tac.
  - unfold tasks_joined. case_step; [|case_step; [by apply counters_catches|counters_quiet_tac]].
    destruct (_send_status_update _ _ _) as [[f|e] self] eqn:Hs.
    + apply send_update_frame in Hs as [-> _]. counters_quiet_tac.
    + apply send_update_raise in Hs as ->. apply counters_catches. counters_quiet_tac.
Qed.

Lemma counters_init o lsn : counters_inv (run_start o lsn).
Proof. by constructor. Qed.

(** The world after the run's last return of a save, [base] if there is none. *)
Fixpoint last_saved (evs : list event) (w base : World) : World :=
  match evs with
  | [] => base
  | ev :: rest =>
      match step ev w with
      | Some w' => last_saved rest w' (match ev with ESaved _ => w' | _ => base end)
      | None => base
      end
  end.

(** What the counter since the last checkpoint is short of the transactions handed
    over: only the return of a save changes it. *)
Definition behind (w : World) : Z :=
  py_len (delivered (history w)) - _transactions_since_checkpoint (counters (client w)).

Lemma behind_catches e w : behind (run_catches e w) = behind w.
Proof. unfold run_catches. by repeat case_step. Qed.

Lemma behind_receive payload now clock c w : behind (receive_frame payload now clock c w) = behind w.
Proof.
  destruct (receive_frame_cases payload now clock c w) as (x & self & He & ->).
  destruct He as ((_ & _ & _ & _ & _ & E1 & E2 & E3 & E4 & E5 & E6) & _ & _).
  unfold behind. destruct x as [[|t|f]|e]; cbn; congruence.
Qed.

Lemma behind_step ev w w' :
  step ev w = Some w' →
  behind w' = match ev with ESaved _ => py_len (delivered (history w')) | _ => behind w end.
Proof.
  intros H. destruct ev; step_cases H; try reflexivity.
  - unfold loaded. case_step; [by apply behind_catches|done].
  - unfold connection_step. destruct r; [by destruct stage|by apply behind_catches].
  - by rewrite behind_catches.
  - by rewrite behind_catches.
  - by apply behind_receive.
  - match goal with Hs : _send_status_update _ _ _ = (Ok _, _) |- _ =>
      by apply send_update_frame in Hs as [-> _] end.
  - match goal with Hs : _send_status_update _ _ _ = (Raise _, _) |- _ =>
      by apply send_update_raise in Hs as -> end.
  - unfold behind, py_len. cbn. rewrite length_app. cbn. lia.
  - unfold save_begins. by case_step.
  - unfold store_saves. by case_step.
  - unfold behind. cbn. lia.
  - unfold tasks_joined. case_step; [|case_step; [by apply behind_catches|done]].
    destruct (_send_status_update _ _ _) as [[f|e] self] eqn:Hs.
    + by apply send_update_frame in Hs as [-> _].
    + apply send_update_raise in Hs as ->. by rewrite behind_catches.
Qed.

Lemma since_last_saved evs : ∀ w base w',
  steps evs w = Some w' → behind w = py_len (delivered (history base)) →
  _transactions_since_checkpoint (counters (client w'))
  = py_len (delivered (history w')) - py_len (delivered (history (last_saved evs w base))).
Proof.
  induction evs as [|ev evs IH]; intros w base w' H Hb; cbn in H |- *.
  - injection H as <-. unfold behind in Hb. lia.
  - destruct (step ev w) as [w1|] eqn:E; [|done]. cbn in H. apply (IH _ _ _ H).
    rewrite (behind_step _ _ _ E). by destruct ev.
Qed.

(** ** Properties *)

(** The session of [sample_run] as frames. *)
Definition sample_frames : list server_frame :=
  [ FData 500 500 0 (SBegin (mkBegin 500 0 7)); FData 500 500 0 (SCommit (mkCommit 0 500 540 9)) ].

Definition sample_session_blocks : list block :=
  [ BOrdinary (mkBegin 500 0 7) [] (mkCommit 0 500 540 9) ].

(** C1: End to end: when the payloads received are a prefix of the bytes of a
    conforming session, then whatever the interleaving of the tasks, the handler
    is given a sublist of the session's transactions in commit order; a prefix of
    them unless a shutdown or a lost connection discarded some; and once every
    payload is taken, those delivered, queued and waiting are exactly all of
    them, each with its own surviving changes. *)
Theorem end_to_end o lsn w fs bs :
  reachable o lsn w →
  valid_frames Decoder_init fs = true →
  actionable (denote_session Decoder_init (frame_messages fs)) = blocks_messages bs →
  valid_blocks ∅ bs = true →
  handled (history w) `prefix_of` encode_frames Decoder_init fs →
  delivered (history w) `sublist_of` blocks_output ∅ bs ∧
  (dropped (history w) = [] →
     delivered (history w) `prefix_of` blocks_output ∅ bs ∧
     (handled (history w) = encode_frames Decoder_init fs → in_flow w = blocks_output ∅ bs)).
Proof.
  intros Hr Hv Ha Hb Hp. destruct (assembled_session _ _ _ Hv Ha Hb Hp) as [Hpre Hall].
  destruct (reachable_inv flow_inv o lsn w flow_step (flow_init o lsn) Hr) as [_ Hs Hd _ _ _ _].
  split; [|intros Hnil; split].
  - transitivity (in_flow w); [unfold in_flow; by apply sublist_inserts_r|].
    destruct Hpre as [k ->]. by apply sublist_inserts_r.
  - etrans; [|exact Hpre]. rewrite <- Hd by done. unfold in_flow. by apply prefix_app_r.
  - intros Hfull. rewrite Hd by done. by apply Hall.
Qed.

Lemma end_to_end_witness :
  valid_frames Decoder_init sample_frames = true ∧
  valid_blocks ∅ sample_session_blocks = true ∧
  in_flow (world_after sample_run (run_start sample_options (Some 99)))
    = blocks_output ∅ sample_session_blocks ∧
  (tx_commit_lsn <$> blocks_output ∅ sample_session_blocks) = [539].
Proof.
  assert (Hr : reachable sample_options (Some 99)
                 (world_after sample_run (run_start sample_options (Some 99)))).
  { exists sample_run. vm_compute. reflexivity. }
  assert (Hv : valid_frames Decoder_init sample_frames = true) by (vm_compute; reflexivity).
  assert (Hb : valid_blocks ∅ sample_session_blocks = true) by (vm_compute; reflexivity).
  assert (Ha : actionable (denote_session Decoder_init (frame_messages sample_frames))
               = blocks_messages sample_session_blocks) by (vm_compute; reflexivity).
  assert (Hh : handled (history (world_after sample_run (run_start sample_options (Some 99))))
               = encode_frames Decoder_init sample_frames) by (vm_compute; reflexivity).
  assert (Hp : handled (history (world_after sample_run (run_start sample_options (Some 99))))
               `prefix_of` encode_frames Decoder_init sample_frames) by (rewrite Hh; done).
  destruct (end_to_end _ _ _ _ _ Hr Hv Ha Hb Hp) as [_ H].
  destruct H as [_ H]; [vm_compute; reflexivity|].
  split; [exact Hv|]. split; [exact Hb|]. split; [exact (H Hh)|]. vm_compute. reflexivity.
Defined.

(** C11: Shutdown: once [close] was called, from any reachable world, the handler
    is given nothing more, [run] ends after at most 13 steps of the program plus
    two for each [save] the handler still makes, and until it has ended a step is
    always possible: no put or get waits on a queue that is shut down.  The end of the
    handler's call and of an operation of the transport or the store counts as a
    possible step. *)
Theorem shutdown_terminates o lsn w evs w' :
  reachable o lsn w → _closing (client w) = true → steps evs w = Some w' →
  py_len (own_steps evs) <= 13 + 2 * py_len (saves evs) ∧
  delivered (history w') = delivered (history w) ∧
  ((∃ out, phase w' = Ended out) ∨
   ∃ ev w'', external ev = false ∧ is_save ev = false ∧ step ev w' = Some w'').
Proof.
  intros Hr Hc Hs. pose proof (reachable_closing _ _ _ Hr Hc) as Hw.
  destruct (closing_run _ _ _ Hw Hs) as [Hw' Hl].
  pose proof (left_range w). pose proof (left_range w').
  split; [lia|]. split; [|by apply closing_progress].
  refine (proj2 (steps_inv (λ _, true)
    (λ v, closing v ∧ delivered (history v) = delivered (history w)) evs w w' _ _ _ Hs)).
  - intros ev w1 w2 _ [H1 H2] H3. split; [by eapply closing_step|].
    by rewrite (closing_delivered _ _ _ H1 H3).
  - by apply forallb_forall.
  - done.
Qed.

(** [close] while a handler runs and a read is pending: the handler finishes, the
    timer wakes the receiver, and the run ends after the final update. *)
Definition sample_shutdown : list event :=
  [ ESave 539 false f_zero; EStore; ESaved f_zero; EHandlerReturns f_zero; EGet f_zero;
    ETimer 5; EJoin 5; ETransport (Ok tt) f_zero; ETransport (Ok tt) f_zero ].

Definition sample_close : list event := take 11 sample_run ++ [EClose].

Lemma shutdown_terminates_witness :
  let w := world_after sample_close (run_start sample_options (Some 99)) in
  let w' := world_after sample_shutdown w in
  phase w' = Ended Returned ∧ told <$> last (wire (history w')) = Some (Some (501, 540, 540)) ∧
  py_len (own_steps sample_shutdown) <= 13 + 2 * py_len (saves sample_shutdown) ∧
  delivered (history w') = delivered (history w).
Proof.
  cbv zeta. split; [vm_compute; reflexivity|]. split; [vm_compute; reflexivity|].
  assert (Hr : reachable sample_options (Some 99)
                 (world_after sample_close (run_start sample_options (Some 99)))).
  { exists sample_close. vm_compute. reflexivity. }
  destruct (shutdown_terminates sample_options (Some 99) _ sample_shutdown
    (world_after sample_shutdown (world_after sample_close (run_start sample_options (Some 99))))
    Hr) as (H1 & H2 & _); [vm_compute; reflexivity..|].
  split; [exact H1|exact H2].
Defined.

(** C23: Backoff: after [k] failed attempts in a row the client has waited 1, 2,
    4, ... seconds, never more than 60, is back at the top of the loop with
    nothing claimed to the server and the stored checkpoint untouched; and the
    loss of the next connection that does get established is again followed by a
    one-second delay. *)
Theorem backoff_schedule o lsn k m ctx now clock :
  ∃ w w',
    steps (failed_attempts k m ctx now) (run_start o lsn) = Some w ∧
    phase w = Loading ∧ stored w = lsn ∧ starts (history w) = [] ∧
    delays (history w) = (λ n, f_of_int (backoff_seconds n)) <$> seq 0 k ∧
    _reconnect_count (counters (client w)) = Z.of_nat k ∧
    steps (lost_connection m ctx now clock) w = Some w' ∧
    phase w' = Sleeping ∧ delays (history w') = delays (history w) ++ [f_of_int 1] ∧
    _next_backoff (client w') = f_of_int 1.
Proof.
  destruct (many_failures k m ctx now (run_start o lsn)) as (w & Hs & HP & Hc & Hst & Hb & Hr & Hd & Ht);
    [done|done|].
  exists w. unfold lost_connection. cbn [steps].
  rewrite step_load by done. cbn [mbind option_bind loaded].
  erewrite step_connecting by reflexivity. cbn [mbind option_bind connection_step].
  erewrite step_connecting by reflexivity. cbn [mbind option_bind connection_step].
  erewrite step_connecting by reflexivity. cbn [mbind option_bind connection_step].
  unfold loop_top. cbn [_closing set_next_status set_backoff set_durable client with_phase
    with_client]. rewrite Hc. cbn. unfold tasks_joined, run_catches. cbn. rewrite Hc.
  eexists. split; [exact Hs|]. split; [done|]. split; [done|]. split; [done|].
  split; [|split; [by rewrite Hr|by split]].
  rewrite Hd. cbn [delays history run_start run_top with_phase app].
  apply list_fmap_ext. intros _ n _. apply backoff_iterates.
Qed.

(** C18: Resumption: whatever happened before, a successful attempt loads the
    durable checkpoint and asks the server for everything after it, from
    [checkpoint + 1] or from 0 when there is none; the feedback position restarts
    from that checkpoint and nothing already stored is forgotten. *)
Theorem resumes_from_checkpoint w t1 t2 t3 :
  phase w = Loading → _closing (client w) = false →
  ∃ w', steps [ELoad None; ETransport (Ok tt) t1; ETransport (Ok tt) t2; ETransport (Ok tt) t3] w
        = Some w' ∧
    phase w' = Streaming (RWaiting (ReadTask None)) CGetting ∧
    starts (history w') =
      starts (history w) ++ [match stored w with Some l => l + 1 | None => 0 end] ∧
    _durable_lsn (client w') = default 0 (stored w) ∧ stored w' = stored w ∧
    wire (history w') = wire (history w).
Proof.
  intros HP Hc. cbn [steps]. rewrite step_load by done. cbn [mbind option_bind loaded].
  do 3 (erewrite step_connecting by reflexivity; cbn [mbind option_bind connection_step]).
  unfold loop_top. cbn [_closing set_next_status set_backoff set_durable client with_phase
    with_client]. rewrite Hc. eexists. split; [reflexivity|]. cbn.
  split; [done|]. split; [done|]. split; [|done]. by destruct (stored w).
Qed.

Lemma resumes_from_checkpoint_witness :
  let w := run_start sample_options (Some 99) in
  phase w = Loading ∧
  ∃ w', steps [ELoad None; ETransport (Ok tt) f_zero; ETransport (Ok tt) f_zero;
               ETransport (Ok tt) f_zero] w = Some w' ∧
        phase w' = Streaming (RWaiting (ReadTask None)) CGetting ∧
        starts (history w') = [100] ∧ _durable_lsn (client w') = 99 ∧
        stored w' = Some 99 ∧ wire (history w') = [].
Proof.
  cbv zeta. split; [reflexivity|].
  exact (resumes_from_checkpoint (run_start sample_options (Some 99)) f_zero f_zero f_zero
           eq_refl eq_refl).
Defined.

(** Two transactions are handed over, a position is saved after the first, and the
    second is in the handler. *)
Definition two_handled : list event :=
  [ ELoad None; ETransport (Ok tt) f_zero; ETransport (Ok tt) f_zero; ETransport (Ok tt) f_zero ]
  ++ mjoin ((λ m, [EFrame (sample_frame 500 m); EReceiver f_zero 5]) <$>
       [ SBegin (mkBegin 500 0 7); SCommit (mkCommit 0 500 540 9);
         SBegin (mkBegin 600 0 8); SCommit (mkCommit 0 600 640 9) ])
  ++ [ EGet f_zero; ESave 539 false f_zero; EStore; ESaved f_zero; EHandlerReturns f_zero;
       EGet f_zero ].

(** C35: The metrics count what happened: after every run the numbers of transactions
    and changes processed are those of the transactions handed to the handler, the
    reconnect count is the number of reconnect delays, the queue depth is the queue's
    length, and the number since the last checkpoint is exactly that of the transactions
    handed over since a save last returned. *)
Theorem metrics_count_events o lsn evs w :
  steps evs (run_start o lsn) = Some w →
  let m := _current_metrics (client w) in
  m_transactions_processed m = py_len (delivered (history w)) ∧
  m_changes_processed m = changes_in (delivered (history w)) ∧
  m_reconnect_count m = py_len (delays (history w)) ∧
  m_queue_depth m = py_len (queued w) ∧
  0 <= m_transactions_since_checkpoint m <= m_transactions_processed m ∧
  m_transactions_since_checkpoint m
  = py_len (delivered (history w))
    - py_len (delivered (history (last_saved evs (run_start o lsn) (run_start o lsn)))).
Proof.
  intros H. pose proof (since_last_saved evs _ (run_start o lsn) w H eq_refl) as Hsince.
  assert (Hr : reachable o lsn w) by by exists evs.
  destruct (reachable_inv counters_inv o lsn w counters_step (counters_init o lsn) Hr) as
    [H1 H2 H3 _ _ H6]. by repeat (split; [done|]).
Qed.

Lemma metrics_count_events_witness :
  let w := world_after two_handled (run_start sample_options (Some 99)) in
  m_transactions_processed (_current_metrics (client w)) = 2 ∧
  m_transactions_since_checkpoint (_current_metrics (client w)) = 1.
Proof.
  cbv zeta. set (w := world_after _ _).
  assert (H : steps two_handled (run_start sample_options (Some 99)) = Some w)
    by (vm_compute; reflexivity).
  destruct (metrics_count_events sample_options (Some 99) two_handled w H)
    as (H1 & _ & _ & _ & _ & H2).
  rewrite H1, H2. split; vm_compute; reflexivity.
Defined.

(** Connecting, up to the first read. *)
Definition connects_with (now : float) : list event :=
  [ELoad None; ETransport (Ok tt) now; ETransport (Ok tt) now; ETransport (Ok tt) now].

(** A payload arrives and is taken. *)
Definition receives_with (now : float) (m : SMsg) : list event :=
  [EFrame (sample_frame 500 m); EReceiver now 5].

(** Positions and a clock a status update can carry. *)
Definition sendable (written durable clock : Z) : bool :=
  u64 (written + 1) && u64 (durable + 1) && (2 ^ 49 <? clock) && (clock <? 2 ^ 30 * 1000000).

Lemma send_update_ok reply clock c :
  sendable (_last_written_lsn c) (_durable_lsn c) clock = true →
  ∃ f, _send_status_update reply clock c = (Ok f, c) ∧
    server_read_status f = Some (_last_written_lsn c + 1, _durable_lsn c + 1, _durable_lsn c + 1,
                                 clock, reply).
Proof.
  unfold sendable. intros H. zbool. unfold _send_status_update, mbind, method_bind, get_self, lift.
  assert (Hclock : pg_now_micros None clock = Ok clock) by (by apply micros_exact).
  rewrite Hclock. cbn [mbind result_bind].
  pose proof (encode_update_cases (mkStandbyStatusUpdate (_last_written_lsn c) (_durable_lsn c)
    (_durable_lsn c) clock reply)) as He. unfold wf_update in He. cbn in He.
  assert (Hu : u64 clock = true) by (unfold u64; apply andb_true_iff; lia).
  repeat match goal with Hx : u64 _ = true |- _ => rewrite Hx in He; clear Hx end.
  destruct He as (p & Hp & _ & Hr). exists p. by rewrite Hp.
Qed.

(** A keepalive that asks for a reply is answered before anything else is
    read: the receiver's next step writes a status update with the largest
    position seen, the keepalive's included, and the durable position, and the
    write's completion takes it back to reading. *)
Theorem keepalive_answered w k reply c now clock :
  phase w = Streaming (RWaiting (ReadTask (Some (Ok (encode_keepalive k reply))))) c →
  wf_keepalive k = true → k_reply_requested k = true → b2z reply ≠ 0 →
  sendable (Z.max (_last_written_lsn (client w)) (k_wal_end k)) (_durable_lsn (client w)) clock
  = true →
  ∃ f w', step (EReceiver now clock) w = Some w' ∧ phase w' = Streaming RReplying c ∧
    wire (history w') = wire (history w) ++ [f] ∧
    server_read_status f =
      Some (Z.max (_last_written_lsn (client w)) (k_wal_end k) + 1,
            _durable_lsn (client w) + 1, _durable_lsn (client w) + 1, clock, false) ∧
    step (ETransport (Ok tt) now) w' =
      Some (with_phase (Streaming (loop_top (client w')) c) w').
Proof.
  intros HP Hk Hq Hr Hs.
  assert (Hd : decode_replication_message (encode_keepalive k reply) = Ok (RPrimaryKeepalive k)).
  { unfold decode_replication_message. rewrite encode_keepalive_kind.
    rewrite (bool_decide_false (_ = [])) by done. rewrite bool_decide_false by done.
    rewrite bool_decide_true by done. rewrite decode_keepalive_encode; [done|done|].
    rewrite Hq. symmetry. by apply negb_true_iff, Z.eqb_neq. }
  set (c1 := set_counters (count_keepalive (k_wal_end k) now
               (counters (set_written (Z.max (_last_written_lsn (client w)) (k_wal_end k)) (client w))))
               (set_written (Z.max (_last_written_lsn (client w)) (k_wal_end k)) (client w))).
  destruct (send_update_ok false clock c1 Hs) as (f & Hf & Hread).
  assert (Hframe : _handle_frame (encode_keepalive k reply) now clock (client w)
                   = (Ok (AwaitWrite f), c1)).
  { unfold _handle_frame, _handle_keepalive, mbind, method_bind, lift, modify_self.
    rewrite Hd, Hq. fold c1. by rewrite Hf. }
  exists f. unfold step at 1. rewrite HP. cbn [streaming_event receiver_event receiver_resumes].
  unfold receive_frame. rewrite Hframe. eexists. split; [reflexivity|]. by repeat split.
Qed.

(** A world waiting with a keepalive just read. *)
Definition keepalive_world : World :=
  world_after (connects_with f_zero
    ++ [EFrame (encode_keepalive (mkPrimaryKeepalive 700 0 true) x01)])
    (run_start sample_options (Some 99)).

Lemma keepalive_answered_witness :
  ∃ f w', step (EReceiver f_zero 789004800123457) keepalive_world = Some w' ∧
    wire (history w') = wire (history keepalive_world) ++ [f] ∧
    server_read_status f = Some (701, 100, 100, 789004800123457, false).
Proof.
  destruct (keepalive_answered keepalive_world (mkPrimaryKeepalive 700 0 true) x01 CGetting f_zero
              789004800123457) as (f & w' & H1 & _ & H2 & H3 & _);
    [vm_compute; reflexivity|vm_compute; reflexivity|reflexivity|vm_compute; congruence
    |vm_compute; reflexivity|].
  exists f, w'. split; [exact H1|]. split; [exact H2|exact H3].
Defined.

(** C22: Backpressure does not silence the client: while the receiver waits, for
    the socket or for a place in a full queue, each timer tick writes a status
    update with the positions of that moment, and when it is written the receiver
    waits for the same task again, the queue and the transaction it holds
    untouched.  The tick moves the deadline of the next one, reports the metrics,
    and changes nothing else. *)
Theorem waiting_keeps_feedback w i c clock now :
  phase w = Streaming (RWaiting i) c → inner_done i = false → _closing (client w) = false →
  sendable (_last_written_lsn (client w)) (_durable_lsn (client w)) clock = true →
  ∃ f w', steps [ETimer clock; ETransport (Ok tt) now] w = Some w' ∧
    phase w' = phase w ∧ queued w' = queued w ∧ in_flow w' = in_flow w ∧
    wire (history w') = wire (history w) ++ [f] ∧
    server_read_status f =
      Some (_last_written_lsn (client w) + 1, _durable_lsn (client w) + 1,
            _durable_lsn (client w) + 1, clock, false) ∧
    w' = mkWorld
      (set_next_status (f_add now (f_of_int (status_interval (options (client w))))) (client w))
      (stored w) (uncommitted w) (phase w)
      (log_report (_maybe_report_metrics (client w)) (log_wire f (history w))).
Proof.
  intros HP Hi Hc Hs. destruct (send_update_ok false clock (client w) Hs) as (f & Hf & Hread).
  exists f. assert (Hstep : step (ETimer clock) w = Some (with_phase (Streaming (RUpdating i) c)
    (with_client (client w) (with_history (log_wire f (history w)) w)))).
  { unfold step. rewrite HP. cbn [streaming_event receiver_event]. unfold timer_fires.
    by rewrite Hi, Hc, Hf. }
  cbn [steps]. rewrite Hstep. cbn [mbind option_bind]. eexists. split; [reflexivity|].
  unfold in_flow, queued, putting. rewrite HP. by repeat split.
Qed.

(** A full queue: two transactions queued, a third waiting. *)
Definition full_world : World :=
  world_after (connects_with f_zero
    ++ mjoin ((λ x, receives_with f_zero (SBegin (mkBegin 500 0 x))
                   ++ receives_with f_zero (SCommit (mkCommit 0 500 540 9))) <$> [7; 8; 9]))
    (run_start sample_options (Some 99)).

Lemma waiting_keeps_feedback_witness :
  py_len (queued full_world) = 2 ∧ (tx_xid <$> putting full_world) = [9] ∧
  ∃ f w', steps [ETimer 789004800123457; ETransport (Ok tt) f_zero] full_world = Some w' ∧
    wire (history w') = wire (history full_world) ++ [f] ∧
    server_read_status f = Some (501, 100, 100, 789004800123457, false) ∧
    _next_status_at (client w') = f_add f_zero (f_of_int 10).
Proof.
  split; [vm_compute; reflexivity|]. split; [vm_compute; reflexivity|].
  destruct (waiting_keeps_feedback full_world
    (match phase full_world with Streaming (RWaiting i) _ => i | _ => ReadTask None end) CGetting
    789004800123457 f_zero) as (f & w' & H1 & _ & _ & _ & H2 & H3 & H4);
    [vm_compute; reflexivity..|].
  exists f, w'. split; [exact H1|]. split; [exact H2|]. split; [exact H3|].
  rewrite H4. vm_compute. reflexivity.
Defined.

(** *** Where the guarantees end *)

Definition connection_lost : exn := ReplicationConnectionError (lit "replication stream ended") no_context.

Definition connects : list event := connects_with f_zero.

(** The connection is lost while the consumer is busy or idle. *)
Definition loses : list event :=
  [EReadFails connection_lost; EReceiver f_zero 5; ECancel; EJoin 5; EWake].

Definition receives (m : SMsg) : list event := receives_with f_zero m.

(** The handler saves on its own connection, the timer fires, then the handler's
    transaction rolls back. *)
Definition joined_run : list event :=
  connects ++ receives (SBegin (mkBegin 500 0 7)) ++ receives (SCommit (mkCommit 0 500 540 9))
  ++ [ EGet f_zero; ESave 539 true f_zero; EStore; ESaved f_zero; ETimer 5;
       ETransport (Ok tt) f_zero; ECallerRollsBack; EHandlerRaises (HandlerError 1) ].

(** A save that joins the handler's connection is reported to the server as
    flushed before that connection commits: here the status update tells the
    server it may discard everything up to the transaction, the handler's
    transaction then rolls back, and the store still holds the old position. *)
Theorem joined_save_feedback :
  option_map (λ w, (told <$> wire (history w), stored w, uncommitted w, committed (history w)))
    (steps joined_run (run_start sample_options (Some 99)))
  = Some ([Some (501, 540, 540)], Some 99, None, [99]).
Proof. vm_compute. reflexivity. Qed.

(** Two transactions arrive; the connection is lost while the first is handled;
    the second, still queued, is handled and saved after the reconnect; the
    connection is lost again. *)
Definition skipping_run : list event :=
  connects
  ++ receives (SBegin (mkBegin 500 0 7)) ++ receives (SCommit (mkCommit 0 500 540 9))
  ++ receives (SBegin (mkBegin 600 0 8)) ++ receives (SCommit (mkCommit 0 600 640 9))
  ++ [EGet f_zero] ++ loses ++ connects
  ++ [EGet f_zero; ESave 639 false f_zero; EStore; ESaved f_zero; EHandlerReturns f_zero]
  ++ loses ++ connects.

(** The queue survives a reconnect although the transaction in the handler
    does not: the run hands both transactions over, only the second handler
    returns, its checkpoint covers both, and the next connection starts after
    both, so the first is never redelivered. *)
Theorem reconnect_skips_transaction :
  option_map (λ w, (tx_xid <$> delivered (history w), tx_xid <$> completed (history w),
                    stored w, starts (history w)))
    (steps skipping_run (run_start sample_options (Some 99)))
  = Some ([7; 8], [8], Some 639, [100; 100; 640]).
Proof. vm_compute. reflexivity. Qed.

(** The connection is lost between a [Begin] and its [Commit]; the server sends
    the transaction again from its start. *)
Definition mid_transaction_run : list event :=
  connects ++ receives (SBegin (mkBegin 500 0 7)) ++ loses ++ connects
  ++ receives (SBegin (mkBegin 500 0 7)) ++ [ECancel; EJoin 5].

(** The assembler survives a reconnect too: after a connection lost in the
    middle of a transaction, the retransmitted [Begin] is taken for a second one
    and the [ProtocolError] ends [run] instead of delivering the transaction. *)
Theorem reconnect_mid_transaction :
  option_map phase (steps mid_transaction_run (run_start sample_options (Some 99)))
  = Some (Ended (RaisedGroup
      [ProtocolError (lit "received Begin while a transaction is already open") (ctx_xid 7)])).
Proof. vm_compute. reflexivity. Qed.

(** A handler that saves on its own connection and commits. *)
Definition handles_joined (lsn : Z) : list event :=
  [EGet f_zero; ESave lsn true f_zero; EStore; ESaved f_zero; ECallerCommits; EHandlerReturns f_zero].

(** Two transactions arrive, the first is handled, and the connection is lost with the
    second still queued; the server, asked to go on after the first, sends it again. *)
Definition redelivering_run : list event :=
  connects
  ++ receives (SBegin (mkBegin 500 0 7)) ++ receives (SCommit (mkCommit 0 500 540 9))
  ++ receives (SBegin (mkBegin 600 0 8)) ++ receives (SCommit (mkCommit 0 600 640 9))
  ++ handles_joined 539 ++ loses ++ connects
  ++ receives (SBegin (mkBegin 600 0 8)) ++ receives (SCommit (mkCommit 0 600 640 9))
  ++ handles_joined 639 ++ handles_joined 639.

(** A reconnect delivers twice what was still queued: no handler fails and every
    checkpoint is committed with the handler's own work, yet the second transaction is
    handed over, handled and committed a second time, after its own position was
    stored.  Work and checkpoint in one database transaction are not enough for
    exactly-once effects. *)
Theorem reconnect_redelivers_saved :
  option_map (λ w, (tx_xid <$> delivered (history w), tx_xid <$> completed (history w),
                    committed (history w), starts (history w)))
    (steps redelivering_run (run_start sample_options (Some 99)))
  = Some ([7; 8; 8], [7; 8; 8], [99; 539; 639; 639], [100; 540]).
Proof. vm_compute. reflexivity. Qed.
