(* ===== verification/Delivery.v ===== *)
(** At-least-once delivery across restarts: what the stored checkpoint says about the
    handler, for a process that has opened one replication connection and for any
    number of such processes run one after the other on one checkpoint store. *)
From stdpp Require Import base tactics list numbers strings gmap.
From stdpp Require Import sorting.
From S2P Require Import Prelude PyStr Errors PyBytes PyFloat Protocol Pgoutput PgoutputSpec Abc.
From S2P Require Import Transaction TransactionSpec Client ClientSpec ClientSession.

(** ** One connection *)

(** The transaction the consumer works on, when there is a consumer. *)
Definition working (p : Phase) : option (option Transaction) :=
  match p with
  | Streaming _ CGetting => Some None
  | Streaming _ (CHandling t _) | Streaming _ (CSaving t _ _ _ _ _) => Some (Some t)
  | _ => None
  end.

(** [delivered] is [completed] and at most the transaction being worked on. *)
Definition handler_state (o : option (option Transaction)) (h : History) : Prop :=
  match o with
  | Some t => delivered h = completed h ++ option_list t
  | None => ∃ t, delivered h = completed h ++ option_list t
  end.

Definition receiver_running (r : receiver) : bool :=
  match r with RStopped _ => false | _ => true end.

Definition receiving (w : World) : bool :=
  match phase w with
  | Streaming r _ => negb (_closing (client w)) && receiver_running r
  | _ => false
  end.

Definition connected (p : Phase) : bool :=
  match p with Streaming _ _ | Finishing _ => true | _ => false end.

(** What holds as long as [START_REPLICATION] has been sent at most once. *)
Record once_inv (w : World) : Prop := {
  on_before : starts (history w) = [] →
    handled (history w) = [] ∧ delivered (history w) = [] ∧ queued w = [] ∧
    connected (phase w) = false;
  on_prefix : delivered (history w) ++ queued w `prefix_of` assembled (history w);
  on_live : receiving w = true → in_flow w = assembled (history w);
  on_handler : handler_state (working (phase w)) (history w);
}.

(** A step that takes no payload and starts and ends no handler. *)
Lemma once_quiet w w' :
  once_inv w →
  starts (history w') = starts (history w) → handled (history w') = handled (history w) →
  delivered (history w') = delivered (history w) →
  completed (history w') = completed (history w) →
  (queued w' = queued w ∨ queued w' = []) →
  (connected (phase w') = true → connected (phase w) = true) →
  (receiving w' = true → receiving w = true ∧ in_flow w' = in_flow w) →
  (working (phase w') = working (phase w) ∨ working (phase w') = None) →
  once_inv w'.
Proof.
  intros [Hb Hp Hl Hh] E1 E2 E3 E4 E5 E6 E7 E8.
  assert (Ha : assembled (history w') = assembled (history w)) by (unfold assembled; by rewrite E2).
  constructor; rewrite ?E1, ?E2, ?E3, ?Ha.
  - intros Hs. destruct (Hb Hs) as (-> & -> & Hq & Hc). split; [done|]. split; [done|]. split.
    + by destruct E5 as [->| ->].
    + destruct (connected (phase w')); [|done]. by rewrite E6 in Hc.
  - destruct E5 as [->| ->]; [done|]. rewrite app_nil_r. etrans; [|exact Hp]. by apply prefix_app_r.
  - intros Hr. destruct (E7 Hr) as [Hr' ->]. by apply Hl.
  - unfold handler_state in *. rewrite E3, E4. destruct E8 as [-> | ->]; [done|].
    destruct (working (phase w)); [by eexists|done].
Qed.

Ltac once_quiet_tac :=
  match goal with HI : once_inv ?w |- _ =>
    apply (once_quiet w);
    [ exact HI | reflexivity | reflexivity | reflexivity | reflexivity
    | first [by left | by right]
    | cbn; try match goal with HP : phase _ = _ |- _ => rewrite HP end; done
    | unfold receiving, in_flow, queued, putting; cbn;
      try match goal with HP : phase _ = _ |- _ => rewrite HP end; cbn;
      rewrite ?andb_false_r; done
    | cbn; try match goal with HP : phase _ = _ |- _ => rewrite HP end;
      first [by left | by right] ]
  end.

Lemma once_catches e w : once_inv w → once_inv (run_catches e w).
Proof. intros HI. unfold run_catches. repeat case_step; once_quiet_tac. Qed.

Lemma once_top w : once_inv w → once_inv (run_top w).
Proof. intros HI. unfold run_top. case_step; once_quiet_tac. Qed.

(** The connection is opened: nothing was received or handled before. *)
Lemma once_connection start_lsn stage r now w :
  phase w = Connecting start_lsn stage → once_inv w →
  (length (starts (history (connection_step start_lsn stage r now w))) <= 1)%nat →
  once_inv (connection_step start_lsn stage r now w).
Proof.
  intros HP HI. unfold connection_step. destruct r; [|intros _; by apply once_catches].
  destruct stage; [intros _; once_quiet_tac..|]. cbn. rewrite length_app. cbn. intros Hl.
  destruct (starts (history w)) as [|s ss] eqn:Hs; [|cbn in Hl; lia].
  destruct (on_before w HI Hs) as (H1 & H2 & H3 & _).
  assert (Hc : completed (history w) = []).
  { pose proof (on_handler w HI) as Hh. rewrite HP in Hh. cbn in Hh. rewrite H2 in Hh.
    destruct Hh as [t Ht]. symmetry in Ht. by apply app_nil in Ht as [-> _]. }
  unfold queued in H3.
  constructor; unfold in_flow, queued, assembled, putting, receiving; cbn;
    rewrite ?H1, ?H2, ?H3, ?Hc, ?loop_top_pending; try done.
  by rewrite Hs.
Qed.

(** The payload [p] is taken and completes transactions: [qs] are queued, [ps]
    wait for a place, [ds] are refused. *)
Lemma once_taken w w' p qs ps ds :
  flow_inv w → once_inv w → connected (phase w) = true → putting w = [] →
  option_list (fst (feed_payload p (pipeline_of (client w)))) = qs ++ ps ++ ds →
  handled (history w') = handled (history w) ++ [p] →
  starts (history w') = starts (history w) →
  delivered (history w') = delivered (history w) →
  completed (history w') = completed (history w) →
  queued w' = queued w ++ qs → putting w' = ps → working (phase w') = working (phase w) →
  (receiving w' = true → receiving w = true ∧ ds = []) →
  receiving w = true ∨ qs = [] →
  once_inv w'.
Proof.
  intros HF [Hb Hp Hl Hh] Hc Hput Hnew E1 E2 E3 E4 E5 E6 E7 E8 E9.
  assert (Ha : assembled (history w') = assembled (history w) ++ qs ++ ps ++ ds).
  { unfold assembled. rewrite E1, feed_payloads_snoc. cbn [fst].
    by rewrite <- (fl_pipeline w HF), Hnew. }
  assert (Hlive : receiving w = true →
    delivered (history w) ++ queued w = assembled (history w)).
  { intros Hr. rewrite <- Hl by done. unfold in_flow. by rewrite Hput, app_nil_r. }
  constructor; rewrite ?E1, ?E2, ?E3, ?E7.
  - intros Hs. destruct (Hb Hs) as (_ & _ & _ & Hcf). congruence.
  - rewrite E5, Ha. destruct E9 as [Hr| ->].
    + rewrite (assoc_L (++)), Hlive by done. apply prefix_app. by apply prefix_app_r.
    + rewrite app_nil_r. by apply prefix_app_r.
  - intros Hr. destruct (E8 Hr) as [Hr' ->]. unfold in_flow. rewrite E3, E5, E6, Ha.
    by rewrite !(assoc_L (++)), Hlive, app_nil_r.
  - unfold handler_state in *. by rewrite E3, E4.
Qed.

Lemma once_receive payload now clock c w :
  phase w = Streaming (RWaiting (ReadTask (Some (Ok payload)))) c → flow_inv w → once_inv w →
  once_inv (receive_frame payload now clock c w).
Proof.
  intros HP HF HI. assert (Hput : putting w = []) by (unfold putting; by rewrite HP).
  assert (Hc : connected (phase w) = true) by by rewrite HP.
  assert (Hw : working (phase w) = working (Streaming (loop_top (client w)) c)) by by rewrite HP.
  assert (Hr0 : receiving w = negb (_closing (client w))).
  { unfold receiving. rewrite HP. cbn. by rewrite andb_true_r. }
  pose proof (fl_shutdown w HF) as Hsh.
  destruct (receive_frame_cases payload now clock c w) as (x & self & He & ->).
  destruct He as ((_ & _ & _ & Hcl & _) & _ & He). cbn zeta.
  destruct (fst (feed_payload payload (pipeline_of (client w)))) as [t|] eqn:Ht.
  - destruct He as [(-> & Hq & _)|[(-> & Hq & Hf & _)|(-> & Hq & Hs & Hr)]].
    + pose proof (put_ok_inv _ _ _ Hq) as [Hns Hq'].
      assert (Hrec : receiving w = true) by (rewrite Hr0, <- Hsh, Hns; done).
      apply (once_taken w _ payload [t] [] []); rewrite ?Ht; try done; [| |by left].
      * unfold queued. cbn. by rewrite Hq'.
      * unfold putting. cbn. by rewrite loop_top_pending.
    + apply (once_taken w _ payload [] [t] []); rewrite ?Ht; try done; [| |by right].
      * unfold queued. cbn. by rewrite Hq, app_nil_r.
      * rewrite Hr0. unfold receiving. cbn. by rewrite Hcl, andb_true_r.
    + apply (once_taken w _ payload [] [] [t]); rewrite ?Ht; try done; [| |by right].
      * unfold queued. cbn. by rewrite Hq, app_nil_r.
      * unfold receiving. cbn. by rewrite andb_false_r.
  - destruct He as (Hq & Hr & He).
    apply (once_taken w _ payload [] [] []); rewrite ?Ht; try done; [..|by right];
      destruct x as [[|t|f]|e]; unfold queued, putting; cbn;
      rewrite ?Hq, ?app_nil_r, ?loop_top_pending; try done;
      try (by destruct He as [?|[(? & ? & ?)|[? ?]]]);
      rewrite Hr0; unfold receiving; cbn; rewrite Hcl; by destruct (_closing (client w)).
Qed.

(** A waiting put gets its place: the queue is not shut down, so the client is not
    closing and the receiver still runs. *)
Lemma once_put w w' t q r c :
  flow_inv w → once_inv w → phase w = Streaming r c → receiver_running r = true →
  putting w = [t] → put_nowait t (_queue (client w)) = (Ok tt, q) →
  client w' = set_queue q (client w) → history w' = history w → putting w' = [] →
  working (phase w') = working (phase w) → once_inv w'.
Proof.
  intros HF [Hb Hp Hl Hh] HP Hrun Hput Hq E1 E2 E3 E4.
  pose proof (put_ok_inv _ _ _ Hq) as [Hns Hq']. pose proof (fl_shutdown w HF) as Hsh.
  assert (Hr : receiving w = true).
  { unfold receiving. by rewrite HP, <- Hsh, Hns, Hrun. }
  assert (Hin : delivered (history w') ++ queued w' = assembled (history w)).
  { rewrite <- Hl by done. unfold in_flow, queued. rewrite E1, E2, Hput, Hq'. done. }
  constructor; rewrite ?E2, ?E4; try done.
  - intros Hs. destruct (Hb Hs) as (_ & _ & _ & Hcf). by rewrite HP in Hcf.
  - by rewrite E2 in Hin; rewrite Hin.
  - intros _. unfold in_flow. by rewrite E3, app_nil_r.
Qed.

(** The consumer takes the next transaction, or its handler returns. *)
Lemma once_get w t q now r :
  once_inv w → phase w = Streaming r CGetting → q_items (_queue (client w)) = t :: q_items q →
  once_inv (start_handler t q now r w).
Proof.
  intros [Hb Hp Hl Hh] HP Hq.
  assert (Hflow : delivered (history (start_handler t q now r w)) ++ queued (start_handler t q now r w)
                  = delivered (history w) ++ queued w).
  { unfold queued. cbn. by rewrite Hq, <- (assoc_L (++)). }
  constructor; rewrite ?Hflow; try done.
  - intros Hs. destruct (Hb Hs) as (_ & _ & _ & Hcf). by rewrite HP in Hcf.
  - intros Hr. assert (Hr' : receiving w = true) by (unfold receiving in *; by rewrite HP).
    change (assembled _) with (assembled (history w)). rewrite <- Hl by done.
    unfold in_flow. rewrite !(assoc_L (++)), Hflow. f_equal. unfold putting. by rewrite HP.
  - rewrite HP in Hh. cbn in *. by rewrite Hh, app_nil_r.
Qed.

Lemma once_returns w t started now r :
  once_inv w → phase w = Streaming r (CHandling t started) →
  once_inv (handler_returns t started now r w).
Proof.
  intros [Hb Hp Hl Hh] HP. rewrite HP in *. constructor; try done.
  - intros Hr. assert (Hr' : receiving w = true) by (unfold receiving in *; by rewrite HP).
    change (assembled _) with (assembled (history w)). rewrite <- Hl by done.
    unfold in_flow, putting. by rewrite HP.
  - cbn in *. by rewrite app_nil_r.
Qed.

Lemma once_joined x y clock r c w :
  phase w = Streaming r c → once_inv w → once_inv (tasks_joined x y clock w).
Proof.
  intros HP HI. unfold tasks_joined. case_step; [|case_step; [by apply once_catches|]].
  - destruct (_send_status_update _ _ _) as [[f|e] self] eqn:Hs.
    + apply send_update_frame in Hs as [-> Hf]. once_quiet_tac.
    + apply send_update_raise in Hs as ->. apply once_catches. once_quiet_tac.
  - once_quiet_tac.
Qed.

(** The waiting put is woken: it gets its place, or the queue was shut down. *)
Lemma once_put_wakes w t r q f c :
  phase w = Streaming (f (PutTask t None)) c → f = RWaiting ∨ f = RUpdating →
  put_wakes t (_queue (client w)) = Some (r, q) → flow_inv w → once_inv w →
  match r with
  | Ok _ => once_inv (with_phase (Streaming (f (PutTask t (Some (Ok tt)))) c)
                        (with_client (set_queue q (client w)) w))
  | Raise e => once_inv (with_phase (Streaming (f (PutTask t (Some (Raise e)))) c)
                           (with_history (log_dropped [t] (history w))
                              (with_client (set_queue q (client w)) w)))
  end.
Proof.
  intros HP Hf Hw HF HI. pose proof (fl_shutdown w HF) as Hsh.
  apply put_wakes_cases in Hw as [[-> Hq]|(-> & Hs & ->)].
  - eapply (once_put w); [exact HF|exact HI|exact HP| | |exact Hq|done|done| |];
      unfold putting; cbn; rewrite ?HP; by destruct Hf as [-> | ->].
  - apply (once_quiet w); try done; [by left|by rewrite HP| |left; by rewrite HP].
    unfold receiving. cbn. by rewrite <- Hsh, Hs.
Qed.

Lemma once_close w : once_inv w → once_inv (closed w).
Proof.
  intros HI. apply (once_quiet w); try done; [by right| |by left].
  unfold receiving. cbn. by destruct (phase w).
Qed.

Lemma once_loop_top r c w :
  phase w = Streaming r c → receiver_running r = true → receiver_pending r = [] → once_inv w →
  once_inv (with_phase (Streaming (loop_top (client w)) c) w).
Proof.
  intros HP Hr Hp HI. apply (once_quiet w); try done; [by left|by rewrite HP| |left; by rewrite HP].
  unfold receiving, in_flow, putting. cbn. rewrite HP, Hr, Hp, loop_top_pending, andb_true_r.
  unfold loop_top. by destruct (_closing (client w)).
Qed.

Lemma once_step ev w w' :
  flow_inv w → once_inv w → step ev w = Some w' →
  (length (starts (history w')) <= 1)%nat → once_inv w'.
Proof.
  intros HF HI H Hlen. destruct ev. all: try (injection H as <-; by apply once_close).
  all: step_cases H.
  all: try (once_quiet_tac; fail).
  all: try (eapply once_loop_top; [eassumption|reflexivity|reflexivity|exact HI]).
  all: try match goal with
    | HP : phase _ = Streaming (_ (PutTask _ None)) _, Hw : put_wakes _ _ = Some (_, _) |- _ =>
        apply (once_put_wakes _ _ _ _ _ _ HP) in Hw; [exact Hw|by auto|exact HF|exact HI]
    end.
  - unfold loaded. case_step; [by apply once_catches|once_quiet_tac].
  - by eapply once_connection.
  - by apply once_catches.
  - by apply once_top.
  - by apply once_catches.
  - by eapply once_receive.
  - match goal with Hs : _send_status_update _ _ _ = (Ok _, _) |- _ =>
      apply send_update_frame in Hs as [-> _] end. once_quiet_tac.
  - match goal with Hs : _send_status_update _ _ _ = (Raise _, _) |- _ =>
      apply send_update_raise in Hs as -> end. once_quiet_tac.
  - match goal with Hg : get_wakes _ = Some _ |- _ =>
      apply get_wakes_cases in Hg as [(t & [= <-] & H1 & H2 & H3)|(? & _)]; [|done] end.
    by eapply once_get.
  - match goal with Hg : get_wakes _ = Some _ |- _ =>
      apply get_wakes_cases in Hg as [(t & ? & _)|(_ & _ & _ & ->)]; [done|] end.
    once_quiet_tac.
  - unfold save_begins. case_step; [done|]. once_quiet_tac.
  - unfold store_saves. case_step; once_quiet_tac.
  - by eapply once_returns.
  - by eapply once_joined.
  - unfold delay_over. apply once_top. once_quiet_tac.
Qed.

Lemma starts_grow ev w w' :
  step ev w = Some w' → (length (starts (history w)) <= length (starts (history w')))%nat.
Proof.
  assert (Hcatch : ∀ e w, starts (history (run_catches e w)) = starts (history w)).
  { intros e v. unfold run_catches. by repeat case_step. }
  intros H. destruct ev; step_cases H; try done; cbn; rewrite ?Hcatch; try done.
  - unfold loaded. case_step; by rewrite ?Hcatch.
  - unfold connection_step. destruct r; [destruct stage|by rewrite Hcatch]; cbn; try done.
    rewrite length_app. lia.
  - destruct (receive_frame_cases a now clock c w) as (x & self & _ & ->). cbn zeta.
    by destruct x as [[| |]|].
  - unfold save_begins. by case_step.
  - unfold store_saves. by case_step.
  - unfold tasks_joined. case_step; [|case_step; by rewrite ?Hcatch].
    destruct (_send_status_update _ _ _) as [[f|e] self]; by rewrite ?Hcatch.
Qed.

Lemma reachable_once o lsn w :
  reachable o lsn w → (length (starts (history w)) <= 1)%nat → once_inv w.
Proof.
  intros Hr. refine (proj2 (reachable_inv
    (λ w, flow_inv w ∧ ((length (starts (history w)) <= 1)%nat → once_inv w)) o lsn w _ _ Hr)).
  - intros ev w1 w2 [HF HI] Hs. split; [by eapply flow_step|]. intros Hl.
    pose proof (starts_grow _ _ _ Hs). eapply once_step; [exact HF| |exact Hs|exact Hl].
    apply HI. lia.
  - split; [apply flow_init|]. intros _. constructor; try done. by exists None.
Qed.

(** ** Restarting *)

(** Where replication starts over: [start_lsn] of [_run_once]. *)
Definition resume_lsn (checkpoint : option Z) : Z :=
  match checkpoint with Some l => l + 1 | None => 0 end.

(** The transactions of a session that starts after position [l]: each commits
    after the one before. *)
Definition commits_after (l : Z) (ts : list Transaction) : Prop :=
  StronglySorted Z.lt (l :: (tx_commit_lsn <$> ts)).

Lemma commits_after_lt l ts t : commits_after l ts → t ∈ ts → l < tx_commit_lsn t.
Proof.
  intros [_ H]%StronglySorted_inv Ht. rewrite Forall_forall in H. apply H.
  by apply list_elem_of_fmap_2.
Qed.

Lemma commits_after_split l ts1 ts2 t1 t2 :
  commits_after l (ts1 ++ ts2) → t1 ∈ ts1 → t2 ∈ ts2 → tx_commit_lsn t1 < tx_commit_lsn t2.
Proof.
  intros [H _]%StronglySorted_inv H1 H2. rewrite fmap_app in H.
  by eapply StronglySorted_app_1_elem_of; [exact H|apply list_elem_of_fmap_2..].
Qed.

(** A transaction at or before one that was delivered was delivered too. *)
Lemma delivered_before l ds ts t t' :
  commits_after l ts → ds `prefix_of` ts → t ∈ ts → t' ∈ ds →
  tx_commit_lsn t <= tx_commit_lsn t' → t ∈ ds.
Proof.
  intros Hs [rest ->] [Ht|Ht]%elem_of_app Ht' Hle; [done|].
  pose proof (commits_after_split _ _ _ _ _ Hs Ht' Ht). lia.
Qed.

(** A process that dies after any step, having opened one replication connection
    to a server that sends a conforming session in commit order: a position it could
    save or report passes only over transactions whose handler returned, or is that of
    the last one handed to the handler. *)
Lemma life_loses_nothing o lsn w fs bs t v :
  reachable o lsn w → (length (starts (history w)) <= 1)%nat →
  valid_frames Decoder_init fs = true →
  actionable (denote_session Decoder_init (frame_messages fs)) = blocks_messages bs →
  valid_blocks ∅ bs = true →
  handled (history w) `prefix_of` encode_frames Decoder_init fs →
  0 <= default 0 lsn → commits_after (default 0 lsn) (blocks_output ∅ bs) →
  t ∈ blocks_output ∅ bs → earned lsn (history w) v → tx_commit_lsn t <= v →
  t ∈ completed (history w) ∨ (last (delivered (history w)) = Some t ∧ v = tx_commit_lsn t).
Proof.
  intros Hr Hone Hv Ha Hb Hp H0 Hs Ht He Hle. pose proof (commits_after_lt _ _ _ Hs Ht) as Hlt.
  destruct (reachable_once _ _ _ Hr Hone) as [_ Hpre _ Hh].
  destruct (assembled_session _ _ _ Hv Ha Hb Hp) as [Hass _].
  assert (Hdel : delivered (history w) `prefix_of` blocks_output ∅ bs).
  { etrans; [|exact Hass]. etrans; [|exact Hpre]. by apply prefix_app_r. }
  destruct He as [->|[->|(t' & Ht' & Hle')]]; [lia|cbn in Hlt; lia|].
  pose proof (delivered_before _ _ _ t t' Hs Hdel Ht Ht' ltac:(lia)) as Hin.
  assert (Hstate : ∃ c, delivered (history w) = completed (history w) ++ option_list c).
  { destruct (working (phase w)); [by eexists|done]. }
  destruct Hstate as [c Hc]. rewrite Hc in *. apply elem_of_app in Hin as [Hin|Hin]; [by left|].
  right. destruct c as [x|]; [|by apply elem_of_nil in Hin].
  apply list_elem_of_singleton in Hin as ->. cbn [option_list] in *. split; [by rewrite last_snoc|].
  assert (tx_commit_lsn t' <= tx_commit_lsn x).
  { destruct Hdel as [rest Heq]. rewrite Heq, <- (assoc_L (++)) in Hs.
    apply elem_of_app in Ht' as [Ht'|Ht'%list_elem_of_singleton]; [|by subst].
    pose proof (commits_after_split _ _ _ t' x Hs Ht') as Hx.
    apply Z.lt_le_incl, Hx. apply elem_of_app. left. by apply list_elem_of_singleton. }
  lia.
Qed.

(** Two transactions arrive; the first is handled and saved, the server is told, and
    the process dies while the handler has the second. *)
Definition crash_frames : list server_frame :=
  [ FData 500 500 0 (SBegin (mkBegin 500 0 7)); FData 500 500 0 (SCommit (mkCommit 0 500 540 9));
    FData 600 600 0 (SBegin (mkBegin 600 0 8)); FData 600 600 0 (SCommit (mkCommit 0 600 640 9)) ].

Definition crash_blocks : list block :=
  [ BOrdinary (mkBegin 500 0 7) [] (mkCommit 0 500 540 9);
    BOrdinary (mkBegin 600 0 8) [] (mkCommit 0 600 640 9) ].

Definition crash_run : list event :=
  connects_with f_zero
  ++ mjoin ((λ p, [EFrame p; EReceiver f_zero 5]) <$> encode_frames Decoder_init crash_frames)
  ++ [ EGet f_zero; ESave 539 false f_zero; EStore; ESaved f_zero; EHandlerReturns f_zero;
       EGet f_zero; ETimer 5 ].

Definition crash_world : World := world_after crash_run (run_start sample_options (Some 99)).

(** ** A sequence of processes

    The replication slot keeps a position of its own, the last one a status update
    reported flushed: a server asked for an earlier start begins there. *)
Definition start_of (checkpoint : option Z) (confirmed : Z) : Z :=
  Z.max (resume_lsn checkpoint) confirmed.

(** What the server sends of its log to a client that starts from a checkpoint. *)
Definition resumed (log : list Transaction) (checkpoint : option Z) (confirmed : Z) :
    list Transaction :=
  filter (λ t, start_of checkpoint confirmed <= tx_commit_lsn t) log.

(** One process, from its start on a stored checkpoint to wherever it dies: it has
    opened at most one connection, and received a part of the session of the
    transactions the server sends. *)
Definition life (log : list Transaction) (lsn : option Z) (confirmed : Z) (w : World) : Prop :=
  0 <= default 0 lsn ∧ ∃ o fs bs,
    reachable o lsn w ∧ (length (starts (history w)) <= 1)%nat ∧
    valid_frames Decoder_init fs = true ∧
    actionable (denote_session Decoder_init (frame_messages fs)) = blocks_messages bs ∧
    valid_blocks ∅ bs = true ∧
    handled (history w) `prefix_of` encode_frames Decoder_init fs ∧
    blocks_output ∅ bs = resumed log lsn confirmed.

(** A status update of the process reports [position] flushed. *)
Definition reports_flushed (w : World) (position : Z) : Prop :=
  ∃ f written, f ∈ wire (history w) ∧ told f = Some (written, position, position).

(** Processes one after the other on one checkpoint store and one slot, which keeps its
    position or takes one that an update reported, not necessarily the last: updates are
    lost with the connection. *)
Inductive lives (log : list Transaction) :
    option Z → Z → list World → option Z → Z → Prop :=
| lives_none lsn confirmed : lives log lsn confirmed [] lsn confirmed
| lives_next lsn confirmed w confirmed' ws final last :
    life log lsn confirmed w →
    confirmed' = confirmed ∨ reports_flushed w confirmed' →
    lives log (stored w) confirmed' ws final last →
    lives log lsn confirmed (w :: ws) final last.

(** A process took responsibility for a transaction: its handler returned, or it was
    the last one handed over and its own position was stored or reported. *)
Definition settled_in (t : Transaction) (w : World) : Prop :=
  t ∈ completed (history w) ∨
  (last (delivered (history w)) = Some t ∧
   (stored w = Some (tx_commit_lsn t) ∨ reports_flushed w (tx_commit_lsn t + 1))).

Lemma commits_after_resumed log l lsn confirmed :
  commits_after l log → 0 <= l → commits_after (default 0 lsn) (resumed log lsn confirmed).
Proof.
  intros [Hs Hl]%StronglySorted_inv H0. constructor.
  - clear Hl. unfold resumed. induction log as [|t log IH]; [constructor|].
    apply StronglySorted_inv in Hs as [Hs Ht]. rewrite filter_cons.
    case_decide; [|by apply IH]. constructor; [by apply IH|].
    rewrite Forall_forall in *. intros x (u & -> & [_ Hu]%list_elem_of_filter)%list_elem_of_fmap.
    by apply Ht, list_elem_of_fmap_2.
  - rewrite Forall_forall in *.
    intros x (t & -> & [Hr Ht]%list_elem_of_filter)%list_elem_of_fmap.
    specialize (Hl _ (list_elem_of_fmap_2 tx_commit_lsn _ _ Ht)).
    unfold start_of in Hr. destruct lsn; cbn in *; lia.
Qed.

(** One process leaves each transaction it could be sent to the next, or settles it. *)
Lemma life_settles log l lsn confirmed w confirmed' t :
  life log lsn confirmed w → confirmed' = confirmed ∨ reports_flushed w confirmed' →
  commits_after l log → 0 <= l → t ∈ log → start_of lsn confirmed <= tx_commit_lsn t →
  start_of (stored w) confirmed' <= tx_commit_lsn t ∨ settled_in t w.
Proof.
  intros (Hpos & o & fs & bs & H1 & H2 & H3 & H4 & H5 & H6 & H7) Hslot Hs H0 Ht Hstart.
  pose proof (reachable_inv (earned_inv lsn) o lsn w (earned_step lsn) (earned_init o lsn) H1) as He.
  assert (Hlife : ∀ v, earned lsn (history w) v → tx_commit_lsn t <= v →
    t ∈ completed (history w) ∨ (last (delivered (history w)) = Some t ∧ v = tx_commit_lsn t)).
  { intros v. apply (life_loses_nothing o lsn w fs bs t v H1 H2 H3 H4 H5 H6 Hpos);
      rewrite H7; [by eapply commits_after_resumed|by apply list_elem_of_filter]. }
  assert (Hstored : resume_lsn (stored w) <= tx_commit_lsn t ∨ settled_in t w).
  { destruct (stored w) as [v|] eqn:Hst; cycle 1.
    { left. unfold start_of in Hstart. destruct lsn; cbn in *; lia. }
    destruct (Z.lt_ge_cases v (tx_commit_lsn t)) as [|Hle]; [left; cbn; lia|right].
    destruct (Hlife v (ei_stored _ _ He v Hst) Hle) as [?|[Hl ->]]; [by left|right].
    split; [done|by left]. }
  assert (Hconf : confirmed' <= tx_commit_lsn t ∨ settled_in t w).
  { destruct Hslot as [->|(f & written & Hf & Htold)]; [left; unfold start_of in Hstart; lia|].
    destruct (Z.le_gt_cases confirmed' (tx_commit_lsn t)) as [|Hle]; [by left|right].
    destruct (ei_wire _ _ He f Hf) as (x & flushed & Htold' & Hearned).
    rewrite Htold in Htold'. injection Htold' as -> ->.
    destruct (Hlife flushed Hearned ltac:(lia)) as [?|[Hl ->]]; [by left|right].
    split; [done|right]. by exists f, x. }
  unfold start_of. destruct Hstored, Hconf; [left; lia|by right..].
Qed.

(** ** Properties *)

(** C2: At least once, across crashes: any number of processes run one after the other
    on one checkpoint store and one replication slot, each killed after any step, each
    having opened at most one replication connection, to a server that sends, in commit
    order, the transactions at or after both the position asked for and the one the slot
    was last told is flushed.  Then every transaction of the log is still to be sent to
    the next process, or some process took responsibility for it: its handler returned,
    or it was the last one handed to the handler and its own position was stored or
    reported flushed. *)
Theorem at_least_once_across_restarts log l lsn confirmed ws final confirmed' t :
  lives log lsn confirmed ws final confirmed' →
  commits_after l log → 0 <= l → default 0 lsn <= l → confirmed <= l + 1 → t ∈ log →
  start_of final confirmed' <= tx_commit_lsn t ∨ ∃ w, w ∈ ws ∧ settled_in t w.
Proof.
  intros H Hs H0 Hl1 Hl2 Ht. pose proof (commits_after_lt _ _ _ Hs Ht) as Hlt.
  assert (Hstart : start_of lsn confirmed <= tx_commit_lsn t)
    by (unfold start_of; destruct lsn; cbn in *; lia).
  clear Hl1 Hl2 Hlt.
  induction H as [lsn confirmed|lsn confirmed w c1 ws final c2 Hw Hslot Hws IH]; [by left|].
  destruct (life_settles log l lsn confirmed w c1 t Hw Hslot Hs H0 Ht Hstart) as [Hnext|Hdone].
  - destruct (IH Hnext) as [?|(w' & Hin & Hd)]; [by left|right]. exists w'. split; [by right|done].
  - right. exists w. split; [by left|exact Hdone].
Qed.

(** The next process: it starts from the checkpoint left, is sent the second
    transaction, and saves it. *)
Definition second_run : list event :=
  connects_with f_zero
  ++ mjoin ((λ p, [EFrame p; EReceiver f_zero 5]) <$> encode_frames Decoder_init (drop 2 crash_frames))
  ++ [ EGet f_zero; ESave 639 false f_zero; EStore; ESaved f_zero; EHandlerReturns f_zero ].

Definition second_world : World := world_after second_run (run_start sample_options (Some 539)).

Lemma at_least_once_across_restarts_witness :
  stored crash_world = Some 539 ∧ (told <$> wire (history crash_world)) = [Some (601, 540, 540)] ∧
  stored second_world = Some 639 ∧
  ∀ t, t ∈ blocks_output ∅ crash_blocks →
    640 <= tx_commit_lsn t ∨ ∃ w, w ∈ [crash_world; second_world] ∧ settled_in t w.
Proof.
  assert (Hc : stored crash_world = Some 539) by (vm_compute; reflexivity).
  assert (Hw : (told <$> wire (history crash_world)) = [Some (601, 540, 540)]) by (vm_compute; reflexivity).
  assert (Hs : stored second_world = Some 639) by (vm_compute; reflexivity).
  assert (Hlog : tx_commit_lsn <$> blocks_output ∅ crash_blocks = [539; 639]) by (vm_compute; reflexivity).
  split; [exact Hc|]. split; [exact Hw|]. split; [exact Hs|]. intros t Ht.
  apply (at_least_once_across_restarts (blocks_output ∅ crash_blocks) 99 (Some 99) 100
           [crash_world; second_world] (Some 639) 540 t); [|unfold commits_after|cbn; lia..|exact Ht].
  - apply (lives_next _ _ _ _ 540); [| |rewrite Hc; apply (lives_next _ _ _ _ 540); [|by left|rewrite Hs; apply lives_none]].
    + split; [cbn; lia|]. exists sample_options, crash_frames, crash_blocks.
      split; [exists crash_run; vm_compute; reflexivity|].
      split; [vm_compute; lia|]. do 3 (split; [vm_compute; reflexivity|]).
      split; [|vm_compute; reflexivity].
      assert (Hh : handled (history crash_world) = encode_frames Decoder_init crash_frames)
        by (vm_compute; reflexivity).
      by rewrite Hh.
    + right. destruct (wire (history crash_world)) as [|f [|]] eqn:Ef; try discriminate Hw.
      exists f, 601. rewrite Ef. split; [by left|]. by injection Hw.
    + split; [cbn; lia|]. exists sample_options, (drop 2 crash_frames), (drop 1 crash_blocks).
      split; [exists second_run; vm_compute; reflexivity|].
      split; [vm_compute; lia|]. do 3 (split; [vm_compute; reflexivity|]).
      split; [|vm_compute; reflexivity].
      assert (Hh : handled (history second_world) = encode_frames Decoder_init (drop 2 crash_frames))
        by (vm_compute; reflexivity).
      by rewrite Hh.
  - rewrite Hlog. cbn. repeat constructor; lia.
Defined.
