(* ===== verification/Transport.v ===== *)
(** The replication transport ([walbox/transport.py]): LSN text, the libpq
    connection driven by [ReplicationTransport].  libpq is a class of operations on a
    connection object; everything the module does with it is modelled. *)
From stdpp Require Import base tactics list numbers strings gmap.
From Stdlib Require Import Strings.Byte.
From S2P Require Import Prelude PyStr Errors PyBytes.

(** ** LSN text *)

(** [f"{z:X}"] of an integer: [n] digits are enough when [0 <= z < 16 ^ n]. *)
Fixpoint hex_digits (n : nat) (z : Z) : pystr :=
  match n with
  | O => []
  | S n' => if z <? 16 then [hex_digit_upper z]
            else hex_digits n' (z / 16) ++ [hex_digit_upper (z mod 16)]
  end.

Definition hex_upper (z : Z) : pystr :=
  let digits := hex_digits (S (Z.to_nat (Z.log2 (Z.abs z)))) (Z.abs z) in
  if z <? 0 then 45 :: digits else digits.

Definition _format_lsn (lsn : Z) : pystr :=
  hex_upper (Z.shiftr lsn 32) ++ lit "/" ++ hex_upper (Z.land lsn 4294967295).

(** [text.split(sep)] for a one-character separator. *)
Fixpoint split_on (sep : Z) (s : pystr) : list pystr :=
  match s with
  | [] => [[]]
  | c :: s' =>
      if c =? sep then [] :: split_on sep s'
      else match split_on sep s' with
           | w :: ws => (c :: w) :: ws
           | [] => [[c]]
           end
  end.

Section int_base_16.
(** [unicodedata.decimal] and [str.isspace] of a code point above 127, from
    the interpreter's character database. *)
Context (decimal : Z → option Z) (isspace : Z → bool).

(** What [int] reads a code point as before parsing: ASCII as it is, other
    decimal digits and spaces as ASCII ones, anything else as ["?"]. *)
Definition to_ascii (c : Z) : Z :=
  if c <? 128 then c
  else if isspace c then 32
  else match decimal c with Some d => 48 + d | None => 63 end.

Definition ascii_space (c : Z) : bool := (c =? 32) || ((9 <=? c) && (c <=? 13)).

Fixpoint skip_spaces (s : pystr) : pystr :=
  match s with
  | c :: s' => if ascii_space c then skip_spaces s' else s
  | [] => []
  end.

Definition hex_value (c : Z) : option Z :=
  if (48 <=? c) && (c <=? 57) then Some (c - 48)
  else if (65 <=? c) && (c <=? 70) then Some (c - 55)
  else if (97 <=? c) && (c <=? 102) then Some (c - 87)
  else None.

(** The digits, single underscores between them, up to trailing spaces;
    [after_digit] says that the previous character was a digit. *)
Fixpoint read_digits (acc : Z) (after_digit : bool) (s : pystr) : option Z :=
  match s with
  | [] => if after_digit then Some acc else None
  | c :: s' =>
      match hex_value c with
      | Some d => read_digits (acc * 16 + d) true s'
      | None =>
          if after_digit then
            if c =? 95 then read_digits acc false s'
            else match skip_spaces s with [] => Some acc | _ => None end
          else None
      end
  end.

(** The optional [0x] prefix and the underscore allowed after it. *)
Definition skip_one (c : Z) (s : pystr) : pystr :=
  match s with x :: s' => if x =? c then s' else s | [] => [] end.

Definition skip_prefix (s : pystr) : pystr :=
  match s with
  | z :: x :: s' =>
      if (z =? 48) && ((x =? 120) || (x =? 88)) then skip_one 95 s' else s
  | _ => s
  end.

(** [int(text, 16)] *)
Definition int_16 (text : pystr) : py Z :=
  let s := skip_spaces (to_ascii <$> text) in
  let negative := match s with c :: _ => c =? 45 | [] => false end in
  let s := if negative then skip_one 45 s else skip_one 43 s in
  match read_digits 0 false (skip_prefix s) with
  | Some n => Ok (if negative then - n else n)
  | None => Raise (ValueError (lit "invalid literal for int() with base 16"))
  end.

Definition _parse_lsn (text : pystr) : py Z :=
  match split_on 47 text with
  | [high; low] =>
      h ← int_16 high;
      l ← int_16 low;
      Ok (Z.lor (Z.shiftl h 32) l)
  | _ => Raise (ValueError (lit "wrong number of values to unpack"))
  end.
End int_base_16.

Example parse_ex : _parse_lsn (λ _, None) (λ _, false) (lit "16/B374D848") = Ok 0x16B374D848.
Proof. reflexivity. Qed.
Example format_ex : _format_lsn 0x16B374D848 = lit "16/B374D848".
Proof. reflexivity. Qed.

(** *** Lemmas on LSN text *)

(** An upper-case hexadecimal digit. *)
Definition is_hex (c : Z) : Prop := 48 <= c <= 57 ∨ 65 <= c <= 70.

Lemma hex_digit_is_hex d : 0 <= d < 16 → is_hex (hex_digit_upper d).
Proof. intros H. unfold hex_digit_upper, is_hex. case_step; zbool; lia. Qed.

Lemma hex_value_digit d : 0 <= d < 16 → hex_value (hex_digit_upper d) = Some d.
Proof.
  intros H. unfold hex_value, hex_digit_upper. case_step; zbool.
  - rewrite (proj2 (Z.leb_le _ _)), (proj2 (Z.leb_le _ _)) by lia. cbn [andb]. f_equal. lia.
  - rewrite (proj2 (Z.leb_gt (55 + d) 57)) by lia. rewrite andb_false_r.
    rewrite (proj2 (Z.leb_le _ _)), (proj2 (Z.leb_le _ _)) by lia. cbn [andb]. f_equal. lia.
Qed.

Lemma hex_digits_hex n z : 0 <= z → Forall is_hex (hex_digits n z).
Proof.
  revert z. induction n as [|n IH]; intros z Hz; [constructor|]. cbn [hex_digits].
  case_step; zbool.
  - apply Forall_singleton. by apply hex_digit_is_hex.
  - apply Forall_app. split; [apply IH; by apply Z.div_pos; lia|].
    apply Forall_singleton. apply hex_digit_is_hex. apply Z.mod_pos_bound. lia.
Qed.

(** Reading the digits of [z] after [acc] shifts [acc] and adds [z]. *)
Lemma read_hex_digits n : ∀ z acc b rest,
  0 <= z < 16 ^ Z.of_nat n →
  ∃ k, 0 <= k ∧ read_digits acc b (hex_digits n z ++ rest)
    = if (n =? 0)%nat then read_digits acc b rest else read_digits (acc * 16 ^ k + z) true rest.
Proof.
  induction n as [|n IH]; intros z acc b rest Hz.
  - exists 0. split; [lia|done].
  - cbn [hex_digits Nat.eqb]. destruct (z <? 16) eqn:E; zbool.
    + exists 1. split; [lia|]. cbn [app read_digits]. rewrite hex_value_digit by lia. by rewrite Z.pow_1_r.
    + rewrite <- (assoc_L (++)).
      assert (Hd : 0 <= z / 16 < 16 ^ Z.of_nat n).
      { split; [apply Z.div_pos; lia|]. apply Z.div_lt_upper_bound; [lia|].
        rewrite <- Z.pow_succ_r, <- Nat2Z.inj_succ by lia. lia. }
      destruct (IH (z / 16) acc b ([hex_digit_upper (z mod 16)] ++ rest) Hd) as (k & Hk & ->).
      pose proof (Z.mod_pos_bound z 16 ltac:(lia)).
      destruct n as [|n]; cbn [Nat.eqb].
      * cbn in Hz. lia.
      * exists (k + 1). split; [lia|]. cbn [app read_digits]. rewrite hex_value_digit by done.
        f_equal. rewrite Z.pow_add_r by lia.
        pose proof (Z.div_mod z 16 ltac:(lia)). lia.
Qed.

Lemma log2_digits z : 0 <= z → 0 <= z < 16 ^ Z.of_nat (S (Z.to_nat (Z.log2 z))).
Proof.
  intros Hz. split; [done|]. rewrite Nat2Z.inj_succ, Z2Nat.id by apply Z.log2_nonneg.
  apply Z.lt_le_trans with (2 ^ Z.succ (Z.log2 z)).
  - destruct (Z.eq_dec z 0) as [->|]; [done|]. apply Z.log2_spec. lia.
  - apply Z.pow_le_mono_l. lia.
Qed.

(** No digit is a prefix mark, a separator, a sign or a space. *)
Lemma skip_prefix_hex s : Forall is_hex s → skip_prefix s = s.
Proof.
  intros H. destruct H as [|c s Hc Hs]; [done|]. destruct Hs as [|x s Hx Hs]; [done|].
  cbn [skip_prefix]. unfold is_hex in Hx.
  rewrite (proj2 (Z.eqb_neq x 120)), (proj2 (Z.eqb_neq x 88)) by lia.
  by rewrite andb_false_r.
Qed.

Lemma skip_one_hex d s : Forall is_hex s → d < 48 → skip_one d s = s.
Proof.
  intros H Hd. destruct H as [|c s Hc Hs]; [done|]. cbn. unfold is_hex in Hc.
  by rewrite (proj2 (Z.eqb_neq c d)) by lia.
Qed.

Lemma skip_spaces_hex s : Forall is_hex s → skip_spaces s = s.
Proof.
  intros H. destruct H as [|c s Hc Hs]; [done|]. cbn [skip_spaces]. unfold ascii_space, is_hex in *.
  destruct ((c =? 32) || ((9 <=? c) && (c <=? 13))) eqn:E; [|done].
  apply orb_true_iff in E as [?|?]; zbool; lia.
Qed.

Lemma split_on_hex s rest :
  Forall (λ c, c ≠ 47) s → split_on 47 (s ++ 47 :: rest) = s :: split_on 47 rest.
Proof.
  induction 1 as [|c s Hc Hs IH]; [done|]. cbn [app split_on].
  rewrite (proj2 (Z.eqb_neq _ _)) by done. by rewrite IH.
Qed.

Lemma split_on_none s : Forall (λ c, c ≠ 47) s → split_on 47 s = [s].
Proof.
  induction 1 as [|c s Hc Hs IH]; [done|]. cbn [split_on].
  rewrite (proj2 (Z.eqb_neq _ _)) by done. by rewrite IH.
Qed.

Lemma to_ascii_hex decimal isspace s :
  Forall (λ c, c < 128) s → to_ascii decimal isspace <$> s = s.
Proof.
  induction 1 as [|c s Hc Hs IH]; [done|]. rewrite fmap_cons, IH. unfold to_ascii.
  by rewrite (proj2 (Z.ltb_lt _ _)).
Qed.

Lemma int_16_hex_upper decimal isspace z : int_16 decimal isspace (hex_upper z) = Ok z.
Proof.
  unfold int_16, hex_upper.
  assert (Ha : 0 <= Z.abs z) by lia. pose proof (log2_digits _ Ha) as Hr.
  set (n := Z.to_nat (Z.log2 (Z.abs z))) in *.
  pose proof (hex_digits_hex (S n) _ Ha) as Hhex.
  destruct (read_hex_digits (S n) (Z.abs z) 0 false [] Hr) as (k & _ & Hread).
  rewrite app_nil_r in Hread. cbn [Nat.eqb read_digits] in Hread.
  rewrite Z.mul_0_l, Z.add_0_l in Hread.
  assert (Hlow : Forall (λ c, c < 128) (hex_digits (S n) (Z.abs z))).
  { eapply Forall_impl; [exact Hhex|]. unfold is_hex. intros; lia. }
  destruct (z <? 0) eqn:E; zbool.
  - rewrite fmap_cons, to_ascii_hex by done. cbn [skip_spaces].
    change (to_ascii decimal isspace 45) with 45. cbn [ascii_space orb andb].
    change (ascii_space 45) with false. cbn iota. cbn [skip_one].
    change (45 =? 45) with true. cbn iota.
    rewrite skip_prefix_hex, Hread by done. f_equal. lia.
  - rewrite to_ascii_hex, skip_spaces_hex by done.
    rewrite (skip_one_hex 45), (skip_one_hex 43) by done.
    assert (Hneg : match hex_digits (S n) (Z.abs z) with c :: _ => c =? 45 | [] => false end = false).
    { destruct Hhex as [|c s Hc _]; [done|]. unfold is_hex in Hc. by apply Z.eqb_neq; lia. }
    rewrite Hneg, skip_prefix_hex, Hread by done. f_equal. lia.
Qed.

Lemma hex_upper_no_slash z : Forall (λ c, c ≠ 47) (hex_upper z).
Proof.
  unfold hex_upper. assert (H : ∀ n, Forall (λ c, c ≠ 47) (hex_digits n (Z.abs z))).
  { intros n. eapply Forall_impl; [by apply hex_digits_hex; lia|]. unfold is_hex. intros; lia. }
  case_step; [|done]. by constructor.
Qed.

(** ** Tasks

    A coroutine over an object of state [S]: with [None], it has not finished
    within the fuel its loops were given. *)

Definition task (S A : Type) : Type := S → option (py A * S).

#[global] Instance task_ret S : MRet (task S) := λ A a s, Some (Ok a, s).
#[global] Instance task_bind S : MBind (task S) := λ A B f m s,
  match m s with
  | Some (Ok a, s') => f a s'
  | Some (Raise e, s') => Some (Raise e, s')
  | None => None
  end.

Definition call {S A} (m : method S exn A) : task S A := λ s, Some (m s).
Definition throw {S A} (e : exn) : task S A := λ s, Some (Raise e, s).

(** [while test: body], with fuel. *)
Fixpoint while {S} (fuel : nat) (test : task S bool) (body : task S unit) : task S unit :=
  match fuel with
  | O => λ _, None
  | S n => b ← test; if b : bool then _ ← body; while n test body else mret tt
  end.

(** [except OperationalError as exc: raise handler(exc)] *)
Definition except_operational {S A} (body : task S A) (handler : pystr → exn) : task S A := λ s,
  match body s with
  | Some (Raise (OperationalError m), s') => Some (Raise (handler m), s')
  | r => r
  end.

(** ** libpq *)

(** The statuses the module tells apart; the rest are [OTHER]. *)
Inductive ExecStatus := COPY_IN | COPY_OUT | COPY_BOTH | FATAL_ERROR | OTHER (n : Z).

#[global] Instance ExecStatus_eq_dec : EqDecision ExecStatus.
Proof. solve_decision. Defined.

Record PGresult := mkPGresult {
  status : ExecStatus;
  error_sqlstate : option bytes;
}.

(** What an await in the module waits for. *)
Inductive readiness := Readable | Writable | Either.

(** The operations of psycopg's [PGconn] and of the socket it owns.  [io_wait]
    asks for the socket's descriptor and waits for it; the server and the kernel may
    change the connection meanwhile; it says whether reading is possible. *)
Class PGconn (K : Type) := {
  send_query : bytes → method K exn unit;
  pq_flush : method K exn Z;
  is_busy : method K exn bool;
  consume_input : method K exn unit;
  get_result : method K exn (option PGresult);
  get_copy_data : method K exn (Z * bytes);
  put_copy_data : bytes → method K exn Z;
  put_copy_end : method K exn Z;
  finish : method K exn unit;
  io_wait : readiness → method K exn bool;
  error_message : K → bytes;
}.

(** [s.encode()]: a lone surrogate cannot be encoded. *)
Definition str_encode (s : pystr) : py bytes :=
  if is_text s then Ok (utf8_encode s) else Raise (ValueError (lit "surrogates not allowed")).

Definition _DUPLICATE_OBJECT_SQLSTATE : bytes := bs "42710".

Section ReplicationTransport.
Context {K : Type} `{!PGconn K}.

Record ReplicationTransport := mkTransport {
  _dsn : pystr;
  _slot_name : pystr;
  _publication_name : pystr;
  _conn : option K;
}.

Definition ReplicationTransport_init (dsn slot publication : pystr) : ReplicationTransport :=
  mkTransport dsn slot publication None.

Definition set_conn (k : option K) (t : ReplicationTransport) : ReplicationTransport :=
  mkTransport (_dsn t) (_slot_name t) (_publication_name t) k.

(** Code that works on [pgconn = self._pgconn]: the assertion that the
    transport is connected, then the code on the connection object. *)
Definition on_pgconn {A} (m : task K A) : task ReplicationTransport A := λ self,
  match _conn self with
  | None => Some (Raise AssertionError, self)
  | Some k =>
      match m k with
      | Some (r, k') => Some (r, set_conn (Some k') self)
      | None => None
      end
  end.

Definition ctx_slot_publication (self : ReplicationTransport) : ErrorContext :=
  mkErrorContext (Some (_slot_name self)) (Some (_publication_name self)) None None None None.

(** [connect]: [make_conninfo] and [open] are psycopg's. *)
Definition connect (make_conninfo : pystr → py pystr) (open : pystr → py K) :
    task ReplicationTransport unit := λ self,
  match make_conninfo (_dsn self) with
  | Raise e => Some (Raise e, self)
  | Ok replication_dsn =>
      match open replication_dsn with
      | Ok k => Some (Ok tt, set_conn (Some k) self)
      | Raise (OperationalError exc) =>
          Some (Raise (ReplicationConnectionError
                  (lit "failed to open replication connection: " ++ exc)
                  (ctx_slot_publication self)), self)
      | Raise e => Some (Raise e, self)
      end
  end.

Definition _wait_readable : task K unit := _ ← call (io_wait Readable); mret tt.
Definition _wait_writable : task K unit := _ ← call (io_wait Writable); mret tt.

(** The race of a [_wait_readable] and a [_wait_writable]: whether the first is done.
    Both end at once when the descriptor cannot be had, and what they raise is
    dropped by [gather(..., return_exceptions=True)]. *)
Definition race : task K bool := λ k,
  match io_wait Either k with
  | (Ok readable, k') => Some (Ok readable, k')
  | (Raise _, k') => Some (Ok true, k')
  end.

Definition _flush_until_complete (fuel : nat) : task K unit :=
  while fuel
    (n ← call pq_flush; mret (n =? 1))
    (readable ← race;
     if readable : bool then call consume_input else mret tt).

Definition _flush (fuel : nat) (slot : pystr) : task K unit :=
  except_operational (_flush_until_complete fuel)
    (λ exc, ReplicationConnectionError (lit "failed to flush: " ++ exc) (ctx_slot slot)).

Definition is_copy (s : ExecStatus) : bool :=
  match s with COPY_IN | COPY_OUT | COPY_BOTH => true | _ => false end.

(** The second loop of [_drain_result]. *)
Fixpoint last_result (fuel : nat) (result : option PGresult) : task K (option PGresult) :=
  match fuel with
  | O => λ _, None
  | S n =>
      next_result ← call get_result;
      match next_result with
      | None => mret result
      | Some r => if is_copy (status r) then mret (Some r) else last_result n (Some r)
      end
  end.

Definition _drain_result (fuel : nat) : task K PGresult :=
  _ ← while fuel (call is_busy) (_ ← _wait_readable; call consume_input);
  result ← last_result fuel None;
  match result with
  | None => throw AssertionError
  | Some r => mret r
  end.

Definition get_detail : task K pystr := λ k,
  Some (Ok (utf8_decode_replace (error_message k)), k).

(** A command: send the query, flush it, wait for its result. *)
Definition run_command (fuel : nat) (slot command : pystr) : task K PGresult :=
  query ← call (lift (str_encode command));
  _ ← call (send_query query);
  _ ← _flush fuel slot;
  _drain_result fuel.

Definition create_slot_command (slot : pystr) : pystr :=
  lit "CREATE_REPLICATION_SLOT " ++ slot ++ lit " LOGICAL pgoutput".

Definition create_slot_if_missing (fuel : nat) : task ReplicationTransport unit := λ self,
  on_pgconn
    (result ← run_command fuel (_slot_name self) (create_slot_command (_slot_name self));
     match status result with
     | FATAL_ERROR =>
         if bool_decide (error_sqlstate result = Some _DUPLICATE_OBJECT_SQLSTATE) then mret tt
         else
           detail ← get_detail;
           throw (ReplicationConnectionError
                    (lit "failed to create replication slot: " ++ detail)
                    (ctx_slot (_slot_name self)))
     | _ => mret tt
     end) self.

Definition start_command (self : ReplicationTransport) (start_lsn : Z) : pystr :=
  lit "START_REPLICATION SLOT " ++ _slot_name self ++ lit " LOGICAL "
    ++ _format_lsn start_lsn ++ lit " (proto_version '2', publication_names '"
    ++ _publication_name self ++ lit "', streaming 'on')".

Definition start_replication (fuel : nat) (start_lsn : Z) : task ReplicationTransport unit := λ self,
  on_pgconn
    (result ← run_command fuel (_slot_name self) (start_command self start_lsn);
     match status result with
     | COPY_BOTH => mret tt
     | _ =>
         detail ← get_detail;
         throw (ReplicationConnectionError
                  (lit "START_REPLICATION did not enter COPY BOTH mode: " ++ detail)
                  (mkErrorContext (Some (_slot_name self)) (Some (_publication_name self))
                     (Some start_lsn) None None None))
     end) self.

Fixpoint _read_until_complete (fuel : nat) (slot : pystr) : task K bytes :=
  match fuel with
  | O => λ _, None
  | S n =>
      '(nbytes, data) ← call get_copy_data;
      if 0 <? nbytes then mret data
      else if nbytes =? -1 then
        throw (ReplicationConnectionError (lit "replication stream ended") (ctx_slot slot))
      else
        _ ← _wait_readable;
        _ ← call consume_input;
        _read_until_complete n slot
  end.

Definition read (fuel : nat) : task ReplicationTransport bytes := λ self,
  on_pgconn
    (except_operational (_read_until_complete fuel (_slot_name self))
      (λ exc, ReplicationConnectionError (lit "error receiving copy data: " ++ exc)
                (ctx_slot (_slot_name self)))) self.

(** The body [write] and [end_copy] share: offer until accepted, then flush. *)
Definition offer (fuel : nat) (slot : pystr) (put : method K exn Z) (what : string) :
    task K unit :=
  except_operational
    (_ ← while fuel (n ← call put; mret (n =? 0)) _wait_writable;
     _flush fuel slot)
    (λ exc, ReplicationConnectionError (lit what ++ exc) (ctx_slot slot)).

Definition write (fuel : nat) (payload : bytes) : task ReplicationTransport unit := λ self,
  on_pgconn (offer fuel (_slot_name self) (put_copy_data payload) "failed to send data: ") self.

Definition end_copy (fuel : nat) : task ReplicationTransport unit := λ self,
  on_pgconn (offer fuel (_slot_name self) put_copy_end "failed to end copy: ") self.

(** [close], with what [finish] raises passed on. *)
Definition transport_close : task ReplicationTransport unit := λ self,
  match _conn self with
  | None => Some (Ok tt, self)
  | Some k =>
      match finish k with
      | (Ok _, _) => Some (Ok tt, set_conn None self)
      | (Raise e, k') => Some (Raise e, set_conn (Some k') self)
      end
  end.
End ReplicationTransport.
Arguments ReplicationTransport : clear implicits.

(** ** Lemmas *)

Section lemmas.
Context {K : Type} `{!PGconn K}.

(** Out of fuel apart, more fuel changes nothing. *)
Lemma while_mono {S} n m (test : task S bool) body s r :
  (n <= m)%nat → while n test body s = Some r → while m test body s = Some r.
Proof.
  revert m s. induction n as [|n IH]; intros m s Hle H; [done|].
  destruct m as [|m]; [lia|]. cbn [while] in *. unfold mbind, task_bind in *.
  destruct (test s) as [[[[]|] s1]|]; try done.
  destruct (body s1) as [[[] s2]|]; try done. apply IH; [lia|done].
Qed.

Lemma on_pgconn_iff {A} (m : task K A) self k k' r :
  _conn self = Some k →
  on_pgconn m self = Some (r, set_conn (Some k') self) ↔ m k = Some (r, k').
Proof.
  intros Hk. unfold on_pgconn. rewrite Hk.
  destruct (m k) as [[r2 k2]|]; [|done]. unfold set_conn.
  split; [by intros [= -> ->]|by intros [= -> ->]].
Qed.

(** The runs of a loop that end normally: the test holds [n] times. *)
Inductive rounds {S} (test : task S bool) (body : task S unit) : nat → S → S → Prop :=
| rounds_end s s' : test s = Some (Ok false, s') → rounds test body 0 s s'
| rounds_more n s s1 s2 s' :
    test s = Some (Ok true, s1) → body s1 = Some (Ok tt, s2) → rounds test body n s2 s' →
    rounds test body (Datatypes.S n) s s'.

Lemma while_rounds {S} fuel (test : task S bool) body s s' :
  while fuel test body s = Some (Ok tt, s') ↔ ∃ n, (n < fuel)%nat ∧ rounds test body n s s'.
Proof.
  split.
  - revert s. induction fuel as [|fuel IH]; intros s H; [done|].
    cbn [while] in H. unfold mbind, task_bind in H.
    destruct (test s) as [[[[]|] s1]|] eqn:Ht; try done.
    + destruct (body s1) as [[[[]|] s2]|] eqn:Hb; try done.
      destruct (IH _ H) as (n & Hn & Hr). exists (Datatypes.S n). split; [lia|].
      by eapply rounds_more.
    + injection H as <-. exists 0%nat. split; [lia|]. by apply rounds_end.
  - intros (n & Hn & Hr). revert fuel Hn.
    induction Hr as [s s' Ht|n s s1 s2 s' Ht Hb Hr IH]; intros fuel Hn;
      (destruct fuel as [|fuel]; [lia|]); cbn [while]; unfold mbind, task_bind; rewrite Ht.
    + done.
    + rewrite Hb. apply IH. lia.
Qed.

(** libpq takes what it is offered after [n] waits for the socket. *)
Inductive accepts (put : method K exn Z) : nat → K → K → Prop :=
| accepts_now k k' x : put k = (Ok x, k') → x ≠ 0 → accepts put 0 k k'
| accepts_later n k k1 k2 k' b :
    put k = (Ok 0, k1) → io_wait Writable k1 = (Ok b, k2) → accepts put n k2 k' →
    accepts put (S n) k k'.

(** libpq has sent its buffer after [n] waits, reading what arrives meanwhile. *)
Inductive flushes : nat → K → K → Prop :=
| flushes_now k k' x : pq_flush k = (Ok x, k') → x ≠ 1 → flushes 0 k k'
| flushes_later n k k1 k2 k3 k' b :
    pq_flush k = (Ok 1, k1) → race k1 = Some (Ok b, k2) →
    (if b then consume_input k2 else (Ok tt, k2)) = (Ok tt, k3) → flushes n k3 k' →
    flushes (S n) k k'.

(** The answer to a command is complete after [n] waits. *)
Inductive settles : nat → K → K → Prop :=
| settles_now k k' : is_busy k = (Ok false, k') → settles 0 k k'
| settles_later n k k1 k2 k3 k' b :
    is_busy k = (Ok true, k1) → io_wait Readable k1 = (Ok b, k2) →
    consume_input k2 = (Ok tt, k3) → settles n k3 k' → settles (S n) k k'.

Lemma accepts_rounds put n k k' :
  accepts put n k k' ↔
  rounds (n ← call put; mret (n =? 0)) _wait_writable n k k'.
Proof.
  unfold call, mret, task_ret, mbind, task_bind. split.
  - induction 1 as [k k' x H Hx|n k k1 k2 k' b H Hw Ha IH].
    + apply rounds_end. by rewrite H, (proj2 (Z.eqb_neq _ _)).
    + eapply rounds_more; [by rewrite H| |exact IH].
      unfold _wait_writable, call, mret, task_ret, mbind, task_bind. by rewrite Hw.
  - induction 1 as [k k' H|n k k1 k2 k' H Hw Ha IH].
    + destruct (put k) as [[x|e] k1] eqn:E; [|done]. injection H as Hx <-.
      apply (accepts_now _ _ _ x); [done|]. by apply Z.eqb_neq.
    + destruct (put k) as [[x|e] k1'] eqn:E; [|done]. injection H as Hx <-.
      apply Z.eqb_eq in Hx as ->.
      unfold _wait_writable, call, mret, task_ret, mbind, task_bind in Hw.
      destruct (io_wait Writable k1') as [[b|e] k2'] eqn:E2; [|done]. injection Hw as <-.
      by eapply accepts_later.
Qed.

Lemma flushes_rounds n k k' :
  flushes n k k' ↔
  rounds (n ← call pq_flush; mret (n =? 1))
    (readable ← race;
     if readable : bool then call consume_input else mret tt) n k k'.
Proof.
  unfold call, mret, task_ret, mbind, task_bind. split.
  - induction 1 as [k k' x H Hx|n k k1 k2 k3 k' b H Hw Hc Ha IH].
    + apply rounds_end. by rewrite H, (proj2 (Z.eqb_neq _ _)).
    + eapply rounds_more; [by rewrite H| |exact IH]. rewrite Hw.
      destruct b; cbn; [by rewrite Hc|by injection Hc as ->].
  - induction 1 as [k k' H|n k k1 k2 k' H Hw Ha IH].
    + destruct (pq_flush k) as [[x|e] k1] eqn:E; [|done]. injection H as Hx <-.
      apply (flushes_now _ _ x); [done|]. by apply Z.eqb_neq.
    + destruct (pq_flush k) as [[x|e] k1'] eqn:E; [|done]. injection H as Hx <-.
      apply Z.eqb_eq in Hx as ->.
      destruct (race k1') as [[[b|e] k2']|] eqn:E2; [|done..].
      apply (flushes_later _ _ k1' k2' k2 _ b); [done|done| |done].
      destruct b; cbn in Hw; [by injection Hw as ->|by injection Hw as ->].
Qed.

Lemma settles_rounds n k k' :
  settles n k k' → rounds (call is_busy) (_ ← _wait_readable; call consume_input) n k k'.
Proof.
  induction 1 as [k k' H|n k k1 k2 k3 k' b H Hw Hc Ha IH].
  - apply rounds_end. unfold call. by rewrite H.
  - eapply rounds_more; [unfold call; by rewrite H| |exact IH].
    unfold _wait_readable, call, mret, task_ret, mbind, task_bind. by rewrite Hw, Hc.
Qed.

Lemma flush_completes fuel slot n k k' :
  flushes n k k' → (n < fuel)%nat → _flush fuel slot k = Some (Ok tt, k').
Proof.
  intros H Hn. unfold _flush, except_operational, _flush_until_complete.
  by rewrite (proj2 (while_rounds _ _ _ _ _) (ex_intro _ n (conj Hn (proj1 (flushes_rounds _ _ _) H)))).
Qed.

(** A piece of data is written exactly when libpq takes it once and sends it. *)
Lemma offer_iff fuel slot put what k k' :
  offer fuel slot put what k = Some (Ok tt, k') ↔
  ∃ n m k1, (n < fuel)%nat ∧ (m < fuel)%nat ∧ accepts put n k k1 ∧ flushes m k1 k'.
Proof.
  unfold offer, except_operational, mbind, task_bind. split.
  - intros H.
    destruct (while fuel _ _ k) as [[[[]|e] k1]|] eqn:Ew; [|by destruct e|done].
    destruct (_flush fuel slot k1) as [[[[]|e] k2]|] eqn:Ef; [|by destruct e|done].
    injection H as <-. apply while_rounds in Ew as (n & Hn & Hr).
    unfold _flush, except_operational in Ef.
    destruct (_flush_until_complete fuel k1) as [[[[]|e] k3]|] eqn:Eu; [|by destruct e|done].
    injection Ef as <-. apply while_rounds in Eu as (m & Hm & Hf).
    exists n, m, k1. by rewrite accepts_rounds, flushes_rounds.
  - intros (n & m & k1 & Hn & Hm & Ha & Hf). apply accepts_rounds in Ha.
    change (λ n0 : Z, mret (n0 =? 0)) with (λ n0 : Z, mret (M := task K) (n0 =? 0)).
    assert (Hw := proj2 (while_rounds fuel _ _ k k1) (ex_intro _ n (conj Hn Ha))).
    unfold mbind, task_bind in Hw. rewrite Hw.
    by rewrite (flush_completes fuel slot m k1 k').
Qed.

(** The rounds of [_read_until_complete] in which no complete message is there:
    wait, let libpq read the socket, ask again. *)
Inductive polls : nat → K → K → Prop :=
| polls_done k : polls 0 k k
| polls_more n k k1 k2 k3 k' nbytes data b :
    get_copy_data k = (Ok (nbytes, data), k1) → nbytes <= 0 → nbytes ≠ -1 →
    io_wait Readable k1 = (Ok b, k2) → consume_input k2 = (Ok tt, k3) →
    polls n k3 k' → polls (S n) k k'.

(** What [read] makes of the first answer that is not "nothing yet". *)
Definition read_outcome (slot : pystr) (r : py (Z * bytes)) : option (py bytes) :=
  match r with
  | Ok (nbytes, data) =>
      if 0 <? nbytes then Some (Ok data)
      else if nbytes =? -1 then
        Some (Raise (ReplicationConnectionError (lit "replication stream ended") (ctx_slot slot)))
      else None
  | Raise (OperationalError m) =>
      Some (Raise (ReplicationConnectionError (lit "error receiving copy data: " ++ m)
                     (ctx_slot slot)))
  | Raise e => Some (Raise e)
  end.

Lemma read_polls slot n k k' k'' r o fuel :
  polls n k k' → get_copy_data k' = (r, k'') → read_outcome slot r = Some o → (n < fuel)%nat →
  except_operational (_read_until_complete fuel slot)
    (λ exc, ReplicationConnectionError (lit "error receiving copy data: " ++ exc)
              (ctx_slot slot)) k = Some (o, k'').
Proof.
  intros Hp. revert fuel. induction Hp as [k|n k k1 k2 k3 k' nbytes data b H1 Hn Hn' H2 H3 Hp IH];
    intros fuel Hr Ho Hlt; (destruct fuel as [|fuel]; [lia|]);
    unfold except_operational in *; cbn [_read_until_complete];
    unfold mbind, task_bind, call in *.
  - rewrite Hr. destruct r as [[nbytes data]|e]; cbn [read_outcome] in Ho.
    + destruct (0 <? nbytes); [by injection Ho as <-|].
      destruct (nbytes =? -1); [by injection Ho as <-|done].
    + by destruct e; injection Ho as <-.
  - rewrite H1. rewrite (proj2 (Z.ltb_ge _ _)), (proj2 (Z.eqb_neq _ _)) by done.
    unfold _wait_readable, mbind, task_bind, call, mret, task_ret. rewrite H2, H3.
    apply IH; [done|done|lia].
Qed.

(** The results libpq returns: [rs], none of which starts a copy. *)
Inductive results : list PGresult → K → K → Prop :=
| results_nil k : results [] k k
| results_cons r rs k k1 k' :
    get_result k = (Ok (Some r), k1) → is_copy (status r) = false →
    results rs k1 k' → results (r :: rs) k k'.

Lemma last_result_copy rs k k' k'' c acc fuel :
  results rs k k' → get_result k' = (Ok (Some c), k'') → is_copy (status c) = true →
  (length rs < fuel)%nat → last_result fuel acc k = Some (Ok (Some c), k'').
Proof.
  intros Hrs. revert acc fuel. induction Hrs as [k|r rs k k1 k' H1 Hc Hrs IH];
    intros acc fuel Hg Hcc Hlt; (destruct fuel as [|fuel]; [cbn in Hlt; lia|]);
    cbn [last_result]; unfold mbind, task_bind, call.
  - by rewrite Hg, Hcc.
  - rewrite H1, Hc. apply IH; [done|done|cbn in Hlt; lia].
Qed.

Lemma last_result_end rs k k' k'' acc fuel :
  results rs k k' → get_result k' = (Ok None, k'') → (length rs < fuel)%nat →
  last_result fuel acc k = Some (Ok (match last rs with Some r => Some r | None => acc end), k'').
Proof.
  intros Hrs. revert acc fuel. induction Hrs as [k|r rs k k1 k' H1 Hc Hrs IH];
    intros acc fuel Hg Hlt; (destruct fuel as [|fuel]; [cbn in Hlt; lia|]);
    cbn [last_result]; unfold mbind, task_bind, call.
  - by rewrite Hg.
  - rewrite H1, Hc, (IH (Some r)) by first [done | cbn in Hlt; lia].
    destruct rs as [|r' rs]; [done|]. change (last (r :: r' :: rs)) with (last (r' :: rs)).
    assert (Hl : is_Some (last (r' :: rs))) by by apply last_is_Some.
    by destruct Hl as [x ->].
Qed.
End lemmas.

(** ** What libpq may raise *)

Definition operational (e : exn) : Prop := ∃ m, e = OperationalError m.

(** psycopg's contract: an operation on the connection fails with
    [OperationalError] only, [pgconn.socket] on a connection that is gone included. *)
Class PGconnErrors (K : Type) `{!PGconn K} : Prop := {
  flush_errors k : match fst (pq_flush k) with Raise e => operational e | Ok _ => True end;
  consume_errors k : match fst (consume_input k) with Raise e => operational e | Ok _ => True end;
  data_errors k : match fst (get_copy_data k) with Raise e => operational e | Ok _ => True end;
  put_errors p k : match fst (put_copy_data p k) with Raise e => operational e | Ok _ => True end;
  end_errors k : match fst (put_copy_end k) with Raise e => operational e | Ok _ => True end;
  wait_errors w k : match fst (io_wait w k) with Raise e => operational e | Ok _ => True end;
}.

(** [m] raises nothing outside [P]. *)
Definition only {S A} (P : exn → Prop) (m : task S A) : Prop :=
  ∀ s, match m s with Some (Raise e, _) => P e | _ => True end.

Definition reconnectable (e : exn) : Prop := isinstance e cReplicationConnectionError = true.

Section only.
Context {S : Type}.
Implicit Types P : exn → Prop.

Lemma only_ret {A} P (a : A) : only P (mret (M := task S) a).
Proof. done. Qed.

Lemma only_bind {A B} P (m : task S A) (f : A → task S B) :
  only P m → (∀ a, only P (f a)) → only P (m ≫= f).
Proof.
  intros Hm Hf s. unfold mbind, task_bind. specialize (Hm s).
  destruct (m s) as [[[a|e] s']|]; [apply Hf|done|done].
Qed.

Lemma only_call {A} P (m : method S exn A) :
  (∀ s, match fst (m s) with Raise e => P e | Ok _ => True end) → only P (call m).
Proof. intros H s. unfold call. specialize (H s). by destruct (m s) as [[] ?]. Qed.

Lemma only_while P n test (body : task S unit) :
  only P test → only P body → only P (while n test body).
Proof.
  intros Ht Hb. induction n as [|n IH]; [done|]. cbn [while].
  apply only_bind; [done|]. intros []; [by apply only_bind|apply only_ret].
Qed.

(** A handler that turns [OperationalError] into [Q]. *)
Lemma only_except {A} P (m : task S A) h :
  only (λ e, operational e ∨ P e) m → (∀ x, P (h x)) → only P (except_operational m h).
Proof.
  intros Hm Hh s. unfold except_operational. specialize (Hm s).
  destruct (m s) as [[[a|e] s']|]; [done| |done].
  destruct e; try (destruct Hm as [[? ?]|?]; done).
Qed.

Lemma only_weaken {A} P Q (m : task S A) : (∀ e, P e → Q e) → only P m → only Q m.
Proof. intros H Hm s. specialize (Hm s). destruct (m s) as [[[a|e] s']|]; auto. Qed.
End only.

#[export] Hint Resolve only_ret only_bind only_while : walbox.

Section errors.
Context {K : Type} `{PGconnErrors K}.

Lemma only_wait w : only operational (call (io_wait w)).
Proof. apply only_call, wait_errors. Qed.

Lemma only_race P : only P race.
Proof. intros k. unfold race. by destruct (io_wait Either k) as [[] ?]. Qed.

Lemma only_flush slot fuel : only reconnectable (_flush fuel slot).
Proof.
  apply only_except; [|done]. apply (only_weaken operational); [by left|].
  apply only_while.
  - apply only_bind; [apply only_call, flush_errors|by intros].
  - apply only_bind; [apply only_race|].
    intros []; [apply only_call, consume_errors|by apply only_ret].
Qed.

Lemma only_offer slot fuel put what :
  (∀ k, match fst (put k) with Raise e => operational e | Ok _ => True end) →
  only reconnectable (offer fuel slot put what).
Proof.
  intros Hput. apply only_except; [|done]. apply only_bind.
  - apply (only_weaken operational); [by left|]. apply only_while.
    + apply only_bind; [by apply only_call|by intros].
    + apply only_bind; [apply only_wait|by intros].
  - intros _. apply (only_weaken reconnectable); [by right|]. apply only_flush.
Qed.

Lemma only_read slot fuel :
  only (λ e, operational e ∨ reconnectable e) (_read_until_complete fuel slot).
Proof.
  induction fuel as [|fuel IH]; [done|]. cbn [_read_until_complete].
  apply only_bind; [apply (only_weaken operational); [by left|]; apply only_call, data_errors|].
  intros [nbytes data]. case_step; [apply only_ret|]. case_step; [intros s; by right|].
  apply only_bind.
  { apply (only_weaken operational); [by left|]. apply only_bind; [apply only_wait|by intros]. }
  intros _.
  apply only_bind; [apply (only_weaken operational); [by left|]; apply only_call, consume_errors|].
  by intros _.
Qed.

Lemma on_pgconn_only {A} P (m : task K A) self k :
  _conn self = Some k → only P m →
  match on_pgconn m self with
  | Some (Raise e, self') => P e ∧ is_Some (_conn self')
  | _ => True
  end.
Proof.
  intros Hk Hm. unfold on_pgconn. rewrite Hk. specialize (Hm k).
  destruct (m k) as [[[a|e] k']|]; [done|by split|done].
Qed.
End errors.

(** ** A scripted connection

    Answers in the order they are given, whatever is asked; the last one
    repeats. *)
Inductive answer :=
| AInt (n : Z)
| ABool (b : bool)
| AResult (r : option PGresult)
| AData (n : Z) (data : bytes)
| AFails (m : pystr)
| AUnit.

Record Script := mkScript { answers : list answer; message : bytes; sent : list bytes }.

Definition next_answer {A} (f : answer → A) : method Script exn A := λ s,
  match answers s with
  | [] => (Ok (f AUnit), s)
  | AFails m :: rest => (Raise (OperationalError m), mkScript rest (message s) (sent s))
  | a :: rest => (Ok (f a), mkScript rest (message s) (sent s))
  end.

Definition answer_int (a : answer) : Z := match a with AInt n => n | _ => 0 end.
Definition answer_bool (a : answer) : bool := match a with ABool b => b | _ => false end.
Definition answer_unit (a : answer) : unit := tt.
Definition answer_result (a : answer) : option PGresult := match a with AResult r => r | _ => None end.
Definition answer_data (a : answer) : Z * bytes := match a with AData n d => (n, d) | _ => (0, []) end.

Definition script_send (query : bytes) : method Script exn unit := λ s,
  (Ok tt, mkScript (answers s) (message s) (sent s ++ [query])).

#[export] Instance script_conn : PGconn Script := {
  send_query := script_send;
  pq_flush := next_answer answer_int;
  is_busy := next_answer answer_bool;
  consume_input := next_answer answer_unit;
  get_result := next_answer answer_result;
  get_copy_data := next_answer answer_data;
  put_copy_data _ := next_answer answer_int;
  put_copy_end := next_answer answer_int;
  finish := mret tt;
  io_wait _ := mret true;
  error_message := message;
}.

Lemma next_answer_errors {A} (f : answer → A) k :
  match fst (next_answer f k) with Raise e => operational e | Ok _ => True end.
Proof.
  unfold next_answer. destruct (answers k) as [|[] rest]; try done. by eexists.
Qed.

#[export] Instance script_errors : PGconnErrors Script.
Proof. split; try (intros; apply next_answer_errors). done. Qed.

(** ** Properties *)

Lemma recombine lsn : Z.lor (Z.shiftl (Z.shiftr lsn 32) 32) (Z.land lsn 4294967295) = lsn.
Proof.
  change 4294967295 with (Z.ones 32). apply Z.bits_inj'. intros n Hn.
  rewrite Z.lor_spec, Z.land_spec. destruct (Z.lt_ge_cases n 32).
  - rewrite Z.shiftl_spec_low, Z.ones_spec_low by lia. by rewrite andb_true_r.
  - rewrite Z.shiftl_spec_high, Z.shiftr_spec, Z.ones_spec_high by lia.
    rewrite andb_false_r, orb_false_r. f_equal. lia.
Qed.

(** C34: LSN text round trip: [_parse_lsn] reads back every position
    [_format_lsn] writes, whatever the character database says of other
    scripts; in particular no two positions share their text. *)
Theorem lsn_round_trip decimal isspace lsn :
  _parse_lsn decimal isspace (_format_lsn lsn) = Ok lsn.
Proof.
  unfold _parse_lsn, _format_lsn. change (lit "/") with [47].
  cbn [app]. rewrite split_on_hex, split_on_none by apply hex_upper_no_slash.
  rewrite !int_16_hex_upper. cbn [mbind result_bind]. by rewrite recombine.
Qed.

(** C24: [read] returns the first complete message libpq has, however many times
    it must wait and read the socket before, and takes nothing after it; the end
    of the stream and a read error are a [ReplicationConnectionError] naming the
    slot.  More fuel than rounds is enough. *)
Theorem read_first_message {K} `{!PGconn K} (self : ReplicationTransport K) k n k' r k'' o fuel :
  _conn self = Some k → polls n k k' → get_copy_data k' = (r, k'') →
  read_outcome (_slot_name self) r = Some o → (n < fuel)%nat →
  read fuel self = Some (o, set_conn (Some k'') self).
Proof.
  intros Hk Hp Hr Ho Hlt. unfold read, on_pgconn. rewrite Hk.
  by rewrite (read_polls _ n k k' k'' r o fuel).
Qed.

Definition sample_transport (answers : list answer) : ReplicationTransport Script :=
  mkTransport (lit "d") (lit "s") (lit "p") (Some (mkScript answers (bs "m") [])).

Lemma read_first_message_witness :
  read 3 (sample_transport [AData 0 []; AUnit; AData 2 (bs "ab"); AData 1 (bs "c")])
  = Some (Ok (bs "ab"), sample_transport [AData 1 (bs "c")]).
Proof.
  refine (read_first_message
            (sample_transport [AData 0 []; AUnit; AData 2 (bs "ab"); AData 1 (bs "c")])
            (mkScript [AData 0 []; AUnit; AData 2 (bs "ab"); AData 1 (bs "c")] (bs "m") []) 1
            (mkScript [AData 2 (bs "ab"); AData 1 (bs "c")] (bs "m") []) (Ok (2, bs "ab"))
            (mkScript [AData 1 (bs "c")] (bs "m") []) (Ok (bs "ab")) 3 eq_refl _ eq_refl eq_refl _);
    [|lia].
  eapply polls_more; [reflexivity|lia|lia|reflexivity|reflexivity|constructor].
Defined.

(** While streaming, every failure of the connection reaches the caller as a
    [ReplicationConnectionError], the one exception the client reconnects on,
    and the transport keeps its connection object: so for [read], [write] and
    [end_copy] on any connection that keeps psycopg's contract. *)
Theorem io_errors_reconnect {K} `{PGconnErrors K} (self : ReplicationTransport K) k fuel payload :
  _conn self = Some k →
  match read fuel self with
  | Some (Raise e, self') => reconnectable e ∧ is_Some (_conn self') | _ => True
  end ∧
  match write fuel payload self with
  | Some (Raise e, self') => reconnectable e ∧ is_Some (_conn self') | _ => True
  end ∧
  match end_copy fuel self with
  | Some (Raise e, self') => reconnectable e ∧ is_Some (_conn self') | _ => True
  end.
Proof.
  intros Hk. split; [|split].
  - apply (on_pgconn_only _ _ _ k Hk). by apply only_except; [apply only_read|].
  - apply (on_pgconn_only _ _ _ k Hk). apply only_offer, put_errors.
  - apply (on_pgconn_only _ _ _ k Hk). apply only_offer, end_errors.
Qed.

Lemma io_errors_reconnect_witness :
  match write 3 (bs "x") (sample_transport [AInt 0; AInt 1; AInt 1; AFails (lit "gone")]) with
  | Some (Raise e, self') => reconnectable e ∧ is_Some (_conn self')
  | _ => False
  end.
Proof.
  destruct (io_errors_reconnect (sample_transport [AInt 0; AInt 1; AInt 1; AFails (lit "gone")])
    (mkScript [AInt 0; AInt 1; AInt 1; AFails (lit "gone")] (bs "m") []) 3 (bs "x") eq_refl)
    as (_ & H & _).
  exact H.
Defined.

(** C32: A command completes: once the query is sent and libpq, after any number of
    waits, has flushed it and has the whole answer, the result is the first one
    that enters a copy state, with nothing asked of libpq after it (it would
    answer forever), and with no such result the last one.  More fuel than waits
    and results is enough. *)
Theorem command_completes {K} `{!PGconn K} slot command query n m k k0 k1 k2 rs k3 x k4 fuel :
  str_encode command = Ok query → send_query query k = (Ok tt, k0) →
  flushes n k0 k1 → settles m k1 k2 → results rs k2 k3 → get_result k3 = (Ok x, k4) →
  (n < fuel ∧ m < fuel ∧ length rs < fuel)%nat →
  match x with
  | Some c => is_copy (status c) = true → run_command fuel slot command k = Some (Ok c, k4)
  | None => ∀ r, last rs = Some r → run_command fuel slot command k = Some (Ok r, k4)
  end.
Proof.
  intros Hq Hs Hf Hb Hrs Hg (Hn & Hm & Hl).
  assert (Hw := proj2 (while_rounds fuel _ _ k1 k2)
                  (ex_intro _ m (conj Hm (settles_rounds _ _ _ Hb)))).
  assert (Hr : run_command fuel slot command k =
    (result ← last_result fuel None;
     match result with None => throw AssertionError | Some r => mret r end) k2).
  { unfold run_command, _drain_result, mbind, task_bind, call, lift in *.
    rewrite Hq, Hs, (flush_completes fuel slot n k0 k1) by done. by rewrite Hw. }
  rewrite Hr. unfold mbind, task_bind. destruct x as [c|].
  - intros Hc. by rewrite (last_result_copy rs k2 k3 k4 c None) by done.
  - intros r Hx. by rewrite (last_result_end rs k2 k3 k4 None), Hx by done.
Qed.

Definition notice_result : PGresult := mkPGresult (OTHER 1) None.
Definition copy_result : PGresult := mkPGresult COPY_BOTH None.

Definition sample_script (answers : list answer) : Script := mkScript answers (bs "m") [].

(** The command waits once for the flush and twice for its answer. *)
Definition slow_command : list answer :=
  [AInt 1; AUnit; AInt 0; ABool true; AUnit; ABool true; AUnit; ABool false;
   AResult (Some notice_result); AResult (Some copy_result); AResult (Some copy_result)].

Lemma command_completes_witness :
  run_command 3 (lit "s") (lit "q") (sample_script slow_command)
  = Some (Ok copy_result, mkScript [AResult (Some copy_result)] (bs "m") [bs "q"]).
Proof.
  refine (command_completes (lit "s") (lit "q") (bs "q") 1 2 (sample_script slow_command)
    (mkScript slow_command (bs "m") [bs "q"]) (mkScript (drop 3 slow_command) (bs "m") [bs "q"])
    (mkScript (drop 8 slow_command) (bs "m") [bs "q"]) [notice_result]
    (mkScript (drop 9 slow_command) (bs "m") [bs "q"]) (Some copy_result) _ 3
    eq_refl eq_refl _ _ _ eq_refl _ eq_refl); [| | |cbn; lia].
  - eapply flushes_later; [reflexivity..|]. by eapply flushes_now; [reflexivity|].
  - do 2 (eapply settles_later; [reflexivity..|]). by apply settles_now.
  - eapply results_cons; [reflexivity|reflexivity|constructor].
Defined.

(** C33: [write] succeeds exactly when libpq takes the payload, once, after finitely
    many waits for a writable socket and then flushes it, also after finitely many
    waits; so it is never given the payload again once it took it; and so for
    [end_copy].  More fuel than waits is enough. *)
Theorem write_completes {K} `{!PGconn K} (self : ReplicationTransport K) k k' fuel payload :
  _conn self = Some k →
  (write fuel payload self = Some (Ok tt, set_conn (Some k') self) ↔
   ∃ n m k1, (n < fuel)%nat ∧ (m < fuel)%nat ∧
             accepts (put_copy_data payload) n k k1 ∧ flushes m k1 k') ∧
  (end_copy fuel self = Some (Ok tt, set_conn (Some k') self) ↔
   ∃ n m k1, (n < fuel)%nat ∧ (m < fuel)%nat ∧ accepts put_copy_end n k k1 ∧ flushes m k1 k').
Proof.
  intros Hk. unfold write, end_copy.
  rewrite !(on_pgconn_iff _ _ k) by done. split; apply offer_iff.
Qed.

Lemma write_completes_witness :
  write 2 (bs "x") (sample_transport [AInt 0; AInt 1; AInt 1; AUnit; AInt 0; AInt 7])
  = Some (Ok tt, sample_transport [AInt 7]).
Proof.
  refine (proj2 (proj1 (write_completes
    (sample_transport [AInt 0; AInt 1; AInt 1; AUnit; AInt 0; AInt 7])
    (sample_script [AInt 0; AInt 1; AInt 1; AUnit; AInt 0; AInt 7]) (sample_script [AInt 7])
    2 (bs "x") eq_refl)) _).
  exists 1%nat, 1%nat, (sample_script [AInt 1; AUnit; AInt 0; AInt 7]).
  split; [lia|]. split; [lia|]. split.
  - eapply accepts_later; [reflexivity..|]. by eapply accepts_now; [reflexivity|].
  - eapply flushes_later; [reflexivity..|]. by eapply flushes_now; [reflexivity|].
Defined.

(** Answers of a command: nothing to flush, not busy, the results [rs]. *)
Definition command_answers (rs : list PGresult) : list answer :=
  [AInt 0; ABool false] ++ (AResult ∘ Some <$> rs) ++ [AResult None].

(** The outcomes of the two commands, for every result of the server: an
    existing slot (SQLSTATE 42710) counts as created and any other fatal result is
    a [ReplicationConnectionError] with the server's message; replication has
    started exactly when the server entered COPY BOTH.  An exception raised while
    the command is sent or its answer awaited is passed on as it is: an
    [OperationalError] there does not become a [ReplicationConnectionError]. *)
Theorem command_outcomes {K} `{!PGconn K} (self : ReplicationTransport K) k fuel lsn :
  _conn self = Some k →
  create_slot_if_missing fuel self =
    (match run_command fuel (_slot_name self) (create_slot_command (_slot_name self)) k with
     | None => None
     | Some (Raise e, k') => Some (Raise e, set_conn (Some k') self)
     | Some (Ok r, k') =>
         Some (if bool_decide (status r = FATAL_ERROR)
                  && negb (bool_decide (error_sqlstate r = Some (bs "42710")))
               then Raise (ReplicationConnectionError
                      (lit "failed to create replication slot: "
                         ++ utf8_decode_replace (error_message k')) (ctx_slot (_slot_name self)))
               else Ok tt, set_conn (Some k') self)
     end) ∧
  start_replication fuel lsn self =
    (match run_command fuel (_slot_name self) (start_command self lsn) k with
     | None => None
     | Some (Raise e, k') => Some (Raise e, set_conn (Some k') self)
     | Some (Ok r, k') =>
         Some (if bool_decide (status r = COPY_BOTH) then Ok tt
               else Raise (ReplicationConnectionError
                      (lit "START_REPLICATION did not enter COPY BOTH mode: "
                         ++ utf8_decode_replace (error_message k'))
                      (mkErrorContext (Some (_slot_name self)) (Some (_publication_name self))
                         (Some lsn) None None None)), set_conn (Some k') self)
     end).
Proof.
  intros Hk. unfold create_slot_if_missing, start_replication, on_pgconn. rewrite Hk.
  unfold mbind, task_bind. cbn beta. split.
  - destruct (run_command fuel (_slot_name self) (create_slot_command _) k) as [[[r|e] k']|]; [|done|done].
    destruct (status r); try done. rewrite (bool_decide_true (FATAL_ERROR = _)) by done.
    unfold _DUPLICATE_OBJECT_SQLSTATE. by destruct (bool_decide (error_sqlstate r = _)).
  - destruct (run_command _ _ _ k) as [[[r|e] k']|]; [|done|done]. by destruct (status r).
Qed.

(** Answers of a command: an existing slot; another failure; COPY BOTH; and a
    server that goes away while it computes its answer. *)
Definition slot_exists : list answer :=
  command_answers [mkPGresult FATAL_ERROR (Some (bs "42710"))].
Definition slot_denied : list answer :=
  command_answers [mkPGresult FATAL_ERROR (Some (bs "42501"))].
Definition copy_starts : list answer := command_answers [copy_result].
Definition server_goes_away : list answer :=
  [AInt 0; ABool true; AFails (lit "server closed the connection")].

Lemma command_outcomes_witness :
  fst <$> create_slot_if_missing 3 (sample_transport slot_exists) = Some (Ok tt) ∧
  fst <$> create_slot_if_missing 3 (sample_transport slot_denied)
  = Some (Raise (ReplicationConnectionError (lit "failed to create replication slot: m")
                   (ctx_slot (lit "s")))) ∧
  (λ r, (fst r, sent <$> _conn (snd r)))
    <$> start_replication 3 0x16B374D849 (sample_transport copy_starts)
  = Some (Ok tt, Some [bs "START_REPLICATION SLOT s LOGICAL 16/B374D849 (proto_version '2', publication_names 'p', streaming 'on')"]) ∧
  fst <$> start_replication 3 7 (sample_transport server_goes_away)
  = Some (Raise (OperationalError (lit "server closed the connection"))).
Proof.
  assert (H := λ a, command_outcomes (sample_transport a) (sample_script a) 3).
  split; [rewrite (proj1 (H slot_exists 0 eq_refl)); vm_compute; reflexivity|].
  split; [rewrite (proj1 (H slot_denied 0 eq_refl)); vm_compute; reflexivity|].
  split; [rewrite (proj2 (H copy_starts _ eq_refl)); vm_compute; reflexivity|].
  rewrite (proj2 (H server_goes_away 7 eq_refl)). vm_compute. reflexivity.
Defined.

(** A closed transport is closed: closing again does nothing, and every later
    operation stops at the assertion that there is a connection. *)
Theorem close_is_final {K} `{!PGconn K} (self : ReplicationTransport K) k u k' fuel payload lsn :
  _conn self = Some k → finish k = (Ok u, k') →
  ∃ self', transport_close self = Some (Ok tt, self') ∧
    transport_close self' = Some (Ok tt, self') ∧
    read fuel self' = Some (Raise AssertionError, self') ∧
    write fuel payload self' = Some (Raise AssertionError, self') ∧
    end_copy fuel self' = Some (Raise AssertionError, self') ∧
    start_replication fuel lsn self' = Some (Raise AssertionError, self').
Proof.
  intros Hk Hf. exists (set_conn None self). unfold transport_close at 1. rewrite Hk, Hf.
  repeat split.
Qed.

Lemma close_is_final_witness :
  ∃ self', transport_close (sample_transport []) = Some (Ok tt, self') ∧
    read 1 self' = Some (Raise AssertionError, self').
Proof.
  destruct (close_is_final (sample_transport []) (mkScript [] (bs "m") []) tt
    (mkScript [] (bs "m") []) 1 [] 0) as (self' & H1 & _ & H2 & _); [reflexivity|reflexivity|].
  exists self'. split; [exact H1|exact H2].
Defined.
