(* ===== verification/Waits.v ===== *)
(** The waits of the transport on one event loop: [_read_until_complete] and
    [_flush_until_complete] as two tasks that share the connection and the loop's
    registrations, interleaved at their awaits.  [Transport] runs each alone. *)
From stdpp Require Import base tactics list numbers strings gmap.
From S2P Require Import Prelude PyStr Errors PyBytes Transport.

(** ** The event loop

    One callback per descriptor and direction: a second [add_reader] replaces the
    first.  A callback resolves the future of the wait that registered it. *)
Record EventLoop := mkLoop {
  reader : option nat;
  writer : option nat;
  resolved : list nat;
  futures : nat;
}.

(** [_wait_readable] and [_wait_writable]: a new future is registered, and the
    [finally] clause removes what is registered then. *)
Definition wait_readable_begins (l : EventLoop) : nat * EventLoop :=
  (futures l, mkLoop (Some (futures l)) (writer l) (resolved l) (S (futures l))).
Definition wait_readable_ends (l : EventLoop) : EventLoop :=
  mkLoop None (writer l) (resolved l) (futures l).
Definition wait_writable_begins (l : EventLoop) : nat * EventLoop :=
  (futures l, mkLoop (reader l) (Some (futures l)) (resolved l) (S (futures l))).
Definition wait_writable_ends (l : EventLoop) : EventLoop :=
  mkLoop (reader l) None (resolved l) (futures l).

(** The selector reports the socket ready: the registered callbacks run. *)
Definition socket_ready (readable writable : bool) (l : EventLoop) : EventLoop :=
  mkLoop (reader l) (writer l)
    ((if readable then option_list (reader l) else [])
       ++ (if writable then option_list (writer l) else []) ++ resolved l) (futures l).

Definition is_resolved (f : nat) (l : EventLoop) : bool := bool_decide (f ∈ resolved l).

(** ** The two tasks *)

(** [_read_until_complete]: about to ask libpq, in [await self._wait_readable()], or
    finished. *)
Inductive reading := RPolling | RAwaiting (future : nat) | RReturned (r : py bytes).

(** [_flush_until_complete]: about to ask libpq, in [asyncio.wait] on the two waits,
    or finished. *)
Inductive flushing := FPolling | FRacing (readable writable : nat) | FReturned (r : py unit).

Section Waits.
Context {K : Type} `{!PGconn K} (slot : pystr).

Record Waits := mkWaits {
  conn : K;
  loop : EventLoop;
  read_task : reading;
  flush_task : flushing;
}.

(** The loop of [_read_until_complete] up to its next await. *)
Definition read_polls (k : K) (l : EventLoop) (fl : flushing) : Waits :=
  match get_copy_data k with
  | (Ok (nbytes, data), k') =>
      if 0 <? nbytes then mkWaits k' l (RReturned (Ok data)) fl
      else if nbytes =? -1 then
        mkWaits k' l (RReturned (Raise
          (ReplicationConnectionError (lit "replication stream ended") (ctx_slot slot)))) fl
      else
        let '(future, l') := wait_readable_begins l in mkWaits k' l' (RAwaiting future) fl
  | (Raise e, k') => mkWaits k' l (RReturned (Raise e)) fl
  end.

Definition read_step (s : Waits) : option Waits :=
  match read_task s with
  | RPolling => Some (read_polls (conn s) (loop s) (flush_task s))
  | RAwaiting future =>
      if is_resolved future (loop s) then
        let l := wait_readable_ends (loop s) in
        Some match consume_input (conn s) with
             | (Ok _, k') => read_polls k' l (flush_task s)
             | (Raise e, k') => mkWaits k' l (RReturned (Raise e)) (flush_task s)
             end
      else None
  | RReturned _ => None
  end.

(** The loop of [_flush_until_complete] up to its next await. *)
Definition flush_polls (k : K) (l : EventLoop) (rd : reading) : Waits :=
  match pq_flush k with
  | (Ok n, k') =>
      if n =? 1 then
        let '(readable, l1) := wait_readable_begins l in
        let '(writable, l2) := wait_writable_begins l1 in
        mkWaits k' l2 rd (FRacing readable writable)
      else mkWaits k' l rd (FReturned (Ok tt))
  | (Raise e, k') => mkWaits k' l rd (FReturned (Raise e))
  end.

(** When one wait is done both are ended, the loser by cancellation. *)
Definition flush_step (s : Waits) : option Waits :=
  match flush_task s with
  | FPolling => Some (flush_polls (conn s) (loop s) (read_task s))
  | FRacing readable writable =>
      if is_resolved readable (loop s) || is_resolved writable (loop s) then
        let l := wait_writable_ends (wait_readable_ends (loop s)) in
        Some (if is_resolved readable (loop s) then
                match consume_input (conn s) with
                | (Ok _, k') => flush_polls k' l (read_task s)
                | (Raise e, k') => mkWaits k' l (read_task s) (FReturned (Raise e))
                end
              else flush_polls (conn s) l (read_task s))
      else None
  | FReturned _ => None
  end.

(** What happens next: a task runs, the client calls [read] or flushes again, or the
    socket is ready, the connection having changed. *)
Inductive wait_event :=
| WRead
| WFlush
| WReadAgain
| WFlushAgain
| WSocket (readable writable : bool) (k : K).

Definition waits_step (ev : wait_event) (s : Waits) : option Waits :=
  match ev with
  | WRead => read_step s
  | WFlush => flush_step s
  | WReadAgain =>
      match read_task s with
      | RReturned _ => Some (mkWaits (conn s) (loop s) RPolling (flush_task s))
      | _ => None
      end
  | WFlushAgain =>
      match flush_task s with
      | FReturned _ => Some (mkWaits (conn s) (loop s) (read_task s) FPolling)
      | _ => None
      end
  | WSocket readable writable k =>
      Some (mkWaits k (socket_ready readable writable (loop s)) (read_task s) (flush_task s))
  end.

Fixpoint waits_steps (evs : list wait_event) (s : Waits) : option Waits :=
  match evs with
  | [] => Some s
  | ev :: rest => s' ← waits_step ev s; waits_steps rest s'
  end.
End Waits.
Arguments Waits : clear implicits.
Arguments wait_event : clear implicits.
Arguments WRead {K}. Arguments WFlush {K}. Arguments WReadAgain {K}. Arguments WFlushAgain {K}.

Section lemmas.
Context {K : Type} `{!PGconn K} (slot : pystr).
Implicit Types s : Waits K.

(** *** Alone, the tasks are [_read_until_complete] and [_flush_until_complete] *)

Lemma read_alone fuel : ∀ k l fl data k',
  _read_until_complete fuel slot k = Some (Ok data, k') →
  ∃ evs l', waits_steps slot evs (read_polls slot k l fl) =
            Some (mkWaits k' l' (RReturned (Ok data)) fl).
Proof.
  induction fuel as [|fuel IH]; intros k l fl data k' H; [done|].
  cbn [_read_until_complete] in H. unfold mbind at 1, task_bind, call in H. unfold read_polls.
  destruct (get_copy_data k) as [[[nbytes d]|e] k1]; [|done].
  destruct (0 <? nbytes); [by injection H as <- <-; (exists [], l)|].
  destruct (nbytes =? -1); [done|]. cbn [wait_readable_begins].
  unfold mbind at 1, task_bind, _wait_readable, mbind at 1, task_bind, call in H.
  destruct (io_wait Readable k1) as [[b|e] k2]; [|done]. cbn in H.
  unfold mbind, task_bind in H. destruct (consume_input k2) as [[[]|e] k3] eqn:Ec; [|done].
  set (l2 := wait_readable_ends (socket_ready true false
               (mkLoop (Some (futures l)) (writer l) (resolved l) (S (futures l))))).
  destruct (IH k3 l2 fl data k' H) as (evs & l' & Hs).
  exists ([WSocket true false k2; WRead] ++ evs), l'. cbn [app waits_steps waits_step mbind option_bind].
  unfold read_step. cbn [read_task loop conn flush_task].
  unfold is_resolved. rewrite bool_decide_eq_true_2 by (cbn; left). by rewrite Ec.
Qed.

(** Futures are numbered as they are made. *)
Definition loop_ok (l : EventLoop) : Prop := ∀ f, f ∈ resolved l → (f < futures l)%nat.

Lemma flush_alone fuel : ∀ k l rd k',
  loop_ok l → _flush_until_complete fuel k = Some (Ok tt, k') →
  ∃ evs l', waits_steps slot evs (flush_polls k l rd) = Some (mkWaits k' l' rd (FReturned (Ok tt))).
Proof.
  unfold _flush_until_complete. induction fuel as [|fuel IH]; intros k l rd k' Hok H; [done|].
  cbn [while] in H. unfold call, mbind, task_bind, mret, task_ret in H.
  unfold flush_polls. destruct (pq_flush k) as [[n|e] k1]; [|done]. cbn in H.
  destruct (n =? 1); [|injection H as <-; by exists [], l].
  destruct (race k1) as [[[b|e] k2]|]; [|done..]. cbn [wait_readable_begins wait_writable_begins futures reader].
  set (l1 := mkLoop _ _ _ _).
  set (l2 := wait_writable_ends (wait_readable_ends (socket_ready b (negb b) l1))).
  assert (Hok2 : loop_ok l2).
  { intros f Hf. cbn in *. destruct b; cbn in Hf; apply elem_of_cons in Hf as [->|Hf]; try lia;
      specialize (Hok f Hf); lia. }
  assert (Hres : is_resolved (futures l) (socket_ready b (negb b) l1) = b).
  { unfold is_resolved. destruct b; [by rewrite bool_decide_eq_true_2 by (cbn; left)|].
    rewrite bool_decide_eq_false_2; [done|]. cbn. intros [E|Hf]%elem_of_cons; [lia|].
    specialize (Hok _ Hf). lia. }
  assert (Hone : is_resolved (futures l) (socket_ready b (negb b) l1)
                 || is_resolved (S (futures l)) (socket_ready b (negb b) l1) = true).
  { rewrite Hres. destruct b; [done|]. unfold is_resolved. by rewrite bool_decide_eq_true_2 by (cbn; left). }
  assert (Hgo : ∀ k3, (if b then consume_input k2 else (Ok tt, k2)) = (Ok tt, k3) →
    while fuel (n0 ← call pq_flush; mret (n0 =? 1))
      (readable ← race; if readable : bool then call consume_input else mret tt) k3 = Some (Ok tt, k') →
    ∃ evs l', waits_steps slot evs (mkWaits k1 l1 rd (FRacing (futures l) (S (futures l)))) =
              Some (mkWaits k' l' rd (FReturned (Ok tt)))).
  { intros k3 Hc Hw. destruct (IH k3 l2 rd k' Hok2 Hw) as (evs & l' & Hs).
    exists ([WSocket b (negb b) k2; WFlush] ++ evs), l'. cbn [app waits_steps waits_step mbind option_bind].
    unfold flush_step. cbn [flush_task loop conn read_task]. rewrite Hone, Hres. cbn [mbind option_bind].
    fold l2. destruct b; [by rewrite Hc|]. by injection Hc as ->. }
  destruct b; cbn in H; [|by apply (Hgo k2)]. destruct (consume_input k2) as [[[]|e] k3] eqn:Ec; [|done]. by apply (Hgo k3).
Qed.

(** *** A read whose registration was replaced *)

(** The read waits for a future that nothing registered will resolve. *)
Definition silenced (f : nat) s : Prop :=
  read_task s = RAwaiting f ∧ (f ∉ resolved (loop s)) ∧ (f < futures (loop s))%nat ∧
  reader (loop s) ≠ Some f ∧ writer (loop s) ≠ Some f.

Lemma flush_polls_silenced f k l fl :
  silenced f (mkWaits k l (RAwaiting f) fl) → silenced f (flush_polls k l (RAwaiting f)).
Proof.
  intros (_ & Hr & Hf & Hrd & Hwr). unfold flush_polls. cbn in *.
  destruct (pq_flush k) as [[n|e] k']; [|by repeat split]. destruct (n =? 1); [|by repeat split].
  cbn. unfold silenced. cbn. split_and!; try done; [lia|(intros [= H]; lia)..].
Qed.

Lemma silenced_step f ev s s' : silenced f s → waits_step slot ev s = Some s' → silenced f s'.
Proof.
  destruct s as [k l rd fl]. intros HS. pose proof HS as (E & Hr & Hf & Hrd & Hwr). cbn in E. subst rd.
  destruct ev as [| | | |readable writable k']; cbn [waits_step read_task flush_task conn loop].
  - unfold read_step. cbn [read_task loop]. cbn in Hr. unfold is_resolved.
    by rewrite bool_decide_eq_false_2.
  - unfold flush_step. cbn [flush_task loop conn read_task].
    destruct fl as [|rf wf|]; [by intros [= <-]; eapply flush_polls_silenced| |done].
    destruct (is_resolved rf l || is_resolved wf l); [|done]. intros [= <-].
    assert (HS' : ∀ k fl, silenced f (mkWaits k (wait_writable_ends (wait_readable_ends l)) (RAwaiting f) fl))
      by (intros; by repeat split).
    destruct (is_resolved rf l); [|by apply (flush_polls_silenced f _ _ FPolling)].
    destruct (consume_input k) as [[[]|e] k']; [by apply (flush_polls_silenced f _ _ FPolling)|done].
  - done.
  - destruct fl; try done. by intros [= <-].
  - intros [= <-]. unfold silenced. cbn in *. split_and!; try done.
    rewrite !elem_of_app. intros [H|[H|H]]; [| |done].
    + destruct readable; [|by apply elem_of_nil in H].
      destruct (reader l); [apply list_elem_of_singleton in H as ->; done|by apply elem_of_nil in H].
    + destruct writable; [|by apply elem_of_nil in H].
      destruct (writer l); [apply list_elem_of_singleton in H as ->; done|by apply elem_of_nil in H].
Qed.

Lemma silenced_steps f evs : ∀ s s',
  silenced f s → waits_steps slot evs s = Some s' → silenced f s'.
Proof.
  induction evs as [|ev evs IH]; intros s s' HS H; [by injection H as <-|].
  cbn in H. destruct (waits_step slot ev s) as [s1|] eqn:E; [|done].
  apply (IH s1); [by eapply silenced_step|done].
Qed.
End lemmas.

(** ** Properties *)

(** C37: A status update can silence the receiver.  While [read] waits for the socket,
    the next readiness resumes it, and it returns the message libpq then has; but if an
    update is flushed meanwhile and libpq cannot send it at once, the flush's own
    [_wait_readable] replaces the registration of [read] and removes it when it ends:
    from then on, whatever the socket, the flush and later updates do, [read] waits for
    a future that nothing resolves. *)
Theorem overlapping_waits_lost {K} `{!PGconn K} slot (s : Waits K) f k1 :
  read_task s = RAwaiting f → reader (loop s) = Some f → writer (loop s) ≠ Some f →
  f ∉ resolved (loop s) → (f < futures (loop s))%nat →
  flush_task s = FPolling → pq_flush (conn s) = (Ok 1, k1) →
  (∀ k k2 k3 n data, consume_input k = (Ok tt, k2) → get_copy_data k2 = (Ok (n, data), k3) → 0 < n →
     ∃ s', waits_steps slot [WSocket true false k; WRead] s = Some s' ∧
           read_task s' = RReturned (Ok data)) ∧
  (∀ evs s', waits_steps slot (WFlush :: evs) s = Some s' →
     read_task s' = RAwaiting f ∧ read_step slot s' = None).
Proof.
  destruct s as [k l rd fl]. cbn. intros -> Hrd Hwr Hr Hf -> Hfl. split.
  - intros k0 k2 k3 n data Hc Hg Hn. unfold read_step. cbn. unfold is_resolved.
    rewrite bool_decide_eq_true_2, Hc by (cbn; rewrite Hrd; left). unfold read_polls. rewrite Hg.
    rewrite (proj2 (Z.ltb_lt _ _) Hn). by eexists.
  - intros evs s' H. unfold flush_step in H. cbn in H. unfold flush_polls in H. rewrite Hfl in H.
    cbn in H. apply (silenced_steps slot f) in H as (H1 & H2 & _).
    + split; [done|]. unfold read_step. rewrite H1. unfold is_resolved.
      by rewrite bool_decide_eq_false_2.
    + unfold silenced. cbn. split_and!; try done; [lia|(intros [= E]; lia)..].
Qed.

(** The update is flushed after one wait; then a message arrives. *)
Definition waiting_read : Waits Script :=
  mkWaits (mkScript [AInt 1; AUnit; AInt 0] (bs "m") []) (mkLoop (Some 0%nat) None [] 1) (RAwaiting 0)
    FPolling.

Lemma overlapping_waits_lost_witness :
  match waits_steps (lit "s") [WFlush; WSocket true true (mkScript [AUnit; AInt 0] (bs "m") []); WFlush;
          WSocket true true (mkScript [AUnit; AData 2 (bs "ab")] (bs "m") [])] waiting_read with
  | Some s' => flush_task s' = FReturned (Ok tt) ∧ read_task s' = RAwaiting 0 ∧
               read_step (lit "s") s' = None
  | None => False
  end.
Proof.
  destruct (waits_steps _ _ waiting_read) as [s'|] eqn:E; [|by vm_compute in E].
  split; [vm_compute in E; by injection E as <-|].
  refine (proj2 (overlapping_waits_lost (lit "s") waiting_read 0 _ eq_refl eq_refl _ _ _ eq_refl eq_refl)
            _ s' E); [done|apply not_elem_of_nil|vm_compute; lia].
Defined.
