(* ===== verification/Reconnect.v ===== *)
(** The transport under the client: a failure of the connection that libpq reports
    while streaming takes the client through its [except] clauses, its backoff and a
    new connection, back to streaming from the stored checkpoint. *)
From stdpp Require Import base tactics list numbers strings gmap.
From S2P Require Import Prelude PyStr Errors PyFloat PyBytes Protocol Pgoutput PgoutputSpec Abc.
From S2P Require Import Transaction Client ClientSpec ClientSession Delivery Transport.

(** What the receiver has in flight on the transport: a read, and the write of a status
    update or of a reply. *)
Inductive stream_op := OpRead | OpWrite (payload : bytes).

Definition in_flight (op : stream_op) (r : receiver) : bool :=
  match op, r with
  | OpRead, (RWaiting (ReadTask None) | RUpdating (ReadTask None)) => true
  | OpWrite _, (RUpdating _ | RReplying) => true
  | _, _ => false
  end.

Definition io_fails {K} `{!PGconn K} (op : stream_op) (fuel : nat) (e : exn)
    (self : ReplicationTransport K) : Prop :=
  match op with
  | OpRead => ∃ self', read fuel self = Some (Raise e, self')
  | OpWrite payload => ∃ self', write fuel payload self = Some (Raise e, self')
  end.

(** The steps by which the receiver leaves with the exception.  A read that fails while
    an update is being written is noticed when the write is done (if that fails too, it
    is the write's failure the receiver leaves with). *)
Definition failure_events (op : stream_op) (r : receiver) (e : exn) (now : float) (clock : Z) :
    list event :=
  match op, r with
  | OpRead, RUpdating _ => [EReadFails e; ETransport (Ok tt) now; EReceiver now clock]
  | OpRead, _ => [EReadFails e; EReceiver now clock]
  | OpWrite _, _ => [ETransport (Raise e) now]
  end.

(** The consumer is cancelled, the task group raises, the delay passes, and the next
    attempt connects. *)
Definition recovery (now : float) (clock : Z) : list event :=
  [ECancel; EJoin clock; EWake] ++ connects_with now.

Definition consumer_running (c : consumer) : bool :=
  match c with CStopped _ => false | _ => true end.

(** A transport error is one the client reconnects on. *)
Lemma io_error {K} `{PGconnErrors K} op fuel e (self : ReplicationTransport K) k :
  _conn self = Some k → io_fails op fuel e self → reconnectable e.
Proof.
  intros Hk. destruct op as [|payload]; intros [self' E].
  - destruct (io_errors_reconnect self k fuel [] Hk) as (Hr & _). rewrite E in Hr. apply Hr.
  - destruct (io_errors_reconnect self k fuel payload Hk) as (_ & Hw & _). rewrite E in Hw. apply Hw.
Qed.

Lemma reconnectable_failed e :
  reconnectable e → receiver_exit e = RStopped (Raise e) ∧ failed (Raise e) = true ∧
                    task_errors (Raise e) = [e].
Proof. by destruct e. Qed.

(** What the failure itself leaves alone. *)
Record left_alone (w w' : World) : Prop := {
  la_stored : stored w' = stored w;
  la_queue : _queue (client w') = _queue (client w);
  la_decoder : _decoder (client w') = _decoder (client w);
  la_assembler : _assembler (client w') = _assembler (client w);
  la_handled : handled (history w') = handled (history w);
  la_delivered : delivered (history w') = delivered (history w);
  la_completed : completed (history w') = completed (history w);
}.

(** The receiver stops with the exception. *)
Lemma receiver_fails op e r c now clock w :
  in_flight op r = true → reconnectable e → phase w = Streaming r c → _closing (client w) = false →
  ∃ w', steps (failure_events op r e now clock) w = Some w' ∧
    phase w' = Streaming (RStopped (Raise e)) c ∧ left_alone w w' ∧
    _closing (client w') = false ∧ starts (history w') = starts (history w) ∧
    delays (history w') = delays (history w) ∧
    _next_backoff (client w') = _next_backoff (client w) ∧ counters (client w') = counters (client w) ∧
    dropped (history w') = dropped (history w) ++ receiver_pending r.
Proof.
  intros Hio He HP Hc. destruct (reconnectable_failed e He) as (Hx & _ & _).
  destruct op as [|payload], r as [[[]|]|[[]|]| |]; try done; cbn [failure_events steps step];
    rewrite HP; cbn; rewrite ?Hx; eexists; (split; [reflexivity|]); cbn;
    rewrite ?app_nil_r; by split_and!.
Qed.

(** From the receiver's exception to the next connection. *)
Lemma recovers e c now clock w :
  phase w = Streaming (RStopped (Raise e)) c → reconnectable e → consumer_running c = true →
  _closing (client w) = false →
  ∃ w', steps (recovery now clock) w = Some w' ∧
    phase w' = Streaming (RWaiting (ReadTask None)) CGetting ∧ left_alone w w' ∧
    starts (history w') = starts (history w) ++ [resume_lsn (stored w)] ∧
    delays (history w') = delays (history w) ++ [_next_backoff (client w)] ∧
    _durable_lsn (client w') = default 0 (stored w) ∧
    dropped (history w') = dropped (history w) ∧
    _reconnect_count (counters (client w')) = _reconnect_count (counters (client w)) + 1.
Proof.
  intros HP He Hrun Hc. destruct (reconnectable_failed e He) as (_ & Hf & Ht).
  unfold recovery. cbn [app steps step]. rewrite HP. cbn [streaming_event].
  assert (Hcancel : sibling_cancelled (RStopped (Raise e)) c w =
            Some (with_phase (Streaming (RStopped (Raise e)) (CStopped (Raise CancelledError))) w)).
  { unfold sibling_cancelled. destruct c; try done; by rewrite Hf. }
  rewrite Hcancel. cbn [mbind option_bind phase with_phase streaming_event].
  unfold tasks_joined. rewrite Ht. cbn [app task_errors forallb]. unfold is_connection_error.
  rewrite He. cbn [andb]. rewrite catches_open by done. cbn [phase with_phase].
  unfold delay_over, run_top. cbn. rewrite Hc. cbn. unfold loop_top. cbn. rewrite Hc.
  eexists. split; [reflexivity|]. cbn. split_and!; try done; by destruct (stored w).
Qed.

(** The consumer takes a transaction and its handler saves its position and returns. *)
Definition handles (lsn : Z) (now : float) : list event :=
  [EGet now; ESave lsn false now; EStore; ESaved now; EHandlerReturns now].

Lemma consumer_handles t rest r now w :
  phase w = Streaming r CGetting → q_items (_queue (client w)) = t :: rest →
  ∃ w', steps (handles (tx_commit_lsn t) now) w = Some w' ∧
    stored w' = Some (tx_commit_lsn t) ∧ phase w' = Streaming r CGetting ∧
    delivered (history w') = delivered (history w) ++ [t] ∧
    completed (history w') = completed (history w) ++ [t] ∧ q_items (_queue (client w')) = rest.
Proof.
  intros HP Hq. unfold handles. cbn [steps step]. rewrite HP. cbn [streaming_event consumer_event].
  unfold consumer_gets, get_wakes. rewrite Hq. cbn. unfold save_begins. rewrite Z.ltb_irrefl.
  cbn. eexists. split; [reflexivity|]. by split_and!.
Qed.

(** C25: A lost connection is survived: with the consumer running and the client not
    closing, when libpq reports a failure to the receiver, of a read in flight, also
    while an update is being written, or of the write of an update or a reply, the
    exception that leaves the transport takes the client, after the next delay of the
    backoff, to a new connection that starts from the stored checkpoint.  The stored
    position, the queue, the decoder and the assembler are as before, and no more was
    taken or delivered.  What is lost is the transaction waiting for a place in the
    queue, if any, a payload already read and not yet taken, and the handler's current
    call, which is cancelled. *)
Theorem stream_failure_reconnects {K} `{PGconnErrors K} (self : ReplicationTransport K) k fuel
    op e r c now clock w :
  _conn self = Some k → io_fails op fuel e self → in_flight op r = true →
  phase w = Streaming r c → consumer_running c = true → _closing (client w) = false →
  ∃ w', steps (failure_events op r e now clock ++ recovery now clock) w = Some w' ∧
    phase w' = Streaming (RWaiting (ReadTask None)) CGetting ∧ left_alone w w' ∧
    starts (history w') = starts (history w) ++ [resume_lsn (stored w)] ∧
    delays (history w') = delays (history w) ++ [_next_backoff (client w)] ∧
    _durable_lsn (client w') = default 0 (stored w) ∧
    dropped (history w') = dropped (history w) ++ receiver_pending r ∧
    _reconnect_count (counters (client w')) = _reconnect_count (counters (client w)) + 1.
Proof.
  intros Hk Hio Hfl HP Hrun Hc. pose proof (io_error op fuel e self k Hk Hio) as He.
  destruct (receiver_fails op e r c now clock w Hfl He HP Hc)
    as (w0 & H0 & HP0 & [S1 S2 S3 S4 S5 S6 S7] & Hc0 & E1 & E2 & E3 & E4 & E5).
  destruct (recovers e c now clock w0 HP0 He Hrun Hc0)
    as (w1 & H1 & HP1 & [T1 T2 T3 T4 T5 T6 T7] & F1 & F2 & F3 & F4 & F5).
  exists w1. rewrite steps_app, H0. cbn [mbind option_bind]. split; [exact H1|]. split; [exact HP1|].
  split; [constructor; congruence|]. rewrite F1, F2, F3, F4, F5, E1, E2, E3, E4, E5, S1. by split_and!.
Qed.

(** A handler is running, a transaction waits for a place in the queue and the status
    update finds the connection gone. *)
Definition gone : ReplicationTransport Script :=
  sample_transport [AInt 0; AInt 1; AInt 1; AFails (lit "gone")].

Definition gone_error : exn :=
  match write 3 (bs "x") gone with Some (Raise e, _) => e | _ => CancelledError end.

Lemma stream_failure_reconnects_witness :
  let w := with_phase (Streaming (RUpdating (PutTask (mkTransaction 8 639 0 []) None))
                         (CHandling (mkTransaction 7 539 0 []) f_zero))
             (run_start sample_options (Some 99)) in
  ∃ w', steps (ETransport (Raise gone_error) f_zero :: recovery f_zero 5) w = Some w' ∧
    phase w' = Streaming (RWaiting (ReadTask None)) CGetting ∧ starts (history w') = [100] ∧
    tx_xid <$> dropped (history w') = [8].
Proof.
  cbv zeta. set (w := with_phase _ _).
  destruct (stream_failure_reconnects gone
    (mkScript [AInt 0; AInt 1; AInt 1; AFails (lit "gone")] (bs "m") []) 3 (OpWrite (bs "x")) gone_error
    (RUpdating (PutTask (mkTransaction 8 639 0 []) None))
    (CHandling (mkTransaction 7 539 0 []) f_zero) f_zero 5 w)
    as (w' & H1 & H2 & _ & H3 & _ & _ & H4 & _); try reflexivity.
  - eexists. vm_compute. reflexivity.
  - exists w'. split; [exact H1|]. split; [exact H2|]. split; [exact H3|]. by rewrite H4.
Defined.

(** C40: A reconnect skips the transaction in the handler: whenever the connection is lost
    while the handler works on one transaction and another is queued, the next
    connection's consumer goes on with the queued one, and once that is saved the stored
    position is its own.  The handler of the first never returned, and if it commits
    before the second, no later connection and no restarted process asks for it again. *)
Theorem reconnect_skips_in_flight e t1 started t2 rest now clock w :
  reconnectable e → phase w = Streaming (RWaiting (ReadTask None)) (CHandling t1 started) →
  _closing (client w) = false → q_items (_queue (client w)) = t2 :: rest →
  ∃ w', steps ([EReadFails e; EReceiver now clock] ++ recovery now clock
               ++ handles (tx_commit_lsn t2) now) w = Some w' ∧
    completed (history w') = completed (history w) ++ [t2] ∧
    delivered (history w') = delivered (history w) ++ [t2] ∧
    stored w' = Some (tx_commit_lsn t2) ∧
    (tx_commit_lsn t1 < tx_commit_lsn t2 → tx_commit_lsn t1 < resume_lsn (stored w')).
Proof.
  intros He HP Hc Hq.
  destruct (receiver_fails OpRead e (RWaiting (ReadTask None)) (CHandling t1 started) now clock w
    eq_refl He HP Hc)
    as (w0 & H0 & HP0 & [_ S2 _ _ _ S6 S7] & Hc0 & _).
  rewrite steps_app. cbn [failure_events] in H0. rewrite H0. cbn [mbind option_bind].
  destruct (recovers e (CHandling t1 started) now clock w0 HP0 He eq_refl Hc0)
    as (w1 & H1 & HP1 & [_ T2 _ _ _ T6 T7] & _).
  rewrite steps_app, H1. cbn [mbind option_bind].
  destruct (consumer_handles t2 rest _ now w1 HP1) as (w2 & H2 & Hs2 & _ & Hd2 & Hk2 & _);
    [by rewrite T2, S2|].
  exists w2. split; [exact H2|]. rewrite Hk2, Hd2, T7, T6, S7, S6, Hs2. split_and!; try done.
  cbn. lia.
Qed.

Lemma reconnect_skips_in_flight_witness :
  let w := world_after (take 13 skipping_run) (run_start sample_options (Some 99)) in
  ∃ w', steps ([EReadFails connection_lost; EReceiver f_zero 5] ++ recovery f_zero 5
               ++ handles 639 f_zero) w = Some w' ∧
    tx_xid <$> delivered (history w) = [7] ∧ tx_xid <$> completed (history w') = [8] ∧
    resume_lsn (stored w') = 640.
Proof.
  cbv zeta. set (t1 := mkTransaction 7 539 9 []). set (t2 := mkTransaction 8 639 9 []).
  set (w := world_after _ _).
  assert (HP : phase w = Streaming (RWaiting (ReadTask None)) (CHandling t1 f_zero))
    by (vm_compute; reflexivity).
  assert (Hc : _closing (client w) = false) by (vm_compute; reflexivity).
  assert (Hq : q_items (_queue (client w)) = [t2]) by (vm_compute; reflexivity).
  assert (Hd : delivered (history w) = [t1]) by (vm_compute; reflexivity).
  assert (Hk : completed (history w) = []) by (vm_compute; reflexivity).
  destruct (reconnect_skips_in_flight connection_lost t1 f_zero t2 [] f_zero 5 w eq_refl HP Hc Hq)
    as (w' & H1 & H2 & H3 & H4 & _).
  exists w'. split; [exact H1|]. rewrite Hd, H2, Hk, H4. by split_and!.
Defined.

(** C39: A save that joins the handler's transaction is acknowledged before it commits:
    from every world in which the store runs such a save, as soon as it returns the next
    status update reports the saved position as flushed, while the store still holds what
    it held; and a rollback leaves it so. *)
Theorem joined_save_told_early w i t started lsn ss now clock :
  phase w = Streaming (RWaiting i) (CSaving t started lsn ss true false) →
  inner_done i = false → _closing (client w) = false →
  sendable (_last_written_lsn (client w)) (Z.max (_durable_lsn (client w)) lsn) clock = true →
  ∃ f w', steps [EStore; ESaved now; ETimer clock; ECallerRollsBack] w = Some w' ∧
    wire (history w') = wire (history w) ++ [f] ∧
    told f = Some (_last_written_lsn (client w) + 1, Z.max (_durable_lsn (client w)) lsn + 1,
                   Z.max (_durable_lsn (client w)) lsn + 1) ∧
    stored w' = stored w ∧ committed (history w') = committed (history w) ∧ uncommitted w' = None.
Proof.
  intros HP Hi Hc Hs.
  set (c := snd (_record_durable_progress lsn (f_sub now ss) (client w))).
  assert (Hs' : sendable (_last_written_lsn c) (_durable_lsn c) clock = true) by exact Hs.
  destruct (send_update_ok false clock c Hs') as (f & Hf & Hread). exists f.
  cbn [steps step]. rewrite HP. cbn. unfold timer_fires. cbn.
  rewrite Hi, Hc. cbn in Hf. rewrite Hf. cbn. eexists. split; [reflexivity|]. cbn.
  split_and!; try done. unfold told. by rewrite Hread.
Qed.

Lemma joined_save_told_early_witness :
  let w := world_after (take 10 joined_run) (run_start sample_options (Some 99)) in
  ∃ f w', steps [EStore; ESaved f_zero; ETimer 700000000000000; ECallerRollsBack] w = Some w' ∧
    told f = Some (501, 540, 540) ∧ stored w' = Some 99.
Proof.
  cbv zeta. set (t := mkTransaction 7 539 9 []). set (w := world_after _ _).
  assert (HP : phase w = Streaming (RWaiting (ReadTask None)) (CSaving t f_zero 539 f_zero true false))
    by (vm_compute; reflexivity).
  assert (Hc : _closing (client w) = false) by (vm_compute; reflexivity).
  assert (Hl : _last_written_lsn (client w) = 500) by (vm_compute; reflexivity).
  assert (Hd : _durable_lsn (client w) = 99) by (vm_compute; reflexivity).
  assert (Hst : stored w = Some 99) by (vm_compute; reflexivity).
  destruct (joined_save_told_early w (ReadTask None) t f_zero 539 f_zero f_zero 700000000000000 HP eq_refl Hc)
    as (f & w' & H1 & _ & H2 & H3 & _); [rewrite Hl, Hd; vm_compute; reflexivity|].
  exists f, w'. split; [exact H1|]. rewrite H2, H3, Hl, Hd, Hst. by split.
Defined.
