(* ===== verification/Checkpoint.v ===== *)
(** The checkpoint store ([walbox/checkpoint.py]): [PostgresCheckpointStore] over
    an interface to PostgreSQL.  The database is a class of operations on a
    database state, with the documented behaviour of transactions and of the
    three statements the store runs as its laws; a small in-memory database is an
    instance of both. *)
From stdpp Require Import base tactics list numbers strings gmap.
From S2P Require Import Prelude PyStr Errors Abc.

(** ** PostgreSQL *)

(** The statements of the store, on [table]: [CREATE TABLE IF NOT EXISTS], the
    [SELECT] of a consumer's row and the upsert. *)
Inductive statement :=
| CreateTable (table : pystr)
| SelectLsn (table consumer : pystr)
| Upsert (table consumer : pystr) (lsn : Z).

(** A consumer's position in a table. *)
Abbreviation rows := (pystr → pystr → option Z).

Definition set_row (t k : pystr) (lsn : Z) (r : rows) : rows := λ t' k',
  if bool_decide (t' = t ∧ k' = k) then Some lsn else r t' k'.

(** psycopg on a database of state [D]: [C] is a connection.  [db_acquire] and
    [db_release] are the two ends of [async with acquire() as conn]; [failed]
    says that an exception leaves the block.  [durable] is what is committed,
    [seen] what a connection's transaction reads. *)
Class Database (D C : Type) := {
  db_acquire : method D exn C;
  db_release : C → bool → method D exn unit;
  db_execute : C → statement → method D exn (option Z);
  db_commit : C → method D exn unit;
  durable : D → rows;
  seen : D → C → rows;
}.

Definition ends_in {A D} (m : py A * D) (P : D → Prop) (Q : D → Prop) : Prop :=
  match fst m with Ok _ => P (snd m) | Raise _ => Q (snd m) end.

(** The laws: a new connection sees what is committed; statements change only
    what their connection sees; a commit, or the end of a block that did not fail,
    makes it durable; a failed commit may or may not have happened. *)
Class DatabaseLaws (D C : Type) `{!Database D C} : Prop := {
  acquire_law d c d' :
    db_acquire d = (Ok c, d') → durable d' = durable d ∧ seen d' c = durable d;
  acquire_fails d e d' : db_acquire d = (Raise e, d') → durable d' = durable d;
  create_law d c t r d' :
    db_execute c (CreateTable t) d = (Ok r, d') → durable d' = durable d ∧ seen d' c = seen d c;
  select_law d c t k r d' :
    db_execute c (SelectLsn t k) d = (Ok r, d') →
    r = seen d c t k ∧ durable d' = durable d ∧ seen d' c = seen d c;
  upsert_law d c t k lsn r d' :
    db_execute c (Upsert t k lsn) d = (Ok r, d') →
    durable d' = durable d ∧ ∀ t' k', seen d' c t' k' = set_row t k lsn (seen d c) t' k';
  execute_fails d c s e d' : db_execute c s d = (Raise e, d') → durable d' = durable d;
  commit_law d c u d' :
    db_commit c d = (Ok u, d') → durable d' = seen d c ∧ seen d' c = seen d c;
  commit_fails d c e d' :
    db_commit c d = (Raise e, d') → durable d' = durable d ∨ durable d' = seen d c;
  release_law d c u d' : db_release c false d = (Ok u, d') → durable d' = seen d c;
  release_fails d c e d' :
    db_release c false d = (Raise e, d') → durable d' = durable d ∨ durable d' = seen d c;
  release_failed d c r d' : db_release c true d = (r, d') → durable d' = durable d;
}.

(** ** [PostgresCheckpointStore] *)

Record PostgresCheckpointStore := mkStore {
  _consumer_name : pystr;
  _table : pystr;
  _schema_ready : bool;
}.

(** [_configure], the part of both constructors that sets the state. *)
Definition _configure (consumer_name table : pystr) : PostgresCheckpointStore :=
  mkStore consumer_name table false.

Definition set_ready (s : PostgresCheckpointStore) : PostgresCheckpointStore :=
  mkStore (_consumer_name s) (_table s) true.

Section Store.
Context {D C : Type} `{!Database D C}.

(** The store object and the database. *)
Abbreviation sm := (method (PostgresCheckpointStore * D) exn).

Definition on_db {A} (m : method D exn A) : sm A := λ w,
  let '(r, d) := m (snd w) in (r, (fst w, d)).

Definition the_store : sm PostgresCheckpointStore := λ w, (Ok (fst w), w).

(** [async with self._acquire() as conn: body]: what leaves the block decides
    between commit and rollback; an exception of the body is re-raised. *)
Definition with_acquired {A} (body : C → sm A) : sm A := λ w,
  match on_db db_acquire w with
  | (Raise e, w) => (Raise e, w)
  | (Ok conn, w) =>
      match body conn w with
      | (Ok a, w) =>
          match on_db (db_release conn false) w with
          | (Ok _, w) => (Ok a, w)
          | (Raise e, w) => (Raise e, w)
          end
      | (Raise e, w) =>
          match on_db (db_release conn true) w with
          | (Ok _, w) => (Raise e, w)
          | (Raise e', w) => (Raise e', w)
          end
      end
  end.

Definition _ensure_schema (conn : C) : sm unit :=
  self ← the_store;
  if _schema_ready self then mret tt
  else
    _ ← on_db (db_execute conn (CreateTable (_table self)));
    modify_self (λ w, (set_ready (fst w), snd w)).

Definition _upsert (conn : C) (lsn : Z) : sm unit :=
  self ← the_store;
  _ ← on_db (db_execute conn (Upsert (_table self) (_consumer_name self) lsn));
  mret tt.

Definition negative_message (isprintable : Z → bool) (consumer : pystr) (lsn : Z) : pystr :=
  lit "checkpoint for consumer " ++ repr_str isprintable consumer ++ lit " is negative: "
    ++ str_of_int lsn.

Definition load (isprintable : Z → bool) : sm (option Z) :=
  lsn ← with_acquired (λ conn,
          _ ← _ensure_schema conn;
          _ ← on_db (db_commit conn);
          self ← the_store;
          on_db (db_execute conn (SelectLsn (_table self) (_consumer_name self))));
  self ← the_store;
  match lsn with
  | Some l =>
      if l <? 0 then
        raise (CheckpointError (negative_message isprintable (_consumer_name self) l))
      else mret (Some l)
  | None => mret None
  end.

Definition save (lsn : Z) (connection : option C) : sm unit :=
  match connection with
  | Some conn => _ ← _ensure_schema conn; _upsert conn lsn
  | None => with_acquired (λ conn,
              _ ← _ensure_schema conn;
              _ ← _upsert conn lsn;
              on_db (db_commit conn))
  end.
End Store.

(** ** An in-memory database

    One committed table space and, for the open connection, the transaction's
    own view; a table must have been created before it is read or written.
    [failing] lists the operations, counted from now, that fail. *)
Record Memory := mkMemory {
  mem_rows : gmap (pystr * pystr) Z;
  mem_tables : gset pystr;
  txn_rows : gmap (pystr * pystr) Z;
  txn_tables : gset pystr;
  failing : list bool;
}.

Definition rows_of (m : gmap (pystr * pystr) Z) : rows := λ t k, m !! (t, k).

Lemma rows_of_insert t k lsn m t' k' :
  rows_of (<[(t, k) := lsn]> m) t' k' = set_row t k lsn (rows_of m) t' k'.
Proof.
  unfold rows_of, set_row. case_bool_decide as Hk.
  - destruct Hk as [-> ->]. by rewrite lookup_insert_eq.
  - rewrite lookup_insert_ne; [done|]. intros [= -> ->]. by apply Hk.
Qed.

(** Run [m] unless the script says that this operation fails. *)
Definition unless_failing {A} (m : method Memory exn A) : method Memory exn A := λ d,
  match failing d with
  | true :: rest =>
      (Raise (OperationalError (lit "connection lost")),
       mkMemory (mem_rows d) (mem_tables d) (txn_rows d) (txn_tables d) rest)
  | _ :: rest => m (mkMemory (mem_rows d) (mem_tables d) (txn_rows d) (txn_tables d) rest)
  | [] => m d
  end.

Definition mem_begin : method Memory exn unit := λ d,
  (Ok tt, mkMemory (mem_rows d) (mem_tables d) (mem_rows d) (mem_tables d) (failing d)).
Definition mem_commit : method Memory exn unit := λ d,
  (Ok tt, mkMemory (txn_rows d) (txn_tables d) (txn_rows d) (txn_tables d) (failing d)).

Definition needs_table (t : pystr) (m : method Memory exn (option Z)) : method Memory exn (option Z) :=
  λ d, if bool_decide (t ∈ txn_tables d) then m d
       else (Raise (ProgrammingError (lit "relation does not exist")), d).

Definition mem_execute (s : statement) : method Memory exn (option Z) :=
  match s with
  | CreateTable t => λ d,
      (Ok None, mkMemory (mem_rows d) (mem_tables d) (txn_rows d) ({[t]} ∪ txn_tables d) (failing d))
  | SelectLsn t k => needs_table t (λ d, (Ok (txn_rows d !! (t, k)), d))
  | Upsert t k lsn => needs_table t (λ d,
      (Ok None, mkMemory (mem_rows d) (mem_tables d) (<[(t, k) := lsn]> (txn_rows d))
                  (txn_tables d) (failing d)))
  end.

#[export] Instance memory_database : Database Memory unit := {
  db_acquire := unless_failing mem_begin;
  db_release _ failed := if failed : bool then mem_begin else unless_failing mem_commit;
  db_execute _ s := unless_failing (mem_execute s);
  db_commit _ := unless_failing mem_commit;
  durable d := rows_of (mem_rows d);
  seen d _ := rows_of (txn_rows d);
}.

Lemma unless_failing_cases {A} (m : method Memory exn A) d :
  (∃ e d', unless_failing m d = (Raise e, d') ∧ mem_rows d' = mem_rows d ∧ txn_rows d' = txn_rows d) ∨
  ∃ d', unless_failing m d = m d' ∧ mem_rows d' = mem_rows d ∧ txn_rows d' = txn_rows d ∧
        txn_tables d' = txn_tables d ∧ mem_tables d' = mem_tables d.
Proof.
  unfold unless_failing. destruct (failing d) as [|[] rest]; [right|left|right]; by repeat eexists.
Qed.

Ltac memory_tac :=
  repeat match goal with
  | H : unless_failing ?m ?d = _ |- _ =>
      let E := fresh "E" in
      destruct (unless_failing_cases m d) as [(? & ? & E & ? & ?)|(? & E & ? & ? & ? & ?)];
      rewrite E in H; clear E
  | H : (if ?b then _ else _) = _ |- _ => destruct b
  | H : mem_begin _ = _ |- _ => unfold mem_begin in H
  | H : mem_commit _ = _ |- _ => unfold mem_commit in H
  | H : needs_table _ _ _ = _ |- _ => unfold needs_table in H
  | H : mem_execute ?s _ = _ |- _ => unfold mem_execute in H; try (is_var s; destruct s)
  | H : (_, _) = (_, _) |- _ => injection H as <- <-
  | H : (Ok _, _) = (Raise _, _) |- _ => discriminate H
  | H : (Raise _, _) = (Ok _, _) |- _ => discriminate H
  end; simplify_eq/=;
  repeat match goal with
  | H : mem_rows _ = _ |- _ => rewrite H
  | H : txn_rows _ = _ |- _ => rewrite H
  end; auto.

#[export] Instance memory_laws : DatabaseLaws Memory unit.
Proof.
  split; unfold durable, seen, db_acquire, db_execute, db_commit, db_release, memory_database;
    intros; memory_tac.
  split; [done|]. intros t' k'. apply rows_of_insert.
Qed.

(** ** Lemmas *)

Section laws.
Context {D C : Type} `{DatabaseLaws D C}.
Implicit Types (s : PostgresCheckpointStore) (d : D) (c : C).

Definition same_names s s' : Prop := _consumer_name s' = _consumer_name s ∧ _table s' = _table s.

Lemma ensure_cases c s d r s' d' :
  _ensure_schema c (s, d) = (r, (s', d')) →
  durable d' = durable d ∧ same_names s s' ∧ (r = Ok tt → seen d' c = seen d c).
Proof.
  unfold _ensure_schema, mbind, method_bind, the_store, on_db, modify_self. cbn.
  destruct (_schema_ready s); [by intros [= <- <- <-]|]. cbn.
  destruct (db_execute c (CreateTable (_table s)) d) as [[x|e] d1] eqn:E; cbn; intros [= <- <- <-].
  - by apply create_law in E as [-> ->].
  - by apply execute_fails in E as ->.
Qed.

Lemma upsert_cases c lsn s d r s' d' :
  _upsert c lsn (s, d) = (r, (s', d')) →
  durable d' = durable d ∧ s' = s ∧
  (r = Ok tt → ∀ t k, seen d' c t k = set_row (_table s) (_consumer_name s) lsn (seen d c) t k).
Proof.
  unfold _upsert, mbind, method_bind, the_store, on_db. cbn.
  destruct (db_execute c (Upsert _ _ lsn) d) as [[x|e] d1] eqn:E; cbn; intros [= <- <- <-].
  - by apply upsert_law in E as [-> Hs].
  - by apply execute_fails in E as ->.
Qed.

(** What a block on an acquired connection leaves committed: if it succeeds,
    what its body left in the connection's view; if not, what was committed
    when the body stopped. *)
Lemma acquired_cases {A} (body : C → method (PostgresCheckpointStore * D) exn A) s d r s' d' :
  with_acquired body (s, d) = (r, (s', d')) →
  (durable d' = durable d ∧ s' = s ∧ ∃ e, r = Raise e) ∨
  ∃ c d0 rb d1, durable d0 = durable d ∧ seen d0 c = durable d ∧
    body c (s, d0) = (rb, (s', d1)) ∧
    match r, rb with
    | Ok a, Ok b => a = b ∧ durable d' = seen d1 c
    | Raise _, Ok _ => durable d' = durable d1 ∨ durable d' = seen d1 c
    | Raise _, Raise _ => durable d' = durable d1
    | Ok _, Raise _ => False
    end.
Proof.
  unfold with_acquired, on_db. cbn.
  destruct (db_acquire d) as [[c|e] d0] eqn:Ea.
  - apply acquire_law in Ea as [Hd Hs].
    destruct (body c (s, d0)) as [[b|e] [s1 d1]] eqn:Eb; cbn.
    + destruct (db_release c false d1) as [[u|e] d2] eqn:Er; cbn; intros [= <- <- <-]; right;
        exists c, d0, (Ok b), d1; split_and!; auto.
      * by apply release_law in Er.
      * by apply release_fails in Er.
    + destruct (db_release c true d1) as [[u|e'] d2] eqn:Er; cbn; intros [= <- <- <-]; right;
        exists c, d0, (Raise e), d1; split_and!; auto; by apply release_failed in Er.
  - apply acquire_fails in Ea. cbn. intros [= <- <- <-]. left. eauto.
Qed.

(** The body of a save on the store's own connection. *)
Lemma save_body_cases c lsn s d r s' d' :
  seen d c = durable d →
  (_ ← _ensure_schema c; _ ← _upsert c lsn; on_db (db_commit c)) (s, d) = (r, (s', d')) →
  let new := λ m : rows, ∀ t k, m t k = set_row (_table s) (_consumer_name s) lsn (durable d) t k in
  same_names s s' ∧
  match r with
  | Ok _ => new (durable d') ∧ new (seen d' c)
  | Raise _ => durable d' = durable d ∨ new (durable d')
  end.
Proof.
  intros Hsd. unfold mbind, method_bind.
  destruct (_ensure_schema c (s, d)) as [[[]|e] [s1 d1]] eqn:E1;
    apply ensure_cases in E1 as (Hd1 & [Hn1 Hn2] & Hs1);
    [|intros [= <- <- <-]; split; [by split|by left]].
  specialize (Hs1 eq_refl).
  destruct (_upsert c lsn (s1, d1)) as [[[]|e] [s2 d2]] eqn:E2;
    apply upsert_cases in E2 as (Hd2 & -> & Hs2);
    [|intros [= <- <- <-]; split; [by split|left; congruence]].
  specialize (Hs2 eq_refl). rewrite Hn1, Hn2, Hs1, Hsd in Hs2.
  unfold on_db. cbn. destruct (db_commit c d2) as [[u|e] d3] eqn:E3; cbn; intros [= <- <- <-];
    (split; [by split|]).
  - apply commit_law in E3 as [-> ->]. by split.
  - apply commit_fails in E3 as [-> | ->]; [left; congruence|by right].
Qed.

Lemma save_own_cases lsn s d r s' d' :
  save lsn None (s, d) = (r, (s', d')) →
  let new := ∀ t k, durable d' t k = set_row (_table s) (_consumer_name s) lsn (durable d) t k in
  same_names s s' ∧ match r with Ok _ => new | Raise _ => durable d' = durable d ∨ new end.
Proof.
  intros [(Hd & -> & e & ->)|(c & d0 & rb & d1 & Hd0 & Hs0 & Hb & Hr)]%acquired_cases.
  - split; [done|by left].
  - apply save_body_cases in Hb as [Hn Hb]; [|congruence]. split; [done|]. rewrite Hd0 in Hb.
    destruct r as [[]|e], rb as [b|e']; try done.
    + destruct Hr as [_ Hr]. intros t k. rewrite Hr. apply Hb.
    + right. intros t k. destruct Hr as [-> | ->]; apply Hb.
    + rewrite Hr. exact Hb.
Qed.

Lemma load_body_cases c s d r s' d' :
  seen d c = durable d →
  (_ ← _ensure_schema c; _ ← on_db (db_commit c); self ← the_store;
   on_db (db_execute c (SelectLsn (_table self) (_consumer_name self)))) (s, d) = (r, (s', d')) →
  same_names s s' ∧ durable d' = durable d ∧
  match r with
  | Ok v => v = durable d (_table s) (_consumer_name s) ∧ seen d' c = durable d
  | Raise _ => True
  end.
Proof.
  intros Hsd. unfold mbind, method_bind.
  destruct (_ensure_schema c (s, d)) as [[[]|e] [s1 d1]] eqn:E1;
    apply ensure_cases in E1 as (Hd1 & [Hn1 Hn2] & Hs1);
    [|intros [= <- <- <-]; split; [by split|done]].
  specialize (Hs1 eq_refl). unfold on_db, the_store. cbn.
  destruct (db_commit c d1) as [[u|e] d2] eqn:E2; cycle 1.
  { cbn. intros [= <- <- <-]. split; [by split|]. split; [|done].
    apply commit_fails in E2 as [-> | ->]; congruence. }
  apply commit_law in E2 as [Hd2 Hs2]. cbn.
  destruct (db_execute c (SelectLsn (_table s1) (_consumer_name s1)) d2) as [[v|e] d3] eqn:E3; cbn; intros [= <- <- <-]; (split; [by split|]).
  - apply select_law in E3 as (-> & -> & ->).
    rewrite Hd2, Hs2, Hs1, Hsd, Hn1, Hn2. by split.
  - apply execute_fails in E3 as ->. split; [congruence|done].
Qed.

Lemma load_cases isprintable s d r s' d' :
  load isprintable (s, d) = (r, (s', d')) →
  same_names s s' ∧ durable d' = durable d ∧
  match r with
  | Ok v => v = durable d (_table s) (_consumer_name s) ∧ (∀ l, v = Some l → 0 <= l)
  | Raise _ => True
  end.
Proof.
  unfold load. unfold mbind at 1, method_bind at 1.
  destruct (with_acquired _ (s, d)) as [rv [s1 d1]] eqn:E.
  assert (Hk : same_names s s1 ∧ durable d1 = durable d ∧
            match rv with Ok v => v = durable d (_table s) (_consumer_name s) | Raise _ => True end).
  { apply acquired_cases in E as [(Hd & -> & e & ->)|(c & d0 & rb & d2 & Hd0 & Hs0 & Hb & Hr)].
    - by split.
    - apply load_body_cases in Hb as (Hn & Hd2 & Hb); [|congruence]. split; [done|].
      destruct rv as [v|e], rb as [b|e']; try done.
      + destruct Hr as [-> ->], Hb as [-> ->]. rewrite Hd0. by split.
      + destruct Hb as [_ Hb]. split; [destruct Hr as [-> | ->]; congruence|done].
      + split; [congruence|done]. }
  destruct Hk as (Hn & Hd & Hv). destruct rv as [v|e]; [|intros [= <- <- <-]; by split].
  unfold mbind, method_bind, the_store. cbn.
  destruct v as [l|]; [destruct (l <? 0) eqn:El; zbool|]; intros [= <- <- <-]; split_and!; try done.
  by intros l' [= <-].
Qed.
End laws.

(** ** The interface of a checkpoint store

    [CheckpointStore] of [walbox/abc.py], what the client relies on: [position]
    is the position durably saved, which a load returns, a save of the store's
    own replaces and a save on the caller's connection leaves alone. *)
Class CheckpointStore (W C : Type) := {
  store_load : method W exn (option Z);
  store_save : Z → option C → method W exn unit;
  position : W → option Z;
}.

Class CheckpointStoreLaws (W C : Type) `{!CheckpointStore W C} : Prop := {
  load_law w r w' :
    store_load w = (r, w') →
    position w' = position w ∧ match r with Ok v => v = position w | Raise _ => True end;
  save_law lsn w r w' :
    store_save lsn None w = (r, w') →
    match r with
    | Ok _ => position w' = Some lsn
    | Raise _ => position w' = position w ∨ position w' = Some lsn
    end;
  save_joined_law lsn (c : C) w r w' :
    store_save lsn (Some c) w = (r, w') → position w' = position w;
}.

Section implements.
Context {D C : Type} `{DatabaseLaws D C} (isprintable : Z → bool).

#[global] Instance postgres_store : CheckpointStore (PostgresCheckpointStore * D) C := {
  store_load := load isprintable;
  store_save := save;
  position w := durable (snd w) (_table (fst w)) (_consumer_name (fst w));
}.
End implements.

(** A consumer's own row after its save. *)
Lemma set_row_same t k lsn r : set_row t k lsn r t k = Some lsn.
Proof. unfold set_row. by rewrite bool_decide_true. Qed.

Lemma save_joined_cases {D C} `{DatabaseLaws D C} lsn (c : C) s (d : D) r s' d' :
  save lsn (Some c) (s, d) = (r, (s', d')) →
  durable d' = durable d ∧ same_names s s' ∧
  (r = Ok tt → ∀ t k, seen d' c t k = set_row (_table s) (_consumer_name s) lsn (seen d c) t k).
Proof.
  unfold save, mbind, method_bind.
  destruct (_ensure_schema c (s, d)) as [[[]|e] [s1 d1]] eqn:E1;
    apply ensure_cases in E1 as (Hd1 & [Hn1 Hn2] & Hs1); [|by intros [= <- <- <-]].
  specialize (Hs1 eq_refl). intros (Hd2 & -> & Hs2)%upsert_cases.
  rewrite Hn1, Hn2, Hs1 in Hs2. split; [congruence|]. by split.
Qed.

(** ** Properties *)

(** [PostgresCheckpointStore] is a checkpoint store: on any database that keeps
    PostgreSQL's transaction guarantees, a load returns the position durably saved
    and changes nothing durable; a save of its own either makes exactly the new
    position durable or, when it raises, leaves the old one or the new one, never
    anything else; a save on the caller's connection makes nothing durable by
    itself. *)
#[global] Instance postgres_store_laws {D C} `{!Database D C} isprintable :
  DatabaseLaws D C →
  CheckpointStoreLaws (PostgresCheckpointStore * D) C
    (CheckpointStore0 := postgres_store isprintable).
Proof.
  intros Hlaws. split.
  - intros [s d] r [s' d'] Hl. cbn in *. apply load_cases in Hl as ([Hn1 Hn2] & Hd & Hr).
    rewrite Hd, Hn1, Hn2. split; [done|]. destruct r; [apply Hr|done].
  - intros lsn [s d] r [s' d'] Hs. cbn in *. apply save_own_cases in Hs as [[Hn1 Hn2] Hs].
    rewrite Hn1, Hn2. destruct r as [u|e].
    + by rewrite Hs, set_row_same.
    + destruct Hs as [-> | Hs]; [by left|right]. by rewrite Hs, set_row_same.
  - intros lsn c [s d] r [s' d'] Hs. cbn in *. apply save_joined_cases in Hs as (Hd & [Hn1 Hn2] & _).
    by rewrite Hd, Hn1, Hn2.
Qed.

Definition sample_store : PostgresCheckpointStore :=
  _configure (lit "orders") (lit "walbox_checkpoint").
Definition empty_memory : Memory := mkMemory ∅ ∅ ∅ ∅ [].

(** A save touches its own row only, and atomically: when it succeeds every
    other consumer and table keeps its position, and when it fails nothing has
    changed or exactly the save has happened. *)
Theorem save_touches_one_row {D C} `{DatabaseLaws D C} lsn s (d : D) :
  let '(r, (s', d')) := save (C := C) lsn None (s, d) in
  let after := ∀ t k, durable d' t k = set_row (_table s) (_consumer_name s) lsn (durable d) t k in
  match r with Ok _ => after | Raise _ => durable d' = durable d ∨ after end.
Proof.
  destruct (save lsn None (s, d)) as [r [s' d']] eqn:E. by apply save_own_cases in E as [_ ?].
Qed.

Lemma save_touches_one_row_witness :
  let '(r, (s', d')) := save (C := unit) 539 None (sample_store, empty_memory) in
  r = Ok tt ∧ durable d' (lit "walbox_checkpoint") (lit "orders") = Some 539 ∧
  durable d' (lit "walbox_checkpoint") (lit "invoices") = None.
Proof.
  pose proof (save_touches_one_row (C := unit) 539 sample_store empty_memory) as H.
  assert (Hr : fst (save (C := unit) 539 None (sample_store, empty_memory)) = Ok tt)
    by (vm_compute; reflexivity).
  destruct (save 539 None (sample_store, empty_memory)) as [r [s' d']]. cbv zeta in H.
  cbn [fst] in Hr. rewrite Hr in H |- *. split; [reflexivity|].
  split; rewrite H; vm_compute; reflexivity.
Defined.

(** A save on the caller's connection is the caller's to commit: nothing is
    durable after it, the caller's transaction sees the new position, and when
    the caller commits exactly that becomes durable. *)
Theorem joined_save_commits_with_caller {D C} `{DatabaseLaws D C} lsn (c : C) s (d : D) :
  let '(r, (s', d')) := save lsn (Some c) (s, d) in
  durable d' = durable d ∧
  (r = Ok tt →
   ∀ t k, seen d' c t k = set_row (_table s) (_consumer_name s) lsn (seen d c) t k) ∧
  match r, db_commit c d' with
  | Ok _, (Ok _, d'') =>
      ∀ t k, durable d'' t k = set_row (_table s) (_consumer_name s) lsn (seen d c) t k
  | _, _ => True
  end.
Proof.
  destruct (save lsn (Some c) (s, d)) as [r [s' d']] eqn:E.
  apply save_joined_cases in E as (Hd & _ & Hs). split; [done|]. split; [done|].
  destruct r as [[]|e]; [|done]. destruct (db_commit c d') as [[u|e] d''] eqn:Ec; [|done].
  apply commit_law in Ec as [-> _]. by apply Hs.
Qed.

Lemma joined_save_commits_with_caller_witness :
  let '(_, (_, d')) := save 539 (Some tt) (sample_store, empty_memory) in
  durable d' = durable empty_memory.
Proof.
  pose proof (joined_save_commits_with_caller 539 tt sample_store empty_memory) as H.
  destruct (save 539 (Some tt) (sample_store, empty_memory)) as [r [s' d']].
  exact (proj1 H).
Defined.

(** A negative position is never loaded: whatever is stored, [load] returns
    no negative position, and on a row that holds one it raises
    [CheckpointError] (or what the database raised). *)
Theorem load_never_negative {D C} `{DatabaseLaws D C} isprintable s (d : D) :
  match load (C := C) isprintable (s, d) with
  | (Ok v, (_, d')) =>
      v = durable d (_table s) (_consumer_name s) ∧ (∀ l, v = Some l → 0 <= l) ∧
      durable d' = durable d
  | (Raise _, (_, d')) => durable d' = durable d
  end.
Proof.
  destruct (load isprintable (s, d)) as [[v|e] [s' d']] eqn:E;
    apply load_cases in E as (_ & Hd & Hv); [|done].
  destruct Hv as [-> Hv]. by split.
Qed.

Definition negative_memory : Memory :=
  mkMemory {[ (lit "walbox_checkpoint", lit "orders") := -5 ]} {[ lit "walbox_checkpoint" ]} ∅ ∅ [].

Lemma load_never_negative_witness :
  fst (load (C := unit) (λ _, false) (sample_store, negative_memory))
  = Raise (CheckpointError (lit "checkpoint for consumer 'orders' is negative: -5")) ∧
  durable (snd (snd (load (C := unit) (λ _, false) (sample_store, negative_memory))))
  = durable negative_memory.
Proof.
  split; [vm_compute; reflexivity|].
  pose proof (load_never_negative (C := unit) (λ _, false) sample_store negative_memory) as H.
  destruct (load (λ _, false) (sample_store, negative_memory)) as [[v|e] [s' d']];
    [exact (proj2 (proj2 H))|exact H].
Defined.

(** The schema flag outlives a rollback: after a first save on the caller's
    connection whose transaction is rolled back, the table does not exist but the
    store no longer creates it, and both the next save and the next load fail. *)
Theorem schema_flag_survives_rollback :
  let '(r, (s, d)) := save 539 (Some tt) (sample_store, empty_memory) in
  let d := snd (db_release tt true d) in
  r = Ok tt ∧ _schema_ready s = true ∧ bool_decide (_table s ∈ mem_tables d) = false ∧
  fst (save 540 None (C := unit) (s, d)) = Raise (ProgrammingError (lit "relation does not exist")) ∧
  fst (load (C := unit) (λ _, false) (s, d))
  = Raise (ProgrammingError (lit "relation does not exist")).
Proof. vm_compute. repeat split. Qed.
