(* ===== verification/Isolation.v ===== *)
(** Transactions side by side: what PostgreSQL's isolation adds to the laws of
    [Checkpoint] when a handler's transaction is open while the store uses connections
    of its own, and a small database with any number of connections as an instance. *)
From stdpp Require Import base tactics list numbers strings gmap.
From S2P Require Import Prelude PyStr Errors Abc Checkpoint.

(** ** Isolation

    [in_transaction] says that a connection is open, [written] what its transaction has
    written: it reads its own writes over what is committed, and nothing another
    connection does changes either. *)
Class Isolation (D C : Type) := {
  in_transaction : D → C → Prop;
  written : D → C → rows;
}.

Definition undisturbed {D C} `{!Isolation D C} (c : C) (d d' : D) : Prop :=
  in_transaction d c → in_transaction d' c ∧ written d' c = written d c.

Class IsolationLaws (D C : Type) `{!Database D C, !Isolation D C} : Prop := {
  read_law d c t k :
    in_transaction d c →
    seen d c t k = match written d c t k with Some l => Some l | None => durable d t k end;
  begin_law d c d' : db_acquire d = (Ok c, d') → in_transaction d' c;
  fresh_law d c d' c' : db_acquire d = (Ok c, d') → in_transaction d c' → c ≠ c';
  execute_law d c s r d' :
    db_execute c s d = (Ok r, d') → in_transaction d c → in_transaction d' c;
  acquire_isolated d r d' c' : db_acquire d = (r, d') → undisturbed c' d d';
  execute_isolated d c s r d' c' : c ≠ c' → db_execute c s d = (r, d') → undisturbed c' d d';
  commit_isolated d c r d' c' : c ≠ c' → db_commit c d = (r, d') → undisturbed c' d d';
  release_isolated d c b r d' c' : c ≠ c' → db_release c b d = (r, d') → undisturbed c' d d';
}.

Section isolation.
Context {D C : Type} `{DatabaseLaws D C} `{!Isolation D C, !IsolationLaws D C}.
Implicit Types (s : PostgresCheckpointStore) (d : D) (c : C).

#[global] Instance undisturbed_preorder c : PreOrder (undisturbed (D := D) c).
Proof.
  split; [by intros d|]. intros d1 d2 d3 H1 H2 Hc. destruct (H1 Hc) as [Hc2 <-]. by apply H2.
Qed.

(** A method of the store that leaves the transaction of [c] alone. *)
Definition spares {A} c (m : method (PostgresCheckpointStore * D) exn A) : Prop :=
  ∀ w r w', m w = (r, w') → undisturbed c w.2 w'.2.

Lemma spares_pure {A} c (m : method (PostgresCheckpointStore * D) exn A) :
  (∀ w, (m w).2.2 = w.2) → spares c m.
Proof. intros Hm w r w' E. specialize (Hm w). rewrite E in Hm. cbn in Hm. by rewrite Hm. Qed.

Lemma spares_bind {A B} c (m : method _ exn A) (f : A → method _ exn B) :
  spares c m → (∀ a, spares c (f a)) → spares c (m ≫= f).
Proof.
  intros Hm Hf w r w'. unfold mbind, method_bind. destruct (m w) as [[a|e] w1] eqn:E; cbn.
  - intros E'. etrans; [by eapply Hm|by eapply Hf].
  - intros [= <- <-]. by eapply Hm.
Qed.

Lemma spares_db {A} c (m : method D exn A) :
  (∀ d r d', m d = (r, d') → undisturbed c d d') → spares c (on_db m).
Proof.
  intros Hm [s d] r w'. unfold on_db. cbn. destruct (m d) as [r0 d'] eqn:E. intros [= <- <-].
  by eapply Hm.
Qed.

(** A block on a connection the store acquires: it is not [c] if [c] is in use. *)
Lemma spares_acquired {A} c (body : C → method (PostgresCheckpointStore * D) exn A) :
  (∀ c', c' ≠ c → spares c (body c')) → spares c (with_acquired body).
Proof.
  intros Hb [s d] r w' E Hc. unfold with_acquired, on_db in E. cbn in E.
  destruct (db_acquire d) as [[c'|e] d1] eqn:Ea; cycle 1.
  { injection E as <- <-. by eapply acquire_isolated. }
  pose proof (fresh_law _ _ _ _ Ea Hc) as Hne. revert Hc.
  change (undisturbed c d w'.2). transitivity d1; [by eapply acquire_isolated|].
  destruct (body c' (s, d1)) as [[a|e] [s2 d2]] eqn:Eb; cbn in E;
    (transitivity d2; [by apply (Hb c' Hne _ _ _ Eb)|]);
    destruct (db_release c' _ d2) as [[u|e'] d3] eqn:Er; injection E as <- <-;
    by eapply release_isolated.
Qed.

Lemma spares_ensure c c' : c' ≠ c → spares c (_ensure_schema c').
Proof.
  intros Hne. apply spares_bind; [by apply spares_pure|]. intros s. destruct (_schema_ready s).
  - by apply spares_pure.
  - apply spares_bind; [|intros a; by apply spares_pure].
    apply spares_db. intros d r d'. by apply execute_isolated.
Qed.

Lemma spares_load c isprintable : spares c (load isprintable).
Proof.
  apply spares_bind.
  - apply spares_acquired. intros c' Hne. apply spares_bind; [by apply spares_ensure|]. intros _.
    apply spares_bind; [apply spares_db; intros d r d'; by apply commit_isolated|]. intros _.
    apply spares_bind; [by apply spares_pure|]. intros s. apply spares_db. intros d r d'.
    by apply execute_isolated.
  - intros l. apply spares_bind; [by apply spares_pure|]. intros s. apply spares_pure.
    intros w. destruct l as [l|]; [by destruct (l <? 0)|done].
Qed.

(** A load beside an open transaction: it goes on and reads what it read. *)
Lemma load_keeps_open c isprintable s d r s' d' t k :
  load isprintable (s, d) = (r, (s', d')) → in_transaction d c →
  in_transaction d' c ∧ seen d' c t k = seen d c t k.
Proof.
  intros E Hc. destruct (spares_load c isprintable _ _ _ E Hc) as [Hc' Hw]. cbn in Hc', Hw. split; [done|].
  rewrite !read_law by done. apply load_cases in E as (_ & -> & _). by rewrite Hw.
Qed.

(** A joined save that succeeds leaves the transaction open. *)
Lemma save_keeps_open c lsn s d s' d' :
  save lsn (Some c) (s, d) = (Ok tt, (s', d')) → in_transaction d c → in_transaction d' c.
Proof.
  unfold save, _ensure_schema, _upsert, mbind, method_bind, the_store, on_db, modify_self. cbn.
  destruct (_schema_ready s); cbn.
  - destruct (db_execute c _ d) as [[x|e] d1] eqn:E; [|done]. intros [= <- <-]. by eapply execute_law.
  - destruct (db_execute c _ d) as [[x|e] d1] eqn:E1; [|done]. cbn.
    destruct (db_execute c _ d1) as [[y|e] d2] eqn:E2; [|done]. intros [= <- <-] Hc.
    eapply execute_law; [exact E2|]. by eapply execute_law.
Qed.
End isolation.

(** ** A database with connections

    The committed rows and tables, and for each open connection what its transaction
    has written and created.  [srv_failing] lists the operations that fail, as in
    [Memory]. *)
Record Server := mkServer {
  srv_rows : gmap (pystr * pystr) Z;
  srv_tables : gset pystr;
  srv_open : gmap nat (gmap (pystr * pystr) Z * gset pystr);
  srv_failing : list bool;
}.

Definition own (d : Server) (c : nat) : gmap (pystr * pystr) Z * gset pystr :=
  default (∅, ∅) (srv_open d !! c).

Definition unless_down {A} (m : method Server exn A) : method Server exn A := λ d,
  match srv_failing d with
  | true :: rest =>
      (Raise (OperationalError (lit "connection lost")),
       mkServer (srv_rows d) (srv_tables d) (srv_open d) rest)
  | _ :: rest => m (mkServer (srv_rows d) (srv_tables d) (srv_open d) rest)
  | [] => m d
  end.

Definition srv_connect : method Server exn nat := λ d,
  let c := S (max_list (elements (dom (srv_open d)))) in
  (Ok c, mkServer (srv_rows d) (srv_tables d) (<[c := (∅, ∅)]> (srv_open d)) (srv_failing d)).

Definition srv_write (c : nat) (o : gmap (pystr * pystr) Z * gset pystr) (d : Server) : Server :=
  mkServer (srv_rows d) (srv_tables d) (<[c := o]> (srv_open d)) (srv_failing d).

(** What the transaction wrote becomes the committed state. *)
Definition srv_publish (c : nat) (opened : gmap nat (gmap (pystr * pystr) Z * gset pystr))
    (d : Server) : Server :=
  mkServer ((own d c).1 ∪ srv_rows d) ((own d c).2 ∪ srv_tables d) opened (srv_failing d).

Definition srv_execute (c : nat) (s : statement) : method Server exn (option Z) := λ d,
  let '(written, created) := own d c in
  let missing t := bool_decide (t ∉ created ∪ srv_tables d) in
  let no_table := Raise (ProgrammingError (lit "relation does not exist")) in
  match s with
  | CreateTable t => (Ok None, srv_write c (written, {[t]} ∪ created) d)
  | SelectLsn t k =>
      if missing t then (no_table, d) else (Ok ((written ∪ srv_rows d) !! (t, k)), d)
  | Upsert t k lsn =>
      if missing t then (no_table, d) else (Ok None, srv_write c (<[(t, k) := lsn]> written, created) d)
  end.

#[export] Instance server_database : Database Server nat := {
  db_acquire := unless_down srv_connect;
  db_release c failed :=
    if failed : bool then λ d,
      (Ok tt, mkServer (srv_rows d) (srv_tables d) (delete c (srv_open d)) (srv_failing d))
    else unless_down (λ d, (Ok tt, srv_publish c (delete c (srv_open d)) d));
  db_execute c s := unless_down (srv_execute c s);
  db_commit c := unless_down (λ d, (Ok tt, srv_publish c (<[c := (∅, ∅)]> (srv_open d)) d));
  durable d := rows_of (srv_rows d);
  seen d c := rows_of ((own d c).1 ∪ srv_rows d);
}.

#[export] Instance server_isolation : Isolation Server nat := {
  in_transaction d c := is_Some (srv_open d !! c);
  written d c := rows_of (own d c).1;
}.

(** Up to its script, the database behind an operation that is not cut off is the one
    before it. *)
Definition same_server (d d' : Server) : Prop :=
  srv_rows d' = srv_rows d ∧ srv_tables d' = srv_tables d ∧ srv_open d' = srv_open d.

Lemma unless_down_cases {A} (m : method Server exn A) d r d' :
  unless_down m d = (r, d') →
  (same_server d d' ∧ ∃ e, r = Raise e) ∨ ∃ d0, same_server d d0 ∧ m d0 = (r, d').
Proof.
  unfold unless_down. destruct (srv_failing d) as [|[] rest]; intros H; [right|left|right];
    [by exists d|by injection H as <- <-; split; [|eexists]|by eexists; split; [|exact H]].
Qed.

Lemma own_same d d' c : same_server d d' → own d' c = own d c.
Proof. intros (_ & _ & E). unfold own. by rewrite E. Qed.

Lemma connect_fresh (m : gmap nat (gmap (pystr * pystr) Z * gset pystr)) c :
  is_Some (m !! c) → S (max_list (elements (dom m))) ≠ c.
Proof.
  intros Hc <-. apply elem_of_dom, elem_of_elements, max_list_elem_of_le in Hc. lia.
Qed.

Ltac server_tac :=
  repeat match goal with
  | H : unless_down _ _ = _ |- _ =>
      let H' := fresh "Hd" in
      destruct (unless_down_cases _ _ _ _ H) as [[(? & ? & ?) [? ?]]|(? & (? & ? & ?) & H')]; clear H
  | H : (let '(_, _) := ?o in _) = _ |- _ => let E := fresh "Eo" in destruct o eqn:E
  | H : (if ?b then _ else _) = _ |- _ => destruct b
  | H : srv_execute _ ?s _ = _ |- _ => unfold srv_execute in H; try (is_var s; destruct s)
  | H : srv_connect _ = _ |- _ => unfold srv_connect in H
  | H : (_, _) = (_, _) |- _ => injection H as <- <-
  | H : Raise _ = Ok _ |- _ => discriminate H
  | H : Ok _ = Raise _ |- _ => discriminate H
  end; simplify_eq/=; unfold own in *; cbn in *;
  repeat match goal with
  | H : srv_rows ?d' = srv_rows ?d |- _ => is_var d; rewrite <- H in *; clear H
  | H : srv_open ?d' = srv_open ?d |- _ => is_var d; rewrite <- H in *; clear H
  end; rewrite ?lookup_insert_eq; cbn;
  repeat match goal with
  | H : default _ _ = (_, _) |- _ => rewrite H in *
  end; cbn; rewrite ?(left_id_L ∅ (∪)); auto.

#[export] Instance server_laws : DatabaseLaws Server nat.
Proof.
  split; unfold durable, seen, db_acquire, db_execute, db_commit, db_release, server_database;
    intros; server_tac.
  split; [done|]. intros t' k'. rewrite <- rows_of_insert. by rewrite insert_union_l.
Qed.

#[export] Instance server_isolation_laws : IsolationLaws Server nat.
Proof.
  split; unfold undisturbed, in_transaction, written, seen, durable, db_acquire, db_execute,
    db_commit, db_release, server_database, server_isolation; intros; try destruct b; server_tac;
    rewrite ?lookup_insert_ne, ?lookup_delete_ne by
      (first [assumption | by apply connect_fresh]); try done.
  - unfold rows_of. rewrite lookup_union. by repeat destruct (_ !! (t, k)).
  - by apply connect_fresh.
Qed.

(** ** The interface of a handler's transactions

    What a client relies on when a save joins the handler's own transaction: [pending]
    is the position the store would hold if that transaction committed now. *)
Class CheckpointTransactions (W C : Type) := {
  store_begin : method W exn C;
  store_finish : C → bool → method W exn unit;
  store_open : W → C → Prop;
  pending : W → C → option Z;
}.

Class CheckpointTransactionsLaws (W C : Type)
    `{!CheckpointStore W C, !CheckpointTransactions W C} : Prop := {
  store_begin_law w r w' :
    store_begin w = (r, w') →
    position w' = position w ∧ match r with Ok c => store_open w' c | Raise _ => True end;
  store_joined_law lsn (c : C) w w' :
    store_save lsn (Some c) w = (Ok tt, w') → store_open w c →
    store_open w' c ∧ pending w' c = Some lsn;
  store_load_law (c : C) w r w' :
    store_load w = (r, w') → store_open w c → store_open w' c ∧ pending w' c = pending w c;
  store_commit_law (c : C) w r w' :
    store_finish c false w = (r, w') → store_open w c →
    match r with
    | Ok _ => position w' = pending w c
    | Raise _ => position w' = position w ∨ position w' = pending w c
    end;
  store_rollback_law (c : C) w r w' :
    store_finish c true w = (r, w') → position w' = position w;
}.

(** PostgreSQL's: the handler's [async with pool.connection()]. *)
#[global] Instance postgres_transactions {D C} `{!Database D C, !Isolation D C} :
  CheckpointTransactions (PostgresCheckpointStore * D) C := {
  store_begin := on_db db_acquire;
  store_finish c failed := on_db (db_release c failed);
  store_open w c := in_transaction (snd w) c;
  pending w c := seen (snd w) c (_table (fst w)) (_consumer_name (fst w));
}.

#[global] Instance postgres_transactions_laws {D C} `{!Database D C, !Isolation D C} isprintable :
  DatabaseLaws D C → IsolationLaws D C →
  CheckpointTransactionsLaws (PostgresCheckpointStore * D) C
    (CheckpointStore0 := postgres_store isprintable).
Proof.
  intros Hdb Hiso. split.
  - intros [s d] r [s' d'] E. cbn in *. unfold on_db in E. cbn in E.
    destruct (db_acquire d) as [[c|e] d1] eqn:Ea; injection E as <- <- <-.
    + split; [by apply acquire_law in Ea as [-> _]|by eapply begin_law].
    + split; [by apply acquire_fails in Ea as ->|done].
  - intros lsn c [s d] [s' d'] E Hc. cbn in *. split; [by eapply save_keeps_open|].
    apply save_joined_cases in E as (_ & [-> ->] & Hs). by rewrite Hs, set_row_same.
  - intros c [s d] r [s' d'] E Hc. cbn in *. pose proof E as ([-> ->] & _)%load_cases.
    by eapply load_keeps_open.
  - intros c [s d] r [s' d'] E Hc. cbn in *. unfold on_db in E. cbn in E.
    destruct (db_release c false d) as [[u|e] d1] eqn:Er; injection E as <- <- <-.
    + by apply release_law in Er as ->.
    + by apply release_fails in Er as [-> | ->]; [left|right].
  - intros c [s d] r [s' d'] E. cbn in *. unfold on_db in E. cbn in E.
    destruct (db_release c true d) as [x d1] eqn:Er. injection E as <- <- <-.
    by apply release_failed in Er as ->.
Qed.
