(* ===== verification/Builder.v ===== *)
(** The public constructors ([walbox/builder.py]): a client wired to a Postgres
    checkpoint store, on connections of its own or on the application's pool. *)
From stdpp Require Import base tactics list numbers strings gmap.
From S2P Require Import Prelude PyStr Errors Abc Checkpoint Client.

(** Where a store's connections come from: [lambda: _connect(dsn)], or the
    pool's [connection] method. *)
Inductive acquire (Pool : Type) :=
| AdHoc (dsn : pystr)
| FromPool (pool : Pool).
Arguments AdHoc {Pool} dsn. Arguments FromPool {Pool} pool.

Section Builder.
Context {Pool : Type}.

(** A store: where it connects, and its state. *)
Record Built := mkBuilt {
  built_client : Client;
  built_acquire : acquire Pool;
  built_store : PostgresCheckpointStore;
}.

Definition default_table : pystr := lit "walbox_checkpoint".

(** [PostgresCheckpointStore.__init__] and [from_pool]. *)
Definition PostgresCheckpointStore_init (dsn consumer_name table : pystr) :
    acquire Pool * PostgresCheckpointStore := (AdHoc dsn, _configure consumer_name table).
Definition from_pool (pool : Pool) (consumer_name table : pystr) :
    acquire Pool * PostgresCheckpointStore := (FromPool pool, _configure consumer_name table).

Definition build (options : WalboxOptions) : Built :=
  let '(acquire, checkpoint_store) :=
    PostgresCheckpointStore_init (dsn options) (consumer_name options) default_table in
  mkBuilt (Client_init options) acquire checkpoint_store.

Definition build_with_pool (options : WalboxOptions) (pool : Pool) : Built :=
  let '(acquire, checkpoint_store) := from_pool pool (consumer_name options) default_table in
  mkBuilt (Client_init options) acquire checkpoint_store.
End Builder.
Arguments Built : clear implicits.

(** ** Consumers on one database

    What a client does with its store: a load, a save, or a handler's transaction on a
    connection of its own with saves that join it, which commits or fails. *)
Inductive store_op := OpLoad | OpSave (lsn : Z) | OpJoined (lsns : list Z) (fails : option exn).

Section Consumers.
Context {D C : Type} `{!Database D C} (isprintable : Z → bool).

Definition joined_saves (conn : C) (fails : option exn) :
    list Z → method (PostgresCheckpointStore * D) exn unit :=
  foldr (λ lsn rest, _ ← save lsn (Some conn); rest)
    match fails with Some e => raise e | None => mret tt end.

Definition store_does (op : store_op) : method (PostgresCheckpointStore * D) exn unit :=
  match op with
  | OpLoad => _ ← load (C := C) isprintable; mret tt
  | OpSave lsn => save (C := C) lsn None
  | OpJoined lsns fails => with_acquired (λ conn : C, joined_saves conn fails lsns)
  end.

(** The stores of a number of clients on one database, and their operations one after
    the other; what an operation raises is the client's business. *)
Fixpoint consumers_do (ops : list (nat * store_op)) (w : list PostgresCheckpointStore * D) :
    list PostgresCheckpointStore * D :=
  match ops with
  | [] => w
  | (i, op) :: rest =>
      consumers_do rest
        match w.1 !! i with
        | Some s => let '(_, (s', d)) := store_does op (s, w.2) in (<[i := s']> w.1, d)
        | None => w
        end
  end.
End Consumers.

Section isolation.
Context {D C : Type} `{DatabaseLaws D C} (isprintable : Z → bool).
Implicit Types (s : PostgresCheckpointStore) (d : D).

(** Two states of the tables that differ at most in the row of a store. *)
Definition only_row s (m m' : rows) : Prop :=
  ∀ t k, k ≠ _consumer_name s → m' t k = m t k.

#[local] Instance same_names_preorder : PreOrder same_names.
Proof. split; [by intros s|]. intros s1 s2 s3 [] []. split; congruence. Qed.

Lemma set_row_only s lsn m m' :
  (∀ t k, m' t k = set_row (_table s) (_consumer_name s) lsn m t k) → only_row s m m'.
Proof. intros E t k Hk. rewrite E. unfold set_row. rewrite bool_decide_false; [done|]. by intros [_ ?]. Qed.

Lemma joined_saves_only c fails lsns : ∀ s d r s' d',
  joined_saves c fails lsns (s, d) = (r, (s', d')) →
  durable d' = durable d ∧ same_names s s' ∧ (r = Ok tt → only_row s (seen d c) (seen d' c)).
Proof.
  induction lsns as [|lsn lsns IH]; intros s d r s' d'.
  - cbn. by destruct fails; intros [= <- <- <-].
  - cbn [joined_saves foldr]. unfold mbind, method_bind.
    destruct (save lsn (Some c) (s, d)) as [[[]|e] [s1 d1]] eqn:E;
      apply save_joined_cases in E as (Hd1 & Hn1 & Hs1); [|by intros [= <- <- <-]].
    intros Hrest. apply IH in Hrest as (Hd2 & Hn2 & Hs2). pose proof Hn1 as [E1 E2].
    pose proof Hn2 as [E3 E4]. split; [congruence|].
    split; [split; congruence|]. intros Hr t k Hk.
    rewrite Hs2 by (try done; congruence). by apply (set_row_only s lsn _ _ (Hs1 eq_refl)).
Qed.

(** An operation touches its own consumer's row only. *)
Lemma store_does_only op s d r s' d' :
  store_does (C := C) isprintable op (s, d) = (r, (s', d')) →
  same_names s s' ∧ only_row s (durable d) (durable d').
Proof.
  destruct op as [|lsn|lsns fails]; cbn [store_does].
  - unfold mbind, method_bind.
    destruct (load isprintable (s, d)) as [[v|e] [s1 d1]] eqn:E; apply load_cases in E as (Hn & Hd & _);
      intros [= <- <- <-]; (split; [done|]); intros t k _; by rewrite Hd.
  - intros [Hn Hr]%save_own_cases. split; [done|].
    destruct r; [by eapply set_row_only|destruct Hr as [->|Hr]; [done|by eapply set_row_only]].
  - intros [(Hd & -> & _)|(c & d0 & rb & d1 & Hd0 & Hs0 & Hb & Hr)]%acquired_cases;
      [split; [done|]; intros t k _; by rewrite Hd|].
    apply joined_saves_only in Hb as (Hd1 & Hn & Hs). split; [done|].
    rewrite Hs0 in Hs. intros t k Hk.
    destruct r as [[]|e], rb as [[]|e']; try done.
    + destruct Hr as [_ ->]. by apply Hs.
    + destruct Hr as [-> | ->]; [by rewrite Hd1, Hd0|by apply Hs].
    + by rewrite Hr, Hd1, Hd0.
Qed.

Lemma names_inserted ss i s s' :
  ss !! i = Some s → same_names s s' → Forall2 same_names ss (<[i := s']> ss).
Proof.
  intros Hi Hn. rewrite <- (list_insert_id ss i s) at 1 by done. by apply Forall2_insert.
Qed.

(** Operations keep every store's names, and a row whose consumer does none of them. *)
Lemma consumers_do_only ops : ∀ (ss : list PostgresCheckpointStore) d ss' d' t k,
  consumers_do (C := C) isprintable ops (ss, d) = (ss', d') →
  Forall2 same_names ss ss' ∧
  ((∀ i op s, (i, op) ∈ ops → ss !! i = Some s → _consumer_name s ≠ k) →
   durable d' t k = durable d t k).
Proof.
  induction ops as [|[i op] ops IH]; intros ss d ss' d' t k; [by intros [= <- <-]|].
  cbn [consumers_do fst snd]. destruct (ss !! i) as [s|] eqn:Hi; cycle 1.
  { intros E. destruct (IH _ _ _ _ t k E) as [Hn Hd]. split; [done|]. intros Hk. apply Hd.
    intros j op' s Hj. apply (Hk j op'). by right. }
  destruct (store_does isprintable op (s, d)) as [r [s1 d1]] eqn:E.
  apply store_does_only in E as [Hns Ho]. intros E.
  destruct (IH _ _ _ _ t k E) as [Hn Hd]. pose proof (names_inserted _ _ _ _ Hi Hns) as Hins.
  split; [by etrans|]. intros Hk. rewrite Hd.
  - apply Ho. intros ->. apply (Hk i op s); [by left|done|done].
  - intros j op' s0 Hj Hs0. destruct (Forall2_lookup_r _ _ _ _ _ Hins Hs0) as (s2 & Hs2 & [-> _]).
    apply (Hk j op'); [by right|done].
Qed.
End isolation.

(** ** Properties *)

(** The store of a client, built with or without a pool. *)
Definition store_of {Pool} (pool : Pool) (c : WalboxOptions * bool) : PostgresCheckpointStore :=
  built_store (if c.2 then build_with_pool c.1 pool else build c.1).

Lemma store_of_names {Pool} (pool : Pool) c :
  _consumer_name (store_of pool c) = consumer_name c.1 ∧ _table (store_of pool c) = default_table.
Proof. by destruct c as [o []]. Qed.

(** C36: Consumers are isolated: any number of clients, each built with or without a
    pool, share the checkpoint table of a database.  In every sequence of their loads,
    saves and handlers' transactions with joined saves, however each ends, a client's
    position is changed only by operations of clients with its consumer name: through
    any stretch without one its row keeps its value, and its load returns that value or
    raises. *)
Theorem built_consumers_isolated {Pool D C} `{DatabaseLaws D C} isprintable (pool : Pool)
    clients ops1 ops2 i o b (d : D) :
  clients !! i = Some (o, b) →
  (∀ j op o' b', (j, op) ∈ ops2 → clients !! j = Some (o', b') → consumer_name o' ≠ consumer_name o) →
  let '(ss1, d1) := consumers_do (C := C) isprintable ops1 (store_of pool <$> clients, d) in
  let '(ss2, d2) := consumers_do (C := C) isprintable ops2 (ss1, d1) in
  let position := durable d1 default_table (consumer_name o) in
  durable d2 default_table (consumer_name o) = position ∧
  ∃ s, ss2 !! i = Some s ∧
    match load (C := C) isprintable (s, d2) with (Ok v, _) => v = position | (Raise _, _) => True end.
Proof.
  intros Hi Hops. destruct (consumers_do isprintable ops1 _) as [ss1 d1] eqn:E1.
  destruct (consumers_do isprintable ops2 _) as [ss2 d2] eqn:E2. cbv zeta.
  destruct (consumers_do_only _ _ _ _ _ _ default_table (consumer_name o) E1) as [Hn1 _].
  destruct (consumers_do_only _ _ _ _ _ _ default_table (consumer_name o) E2) as [Hn2 Hd2].
  destruct (Forall2_lookup_l _ _ _ i (store_of pool (o, b)) Hn1) as (s1 & Hs1 & [N1 N2]);
    [by rewrite list_lookup_fmap, Hi|].
  destruct (Forall2_lookup_l _ _ _ _ _ Hn2 Hs1) as (s2 & Hs2 & [N3 N4]).
  destruct (store_of_names pool (o, b)) as [N5 N6].
  assert (Hd : durable d2 default_table (consumer_name o) = durable d1 default_table (consumer_name o)).
  { apply Hd2. intros j op s Hj Hs.
    destruct (Forall2_lookup_r _ _ _ _ _ Hn1 Hs) as (s0 & Hs0 & [-> _]).
    rewrite list_lookup_fmap in Hs0. destruct (clients !! j) as [c|] eqn:Hc; [|done].
    injection Hs0 as <-. rewrite (proj1 (store_of_names pool c)). destruct c. by eapply Hops. }
  split; [exact Hd|]. exists s2. split; [exact Hs2|].
  destruct (load isprintable (s2, d2)) as [[v|e] [s3 d3]] eqn:El; [|done].
  apply load_cases in El as (_ & _ & -> & _). by rewrite <- Hd, N4, N2, N6, N3, N1, N5.
Qed.

Definition orders : WalboxOptions :=
  mkWalboxOptions (lit "orders") (lit "d") (lit "s") (lit "p") 100 10 None.
Definition invoices : WalboxOptions :=
  mkWalboxOptions (lit "invoices") (lit "d") (lit "s2") (lit "p") 100 10 None.

(** Orders saves; then invoices loads, saves, and saves in a handler's transaction,
    first one that rolls back. *)
Lemma built_consumers_isolated_witness :
  let clients := [(orders, false); (invoices, true)] in
  let ops1 := [(0%nat, OpSave 539)] in
  let ops2 := [(1%nat, OpLoad); (1%nat, OpSave 700);
               (1%nat, OpJoined [701] (Some (HandlerError 1))); (1%nat, OpJoined [702; 703] None)] in
  let '(ss1, d1) := consumers_do (C := unit) (λ _, false) ops1 (store_of tt <$> clients, empty_memory) in
  let '(ss2, d2) := consumers_do (C := unit) (λ _, false) ops2 (ss1, d1) in
  durable d2 default_table (lit "orders") = Some 539 ∧
  durable d2 default_table (lit "invoices") = Some 703.
Proof.
  cbv zeta. set (clients := [_; _]). set (ops1 := [_]). set (ops2 := [_; _; _; _]).
  pose proof (built_consumers_isolated (C := unit) (λ _, false) tt clients ops1 ops2 0 orders false
                empty_memory eq_refl) as H.
  assert (H1 : durable (consumers_do (C := unit) (λ _, false) ops1 (store_of tt <$> clients, empty_memory)).2
                 default_table (lit "orders") = Some 539) by (vm_compute; reflexivity).
  assert (H2 : durable (consumers_do (C := unit) (λ _, false) ops2
                 (consumers_do (C := unit) (λ _, false) ops1 (store_of tt <$> clients, empty_memory))).2
                 default_table (lit "invoices") = Some 703) by (vm_compute; reflexivity).
  destruct (consumers_do (λ _, false) ops1 _) as [ss1 d1].
  destruct (consumers_do (λ _, false) ops2 _) as [ss2 d2].
  split; [|exact H2]. cbn [snd] in H1. rewrite <- H1. apply H. intros j op o' b' Hj Hc.
  assert (j = 1%nat) as ->.
  { unfold ops2 in Hj. repeat (apply elem_of_cons in Hj as [[= -> _]|Hj]; [done|]).
    by apply elem_of_nil in Hj. }
  injection Hc as <- _. vm_compute. congruence.
Defined.
