(* ===== verification/Deployed.v ===== *)
(** The deployed client: the event loop of [Client] with the calls of
    [checkpoint_store.load] and [save], and of the connection a handler joins its save
    to, made on a checkpoint store and its database, through the interfaces
    [CheckpointStore] and [CheckpointTransactions], instead of the position [Client]
    assumes for them.  The refinement says that this is the client of [Client], so its
    theorems hold of the client on PostgreSQL. *)
From stdpp Require Import base tactics list numbers strings gmap.
From S2P Require Import Prelude PyStr Errors PyFloat PyBytes Protocol Pgoutput PgoutputSpec Abc.
From S2P Require Import Client ClientSpec ClientSession Checkpoint Isolation.

Section Deployed.
Context {W C : Type} `{!CheckpointStore W C, !CheckpointTransactions W C}.

(** The client, the store with its database, the handler's connection once a save has
    joined it, and (ghost) the positions the store has held.  The field [stored] of the
    client's world is what the last [load] returned. *)
Record Deployment := mkDeployment {
  dep_world : World;
  dep_store : W;
  dep_txn : option C;
  held : list Z;
}.

Definition with_stored v w := mkWorld (client w) v (uncommitted w) (phase w) (history w).

(** The database changed, and with it perhaps the position the store holds. *)
Definition now_holds (w : World) (s : W) (txn : option C) (d : Deployment) : Deployment :=
  mkDeployment w s txn (held d ++ option_list (position s)).

(** [await self.checkpoint_store.load()] in [_run_once]. *)
Definition deployed_load (d : Deployment) : Deployment :=
  let '(r, s) := store_load (dep_store d) in
  mkDeployment
    match r with
    | Ok v => loaded None (with_stored v (dep_world d))
    | Raise e => loaded (Some e) (dep_world d)
    end s (dep_txn d) (held d).

(** The store's own [save] inside [CheckpointHandle.save]: it returns, or raises in the
    handler. *)
Definition deployed_save (t : Transaction) (started : float) (lsn : Z) (save_started : float)
    (r : receiver) (d : Deployment) : Deployment :=
  let '(res, s) := store_save lsn None (dep_store d) in
  now_holds
    (with_phase
       (Streaming r match res with
                    | Ok _ => CSaving t started lsn save_started false true
                    | Raise _ => CHandling t started
                    end) (dep_world d))
    s (dep_txn d) d.

(** The handler's block on its connection ends: with an exception, or without. *)
Definition rolls_back (d : Deployment) : Deployment :=
  mkDeployment (with_uncommitted None (dep_world d))
    match dep_txn d with
    | Some c => snd (store_finish c true (dep_store d))
    | None => dep_store d
    end None (held d).

Definition commits (d : Deployment) : option Deployment :=
  match dep_txn d with
  | Some c =>
      let s := snd (store_finish c false (dep_store d)) in
      Some (now_holds (with_uncommitted None (dep_world d)) s None d)
  | None => None
  end.

(** The connection of the handler's transaction; a first save opens it. *)
Definition handler_connection (d : Deployment) : py C * W :=
  match dep_txn d with
  | Some c => (Ok c, dep_store d)
  | None => store_begin (dep_store d)
  end.

(** The [save] that joins it.  A statement that fails ends the transaction. *)
Definition deployed_joined (t : Transaction) (started : float) (lsn : Z) (save_started : float)
    (r : receiver) (d : Deployment) : Deployment :=
  let failed := with_phase (Streaming r (CHandling t started)) (dep_world d) in
  match handler_connection d with
  | (Raise _, s) => mkDeployment failed s None (held d)
  | (Ok c, s) =>
      match store_save lsn (Some c) s with
      | (Ok _, s) =>
          mkDeployment
            (with_phase (Streaming r (CSaving t started lsn save_started true true))
               (with_uncommitted (Some lsn) (dep_world d)))
            s (Some c) (held d)
      | (Raise _, s) => rolls_back (mkDeployment failed s (Some c) (held d))
      end
  end.

(** A save of the store's own waits for the row while a transaction that wrote it is
    open. *)
Definition deployed_step (ev : event) (d : Deployment) : option Deployment :=
  match ev with
  | ELoad _ => match phase (dep_world d) with Loading => Some (deployed_load d) | _ => None end
  | EStore =>
      match phase (dep_world d), dep_txn d with
      | Streaming r (CSaving t started lsn save_started true false), _ =>
          Some (deployed_joined t started lsn save_started r d)
      | Streaming r (CSaving t started lsn save_started false false), None =>
          Some (deployed_save t started lsn save_started r d)
      | _, _ => None
      end
  | ESaveFails => None
  | ECallerCommits => commits d
  | ECallerRollsBack => Some (rolls_back d)
  | _ => w ← step ev (dep_world d); Some (mkDeployment w (dep_store d) (dep_txn d) (held d))
  end.

Fixpoint deployed_steps (evs : list event) (d : Deployment) : option Deployment :=
  match evs with
  | [] => Some d
  | ev :: rest => d' ← deployed_step ev d; deployed_steps rest d'
  end.

(** [run] on a fresh client and a store. *)
Definition deployed_start (o : WalboxOptions) (s : W) : Deployment :=
  mkDeployment (run_start o None) s None (option_list (position s)).
End Deployed.
Arguments Deployment : clear implicits.

(** ** The refinement *)

Definition set_committed cs h := mkHistory (wire h) (starts h) cs (handled h)
  (delivered h) (completed h) (dropped h) (delays h) (reports h).

(** The client's world with the store's position put in its place. *)
Definition restore (v : option Z) (cs : list Z) (w : World) : World :=
  mkWorld (client w) v (uncommitted w) (phase w) (set_committed cs (history w)).

(** The events between which the client does not talk to the store. *)
Definition storeless (ev : event) : bool :=
  match ev with
  | ELoad _ | EStore | ECallerCommits | ECallerRollsBack => false
  | _ => true
  end.

Lemma restore_catches v cs e w : run_catches e (restore v cs w) = restore v cs (run_catches e w).
Proof. unfold run_catches. cbn. by repeat case_match. Qed.

Lemma restore_receive v cs payload now clock c w :
  receive_frame payload now clock c (restore v cs w) = restore v cs (receive_frame payload now clock c w).
Proof. unfold receive_frame. cbn. destruct (_handle_frame _ _ _ _) as [[[]|] self]; done. Qed.

Lemma restore_joined v cs x y clock w :
  tasks_joined x y clock (restore v cs w) = restore v cs (tasks_joined x y clock w).
Proof.
  unfold tasks_joined. cbn. destruct (_ ++ _); [|case_match; [apply restore_catches|done]].
  destruct (_send_status_update _ _ _) as [[]]; [done|]. apply (restore_catches v cs _ (with_client _ w)).
Qed.

Lemma restore_inner v cs ev i w :
  inner_event ev i (restore v cs w) = (λ p, (p.1, restore v cs p.2)) <$> inner_event ev i w.
Proof.
  unfold inner_event. destruct ev, i as [[]|t []]; try done. cbn.
  by destruct (put_wakes _ _) as [[[]]|].
Qed.

Lemma restore_receiver v cs ev r c w :
  receiver_event ev r c (restore v cs w) = restore v cs <$> receiver_event ev r c w.
Proof.
  assert (Hinner : ∀ f : inner_task → receiver,
    ('(i', w') ← inner_event ev match r with RWaiting i | RUpdating i => i | _ => ReadTask None end
                   (restore v cs w); Some (with_phase (Streaming (f i') c) w')) =
    restore v cs <$>
    ('(i', w') ← inner_event ev match r with RWaiting i | RUpdating i => i | _ => ReadTask None end w;
     Some (with_phase (Streaming (f i') c) w'))).
  { intros f. rewrite restore_inner. by destruct (inner_event _ _ w) as [[]|]. }
  destruct ev, r as [i|i| |]; try done; try apply Hinner; try (by destruct r0).
  - cbn. unfold receiver_resumes. destruct i as [[[]|]|t [[]|]]; try done. cbn.
    by rewrite restore_receive.
  - cbn. unfold timer_fires. cbn. destruct (inner_done i); [done|]. destruct (_closing _); [done|].
    by destruct (_send_status_update _ _ _) as [[]].
Qed.

Lemma restore_streaming v cs ev r c w :
  storeless ev = true →
  streaming_event ev r c (restore v cs w) = restore v cs <$> streaming_event ev r c w.
Proof.
  intros Hev. destruct ev; try done; try apply restore_receiver; cbn.
  - destruct c; try done. cbn. unfold consumer_gets. cbn. by destruct (get_wakes _) as [[[]]|].
  - destruct c; try done. cbn. unfold save_begins. by case_match.
  - by destruct c as [| |? ? ? ? ? []|].
  - by destruct c.
  - by destruct c.
  - by destruct c.
  - destruct r, c; try done; cbn; by case_match.
  - destruct r, c; try done. cbn. by rewrite restore_joined.
Qed.

(** A step that does not talk to the store does not depend on what it holds. *)
Lemma step_restore v cs ev w :
  storeless ev = true → step ev (restore v cs w) = restore v cs <$> step ev w.
Proof.
  intros Hev. pose proof (λ r c, restore_streaming v cs ev r c w Hev) as Hs.
  assert (Htop : ∀ w, run_top (restore v cs w) = restore v cs (run_top w)) by done.
  destruct ev; try done; cbn [step]; try (by unfold run_cancelled; cbn; destruct (phase w));
    cbn [restore phase]; destruct (phase w) as [|l st|r0 c0|[]| |]; try done; try apply Hs;
    try (destruct r; try done); cbn; try (by rewrite restore_catches).
  by destruct st.
Qed.

(** Nor does it change what the handler's transaction holds. *)
Lemma uncommitted_catches e w : uncommitted (run_catches e w) = uncommitted w.
Proof. unfold run_catches. by repeat case_match. Qed.

Lemma step_uncommitted ev w w' :
  storeless ev = true → step ev w = Some w' → uncommitted w' = uncommitted w.
Proof.
  intros Hev H. destruct ev; try done; step_cases H; try done; rewrite ?uncommitted_catches; try done.
  - unfold connection_step. destruct r; [by destruct stage|by apply uncommitted_catches].
  - unfold receive_frame. by destruct (_handle_frame _ _ _ _) as [[[]|] self].
  - unfold save_begins. by case_match.
  - unfold tasks_joined. case_match; [|case_match; by rewrite ?uncommitted_catches].
    destruct (_send_status_update _ _ _) as [[]]; [done|]. by rewrite uncommitted_catches.
Qed.

Section Refinement.
Context {W C : Type} `{CheckpointStoreLaws W C} `{!CheckpointTransactions W C}.
Context `{!CheckpointTransactionsLaws W C}.
Implicit Types d : Deployment W C.

(** A deployment and the world of [Client] it behaves as: everything but the store is
    the same, that world holds the position the store holds, and the position it has as
    uncommitted is the one the handler's transaction would commit. *)
Record refines d (w : World) : Prop := {
  ref_world : ∃ cs, w = restore (position (dep_store d)) cs (dep_world d) ∧ cs ⊆ held d;
  ref_txn :
    match dep_txn d with
    | Some c => store_open (dep_store d) c ∧ ∃ l,
        uncommitted (dep_world d) = Some l ∧ pending (dep_store d) c = Some l
    | None => uncommitted (dep_world d) = None
    end;
}.

(** The client's steps for one of the deployment's. *)
Definition simulated (ev : event) d (w : World) : Prop :=
  ∃ evs w', (own_connection ev = true → forallb own_connection evs = true) ∧
    steps evs w = Some w' ∧ refines d w'.

Lemma simulates ev evs d w w' :
  (own_connection ev = true → forallb own_connection evs = true) → steps evs w = Some w' →
  refines d w' → simulated ev d w.
Proof. intros H1 H2 H3. by exists evs, w'. Qed.

Lemma held_more (v : option Z) lsn (cs hs : list Z) : cs ⊆ hs → v = Some lsn → cs ++ [lsn] ⊆ hs ++ option_list v.
Proof. intros Hcs -> x. rewrite !elem_of_app. intros [Hx|Hx]; [left; by apply Hcs|by right]. Qed.

Lemma held_same (v : option Z) (cs hs : list Z) : cs ⊆ hs → cs ⊆ hs ++ option_list v.
Proof. intros Hcs x Hx. apply elem_of_app. left. by apply Hcs. Qed.

Lemma uncommitted_loaded fails w : uncommitted (loaded fails w) = uncommitted w.
Proof. destruct fails; [by apply uncommitted_catches|done]. Qed.

Lemma deployed_load_refines fails d w :
  refines d w → phase (dep_world d) = Loading → simulated (ELoad fails) (deployed_load d) w.
Proof.
  intros [(cs & -> & Hcs) Htxn] Hp. unfold deployed_load.
  destruct (store_load (dep_store d)) as [r s] eqn:E. pose proof E as [Hs Hr]%load_law.
  eapply (simulates _ [ELoad match r with Ok _ => None | Raise e => Some e end]); [done| |].
  - cbn [steps step restore phase]. by rewrite Hp.
  - split; cbn [dep_store dep_world dep_txn held].
    + exists cs. split; [|done]. rewrite Hs. destruct r as [v|e]; cbn; [|by rewrite restore_catches].
      by rewrite Hr.
    + assert (Hu : ∀ u, uncommitted (dep_world d) = u → uncommitted match r with
        | Ok v => loaded None (with_stored v (dep_world d))
        | Raise e => loaded (Some e) (dep_world d) end = u)
        by (intros u <-; destruct r; by rewrite ?uncommitted_loaded).
      destruct (dep_txn d) as [c|]; [|by apply Hu]. destruct Htxn as (Ho & l & Hl & Hp').
      destruct (store_load_law c _ _ _ E Ho) as [Ho' ->]. split; [done|]. exists l. by split; [apply Hu|].
Qed.

Lemma deployed_save_refines t started lsn save_started r d w :
  refines d w → phase (dep_world d) = Streaming r (CSaving t started lsn save_started false false) →
  dep_txn d = None → simulated EStore (deployed_save t started lsn save_started r d) w.
Proof.
  intros [(cs & -> & Hcs) Htxn] Hp Hnone. unfold deployed_save, now_holds. rewrite Hnone in *.
  destruct (store_save lsn None (dep_store d)) as [res s] eqn:E. apply save_law in E.
  assert (Hcase : (position s = Some lsn ∧ simulated EStore
            (mkDeployment (with_phase (Streaming r match res with
               | Ok _ => CSaving t started lsn save_started false true
               | Raise _ => CHandling t started end) (dep_world d)) s None
               (held d ++ option_list (position s)))
            (restore (position (dep_store d)) cs (dep_world d))) ∨
          (position s = position (dep_store d) ∧ ∃ e, res = Raise e)).
  { destruct res as [u|e]; [left|destruct E as [E|E]; [right; split; [done|by eexists]|left]];
      (split; [done|]).
    - eapply (simulates _ [EStore]); [done|cbn [steps step restore phase]; by rewrite Hp|].
      split; [|exact Htxn]. exists (cs ++ [lsn]). split; cbn; [by rewrite E|by apply held_more].
    - eapply (simulates _ [EStore; ESaveFails]); [done|cbn [steps step restore phase]; by rewrite Hp|].
      split; [|exact Htxn]. exists (cs ++ [lsn]). split; cbn; [by rewrite E|by apply held_more]. }
  destruct Hcase as [[_ ?]|[Hs [e ->]]]; [done|].
  eapply (simulates _ [ESaveFails]); [done|cbn [steps step restore phase]; by rewrite Hp|].
  split; [|exact Htxn]. exists cs. split; cbn; [by rewrite Hs|by apply held_same].
Qed.

Lemma rolls_back_refines d cs :
  cs ⊆ held d →
  refines (rolls_back d)
    (restore (position (dep_store d)) cs (with_uncommitted None (dep_world d))).
Proof.
  intros Hcs. split; [|done]. exists cs. split; [|done]. cbn.
  destruct (dep_txn d) as [c|]; [|done]. destruct (store_finish c true (dep_store d)) as [r s] eqn:E.
  by rewrite (store_rollback_law c _ _ _ E).
Qed.

Lemma commits_refines d d' w :
  refines d w → commits d = Some d' → simulated ECallerCommits d' w.
Proof.
  intros [(cs & -> & Hcs) Htxn] Hd. unfold commits in Hd. destruct (dep_txn d) as [c|]; [|done].
  injection Hd as <-. destruct Htxn as (Ho & l & Hu & Hp).
  destruct (store_finish c false (dep_store d)) as [r s] eqn:E. cbn [snd].
  apply store_commit_law in E; [|done]. rewrite Hp in E.
  assert (Hcase : position s = Some l ∨ position s = position (dep_store d))
    by (destruct r; [by left|destruct E; [by right|by left]]).
  destruct Hcase as [Hs|Hs].
  - eapply (simulates _ [ECallerCommits]); [done|cbn; unfold caller_commits; cbn; by rewrite Hu|].
    split; [|done]. exists (cs ++ [l]). split; cbn; [by rewrite Hs|by apply held_more].
  - eapply (simulates _ [ECallerRollsBack]); [done|done|].
    split; [|done]. exists cs. split; cbn; [by rewrite Hs|by apply held_same].
Qed.

(** A first joined save opens the transaction. *)
Lemma joins_opens d r s w :
  refines d w → handler_connection d = (r, s) →
  position s = position (dep_store d) ∧
  match r with Ok c => store_open s c | Raise _ => uncommitted (dep_world d) = None end.
Proof.
  intros [_ Htxn]. unfold handler_connection. destruct (dep_txn d) as [c|].
  - intros [= <- <-]. by destruct Htxn.
  - intros E%store_begin_law. destruct E as [? E]. split; [done|]. by destruct r.
Qed.

Lemma deployed_joined_refines t started lsn save_started r d w :
  refines d w → phase (dep_world d) = Streaming r (CSaving t started lsn save_started true false) →
  simulated EStore (deployed_joined t started lsn save_started r d) w.
Proof.
  intros HR Hp. unfold deployed_joined. destruct (handler_connection d) as [rc s] eqn:Ej.
  destruct (joins_opens _ _ _ _ HR Ej) as [Hs Ho]. destruct HR as [(cs & -> & Hcs) Htxn].
  destruct rc as [c|e]; cycle 1.
  { eapply (simulates _ [ESaveFails]); [done|cbn [steps step restore phase]; by rewrite Hp|].
    split; [|done]. exists cs. split; [cbn; by rewrite Hs|done]. }
  destruct (store_save lsn (Some c) s) as [[[]|e] s1] eqn:E;
    pose proof (save_joined_law _ _ _ _ _ E) as Hs1.
  - destruct (store_joined_law _ _ _ _ E Ho) as [Ho1 Hl1].
    eapply (simulates _ [EStore]); [done|cbn [steps step restore phase]; by rewrite Hp|].
    split; [|split; [done|by exists lsn]]. exists cs. split; [cbn; by rewrite Hs1, Hs|done].
  - eapply (simulates _ [ESaveFails; ECallerRollsBack]);
      [done|cbn [steps step restore phase]; by rewrite Hp|].
    cbn [app]. rewrite <- Hs, <- Hs1. by apply rolls_back_refines.
Qed.

Lemma deployed_step_refines ev d d' w :
  refines d w → deployed_step ev d = Some d' → simulated ev d' w.
Proof.
  intros HR. unfold deployed_step.
  assert (Hplain : storeless ev = true →
    (w ← step ev (dep_world d); Some (mkDeployment w (dep_store d) (dep_txn d) (held d))) = Some d' →
    simulated ev d' w).
  { intros Hst. destruct HR as [(cs & -> & Hcs) Htxn].
    destruct (step ev (dep_world d)) as [w1|] eqn:E; [|done]. intros [= <-].
    exists [ev]. eexists. split; [cbn; by intros ->|].
    cbn [steps]. rewrite step_restore, E by done. split; [done|]. split; [by exists cs|].
    cbn. by rewrite (step_uncommitted _ _ _ Hst E). }
  destruct ev; try (by apply Hplain); try done.
  - destruct (phase (dep_world d)) eqn:Hp; try done. intros [= <-]. by apply deployed_load_refines.
  - destruct (phase (dep_world d)) as [| |r [| |t started lsn ss [] []|]| | |] eqn:Hp; try done.
    + intros [= <-]. by apply deployed_joined_refines.
    + destruct (dep_txn d) eqn:Ht; [done|]. intros [= <-]. by apply deployed_save_refines.
  - by apply commits_refines.
  - intros [= <-]. destruct HR as [(cs & -> & Hcs) _].
    eapply (simulates _ [ECallerRollsBack]); [done|done|]. by apply rolls_back_refines.
Qed.

Lemma deployed_steps_refine evs d d' w :
  refines d w → deployed_steps evs d = Some d' →
  ∃ evs' w', (forallb own_connection evs = true → forallb own_connection evs' = true) ∧
    steps evs' w = Some w' ∧ refines d' w'.
Proof.
  revert d w. induction evs as [|ev evs IH]; intros d w HR Hd.
  { injection Hd as <-. by exists [], w. }
  cbn in Hd. destruct (deployed_step ev d) as [d1|] eqn:E; [|done].
  apply (deployed_step_refines _ _ _ _ HR) in E as (evs1 & w1 & Hok1 & Hs1 & HR1).
  apply (IH d1 w1 HR1) in Hd as (evs2 & w2 & Hok2 & Hs2 & HR2).
  exists (evs1 ++ evs2), w2. split.
  - cbn. intros [H1 H2]%andb_true_iff. by rewrite forallb_app, Hok1, Hok2.
  - split; [|done]. by rewrite steps_app, Hs1.
Qed.

Lemma start_refines o (s : W) : refines (deployed_start o s) (run_start o (position s)).
Proof.
  split; [|done]. exists (option_list (position s)). split; [|done].
  unfold restore, deployed_start. cbn. by destruct (position s).
Qed.
End Refinement.

(** ** Properties *)

(** C3: The deployed client refines [Client]: every run of the client on a
    [PostgresCheckpointStore], on any database that keeps PostgreSQL's transaction
    guarantees, whatever its operations return or raise, is a run of [Client] started
    from the position in the database, ending with the same client, phase and
    observations, with the position the database holds, and with the one the handler's
    open transaction would commit as uncommitted.  Handlers save on the store's own
    connection or join a transaction that commits or rolls back later; a run whose saves
    are all the store's own is one of [Client]'s. *)
Theorem deployed_client_refines {D C} `{DatabaseLaws D C} `{!Isolation D C, !IsolationLaws D C}
    isprintable o s (db : D) evs (d : Deployment (PostgresCheckpointStore * D) C) :
  let _ := postgres_store isprintable in
  deployed_steps evs (deployed_start o (s, db)) = Some d →
  ∃ evs' cs, (forallb own_connection evs = true → forallb own_connection evs' = true) ∧
    steps evs' (run_start o (durable db (_table s) (_consumer_name s))) =
      Some (restore (position (dep_store d)) cs (dep_world d)) ∧ cs ⊆ held d ∧
    uncommitted (dep_world d) = match dep_txn d with Some c => pending (dep_store d) c | None => None end.
Proof.
  intros st Hd. destruct (deployed_steps_refine _ _ _ _ (start_refines o (s, db)) Hd)
    as (evs' & w' & Hok & Hs & [(cs & -> & Hcs) Htxn]). exists evs', cs. split_and!; try done.
  destruct (dep_txn d) as [c|]; [|done]. by destruct Htxn as (_ & l & -> & ->).
Qed.

(** C5: The server hears only what the database has held: in every run of the deployed
    client in which handlers save on the store's own connection, each status update
    reports one position as flushed and applied, zero or at most a position the
    checkpoint table has held. *)
Theorem deployed_feedback_held {D C} `{DatabaseLaws D C} `{!Isolation D C, !IsolationLaws D C}
    isprintable o s (db : D) evs (d : Deployment (PostgresCheckpointStore * D) C) f :
  let _ := postgres_store isprintable in
  forallb own_connection evs = true →
  deployed_steps evs (deployed_start o (s, db)) = Some d → f ∈ wire (history (dep_world d)) →
  ∃ written flushed, told f = Some (written, flushed + 1, flushed + 1) ∧
    (flushed = 0 ∨ ∃ v, v ∈ held d ∧ flushed <= v).
Proof.
  intros st Hown Hd Hf. destruct (deployed_steps_refine _ _ _ _ (start_refines o (s, db)) Hd)
    as (evs' & w' & Hok & Hs & [(cs & -> & Hcs) _]).
  pose proof (steps_inv own_connection feedback_inv evs' _ _ feedback_step (Hok Hown)
                (feedback_init o _) Hs) as HI.
  destruct (fi_wire _ HI f Hf) as (written & flushed & Ht & Hc).
  exists written, flushed. split; [done|]. destruct Hc as [?|(v & Hv & Hle)]; [by left|right].
  exists v. split; [by apply Hcs|done].
Qed.

(** A database that holds position 99; [lost] lists its operations that fail. *)
Definition orders_server (lost : list bool) : Server :=
  mkServer {[ (lit "walbox_checkpoint", lit "orders") := 99 ]} {[ lit "walbox_checkpoint" ]} ∅ lost.

#[local] Instance orders_checkpoint : CheckpointStore (PostgresCheckpointStore * Server) nat :=
  postgres_store (λ _, false).

(** The handler saves on its own connection and rolls back, saves again, the server is
    told, and the transaction commits. *)
Definition joined_deployed_run : list event :=
  take 11 sample_run ++
  [ ESave 539 true f_zero; EStore; ESaved f_zero; ECallerRollsBack;
    ESave 539 true f_zero; EStore; ESaved f_zero; ETimer 7; ECallerCommits ].

Definition joined_deployment (n : nat) : option (Deployment (PostgresCheckpointStore * Server) nat) :=
  deployed_steps (take n joined_deployed_run) (deployed_start sample_options (sample_store, orders_server [])).

Lemma deployed_client_refines_witness :
  option_map (λ d, (position (dep_store d), dep_txn d)) (joined_deployment 14) = Some (Some 99, Some 1%nat) ∧
  match joined_deployment 20 with
  | Some d => held d = [99; 539] ∧ position (dep_store d) = Some 539 ∧
      uncommitted (dep_world d) = None ∧ ∃ evs' cs,
      steps evs' (run_start sample_options (Some 99)) = Some (restore (Some 539) cs (dep_world d))
  | None => False
  end.
Proof.
  split; [vm_compute; reflexivity|].
  assert (Hd : (λ d, (held d, position (dep_store d), dep_txn d)) <$> joined_deployment 20
               = Some ([99; 539], Some 539, None)) by (vm_compute; reflexivity).
  destruct (joined_deployment 20) as [d|] eqn:E; [|done]. injection Hd as Hh Hp Ht.
  split; [exact Hh|]. split; [exact Hp|].
  destruct (deployed_client_refines (λ _, false) sample_options sample_store (orders_server []) _ d E)
    as (evs' & cs & _ & Hs & _ & Hu). rewrite Ht in Hu. split; [exact Hu|].
  exists evs', cs. change (position (dep_store d) = Some 539) in Hp. by rewrite <- Hp.
Defined.

(** The sample run on a PostgreSQL that loses the connection right after the first
    save's commit: the save raises although it is durable, and the handler saves
    again. *)
Definition deployed_run : list event :=
  take 12 sample_run ++ [EStore; ESave 539 false f_zero; EStore; ESaved f_zero; ETimer 7].

Definition flaky_server : Server := orders_server (replicate 8 false ++ [true]).

Lemma deployed_feedback_held_witness :
  match deployed_steps (C := nat) deployed_run (deployed_start sample_options (sample_store, flaky_server)) with
  | Some d => told <$> wire (history (dep_world d)) = [Some (1, 100, 100); Some (501, 540, 540)] ∧
      held d = [99; 539; 539] ∧
      ∀ f, f ∈ wire (history (dep_world d)) → ∃ written flushed,
        told f = Some (written, flushed + 1, flushed + 1) ∧
        (flushed = 0 ∨ ∃ v, v ∈ held d ∧ flushed <= v)
  | None => False
  end.
Proof.
  assert (Hd : (λ d, (told <$> wire (history (dep_world d)), held d)) <$>
                 deployed_steps (C := nat) deployed_run (deployed_start sample_options (sample_store, flaky_server))
               = Some ([Some (1, 100, 100); Some (501, 540, 540)], [99; 539; 539])) by (vm_compute; reflexivity).
  destruct (deployed_steps _ _) as [d|] eqn:E; [|done]. injection Hd as Hw Hh.
  split; [exact Hw|]. split; [exact Hh|].
  intros f Hf. exact (deployed_feedback_held (λ _, false) sample_options sample_store flaky_server
           deployed_run d f eq_refl E Hf).
Defined.
