(* ===== verification/Handlers.v ===== *)
(** The example applications' handlers ([examples/broker.py], [examples/metrics.py])
    and the wiring their [main] functions do.  The broker is an interface, as the
    source's [publish_to_broker] is a stand-in for one; the log of the metrics
    example is an instance of it. *)
From stdpp Require Import base tactics list numbers strings gmap.
From S2P Require Import Prelude PyStr Errors PyFloat Pgoutput PyBytes Abc Client ClientSpec Checkpoint Builder.

(** ** The outbox filter *)

Definition published_table : pystr := lit "public.published_table".

(** The changes every example acts on: inserts into the published table. *)
Definition is_published (change : ChangeEvent) : bool :=
  bool_decide (table change = published_table) && bool_decide (kind change = INSERT).

Definition published_rows (tx : Transaction) : list (option row) :=
  new <$> filter is_published (tx_changes tx).

(** ** The broker example *)

(** What a broker does with a payload; [published] is what it has taken, in
    order.  A publish that fails may have been taken or not. *)
Class Broker (B : Type) := {
  publish_to_broker : option row → method B exn unit;
  published : B → list (option row);
}.

Class BrokerLaws (B : Type) `{!Broker B} : Prop := {
  publish_law payload b r b' :
    publish_to_broker payload b = (r, b') →
    match r with
    | Ok _ => published b' = published b ++ [payload]
    | Raise _ => published b' = published b ∨ published b' = published b ++ [payload]
    end;
}.

(** The source's own stand-in: the log lines it writes. *)
#[export] Instance log_broker : Broker (list (option row)) := {
  publish_to_broker payload := modify_self (λ lines, lines ++ [payload]);
  published lines := lines;
}.

#[export] Instance log_broker_laws : BrokerLaws (list (option row)).
Proof. split. by intros payload b r b' [= <- <-]. Qed.

Section Handlers.
Context {B W C : Type} `{!Broker B} `{!CheckpointStore W C}.

(** What a handler acts on: the broker, the store and the positions the client
    was told. *)
Record Sinks := mkSinks { broker : B; store : W; told_positions : list Z }.

Definition on_broker {A} (m : method B exn A) : method Sinks exn A := λ w,
  let '(r, b) := m (broker w) in (r, mkSinks b (store w) (told_positions w)).
Definition on_store {A} (m : method W exn A) : method Sinks exn A := λ w,
  let '(r, s) := m (store w) in (r, mkSinks (broker w) s (told_positions w)).

(** The handle [_process] builds for a transaction. *)
Definition process_handle (tx : Transaction) : CheckpointHandle Sinks C :=
  mkCheckpointHandle (λ lsn connection, on_store (store_save lsn connection))
    (Some (λ lsn _, modify_self (λ w,
       mkSinks (broker w) (store w) (told_positions w ++ [lsn]))))
    (Some (tx_commit_lsn tx)).

(** [handle] of [broker.py]; [started_at] and [now] are the clock readings of
    the save. *)
Definition broker_handle (tx : Transaction) (checkpoint : CheckpointHandle Sinks C)
    (started_at now : float) : method Sinks exn unit :=
  _ ← for_each (λ change,
        if is_published change then on_broker (publish_to_broker (new change)) else mret tt)
      (tx_changes tx);
  CheckpointHandle_save checkpoint (tx_commit_lsn tx) None started_at now.
End Handlers.

Arguments Sinks : clear implicits.
Arguments mkSinks {B W}. Arguments broker {B W}. Arguments store {B W}.
Arguments told_positions {B W}.

(** [handle] of [metrics.py]: the same loop, logging each row. *)
Definition metrics_handle {W C} :
    Transaction → CheckpointHandle (Sinks (list (option row)) W) C → float → float →
    method (Sinks (list (option row)) W) exn unit :=
  broker_handle.

(** ** The metrics example *)

(** [on_metrics_good]: a snapshot that finds the queue full is dropped. *)
Definition on_metrics_good (metrics : Metrics) : method (Queue Metrics) exn unit := λ queue,
  match put_nowait metrics queue with
  | (Raise QueueFull, queue') => (Ok tt, queue')
  | r => r
  end.

(** The queue and what [export_metrics] has exported. *)
Record Exporter := mkExporter { metrics_queue : Queue Metrics; exported : list Metrics }.

Definition Exporter_init : Exporter := mkExporter (mkQueue [] 100 false) [].

(** One turn of the loop of [export_metrics]: [None] while it waits. *)
Definition export_metrics (e : Exporter) : option Exporter :=
  match get_wakes (metrics_queue e) with
  | Some (Ok m, q) => Some (mkExporter q (exported e ++ [m]))
  | _ => None
  end.

(** The client reports, the exporter exports. *)
Inductive metrics_event := MReport (m : Metrics) | MExport.

Definition metrics_step (ev : metrics_event) (e : Exporter) : Exporter :=
  match ev with
  | MReport m => mkExporter (snd (on_metrics_good m (metrics_queue e))) (exported e)
  | MExport => default e (export_metrics e)
  end.

Definition metrics_run (evs : list metrics_event) : Exporter :=
  foldl (λ e ev, metrics_step ev e) Exporter_init evs.

Definition reported (evs : list metrics_event) : list Metrics :=
  omap (λ ev, match ev with MReport m => Some m | MExport => None end) evs.

(** ** [main] *)

Definition example_options (consumer : pystr) (dsn : pystr)
    (on_metrics : option (Metrics → py unit)) : WalboxOptions :=
  mkWalboxOptions consumer dsn (lit "published_table_slot") (lit "walbox_pub") 100 10 on_metrics.

(** The four [main]s up to [run]: the environment's DSN, the options, the client
    on the pool. *)
Definition example_main {Pool : Type} (consumer : string) (on_metrics : option (Metrics → py unit))
    (environ : gmap pystr pystr) (pool : Pool) : py (Built Pool) :=
  match environ !! lit "WALBOX_DSN" with
  | None => Raise KeyError
  | Some dsn =>
      let options := example_options (lit consumer) dsn on_metrics in
      _ ← WalboxOptions_post_init options;
      Ok (build_with_pool options pool)
  end.

Definition broker_main {Pool : Type} := @example_main Pool "broker-consumer" None.
Definition concurrency_main {Pool : Type} := @example_main Pool "concurrency-consumer" None.
Definition postgres_main {Pool : Type} := @example_main Pool "postgres-sink-consumer" None.
(** The callback only queues the snapshot and never raises ([on_metrics_good]). *)
Definition metrics_main {Pool : Type} := @example_main Pool "metrics-consumer" (Some (λ _, Ok tt)).

(** ** Lemmas *)

Section handler_lemmas.
Context {B W C : Type} `{BrokerLaws B} `{CheckpointStoreLaws W C}.
Implicit Types (w : Sinks B W).

(** The loop takes a prefix of the rows, all of them when it ends normally, and
    touches nothing but the broker. *)
Lemma publish_loop changes w r w' :
  for_each (λ change,
    if is_published change then on_broker (publish_to_broker (new change)) else mret tt)
    changes w = (r, w') →
  store w' = store w ∧ told_positions w' = told_positions w ∧
  ∃ sent, published (broker w') = published (broker w) ++ sent ∧
    sent `prefix_of` (new <$> filter is_published changes) ∧
    (r = Ok tt → sent = new <$> filter is_published changes).
Proof.
  revert w. induction changes as [|change changes IH]; intros w.
  { intros [= <- <-]. split; [done|]. split; [done|]. exists []. by rewrite app_nil_r. }
  cbn [for_each]. unfold mbind, method_bind. rewrite filter_cons.
  destruct (is_published change) eqn:Hp; cycle 1.
  { case_decide as Hd; [by apply Is_true_true in Hd; congruence|]. apply IH. }
  rewrite decide_True by (by apply Is_true_true). rewrite fmap_cons.
  unfold on_broker at 1. destruct (publish_to_broker (new change) (broker w)) as [[[]|e] b] eqn:Eb;
    apply publish_law in Eb.
  - intros (Hs & Ht & sent & H1 & H2 & H3)%IH. cbn in *.
    split; [done|]. split; [done|]. exists (new change :: sent).
    rewrite H1, Eb, <- (assoc_L (++)). split; [done|]. split; [apply prefix_cons; exact H2|].
    intros Hr. f_equal. exact (H3 Hr).
  - intros [= <- <-]. split; [done|]. split; [done|]. cbn. destruct Eb as [-> | ->].
    + exists []. rewrite app_nil_r. split_and!; [done|apply prefix_nil|done].
    + exists [new change]. split; [done|]. split; [|done]. apply prefix_cons, prefix_nil.
Qed.

(** The save of the handle made for [tx], at its own position. *)
Lemma process_save (tx : Transaction) t0 t1 w r w' :
  CheckpointHandle_save (process_handle (C := C) tx) (tx_commit_lsn tx) None t0 t1 w = (r, w') →
  broker w' = broker w ∧
  match r with
  | Ok _ => position (store w') = Some (tx_commit_lsn tx) ∧
            told_positions w' = told_positions w ++ [tx_commit_lsn tx]
  | Raise _ => told_positions w' = told_positions w ∧
               (position (store w') = position (store w) ∨
                position (store w') = Some (tx_commit_lsn tx))
  end.
Proof.
  unfold CheckpointHandle_save, max_lsn_exceeded. cbn [_max_lsn process_handle _store_save _on_saved].
  rewrite (proj2 (Z.ltb_ge _ _)) by lia. unfold mbind, method_bind, on_store.
  destruct (store_save (tx_commit_lsn tx) None (store w)) as [[[]|e] s] eqn:Es;
    apply save_law in Es; intros [= <- <-]; cbn; by split.
Qed.
End handler_lemmas.

Lemma reported_snoc evs ev :
  reported (evs ++ [ev]) = reported evs ++ match ev with MReport m => [m] | MExport => [] end.
Proof. unfold reported. rewrite omap_app. by destruct ev. Qed.

Lemma metrics_run_snoc evs ev : metrics_run (evs ++ [ev]) = metrics_step ev (metrics_run evs).
Proof. unfold metrics_run. by rewrite foldl_app. Qed.

Record metrics_inv (evs : list metrics_event) (e : Exporter) : Prop := {
  mi_open : q_shutdown (metrics_queue e) = false;
  mi_bound : q_maxsize (metrics_queue e) = 100;
  mi_len : py_len (q_items (metrics_queue e)) <= 100;
  mi_order : exported e ++ q_items (metrics_queue e) `sublist_of` reported evs;
  mi_all : (∀ evs', evs' `prefix_of` evs →
             py_len (q_items (metrics_queue (metrics_run evs'))) < 100) →
           exported e ++ q_items (metrics_queue e) = reported evs;
}.

Lemma metrics_report evs m :
  metrics_inv evs (metrics_run evs) →
  metrics_inv (evs ++ [MReport m]) (metrics_step (MReport m) (metrics_run evs)).
Proof.
  intros [Ho Hb Hl Hs Ha]. set (e := metrics_run evs) in *.
  assert (Hq := put_nowait_cases m (metrics_queue e)).
  unfold metrics_step, on_metrics_good. rewrite Ho in Hq.
  destruct Hq as [(_ & Hf & Hq)|[(_ & Hf & Hq)|(? & _)]]; [..|done]; rewrite Hq; cbn;
    unfold queue_full, qsize in Hf; rewrite Hb in Hf; cbn [andb Z.ltb Z.compare] in Hf.
  - zbool. constructor; cbn; rewrite ?reported_snoc; try done.
    + rewrite py_len_app. unfold py_len at 2. cbn. lia.
    + rewrite (assoc_L (++)). by apply sublist_app.
    + intros Hall. rewrite (assoc_L (++)), Ha; [done|]. intros evs' Hp. apply Hall.
      etrans; [exact Hp|]. by apply prefix_app_r.
  - zbool. constructor; cbn; rewrite ?reported_snoc; try done.
    + by apply sublist_inserts_r.
    + intros Hall. specialize (Hall evs). change (metrics_run evs) with e in Hall.
      enough (py_len (q_items (metrics_queue e)) < 100) by lia. apply Hall. by apply prefix_app_r.
Qed.

Lemma metrics_export evs :
  metrics_inv evs (metrics_run evs) →
  metrics_inv (evs ++ [MExport]) (metrics_step MExport (metrics_run evs)).
Proof.
  intros [Ho Hb Hl Hs Ha]. set (e := metrics_run evs) in *.
  assert (Hpre : (∀ evs', evs' `prefix_of` evs ++ [MExport] →
             py_len (q_items (metrics_queue (metrics_run evs'))) < 100) →
           exported e ++ q_items (metrics_queue e) = reported evs).
  { intros Hall. apply Ha. intros evs' Hp. apply Hall. etrans; [exact Hp|]. by apply prefix_app_r. }
  unfold metrics_step, export_metrics, get_wakes.
  destruct (q_items (metrics_queue e)) as [|x rest] eqn:Hi.
  - rewrite Ho. cbn. constructor; rewrite ?reported_snoc, ?Hi, ?app_nil_r; try done;
      rewrite ?app_nil_r in *; done.
  - cbn. constructor; cbn; rewrite ?reported_snoc, ?app_nil_r, <- ?(assoc_L (++)); try done.
    unfold py_len in *. cbn in Hl. lia.
Qed.

Lemma metrics_reachable evs : metrics_inv evs (metrics_run evs).
Proof.
  induction evs as [|[m|] evs IH] using rev_ind.
  - by constructor.
  - rewrite metrics_run_snoc. by apply metrics_report.
  - rewrite metrics_run_snoc. by apply metrics_export.
Qed.

(** ** Properties *)

(** C17: The broker example publishes before it checkpoints: whatever the broker and
    the store do, the broker takes the rows of the transaction's published inserts
    in order, a prefix of them when the handler raises; and when the stored
    position has changed, or the client was told a new one, every row was taken
    and the position is the transaction's own. *)
Theorem broker_publishes_before_checkpoint {B W C} `{BrokerLaws B} `{CheckpointStoreLaws W C}
    tx t0 t1 (w : Sinks B W) r w' :
  broker_handle tx (process_handle (C := C) tx) t0 t1 w = (r, w') →
  (∃ sent, published (broker w') = published (broker w) ++ sent ∧
           sent `prefix_of` published_rows tx) ∧
  (r = Ok tt → position (store w') = Some (tx_commit_lsn tx)) ∧
  (position (store w') ≠ position (store w) ∨ told_positions w' ≠ told_positions w ∨ r = Ok tt →
   published (broker w') = published (broker w) ++ published_rows tx ∧
   (position (store w') = Some (tx_commit_lsn tx) ∨ position (store w') = position (store w))).
Proof.
  unfold broker_handle, mbind, method_bind.
  destruct (for_each _ (tx_changes tx) w) as [[[]|e] w1] eqn:E1;
    apply publish_loop in E1 as (Hs & Ht & sent & Hp & Hpre & Hall).
  - specialize (Hall eq_refl). subst sent. intros [Hb Hr]%process_save. rewrite Hb, Hp.
    split; [by eexists|]. split.
    + intros ->. by destruct Hr.
    + intros _. split; [done|]. rewrite Hs in Hr. destruct r; destruct Hr as [Hr1 Hr2]; [by left|].
      destruct Hr2; [by right|by left].
  - intros [= <- <-]. split; [by exists sent|]. split; [done|].
    rewrite Hs, Ht. by intros [?|[?|?]].
Qed.

Definition sample_row (id : string) : option row := Some {[ lit "entity_id" := Some (lit id) ]}.
Definition sample_insert (id : string) : ChangeEvent :=
  mkChangeEvent INSERT published_table (sample_row id) None.
Definition sample_update (id : string) : ChangeEvent :=
  mkChangeEvent UPDATE published_table (sample_row id) None.
Definition outbox_tx : Transaction :=
  mkTransaction 7 539 0 [sample_insert "a"; sample_update "a"; sample_insert "b"].

Definition orders_store : CheckpointStore (PostgresCheckpointStore * Memory) unit :=
  postgres_store (C := unit) (λ _, false).
Definition fresh_sinks : Sinks (list (option row)) (PostgresCheckpointStore * Memory) :=
  mkSinks [] (sample_store, empty_memory) [].

Lemma broker_publishes_before_checkpoint_witness :
  let w' := snd (broker_handle outbox_tx
                   (process_handle (CheckpointStore0 := orders_store) outbox_tx)
                   f_zero f_zero fresh_sinks) in
  position (CheckpointStore := orders_store) (store w') = Some 539 ∧
  broker w' = [sample_row "a"; sample_row "b"].
Proof.
  cbv zeta.
  assert (Hr : fst (broker_handle outbox_tx
    (process_handle (CheckpointStore0 := orders_store) outbox_tx)
    f_zero f_zero fresh_sinks) = Ok tt) by (vm_compute; reflexivity).
  destruct (broker_handle outbox_tx
    (process_handle (CheckpointStore0 := orders_store) outbox_tx)
    f_zero f_zero fresh_sinks) as [r w'] eqn:E.
  destruct (broker_publishes_before_checkpoint (CheckpointStore0 := orders_store)
    (H0 := postgres_store_laws (λ _, false) memory_laws)
    outbox_tx f_zero f_zero fresh_sinks r w' E)
    as (_ & Hok & Hall).
  cbn [fst] in Hr. split; [exact (Hok Hr)|]. destruct (Hall (or_intror (or_intror Hr))) as [Hp _].
  exact Hp.
Defined.

(** C38: The metrics callback never raises and never blocks, whatever the exporter
    does: what it exports, followed by what is still queued, are reports in the
    order they were made, at most the queue's hundred waiting; and none is missing
    as long as fewer than a hundred were ever waiting. *)
Theorem metrics_export_order evs :
  let e := metrics_run evs in
  (∀ m, fst (on_metrics_good m (metrics_queue e)) = Ok tt) ∧
  exported e ++ q_items (metrics_queue e) `sublist_of` reported evs ∧
  py_len (q_items (metrics_queue e)) <= 100 ∧
  ((∀ evs', evs' `prefix_of` evs → py_len (q_items (metrics_queue (metrics_run evs'))) < 100) →
   exported e ++ q_items (metrics_queue e) = reported evs).
Proof.
  destruct (metrics_reachable evs) as [Ho Hb Hl Hs Ha]. split_and!; try done.
  intros m. unfold on_metrics_good.
  destruct (put_nowait_cases m (metrics_queue (metrics_run evs))) as [(_ & _ & ->)|[(_ & _ & ->)|(? & _)]];
    [done|done|congruence].
Qed.

(** The four examples connect as consumers of their own: with the DSN set, every
    [main] builds a client, and each on a checkpoint row no other uses. *)
Theorem example_consumers_distinct {Pool} (pool : Pool) dsn :
  is_blank dsn = false →
  let env := {[ lit "WALBOX_DSN" := dsn ]} in
  ∃ c1 c2 c3 c4, broker_main env pool = Ok c1 ∧ concurrency_main env pool = Ok c2 ∧
    postgres_main env pool = Ok c3 ∧ metrics_main env pool = Ok c4 ∧
    NoDup ((λ c, _consumer_name (built_store c)) <$> [c1; c2; c3; c4]).
Proof.
  intros Hd env. unfold broker_main, concurrency_main, postgres_main, metrics_main, example_main.
  unfold env. rewrite lookup_singleton_eq.
  unfold WalboxOptions_post_init. cbn [check_not_blank consumer_name Abc.dsn slot_name publication_name example_options].
  rewrite Hd. do 4 eexists. split_and!; [reflexivity..|]. by_compute.
Qed.
