(* ===== verification/Sink.v ===== *)
(** The same-transaction checkpoint ([examples/postgres.py]): a handler that writes
    its projection and its checkpoint in one PostgreSQL commit, over the database
    of [Checkpoint] extended with the projection table. *)
From stdpp Require Import base tactics list numbers strings gmap.
From S2P Require Import Prelude PyStr Errors PyFloat Pgoutput Abc Client Checkpoint ClientSpec.
From S2P Require Import ClientSession Delivery Handlers.

(** ** The projection table *)

(** psycopg's wrapper of a value to be sent as JSON. *)
Inductive jsonb := Jsonb (obj : option pystr).

(** A row of [published_table_projection]. *)
Record projection := mkProjection {
  entity_type : option pystr;
  entity_id : option pystr;
  event_type : option pystr;
  payload : jsonb;
}.

#[global] Instance jsonb_eq_dec : EqDecision jsonb.
Proof. solve_decision. Defined.
#[global] Instance projection_eq_dec : EqDecision projection.
Proof. solve_decision. Defined.

(** The handler's own statement, the rows committed and the rows a connection's
    transaction sees. *)
Class SinkDatabase (D C : Type) `{!Database D C} := {
  sink_insert : C → projection → method D exn unit;
  sink_rows : D → list projection;
  sink_seen : D → C → list projection;
}.

(** A transaction covers both tables: the store's statements leave the projection
    alone and the insert the checkpoints; a commit makes both durable, a failed
    one both or neither. *)
Class SinkLaws (D C : Type) `{SinkDatabase D C} : Prop := {
  sink_acquire_law d c d' :
    db_acquire d = (Ok c, d') → sink_rows d' = sink_rows d ∧ sink_seen d' c = sink_rows d;
  sink_acquire_fails d e d' : db_acquire d = (Raise e, d') → sink_rows d' = sink_rows d;
  sink_execute_law d c s r d' :
    db_execute c s d = (r, d') →
    sink_rows d' = sink_rows d ∧ (is_ok r = true → sink_seen d' c = sink_seen d c);
  sink_insert_law d c p r d' :
    sink_insert c p d = (r, d') →
    sink_rows d' = sink_rows d ∧ durable d' = durable d ∧
    (r = Ok tt → sink_seen d' c = sink_seen d c ++ [p] ∧ seen d' c = seen d c);
  sink_commit_law d c r d' :
    db_commit c d = (r, d') →
    match r with
    | Ok _ => sink_rows d' = sink_seen d c ∧ sink_seen d' c = sink_seen d c
    | Raise _ => (durable d' = durable d ∧ sink_rows d' = sink_rows d) ∨
                 (durable d' = seen d c ∧ sink_rows d' = sink_seen d c)
    end;
  sink_release_law d c r d' :
    db_release c false d = (r, d') →
    match r with
    | Ok _ => sink_rows d' = sink_seen d c
    | Raise _ => (durable d' = durable d ∧ sink_rows d' = sink_rows d) ∨
                 (durable d' = seen d c ∧ sink_rows d' = sink_seen d c)
    end;
  sink_release_failed d c r d' : db_release c true d = (r, d') → sink_rows d' = sink_rows d;
}.

(** ** The handler *)

Definition getitem (r : row) (column : string) : py (option pystr) :=
  match r !! lit column with Some v => Ok v | None => Raise KeyError end.

(** The parameters of the INSERT for [change.new]. *)
Definition sink_row (new : option row) : py projection :=
  match new with
  | None => Raise TypeError
  | Some new =>
      a ← getitem new "entity_type";
      b ← getitem new "entity_id";
      c ← getitem new "event_type";
      d ← getitem new "payload";
      Ok (mkProjection a b c (Jsonb d))
  end.

Section Handle.
Context {D C : Type} `{SinkDatabase D C}.

(** The store object, the database and the positions the client was told. *)
Record SinkWorld := mkSinkWorld {
  sw_store : PostgresCheckpointStore;
  sw_db : D;
  sw_told : list Z;
}.

Definition on_database {A} (m : method D exn A) : method SinkWorld exn A := λ w,
  let '(r, d) := m (sw_db w) in (r, mkSinkWorld (sw_store w) d (sw_told w)).
Definition on_checkpoint {A} (m : method (PostgresCheckpointStore * D) exn A) :
    method SinkWorld exn A := λ w,
  let '(r, (s, d)) := m (sw_store w, sw_db w) in (r, mkSinkWorld s d (sw_told w)).

(** [async with pool.connection() as conn: body] *)
Definition with_connection (body : C → method SinkWorld exn unit) : method SinkWorld exn unit :=
  λ w,
  match on_database db_acquire w with
  | (Raise e, w) => (Raise e, w)
  | (Ok conn, w) =>
      match body conn w with
      | (Ok _, w) => on_database (db_release conn false) w
      | (Raise e, w) =>
          match on_database (db_release conn true) w with
          | (Ok _, w) => (Raise e, w)
          | (Raise e', w) => (Raise e', w)
          end
      end
  end.

(** The handle [_process] builds for a transaction. *)
Definition sink_handle (tx : Transaction) : CheckpointHandle SinkWorld C :=
  mkCheckpointHandle (λ lsn connection, on_checkpoint (save lsn connection))
    (Some (λ lsn _, modify_self (λ w, mkSinkWorld (sw_store w) (sw_db w) (sw_told w ++ [lsn]))))
    (Some (tx_commit_lsn tx)).

(** The INSERTs of the loop. *)
Definition insert_change (conn : C) (change : ChangeEvent) : method SinkWorld exn unit :=
  if is_published change then
    p ← lift (sink_row (new change));
    on_database (sink_insert conn p)
  else mret tt.

(** [handle]; [started_at] and [now] are the clock readings of the save. *)
Definition postgres_handle (tx : Transaction) (checkpoint : CheckpointHandle SinkWorld C)
    (started_at now : float) : method SinkWorld exn unit :=
  with_connection (λ conn,
    _ ← for_each (insert_change conn) (tx_changes tx);
    _ ← CheckpointHandle_save checkpoint (tx_commit_lsn tx) (Some conn) started_at now;
    on_database (db_commit conn)).
End Handle.
Arguments SinkWorld : clear implicits.
Arguments mkSinkWorld {D}. Arguments sw_store {D}. Arguments sw_db {D}. Arguments sw_told {D}.

(** ** Lemmas *)

(** The rows a transaction projects to, in order. *)
Fixpoint project (changes : list ChangeEvent) : py (list projection) :=
  match changes with
  | [] => Ok []
  | change :: rest =>
      if is_published change then
        p ← sink_row (new change); ps ← project rest; Ok (p :: ps)
      else project rest
  end.

Section sink_lemmas.
Context {D C : Type} `{DatabaseLaws D C} `{!SinkDatabase D C} `{!SinkLaws D C}.
Implicit Types (w : SinkWorld D) (c : C) (d : D).

(** Nothing committed changes. *)
Definition same_committed d d' : Prop := durable d' = durable d ∧ sink_rows d' = sink_rows d.

Lemma insert_loop c changes w r w' :
  for_each (insert_change c) changes w = (r, w') →
  sw_store w' = sw_store w ∧ sw_told w' = sw_told w ∧ same_committed (sw_db w) (sw_db w') ∧
  (r = Ok tt → ∃ ps, project changes = Ok ps ∧
     sink_seen (sw_db w') c = sink_seen (sw_db w) c ++ ps ∧ seen (sw_db w') c = seen (sw_db w) c).
Proof.
  revert w. induction changes as [|change changes IH]; intros w.
  { intros [= <- <-]. split_and!; try done. intros _. exists []. by rewrite app_nil_r. }
  cbn [for_each project]. unfold mbind at 1, method_bind at 1, insert_change at 1.
  destruct (is_published change); [|apply IH].
  unfold mbind at 1, method_bind, lift. destruct (sink_row (new change)) as [p|e]; cycle 1.
  { intros [= <- <-]. by split_and!. }
  unfold on_database at 1. destruct (sink_insert c p (sw_db w)) as [[[]|e] d] eqn:Ei;
    apply sink_insert_law in Ei as (Hr & Hd & Hs); cycle 1.
  { intros [= <- <-]. by split_and!. }
  destruct (Hs eq_refl) as [Hs1 Hs2]. intros (H1 & H2 & (H3 & H4) & H5)%IH. cbn in *.
  split_and!; try done; [split; congruence|]. intros Hok. destruct (H5 Hok) as (ps & -> & Hp & Hq).
  exists (p :: ps). split; [done|]. rewrite Hp, Hs1, <- (assoc_L (++)). split; [done|]. congruence.
Qed.

(** A joined save leaves the projection alone. *)
Lemma ensure_sink c s d r s' d' :
  _ensure_schema c (s, d) = (r, (s', d')) →
  sink_rows d' = sink_rows d ∧ (r = Ok tt → sink_seen d' c = sink_seen d c).
Proof.
  unfold _ensure_schema, mbind, method_bind, the_store, on_db, modify_self. cbn.
  destruct (_schema_ready s); [by intros [= <- <- <-]|]. cbn.
  destruct (db_execute c (CreateTable (_table s)) d) as [[x|e] d1] eqn:E; cbn; intros [= <- <- <-];
    apply sink_execute_law in E as [-> Hs]; [|done]. split; [done|]. by rewrite Hs.
Qed.

Lemma save_sink lsn c s d r s' d' :
  save lsn (Some c) (s, d) = (r, (s', d')) →
  sink_rows d' = sink_rows d ∧ (r = Ok tt → sink_seen d' c = sink_seen d c).
Proof.
  unfold save, mbind, method_bind.
  destruct (_ensure_schema c (s, d)) as [[[]|e] [s1 d1]] eqn:E1;
    apply ensure_sink in E1 as [Hr1 Hs1]; [|by intros [= <- <- <-]].
  specialize (Hs1 eq_refl). unfold _upsert, mbind, method_bind, the_store, on_db. cbn.
  destruct (db_execute c (Upsert _ _ lsn) d1) as [[x|e] d2] eqn:E2; cbn; intros [= <- <- <-];
    apply sink_execute_law in E2 as [Hr2 Hs2]; [|by rewrite Hr2].
  split; [congruence|]. intros _. rewrite Hs2; done.
Qed.

(** The transaction [tx] has taken effect: its position and its rows. *)
Definition applied (tx : Transaction) (s : PostgresCheckpointStore) d d' : Prop :=
  (∀ t k, durable d' t k = set_row (_table s) (_consumer_name s) (tx_commit_lsn tx) (durable d) t k) ∧
  ∃ ps, project (tx_changes tx) = Ok ps ∧ sink_rows d' = sink_rows d ++ ps.

Lemma applied_from tx s d d' d'' :
  applied tx s d d' → same_committed d' d'' → applied tx s d d''.
Proof.
  intros (H1 & ps & H2 & H3) [E1 E2]. split; [by rewrite E1|].
  exists ps. split; [done|]. congruence.
Qed.

(** The joined save at the transaction's own position. *)
Lemma sink_save tx c t0 t1 w r w' :
  CheckpointHandle_save (sink_handle tx) (tx_commit_lsn tx) (Some c) t0 t1 w = (r, w') →
  same_committed (sw_db w) (sw_db w') ∧ same_names (sw_store w) (sw_store w') ∧
  (r = Ok tt →
   sink_seen (sw_db w') c = sink_seen (sw_db w) c ∧
   ∀ t k, seen (sw_db w') c t k =
     set_row (_table (sw_store w)) (_consumer_name (sw_store w)) (tx_commit_lsn tx)
       (seen (sw_db w) c) t k).
Proof.
  unfold CheckpointHandle_save, max_lsn_exceeded. cbn [_max_lsn sink_handle _store_save _on_saved].
  rewrite (proj2 (Z.ltb_ge _ _)) by lia. unfold mbind, method_bind, on_checkpoint.
  destruct (save (tx_commit_lsn tx) (Some c) (sw_store w, sw_db w)) as [[[]|e] [s' d']] eqn:Es;
    pose proof (save_sink _ _ _ _ _ _ _ Es) as [Hr Hs];
    apply save_joined_cases in Es as (Hd & Hn & Hm); intros [= <- <-]; cbn.
  - split; [done|]. split; [done|]. intros _. split; [by apply Hs|by apply Hm].
  - by split.
Qed.

(** What the body of the block leaves: committed or not, and nothing more to
    commit. *)
Lemma sink_body tx c t0 t1 w r w' :
  seen (sw_db w) c = durable (sw_db w) → sink_seen (sw_db w) c = sink_rows (sw_db w) →
  (_ ← for_each (insert_change c) (tx_changes tx);
   _ ← CheckpointHandle_save (sink_handle tx) (tx_commit_lsn tx) (Some c) t0 t1;
   on_database (db_commit c)) w = (r, w') →
  same_names (sw_store w) (sw_store w') ∧
  match r with
  | Ok _ => applied tx (sw_store w) (sw_db w) (sw_db w') ∧
            seen (sw_db w') c = durable (sw_db w') ∧ sink_seen (sw_db w') c = sink_rows (sw_db w')
  | Raise _ => same_committed (sw_db w) (sw_db w') ∨ applied tx (sw_store w) (sw_db w) (sw_db w')
  end.
Proof.
  intros Hd Hk. unfold mbind, method_bind.
  destruct (for_each (insert_change c) (tx_changes tx) w) as [[[]|e] w1] eqn:E1;
    apply insert_loop in E1 as (Hs1 & _ & [H1 H2] & Hi); cycle 1.
  { intros [= <- <-]. rewrite Hs1. split; [by split|by left]. }
  destruct (Hi eq_refl) as (ps & Hp & Hi1 & Hi2).
  destruct (CheckpointHandle_save _ _ _ t0 t1 w1) as [[[]|e] w2] eqn:E2;
    apply sink_save in E2 as ([H3 H4] & Hn & Hv); rewrite Hs1 in Hn; cycle 1.
  { intros [= <- <-]. split; [done|]. left. split; congruence. }
  destruct (Hv eq_refl) as [Hv1 Hv2]. rewrite Hi2, Hd, Hs1 in Hv2. rewrite Hi1, Hk in Hv1.
  assert (Happ : ∀ d', durable d' = seen (sw_db w2) c → sink_rows d' = sink_seen (sw_db w2) c →
                       applied tx (sw_store w) (sw_db w) d').
  { intros d' Ha Hb. split; [by rewrite Ha|]. exists ps. split; [done|]. congruence. }
  unfold on_database. destruct (db_commit c (sw_db w2)) as [[u|e] d] eqn:E3;
    pose proof (sink_commit_law _ _ _ _ E3) as Hc; intros [= <- <-]; cbn; (split; [done|]).
  - apply commit_law in E3 as [E3 E3']. destruct Hc as [Hc1 Hc2].
    split; [by apply Happ|]. split; congruence.
  - destruct Hc as [[Hc1 Hc2]|[Hc1 Hc2]]; [left; split; congruence|right; by apply Happ].
Qed.
End sink_lemmas.

(** ** An in-memory database with the projection table *)

Record SinkMemory := mkSinkMemory {
  sm_memory : Memory;
  sm_rows : list projection;
  sm_txn : list projection;
}.

Definition on_memory {A} (m : method Memory exn A) (after : SinkMemory → list projection * list projection)
    : method SinkMemory exn A := λ d,
  let '(r, m') := m (sm_memory d) in
  let '(committed, txn) := if is_ok r then after d else (sm_rows d, sm_txn d) in
  (r, mkSinkMemory m' committed txn).

Definition sm_commits (d : SinkMemory) := (sm_txn d, sm_txn d).
Definition sm_begins (d : SinkMemory) := (sm_rows d, sm_rows d).
Definition sm_keeps (d : SinkMemory) := (sm_rows d, sm_txn d).

#[export] Instance sink_memory_database : Database SinkMemory unit := {
  db_acquire := on_memory db_acquire sm_begins;
  db_release c failed := on_memory (db_release c failed) (if failed then sm_begins else sm_commits);
  db_execute c s := on_memory (db_execute c s) sm_keeps;
  db_commit c := on_memory (db_commit c) sm_commits;
  durable d := durable (sm_memory d);
  seen d c := seen (sm_memory d) c;
}.

Definition sm_insert (p : projection) : method SinkMemory exn unit :=
  on_memory (unless_failing (mret tt)) (λ d, (sm_rows d, sm_txn d ++ [p])).

#[export] Instance sink_memory_sink : SinkDatabase SinkMemory unit := {
  sink_insert _ := sm_insert;
  sink_rows := sm_rows;
  sink_seen d _ := sm_txn d;
}.

(** An operation on the memory, and what it did to the projection. *)
Lemma on_memory_inv {A} (m : method Memory exn A) after d r d' :
  on_memory m after d = (r, d') →
  m (sm_memory d) = (r, sm_memory d') ∧
  (sm_rows d', sm_txn d') = (if is_ok r then after d else (sm_rows d, sm_txn d)).
Proof.
  unfold on_memory. destruct (m (sm_memory d)) as [r' m'].
  destruct (if is_ok r' then after d else _) as [x y] eqn:E. intros [= <- <-]. by rewrite E.
Qed.

Ltac sink_memory_tac :=
  repeat match goal with
  | H : on_memory _ _ _ = _ |- _ =>
      let E := fresh "E" in apply on_memory_inv in H as [H E]; cbn in E;
      try (injection E as ? ?)
  end.

#[export] Instance sink_memory_laws : DatabaseLaws SinkMemory unit.
Proof.
  split; unfold durable, seen, db_acquire, db_execute, db_commit, db_release, sink_memory_database;
    intros; sink_memory_tac.
  - by eapply acquire_law.
  - by eapply acquire_fails.
  - by eapply create_law.
  - by eapply select_law.
  - by eapply upsert_law.
  - by eapply execute_fails.
  - by eapply commit_law.
  - by eapply commit_fails.
  - by eapply release_law.
  - by eapply release_fails.
  - by eapply release_failed.
Qed.

Lemma memory_commit_fails d e d' :
  db_commit tt d = (Raise e, d') → durable (D := Memory) (C := unit) d' = durable (C := unit) d.
Proof. cbn. intros. memory_tac. Qed.

Lemma memory_release_fails d e d' :
  db_release tt false d = (Raise e, d') → durable (D := Memory) (C := unit) d' = durable (C := unit) d.
Proof. cbn. intros. memory_tac. Qed.

Lemma unless_failing_ret d r d' :
  unless_failing (mret tt) d = (r, d') → mem_rows d' = mem_rows d ∧ txn_rows d' = txn_rows d.
Proof.
  destruct (unless_failing_cases (mret tt) d) as [(e & d1 & -> & ? & ?)|(d1 & -> & ? & ? & _)];
    by intros [= <- <-].
Qed.

#[export] Instance sink_memory_sink_laws : SinkLaws SinkMemory unit.
Proof.
  split; unfold db_acquire, db_execute, db_commit, db_release, sink_memory_database, sink_insert,
    sink_rows, sink_seen, sink_memory_sink, sm_insert; intros; repeat destruct (c : unit);
    sink_memory_tac; try done.
  - by destruct r; injection E as -> ->.
  - apply unless_failing_ret in H as [H1 H2]. unfold durable, seen. cbn.
    rewrite H1, H2. destruct r as [[]|e]; injection E as -> ->; by split_and!.
  - destruct r; injection E as E1 E2; [done|]. left. split; [|done].
    by eapply memory_commit_fails.
  - destruct r; injection E as E1 E2; [done|]. left. split; [|done].
    by eapply memory_release_fails.
  - by destruct r; injection E as E1 E2.
Qed.

(** ** Sessions of the sink *)

(** What the client hands the handler next, after a restart or after the one
    before: the first transaction past the stored position. *)
Definition next_tx (checkpoint : option Z) (session : list Transaction) : option Transaction :=
  head (filter (λ tx, default 0 checkpoint < tx_commit_lsn tx) session).

Section attempts.
Context {D C : Type} `{DatabaseLaws D C} `{!SinkDatabase D C} `{!SinkLaws D C}.

Definition checkpoint_of (w : SinkWorld D) : option Z :=
  durable (sw_db w) (_table (sw_store w)) (_consumer_name (sw_store w)).

(** A new process makes a new store for the consumer. *)
Definition restarted (w : SinkWorld D) : SinkWorld D :=
  mkSinkWorld (_configure (_consumer_name (sw_store w)) (_table (sw_store w))) (sw_db w) (sw_told w).

(** One call of the handler, whatever its outcome, perhaps in a new process; its two
    clock readings. *)
Record call := mkCall { call_restarts : bool; call_began : float; call_ended : float }.

Definition attempt (session : list Transaction) (w : SinkWorld D) (c : call) : SinkWorld D :=
  let w := if call_restarts c then restarted w else w in
  match next_tx (checkpoint_of w) session with
  | Some tx => snd (postgres_handle tx (sink_handle tx) (call_began c) (call_ended c) w)
  | None => w
  end.

Definition attempts (session : list Transaction) (calls : list call) (w : SinkWorld D) :
    SinkWorld D := foldl (attempt session) w calls.

Lemma handle_atomic tx t0 t1 (w : SinkWorld D) r w' :
  postgres_handle tx (sink_handle tx) t0 t1 w = (r, w') →
  same_names (sw_store w) (sw_store w') ∧
  match r with
  | Ok _ => applied tx (sw_store w) (sw_db w) (sw_db w')
  | Raise _ => same_committed (sw_db w) (sw_db w') ∨ applied tx (sw_store w) (sw_db w) (sw_db w')
  end.
Proof.
  unfold postgres_handle, with_connection. unfold on_database at 1.
  destruct (db_acquire (sw_db w)) as [[c|e] d] eqn:Ea; cycle 1.
  { intros [= <- <-]. split; [done|]. left.
    apply sink_acquire_fails in Ea as Ek. by apply acquire_fails in Ea. }
  pose proof (sink_acquire_law _ _ _ Ea) as [Hk1 Hk2]. apply acquire_law in Ea as [Ha1 Ha2].
  cbn zeta.
  match goal with |- context [match ?b with _ => _ end] => destruct b as [[u|e] w1] eqn:Eb end;
    apply sink_body in Eb as [Hn Hb]; cbn [sw_db sw_store] in *; try congruence.
  - destruct Hb as (Happ & Hd & Hk).
    assert (Happ' : applied tx (sw_store w) (sw_db w) (sw_db w1)).
    { destruct Happ as (H1 & ps & H2 & H3). split; [by rewrite <- Ha1|].
      exists ps. split; [done|]. congruence. }
    unfold on_database. destruct (db_release c false (sw_db w1)) as [[v|e] d1] eqn:Er;
      pose proof (sink_release_law _ _ _ _ Er) as Hs; intros [= <- <-]; cbn; (split; [done|]).
    + apply release_law in Er. eapply applied_from; [exact Happ'|]. split; congruence.
    + right. eapply applied_from; [exact Happ'|]. destruct Hs as [[]|[]]; split; congruence.
  - unfold on_database. destruct (db_release c true (sw_db w1)) as [[v|e'] d1] eqn:Er;
      pose proof (sink_release_failed _ _ _ _ Er) as Hs; apply release_failed in Er;
      intros [= <- <-]; cbn; (split; [done|]);
      (destruct Hb as [[Hb1 Hb2]|Hb]; [left; split; congruence|right]);
      (eapply applied_from; [|split; [exact Er|exact Hs]]);
      destruct Hb as (H1 & ps & H2 & H3); (split; [by rewrite <- Ha1|]); exists ps; split; congruence.
Qed.

(** The transactions before the stored position have been projected, once each. *)
Definition projected (session : list Transaction) (base : list projection) (start : Z)
    (w : SinkWorld D) : Prop :=
  ∃ done todo pss, session = done ++ todo ∧
    default 0 (checkpoint_of w) = List.last (tx_commit_lsn <$> done) start ∧
    (λ tx, project (tx_changes tx)) <$> done = Ok <$> pss ∧
    sink_rows (sw_db w) = base ++ mjoin pss.

Lemma after_last start done todo tx :
  commits_after start (done ++ todo) → tx ∈ todo →
  List.last (tx_commit_lsn <$> done) start < tx_commit_lsn tx.
Proof.
  destruct done as [|t done _] using rev_ind; intros Hs Hin.
  - exact (commits_after_lt _ _ _ Hs Hin).
  - rewrite fmap_app. cbn. rewrite List.last_last.
    eapply commits_after_split; [exact Hs| |exact Hin].
    apply elem_of_app. right. by apply list_elem_of_singleton.
Qed.

Lemma before_last start done todo tx :
  commits_after start (done ++ todo) → tx ∈ done →
  tx_commit_lsn tx <= List.last (tx_commit_lsn <$> done) start.
Proof.
  destruct done as [|t done _] using rev_ind; intros Hs Hin; [by apply elem_of_nil in Hin|].
  rewrite fmap_app. cbn. rewrite List.last_last.
  apply elem_of_app in Hin as [Hin|Hin%list_elem_of_singleton]; [|by subst].
  rewrite <- (assoc_L (++)) in Hs. apply Z.lt_le_incl.
  eapply commits_after_split; [exact Hs|exact Hin|apply list_elem_of_here].
Qed.

Lemma next_tx_todo checkpoint start done todo :
  commits_after start (done ++ todo) →
  default 0 checkpoint = List.last (tx_commit_lsn <$> done) start →
  next_tx checkpoint (done ++ todo) = head todo.
Proof.
  intros Hs Hc. unfold next_tx. rewrite Hc, filter_app.
  rewrite (filter_none _ done), (filter_all _ todo); [done|..];
    intros tx Hin.
  - by apply (after_last _ _ _ _ Hs).
  - pose proof (before_last _ _ _ _ Hs Hin). lia.
Qed.

(** A call of the handler keeps the projection exact. *)
Lemma attempt_projected session base start w c :
  commits_after start session → projected session base start w →
  projected session base start (attempt session w c).
Proof.
  intros Hs Hw. unfold attempt. set (w0 := if call_restarts c then restarted w else w).
  assert (H0 : projected session base start w0)
    by (unfold w0; destruct (call_restarts c); [exact Hw|done]).
  clearbody w0. clear w Hw. rename w0 into w. revert H0.
  intros (done & todo & pss & -> & Hc & Hp & Hr).
  rewrite (next_tx_todo _ start) by done.
  destruct todo as [|tx todo]; cbn [head]; [by exists done, [], pss|].
  destruct (postgres_handle tx (sink_handle tx) (call_began c) (call_ended c) w) as [r w'] eqn:E.
  apply handle_atomic in E as [[Hn1 Hn2] E]. cbn [snd].
  assert (Hsame : same_committed (sw_db w) (sw_db w') → projected (done ++ tx :: todo) base start w').
  { intros [E1 E2]. exists done, (tx :: todo), pss. unfold checkpoint_of in *.
    rewrite E1, E2, Hn1, Hn2. done. }
  assert (Happ : applied tx (sw_store w) (sw_db w) (sw_db w') →
                 projected (done ++ tx :: todo) base start w').
  { intros (H1 & ps & H2 & H3). exists (done ++ [tx]), todo, (pss ++ [ps]).
    rewrite <- (assoc_L (++)). split; [done|]. split; [|split].
    - unfold checkpoint_of. rewrite H1, Hn1, Hn2, set_row_same, fmap_app. cbn.
      by rewrite List.last_last.
    - rewrite !fmap_app, Hp. cbn. by rewrite H2.
    - rewrite H3, Hr, <- (assoc_L (++)). f_equal. rewrite join_app. cbn. by rewrite app_nil_r. }
  destruct r as [u|e]; [by apply Happ|]. destruct E as [E|E]; [by apply Hsame|by apply Happ].
Qed.
End attempts.

(** ** Properties *)

(** C16: The sink and its checkpoint move together: whatever fails (a row without
    its column, a lost connection, an ambiguous commit), after one call of the
    handler either nothing durable has changed or exactly the transaction has
    taken effect: its rows appended in order and its own position stored, no
    other checkpoint touched; a call that returns has taken effect. *)
Theorem sink_commit_atomic {D C} `{DatabaseLaws D C} `{!SinkDatabase D C} `{!SinkLaws D C}
    tx t0 t1 (w : SinkWorld D) r w' :
  postgres_handle tx (sink_handle tx) t0 t1 w = (r, w') →
  (durable (sw_db w') = durable (sw_db w) ∧ sink_rows (sw_db w') = sink_rows (sw_db w) ∧
   is_ok r = false) ∨
  ((∀ t k, durable (sw_db w') t k =
     set_row (_table (sw_store w)) (_consumer_name (sw_store w)) (tx_commit_lsn tx)
       (durable (sw_db w)) t k) ∧
   ∃ ps, project (tx_changes tx) = Ok ps ∧ sink_rows (sw_db w') = sink_rows (sw_db w) ++ ps).
Proof.
  intros [_ Hr]%handle_atomic. destruct r as [u|e]; [by right|].
  destruct Hr as [[H1 H2]|Hr]; [by left|by right].
Qed.

(** C12: Exactly once: over any number of calls of the handler, failed, retried and
    restarted in a new process in any way, each on the first transaction past the stored position,
    the projection holds the rows of exactly the transactions up to that position,
    each once and in commit order. *)
Theorem sink_exactly_once {D C} `{DatabaseLaws D C} `{!SinkDatabase D C} `{!SinkLaws D C}
    session calls (w : SinkWorld D) :
  commits_after (default 0 (checkpoint_of w)) session →
  projected session (sink_rows (sw_db w)) (default 0 (checkpoint_of w)) (attempts session calls w).
Proof.
  intros Hs. set (base := sink_rows (sw_db w)). set (start := default 0 (checkpoint_of w)) in *.
  assert (H0 : projected session base start w).
  { exists [], session, []. by rewrite app_nil_r. }
  clearbody base start. unfold attempts. revert w H0.
  induction calls as [|c calls IH]; intros w H0; [done|]. cbn [foldl].
  apply IH. by apply attempt_projected.
Qed.

Definition sink_insert_of (id : string) : ChangeEvent :=
  mkChangeEvent INSERT published_table
    (Some (list_to_map [ (lit "entity_type", Some (lit "order")); (lit "entity_id", Some (lit id));
                         (lit "event_type", Some (lit "made")); (lit "payload", None) ])) None.
Definition sink_projection_of (id : string) : projection :=
  mkProjection (Some (lit "order")) (Some (lit id)) (Some (lit "made")) (Jsonb None).

Definition sink_session : list Transaction :=
  [ mkTransaction 7 539 0 [sink_insert_of "a"; sample_update "a"; sink_insert_of "b"];
    mkTransaction 8 639 0 [sink_insert_of "c"] ].

(** The operations that fail, in order, from a database whose table the client's
    first [load] has created. *)
Definition sink_world (failing : list bool) : SinkWorld SinkMemory :=
  mkSinkWorld (set_ready sample_store)
    (mkSinkMemory (mkMemory ∅ {[ lit "walbox_checkpoint" ]} ∅ ∅ failing) [] []) [].

(** The first call loses its connection at the commit, the second succeeds, the
    third cannot connect, the fourth, in a new process, succeeds. *)
Definition bumpy : list bool :=
  [false; false; false; false; true] ++ replicate 6 false ++ [true].

Definition four_calls : list call :=
  (λ restarts, mkCall restarts f_zero f_zero) <$> [false; false; false; true].

Lemma sink_commit_atomic_witness :
  let '(r, w') := postgres_handle (C := unit) (mkTransaction 8 639 0 [sink_insert_of "c"])
                    (sink_handle (mkTransaction 8 639 0 [sink_insert_of "c"])) f_zero f_zero
                    (sink_world []) in
  r = Ok tt ∧ sink_rows (sw_db w') = [sink_projection_of "c"] ∧
  durable (C := unit) (sw_db w') (lit "walbox_checkpoint") (lit "orders") = Some 639.
Proof.
  assert (Hr : fst (postgres_handle (C := unit) (mkTransaction 8 639 0 [sink_insert_of "c"])
    (sink_handle (mkTransaction 8 639 0 [sink_insert_of "c"])) f_zero f_zero (sink_world [])) = Ok tt)
    by (vm_compute; reflexivity).
  destruct (postgres_handle (C := unit) (mkTransaction 8 639 0 [sink_insert_of "c"])
    (sink_handle (mkTransaction 8 639 0 [sink_insert_of "c"])) f_zero f_zero (sink_world []))
    as [r w'] eqn:E.
  pose proof (sink_commit_atomic _ _ _ _ _ _ E) as H. cbn [fst] in Hr.
  split; [exact Hr|]. rewrite Hr in H.
  destruct H as [(_ & _ & H)|(H & ps & Hp & Hs)]; [discriminate|].
  split; [|rewrite H; vm_compute; reflexivity].
  rewrite Hs. vm_compute in Hp. injection Hp as <-. vm_compute. reflexivity.
Defined.

Lemma sink_exactly_once_witness :
  let w' := attempts (C := unit) sink_session four_calls (sink_world bumpy) in
  checkpoint_of (C := unit) w' = Some 639 ∧
  sink_rows (sw_db w') = [sink_projection_of "a"; sink_projection_of "b"; sink_projection_of "c"] ∧
  projected (C := unit) sink_session [] 0 w'.
Proof.
  cbv zeta. split; [vm_compute; reflexivity|]. split; [vm_compute; reflexivity|].
  pose proof (sink_exactly_once (C := unit) sink_session four_calls (sink_world bumpy)) as H.
  assert (H0 : default 0 (checkpoint_of (C := unit) (sink_world bumpy)) = 0) by (vm_compute; reflexivity).
  rewrite H0 in H. apply H. unfold commits_after. cbn. repeat constructor.
Defined.

(** The handler does not look at what the checkpoint already covers: deliveries in
    which a transaction comes twice, as after a reconnect, write its rows twice. *)
Theorem redelivery_duplicates_rows :
  let w' := foldl (λ w tx, snd (postgres_handle (C := unit) tx (sink_handle tx) f_zero f_zero w))
              (sink_world []) (sink_session ++ drop 1 sink_session) in
  checkpoint_of (C := unit) w' = Some 639 ∧
  sink_rows (sw_db w') =
    [sink_projection_of "a"; sink_projection_of "b"; sink_projection_of "c"; sink_projection_of "c"].
Proof. vm_compute. by split. Qed.
