(* ===== verification/Shards.v ===== *)
(** The sharding handler ([examples/concurrency.py]): [ConcurrentHandler], its shard
    queues, its workers and its [handle], as a step function that interleaves the
    handler's task with the workers.

    [it_call] numbers the call of [handle] that put an item; it and [PoolLog] are
    ghost state, which the code never reads. *)
From stdpp Require Import base tactics list numbers strings gmap.
From S2P Require Import Prelude PyStr Errors PyBytes PyHash Pgoutput Abc Transport Handlers.

(** ** Shard queues: [asyncio.Queue] with [join] *)

Record item := mkItem { it_call : nat; it_payload : row }.

Record ShardQueue := mkShard {
  sq_items : list item;
  sq_maxsize : Z;
  sq_unfinished : Z;
}.

Definition sq_full (q : ShardQueue) : bool :=
  (0 <? sq_maxsize q) && (sq_maxsize q <=? py_len (sq_items q)).

Definition sq_put (x : item) (q : ShardQueue) : ShardQueue :=
  mkShard (sq_items q ++ [x]) (sq_maxsize q) (sq_unfinished q + 1).

(** [task_done]: raises when called more often than there were items. *)
Definition sq_task_done (q : ShardQueue) : py ShardQueue :=
  if sq_unfinished q <=? 0 then Raise (ValueError (lit "task_done() called too many times"))
  else Ok (mkShard (sq_items q) (sq_maxsize q) (sq_unfinished q - 1)).

(** [join] returns at once or on the [task_done] that brings the count to zero. *)
Definition sq_joined (q : ShardQueue) : bool := sq_unfinished q =? 0.

(** ** [ConcurrentHandler] *)

(** A worker: in [queue.get()], in [_process_event], or ended. *)
Inductive worker := WGetting | WProcessing (x : item) | WEnded.

Record ConcurrentHandler := mkConcurrentHandler {
  _shard_count : Z;
  _shards : list ShardQueue;
  _workers : list worker;
  _failures : list exn;
}.

Definition ConcurrentHandler_init (shard_count queue_maxsize : Z) : ConcurrentHandler :=
  mkConcurrentHandler shard_count
    (replicate (Z.to_nat shard_count) (mkShard [] queue_maxsize 0)) [] [].

Definition pool_start (self : ConcurrentHandler) : ConcurrentHandler :=
  mkConcurrentHandler (_shard_count self) (_shards self)
    (replicate (Z.to_nat (_shard_count self)) WGetting) (_failures self).

Definition set_shards s h := mkConcurrentHandler (_shard_count h) s (_workers h) (_failures h).
Definition set_workers ws h := mkConcurrentHandler (_shard_count h) (_shards h) ws (_failures h).
Definition set_failures f h := mkConcurrentHandler (_shard_count h) (_shards h) (_workers h) f.

(** [_shard_for] *)
Definition _shard_for (shard_count : Z) (entity_id : pystr) : py Z :=
  b ← str_encode entity_id;
  if shard_count =? 0 then Raise ZeroDivisionError
  else Ok (int_of_hex (hexdigest (md5 b)) mod shard_count).

(** [payload["entity_id"]] of [change.new], then its shard. *)
Definition payload_entity (payload : option row) : py (row * option pystr) :=
  match payload with
  | None => Raise TypeError
  | Some p => match p !! lit "entity_id" with Some e => Ok (p, e) | None => Raise KeyError end
  end.

Definition route (shard_count : Z) (payload : option row) : py (row * nat) :=
  '(p, entity) ← payload_entity payload;
  match entity with
  | None => Raise AttributeError
  | Some e => shard_id ← _shard_for shard_count e; Ok (p, Z.to_nat shard_id)
  end.

(** Where the loop over the changes stops: at a full queue, at its end, or with an
    exception. *)
Inductive paused :=
| FullAt (shard_id : nat) (x : item) (rest : list ChangeEvent) (touched : gset nat)
| FannedOut (touched : gset nat)
| FanRaised (e : exn).

(** The third component is ghost: the items put. *)
Fixpoint fan_out (call : nat) (shard_count : Z) (changes : list ChangeEvent)
    (touched : gset nat) (shards : list ShardQueue) : paused * list ShardQueue * list item :=
  match changes with
  | [] => (FannedOut touched, shards, [])
  | change :: rest =>
      if negb (is_published change) then fan_out call shard_count rest touched shards
      else
        match route shard_count (new change) with
        | Raise e => (FanRaised e, shards, [])
        | Ok (payload, shard_id) =>
            let touched := {[ shard_id ]} ∪ touched in
            match shards !! shard_id with
            | None => (FanRaised IndexError, shards, [])
            | Some q =>
                let x := mkItem call payload in
                if sq_full q then (FullAt shard_id x rest touched, shards, [])
                else
                  let '(p, shards, xs) :=
                    fan_out call shard_count rest touched (<[shard_id := sq_put x q]> shards) in
                  (p, shards, x :: xs)
            end
        end
  end.

(** ** The pool and the task that calls [handle] *)

(** Where [handle] is: not called, in [put], in [join] of one of the shards left,
    or in [checkpoint.save]. *)
Inductive call_state :=
| HIdle
| HPutting (tx : Transaction) (shard_id : nat) (x : item) (rest : list ChangeEvent)
    (touched : gset nat)
| HJoining (tx : Transaction) (remaining : gset nat)
| HSaving (tx : Transaction).

Inductive call_result :=
| CallSaved
| CallRaised (e : exn)
| CallRaisedGroup (message : pystr) (failures : list exn)
| CallCancelled.

(** [stop]: not called, waiting for shard [k] to drain, or done. *)
Inductive stop_state := Running | Draining (k : nat) | Stopped.

(** What an observer has seen: the items put, the items whose processing ended and
    how, the items whose worker was cancelled, the calls of [handle] that ended. *)
Record PoolLog := mkPoolLog {
  accepted : list item;
  processed : list (item * option exn);
  interrupted : list item;
  results : list (nat * Transaction * call_result);
}.

Record Pool := mkPool {
  handler : ConcurrentHandler;
  call : call_state;
  calls : nat;
  stopping : stop_state;
  pool_log : PoolLog;
}.

Definition with_handler h w := mkPool h (call w) (calls w) (stopping w) (pool_log w).
Definition with_call c w := mkPool (handler w) c (calls w) (stopping w) (pool_log w).
Definition with_stopping s w := mkPool (handler w) (call w) (calls w) s (pool_log w).
Definition with_pool_log l w := mkPool (handler w) (call w) (calls w) (stopping w) l.

Definition log_accepted xs l :=
  mkPoolLog (accepted l ++ xs) (processed l) (interrupted l) (results l).
Definition log_processed p l :=
  mkPoolLog (accepted l) (processed l ++ [p]) (interrupted l) (results l).
Definition log_interrupted xs l :=
  mkPoolLog (accepted l) (processed l) (interrupted l ++ xs) (results l).
Definition log_result r l :=
  mkPoolLog (accepted l) (processed l) (interrupted l) (results l ++ [r]).

(** The current call ends. *)
Definition call_ends (tx : Transaction) (r : call_result) (w : Pool) : Pool :=
  with_call HIdle (with_pool_log (log_result (Nat.pred (calls w), tx, r) (pool_log w)) w).

(** The message of the group. *)
Definition failures_message (failures : list exn) (tx : Transaction) : pystr :=
  str_of_int (py_len failures) ++ lit " event(s) failed while processing xid "
    ++ str_of_int (tx_xid tx).

(** After the joins: raise what the workers recorded, or save. *)
Definition joins_done (tx : Transaction) (w : Pool) : Pool :=
  match _failures (handler w) with
  | [] => with_call (HSaving tx) w
  | failures =>
      call_ends tx (CallRaisedGroup (failures_message failures tx) failures)
        (with_handler (set_failures [] (handler w)) w)
  end.

Definition joins (tx : Transaction) (remaining : gset nat) (w : Pool) : Pool :=
  if bool_decide (remaining = ∅) then joins_done tx w else with_call (HJoining tx remaining) w.

(** The loop of [handle] over [changes], up to its next await. *)
Definition fan (tx : Transaction) (changes : list ChangeEvent) (touched : gset nat) (w : Pool) :
    Pool :=
  let id := Nat.pred (calls w) in
  let h := handler w in
  let '(p, shards, xs) := fan_out id (_shard_count h) changes touched (_shards h) in
  let w' := with_pool_log (log_accepted xs (pool_log w))
              (with_handler (set_shards shards h) w) in
  match p with
  | FullAt shard_id x rest touched => with_call (HPutting tx shard_id x rest touched) w'
  | FannedOut touched => joins tx touched w'
  | FanRaised e => call_ends tx (CallRaised e) w'
  end.

(** [handle] is called. *)
Definition handle (tx : Transaction) (w : Pool) : Pool :=
  fan tx (tx_changes tx) ∅
    (mkPool (handler w) (call w) (S (calls w)) (stopping w) (pool_log w)).

(** The pending [put] finds a place. *)
Definition put_resumes (tx : Transaction) (shard_id : nat) (x : item)
    (rest : list ChangeEvent) (touched : gset nat) (q : ShardQueue) (w : Pool) : Pool :=
  let h := handler w in
  fan tx rest touched
    (with_pool_log (log_accepted [x] (pool_log w))
      (with_handler (set_shards (<[shard_id := sq_put x q]> (_shards h)) h) w)).

(** *** Workers *)

(** [payload = await queue.get()] of worker [i] returns. *)
Definition worker_gets (i : nat) (w : Pool) : option Pool :=
  let h := handler w in
  match _workers h !! i, _shards h !! i with
  | Some WGetting, Some q =>
      match sq_items q with
      | [] => None
      | x :: rest =>
          Some (with_handler
            (set_workers (<[i := WProcessing x]> (_workers h))
              (set_shards (<[i := mkShard rest (sq_maxsize q) (sq_unfinished q)]> (_shards h)) h)) w)
      end
  | _, _ => None
  end.

(** [_process_event] returns or raises an [Exception], which is recorded; the
    [finally] clause counts the item done and the worker goes back to [get]. *)
Definition worker_ends (i : nat) (outcome : option exn) (w : Pool) : option Pool :=
  let h := handler w in
  match _workers h !! i, _shards h !! i with
  | Some (WProcessing x), Some q =>
      match sq_task_done q with
      | Raise _ => None
      | Ok q' =>
          let h := set_workers (<[i := WGetting]> (_workers h))
                     (set_shards (<[i := q']> (_shards h)) h) in
          let h := match outcome with
                   | Some e => set_failures (_failures h ++ [e]) h
                   | None => h
                   end in
          Some (with_pool_log (log_processed (x, outcome) (pool_log w)) (with_handler h w))
      end
  | _, _ => None
  end.

(** *** [stop] *)

(** A cancelled worker: the item it was processing counts as done. *)
Definition cancel_worker (q : ShardQueue) (wk : worker) : ShardQueue :=
  match wk with
  | WProcessing _ => match sq_task_done q with Ok q' => q' | Raise _ => q end
  | _ => q
  end.

Definition busy (wk : worker) : list item := match wk with WProcessing x => [x] | _ => [] end.

Definition cancel_workers (w : Pool) : Pool :=
  let h := handler w in
  with_stopping Stopped
    (with_pool_log (log_interrupted (mjoin (busy <$> _workers h)) (pool_log w))
      (with_handler
        (set_workers (const WEnded <$> _workers h)
          (set_shards (zip_with cancel_worker (_shards h) (_workers h)) h)) w)).

(** The wait for shard [k] is over: the next one, or the cancellations. *)
Definition drain_from (k : nat) (w : Pool) : Pool :=
  if bool_decide (k < length (_shards (handler w)))%nat then with_stopping (Draining k) w
  else cancel_workers w.

(** *** Events *)

Inductive pool_event :=
| PHandle (tx : Transaction)
| PPut
| PJoin (shard_id : nat)
| PSaved
| PSaveFails (e : exn)
| PCancelHandle
| PGet (i : nat)
| PDone (i : nat)
| PFails (i : nat) (e : exn)
| PStop
| PDrained
| PDrainTimeout.

(** [except Exception] does not catch a cancellation. *)
Definition catchable (e : exn) : bool := match e with CancelledError => false | _ => true end.

Definition pool_call_event (ev : pool_event) (w : Pool) : option Pool :=
  match ev, call w with
  | PHandle tx, HIdle =>
      match stopping w with Running => Some (handle tx w) | _ => None end
  | PPut, HPutting tx shard_id x rest touched =>
      q ← _shards (handler w) !! shard_id;
      if sq_full q then None else Some (put_resumes tx shard_id x rest touched q w)
  | PJoin shard_id, HJoining tx remaining =>
      q ← _shards (handler w) !! shard_id;
      if bool_decide (shard_id ∈ remaining) && sq_joined q
      then Some (joins tx (remaining ∖ {[ shard_id ]}) w) else None
  | PSaved, HSaving tx => Some (call_ends tx CallSaved w)
  | PSaveFails e, HSaving tx => Some (call_ends tx (CallRaised e) w)
  | PCancelHandle, (HPutting tx _ _ _ _ | HJoining tx _ | HSaving tx) =>
      Some (call_ends tx CallCancelled w)
  | _, _ => None
  end.

Definition pool_step (ev : pool_event) (w : Pool) : option Pool :=
  match ev with
  | PGet i => worker_gets i w
  | PDone i => worker_ends i None w
  | PFails i e => if catchable e then worker_ends i (Some e) w else None
  | PStop =>
      match call w, stopping w with HIdle, Running => Some (drain_from 0 w) | _, _ => None end
  | PDrained =>
      match stopping w with
      | Draining k =>
          q ← _shards (handler w) !! k;
          if sq_joined q then Some (drain_from (S k) w) else None
      | _ => None
      end
  | PDrainTimeout =>
      match stopping w with Draining k => Some (drain_from (S k) w) | _ => None end
  | _ => pool_call_event ev w
  end.

Fixpoint pool_steps (evs : list pool_event) (w : Pool) : option Pool :=
  match evs with
  | [] => Some w
  | ev :: rest => w' ← pool_step ev w; pool_steps rest w'
  end.

(** A started handler. *)
Definition pool_init (shard_count queue_maxsize : Z) : Pool :=
  mkPool (pool_start (ConcurrentHandler_init shard_count queue_maxsize)) HIdle 0 Running
    (mkPoolLog [] [] [] []).

Definition pool_reachable (shard_count queue_maxsize : Z) (w : Pool) : Prop :=
  ∃ evs, pool_steps evs (pool_init shard_count queue_maxsize) = Some w.
