(* ===== verification/ShardsSpec.v ===== *)
(** What the sharding handler guarantees: per-entity order, checkpoints only after
    every event was processed, and termination, for every interleaving of the
    handler with its workers. *)
From stdpp Require Import base tactics list numbers strings gmap.
From S2P Require Import Prelude PyStr Errors PyBytes PyHash Pgoutput Abc Transport Handlers Shards.

(** ** Where an item belongs *)

(** The shard [_shard_for] gives an item's entity. *)
Definition item_shard (shard_count : Z) (x : item) : option nat :=
  match route shard_count (Some (it_payload x)) with Ok (_, i) => Some i | Raise _ => None end.

Definition item_entity (x : item) : option pystr :=
  match it_payload x !! lit "entity_id" with Some (Some e) => Some e | _ => None end.

Lemma route_item n payload p i id :
  route n payload = Ok (p, i) → payload = Some p ∧ item_shard n (mkItem id p) = Some i.
Proof.
  intros H. unfold item_shard. cbn [it_payload].
  destruct payload as [r|]; [|done]. assert (Hp : p = r); [|subst; by rewrite H].
  unfold route, payload_entity in H. destruct (r !! lit "entity_id") as [e|]; [|done].
  cbn in H. destruct e as [e|]; [|done]. by destruct (_shard_for n e); [injection H as <- _|].
Qed.

(** Items of one entity share a shard. *)
Lemma item_shard_entity n x y :
  item_entity x = item_entity y → is_Some (item_entity x) → item_shard n x = item_shard n y.
Proof.
  unfold item_entity, item_shard, route, payload_entity.
  destruct (it_payload x !! lit "entity_id") as [[e|]|]; [|by intros _ [? ?]..].
  destruct (it_payload y !! lit "entity_id") as [[e'|]|]; intros [= Heq] _. subst e'.
  cbn. by destruct (_shard_for n e).
Qed.

(** The shards are a partition: a positive count gives every encodable entity an
    index in range. *)
Lemma shard_for_range n e s : _shard_for n e = Ok s → 0 < n → 0 <= s < n.
Proof.
  unfold _shard_for. destruct (str_encode e); [|done]. cbn. case_step; [done|].
  intros [= <-] Hn. by apply Z.mod_pos_bound.
Qed.

(** The items a call puts for a list of changes. *)
Definition tx_items (id : nat) (changes : list ChangeEvent) : list item :=
  (λ c, mkItem id (default ∅ (new c))) <$> filter is_published changes.

(** ** The state by shard *)

Definition items_at (w : Pool) (i : nat) : list item :=
  match _shards (handler w) !! i with Some q => sq_items q | None => [] end.
Definition unfinished_at (w : Pool) (i : nat) : Z :=
  match _shards (handler w) !! i with Some q => sq_unfinished q | None => 0 end.
Definition busy_at (w : Pool) (i : nat) : list item :=
  match _workers (handler w) !! i with Some wk => busy wk | None => [] end.

(** The items of a list on shard [i], and those of call [id]. *)
Definition on (n : Z) (i : nat) : list item → list item := filter (λ x, item_shard n x = Some i).
Definition of_call (id : nat) : list item → list item := filter (λ x, it_call x = id).

Lemma on_app n i l k : on n i (l ++ k) = on n i l ++ on n i k.
Proof. apply filter_app. Qed.

Lemma on_one n i x : item_shard n x = Some i → on n i [x] = [x].
Proof. intros H. unfold on. by rewrite filter_cons_True. Qed.

Lemma on_other n i j x : item_shard n x = Some i → i ≠ j → on n j [x] = [].
Proof. intros H Hij. unfold on. rewrite filter_cons_False; [done|]. congruence. Qed.

Lemma of_call_app id l k : of_call id (l ++ k) = of_call id l ++ of_call id k.
Proof. apply filter_app. Qed.

(** *** What [fan_out] does *)

Definition fan_items_at (s : list ShardQueue) (i : nat) : list item :=
  match s !! i with Some q => sq_items q | None => [] end.
Definition fan_unfinished_at (s : list ShardQueue) (i : nat) : Z :=
  match s !! i with Some q => sq_unfinished q | None => 0 end.

Lemma fan_put n s i j q x :
  s !! i = Some q → item_shard n x = Some i →
  fan_items_at (<[i := sq_put x q]> s) j = fan_items_at s j ++ on n j [x] ∧
  fan_unfinished_at (<[i := sq_put x q]> s) j = fan_unfinished_at s j + py_len (on n j [x]).
Proof.
  intros Hq Hx. unfold fan_items_at, fan_unfinished_at. destruct (decide (i = j)) as [<-|Hij].
  - rewrite list_lookup_insert_eq by (by eapply lookup_lt_Some). by rewrite Hq, (on_one n i x).
  - rewrite list_lookup_insert_ne by done. rewrite (on_other n i j x) by done.
    rewrite app_nil_r. split; [done|]. unfold py_len. cbn. lia.
Qed.

(** What every stop of [fan_out] leaves: [xs] are put, each on its shard, all of
    this call and on shards [touched] holds. *)
Record fan_effect (id : nat) (n : Z) (s s' : list ShardQueue) (xs : list item)
    (touched : gset nat) : Prop := {
  fe_length : length s' = length s;
  fe_items j : fan_items_at s' j = fan_items_at s j ++ on n j xs;
  fe_unfinished j : fan_unfinished_at s' j = fan_unfinished_at s j + py_len (on n j xs);
  fe_call x : x ∈ xs → it_call x = id ∧ ∃ i, item_shard n x = Some i ∧ i ∈ touched;
}.

Lemma fan_out_effect id n changes : ∀ touched s p s' xs,
  fan_out id n changes touched s = (p, s', xs) →
  ∃ touched', touched ⊆ touched' ∧ fan_effect id n s s' xs touched' ∧
  match p with
  | FannedOut t => t = touched' ∧ tx_items id changes = xs
  | FullAt i x rest t => t = touched' ∧ tx_items id changes = xs ++ x :: tx_items id rest ∧
      it_call x = id ∧ item_shard n x = Some i ∧ i ∈ t ∧ is_Some (s' !! i)
  | FanRaised _ => True
  end.
Proof.
  induction changes as [|c changes IH]; intros touched s p s' xs.
  { intros [= <- <- <-]. exists touched. split; [done|]. split; [|done].
    split; [done|..].
    - intros j. by rewrite app_nil_r.
    - intros j. unfold py_len. cbn. lia.
    - intros x Hx. by apply elem_of_nil in Hx. }
  cbn [fan_out]. unfold tx_items. rewrite filter_cons.
  assert (Hstop : ∀ t, fan_effect id n s s [] t).
  { intros t. split; [done|..].
    - intros j. by rewrite app_nil_r.
    - intros j. unfold py_len. cbn. lia.
    - intros x Hx. by apply elem_of_nil in Hx. }
  destruct (is_published c) eqn:Hc; cycle 1.
  { case_decide as Hd; [by apply Is_true_true in Hd; congruence|]. cbn [negb]. apply IH. }
  rewrite decide_True by (by apply Is_true_true). rewrite fmap_cons. cbn [negb].
  destruct (route n (new c)) as [[payload i]|e] eqn:Hr; cycle 1.
  { intros [= <- <- <-]. by exists touched. }
  apply (route_item _ _ _ _ id) in Hr as [Hnew Hx]. rewrite Hnew.
  destruct (s !! i) as [q|] eqn:Hq; cycle 1.
  { intros [= <- <- <-]. by exists touched. }
  destruct (sq_full q).
  { intros [= <- <- <-]. exists ({[i]} ∪ touched). split; [set_solver|]. split; [apply Hstop|].
    split_and!; try done; set_solver. }
  destruct (fan_out id n changes _ _) as [[p1 s1] xs1] eqn:Hf. intros [= <- <- <-].
  apply IH in Hf as (touched' & Hsub & Heff & Hp). destruct Heff as [Hl Hi Hu Hmine]. exists touched'.
  split; [clear -Hsub; set_solver|]. split; cycle 1.
  { destruct p1; [|by destruct Hp as [? <-]|done].
    destruct Hp as (? & Hp & ?). split; [done|]. split; [|done]. unfold tx_items in Hp. by rewrite Hp. }
  assert (Hput := λ j, fan_put n s i j q (mkItem id payload) Hq Hx).
  split.
  - by rewrite Hl, length_insert.
  - intros j. rewrite Hi, (proj1 (Hput j)), <- (assoc_L (++)), <- on_app. done.
  - intros j. rewrite Hu, (proj2 (Hput j)). change (mkItem id payload :: xs1) with ([mkItem id payload] ++ xs1).
    rewrite on_app. unfold py_len. rewrite length_app. lia.
  - intros x [->|Hin]%elem_of_cons; [|by apply Hmine]. split; [done|].
    exists i. split; [done|]. clear -Hsub; set_solver.
Qed.

(** ** The invariant of a started pool *)

Definition current (w : Pool) : nat := Nat.pred (calls w).

(** Where every item is: put on shard [i], it is processed, interrupted, in the
    worker's hands or in the queue, in this order; [join] counts the last two. *)
Record queue_inv (n : Z) (w : Pool) : Prop := {
  qi_count : _shard_count (handler w) = n;
  qi_workers : length (_workers (handler w)) = length (_shards (handler w));
  qi_items i : on n i (accepted (pool_log w)) =
    on n i ((processed (pool_log w)).*1) ++ on n i (interrupted (pool_log w)) ++
    busy_at w i ++ items_at w i;
  qi_unfinished i : unfinished_at w i = py_len (busy_at w i) + py_len (items_at w i);
  qi_interrupted : stopping w ≠ Stopped → interrupted (pool_log w) = [];
  qi_routed x : x ∈ accepted (pool_log w) → is_Some (item_shard n x);
  qi_processed x : x ∈ (processed (pool_log w)).*1 → is_Some (item_shard n x);
}.

(** No item of call [id] waits or is being processed. *)
Definition settled (id : nat) (w : Pool) : Prop :=
  ∀ i x, x ∈ busy_at w i ++ items_at w i → it_call x ≠ id.

(** Every item of call [id] was processed without a failure. *)
Definition clean (id : nat) (w : Pool) : Prop :=
  ∀ x o, (x, o) ∈ processed (pool_log w) → it_call x = id → o = None.

Definition recorded (w : Pool) : Prop :=
  ∀ x e, (x, Some e) ∈ processed (pool_log w) → it_call x = current w →
    e ∈ _failures (handler w).

Definition put_by (w : Pool) (id : nat) : list item := of_call id (accepted (pool_log w)).

(** The current call: what it has put, and which shards it still has to join. *)
Definition call_inv (n : Z) (w : Pool) : Prop :=
  match call w with
  | HIdle => True
  | HPutting tx i x rest touched =>
      recorded w ∧ tx_items (current w) (tx_changes tx) =
        put_by w (current w) ++ x :: tx_items (current w) rest ∧
      it_call x = current w ∧ item_shard n x = Some i ∧ i ∈ touched ∧
      ∀ y j, y ∈ put_by w (current w) → item_shard n y = Some j → j ∈ touched
  | HJoining tx remaining =>
      recorded w ∧ tx_items (current w) (tx_changes tx) = put_by w (current w) ∧
      ∀ y j, y ∈ put_by w (current w) → item_shard n y = Some j →
             j ∈ remaining ∨ unfinished_at w j = 0
  | HSaving tx =>
      clean (current w) w ∧ tx_items (current w) (tx_changes tx) = put_by w (current w) ∧
      settled (current w) w
  end.

Record pool_inv (n : Z) (w : Pool) : Prop := {
  pi_queue : queue_inv n w;
  pi_fresh x : x ∈ accepted (pool_log w) → (it_call x < calls w)%nat;
  pi_called : call w ≠ HIdle → (0 < calls w)%nat;
  pi_call : call_inv n w;
  pi_saved id tx : (id, tx, CallSaved) ∈ results (pool_log w) →
    (id < calls w)%nat ∧ (call w ≠ HIdle → id ≠ current w) ∧
    clean id w ∧ tx_items id (tx_changes tx) = put_by w id ∧ settled id w;
}.

(** *** Workers *)

Lemma worker_gets_effect i w w' :
  worker_gets i w = Some w' →
  ∃ x, busy_at w i = [] ∧ items_at w i = x :: items_at w' i ∧ busy_at w' i = [x] ∧
    (∀ j, j ≠ i → busy_at w' j = busy_at w j ∧ items_at w' j = items_at w j) ∧
    (∀ j, unfinished_at w' j = unfinished_at w j) ∧
    length (_workers (handler w')) = length (_workers (handler w)) ∧
    length (_shards (handler w')) = length (_shards (handler w)) ∧
    _shard_count (handler w') = _shard_count (handler w) ∧
    _failures (handler w') = _failures (handler w) ∧
    call w' = call w ∧ calls w' = calls w ∧ stopping w' = stopping w ∧ pool_log w' = pool_log w.
Proof.
  unfold worker_gets. destruct (_workers (handler w) !! i) as [[|x|]|] eqn:Hw; try done.
  destruct (_shards (handler w) !! i) as [q|] eqn:Hq; [|done].
  destruct (sq_items q) as [|x rest] eqn:Hx; [done|]. intros [= <-]. exists x.
  unfold busy_at, items_at, unfinished_at. cbn. rewrite Hw, Hq, !length_insert.
  rewrite !list_lookup_insert_eq by (by eapply lookup_lt_Some).
  split_and!; try done.
  - intros j Hj. by rewrite !list_lookup_insert_ne.
  - intros j. destruct (decide (i = j)) as [<-|Hj].
    + by rewrite list_lookup_insert_eq, Hq by (by eapply lookup_lt_Some).
    + by rewrite list_lookup_insert_ne.
Qed.

Lemma worker_ends_effect i o w w' :
  worker_ends i o w = Some w' →
  ∃ x, busy_at w i = [x] ∧ busy_at w' i = [] ∧
    (∀ j, items_at w' j = items_at w j) ∧ (∀ j, j ≠ i → busy_at w' j = busy_at w j) ∧
    (∀ j, unfinished_at w' j = unfinished_at w j - py_len (if decide (j = i) then [x] else [])) ∧
    length (_workers (handler w')) = length (_workers (handler w)) ∧
    length (_shards (handler w')) = length (_shards (handler w)) ∧
    _shard_count (handler w') = _shard_count (handler w) ∧
    _failures (handler w') = _failures (handler w) ++ option_list o ∧
    call w' = call w ∧ calls w' = calls w ∧ stopping w' = stopping w ∧
    pool_log w' = log_processed (x, o) (pool_log w).
Proof.
  unfold worker_ends. destruct (_workers (handler w) !! i) as [[|x|]|] eqn:Hw; try done.
  destruct (_shards (handler w) !! i) as [q|] eqn:Hq; [|done].
  unfold sq_task_done. destruct (sq_unfinished q <=? 0); [done|]. intros [= <-]. exists x.
  assert (Hf : _failures (handler w) ++ option_list o =
               match o with Some e => _failures (handler w) ++ [e] | None => _failures (handler w) end).
  { destruct o; [done|]. by rewrite app_nil_r. }
  unfold busy_at, items_at, unfinished_at. rewrite Hw, Hf. cbn.
  split_and!; try done; destruct o; cbn; rewrite ?length_insert; try done;
    try (by rewrite list_lookup_insert_eq by (by eapply lookup_lt_Some));
    intros j; try (intros Hj; by rewrite list_lookup_insert_ne); destruct (decide (j = i)) as [->|Hj];
    rewrite ?list_lookup_insert_eq by (by eapply lookup_lt_Some); rewrite ?Hq; try done;
    rewrite list_lookup_insert_ne by done; try done; unfold py_len; cbn; lia.
Qed.

Lemma queue_gets n i w w' : queue_inv n w → worker_gets i w = Some w' → queue_inv n w'.
Proof.
  intros [H1 H2 H3 H4 H5 H6 H7]
    (x & Hb & Hi & Hb' & Ho & Hu & L1 & L2 & E1 & _ & _ & _ & E2 & E3)%worker_gets_effect.
  constructor; rewrite ?E1, ?L1, ?L2, ?E2, ?E3; try done.
  - intros j. rewrite H3. destruct (decide (j = i)) as [->|Hj].
    + by rewrite Hb, Hi, Hb'.
    + by destruct (Ho j Hj) as [-> ->].
  - intros j. rewrite Hu, H4. destruct (decide (j = i)) as [->|Hj].
    + rewrite Hb, Hi, Hb'. unfold py_len. cbn. lia.
    + by destruct (Ho j Hj) as [-> ->].
Qed.

(** The item a worker holds belongs to its shard. *)
Lemma busy_on n w i x : queue_inv n w → x ∈ busy_at w i → item_shard n x = Some i.
Proof.
  intros HQ Hx. assert (Hin : x ∈ on n i (accepted (pool_log w))).
  { rewrite (qi_items _ _ HQ), !elem_of_app. auto. }
  by apply list_elem_of_filter in Hin as [? _].
Qed.

Lemma held_accepted n w i x :
  queue_inv n w → x ∈ busy_at w i ++ items_at w i →
  x ∈ accepted (pool_log w) ∧ item_shard n x = Some i.
Proof.
  intros HQ Hx. assert (Hin : x ∈ on n i (accepted (pool_log w))).
  { rewrite (qi_items _ _ HQ), (elem_of_app _ (on _ _ _ ++ _)), elem_of_app. auto. }
  by apply list_elem_of_filter in Hin as [? ?].
Qed.

Lemma queue_ends n i o w w' :
  stopping w ≠ Stopped → queue_inv n w → worker_ends i o w = Some w' → queue_inv n w'.
Proof.
  intros Hst HQ (x & Hb & Hb' & Hi & Ho & Hu & L1 & L2 & E1 & _ & _ & _ & E2 & E3)%worker_ends_effect.
  assert (Hx : item_shard n x = Some i) by (apply (busy_on n w); [done|rewrite Hb; apply list_elem_of_here]).
  destruct HQ as [H1 H2 H3 H4 H5 H6 H7]. specialize (H5 Hst).
  constructor; rewrite ?E1, ?L1, ?L2, ?E2, ?E3; cbn; try done.
  - intros j. rewrite H3, fmap_app, on_app, H5, Hi. change ([(x, o)].*1) with [x].
    change (on n j []) with (@nil item). rewrite !app_nil_l.
    destruct (decide (i = j)) as [<-|Hj].
    + by rewrite Hb, Hb', (on_one n i x), <- (assoc_L (++)) by done.
    + rewrite (on_other n i j x), app_nil_r by done. by rewrite Ho by done.
  - intros j. rewrite Hu, Hi, H4. case_decide as Hj; [subst; rewrite Hb, Hb'|rewrite Ho by done];
      unfold py_len; cbn; lia.
  - intros y. rewrite fmap_app. intros [Hy|Hy]%elem_of_app; [by apply H7|].
    apply list_elem_of_singleton in Hy as ->. by eexists.
Qed.

(** Items are put on their shards. *)
Definition put_world (s : list ShardQueue) (xs : list item) (w : Pool) : Pool :=
  with_pool_log (log_accepted xs (pool_log w)) (with_handler (set_shards s (handler w)) w).

Lemma queue_put n id s xs touched w :
  stopping w ≠ Stopped → queue_inv n w →
  fan_effect id n (_shards (handler w)) s xs touched → queue_inv n (put_world s xs w).
Proof.
  intros Hst [H1 H2 H3 H4 H5 H6 H7] [Hl Hi Hu Hx]. specialize (H5 Hst).
  constructor; cbn; try done.
  - congruence.
  - intros j. rewrite on_app, H3, H5. change (items_at (put_world s xs w) j) with (fan_items_at s j).
    rewrite Hi. change (busy_at (put_world s xs w) j) with (busy_at w j). cbn.
    by rewrite <- !(assoc_L (++)).
  - intros j. change (unfinished_at (put_world s xs w) j) with (fan_unfinished_at s j).
    change (items_at (put_world s xs w) j) with (fan_items_at s j).
    rewrite Hu, Hi. change (fan_unfinished_at (_shards (handler w)) j) with (unfinished_at w j).
    rewrite H4. change (busy_at (put_world s xs w) j) with (busy_at w j).
    rewrite py_len_app. change (fan_items_at (_shards (handler w)) j) with (items_at w j). lia.
  - intros x [Hin|Hin]%elem_of_app; [by apply H6|].
    destruct (Hx x Hin) as (_ & i & Hs & _). by eexists.
Qed.

(** The invariants of the queues do not speak of the call. *)
Lemma queue_same n w w' :
  queue_inv n w → _shard_count (handler w') = _shard_count (handler w) →
  _shards (handler w') = _shards (handler w) → _workers (handler w') = _workers (handler w) →
  accepted (pool_log w') = accepted (pool_log w) →
  processed (pool_log w') = processed (pool_log w) →
  interrupted (pool_log w') = interrupted (pool_log w) →
  (stopping w' ≠ Stopped → stopping w ≠ Stopped) → queue_inv n w'.
Proof.
  intros [H1 H2 H3 H4 H5 H6 H7] E1 E2 E3 E4 E5 E6 E7.
  constructor; unfold busy_at, items_at, unfinished_at in *;
    rewrite ?E1, ?E2, ?E3, ?E4, ?E5, ?E6; auto.
Qed.

(** *** Calls that are over, and the current one, under the workers' steps *)

Definition saved_ok (id : nat) (tx : Transaction) (w : Pool) : Prop :=
  clean id w ∧ tx_items id (tx_changes tx) = put_by w id ∧ settled id w.

Lemma settled_gets id i w w' : settled id w → worker_gets i w = Some w' → settled id w'.
Proof.
  intros Hs (x & Hb & Hi & Hb' & Ho & _)%worker_gets_effect j y.
  destruct (decide (j = i)) as [->|Hj]; [|by destruct (Ho j Hj) as [-> ->]; apply Hs].
  rewrite Hb'. intros Hy. apply (Hs i). by rewrite Hb, Hi.
Qed.

Lemma settled_ends id i o w w' : settled id w → worker_ends i o w = Some w' → settled id w'.
Proof.
  intros Hs (x & Hb & Hb' & Hi & Ho & _)%worker_ends_effect j y. rewrite Hi.
  destruct (decide (j = i)) as [->|Hj]; [|rewrite Ho by done; apply Hs].
  rewrite Hb'. intros Hy. apply (Hs i). apply elem_of_app. by right.
Qed.

Lemma saved_gets id tx i w w' : saved_ok id tx w → worker_gets i w = Some w' → saved_ok id tx w'.
Proof.
  intros (Hc & Ht & Hs) H. assert (Hs' := settled_gets _ _ _ _ Hs H).
  apply worker_gets_effect in H as (x & _ & _ & _ & _ & _ & _ & _ & _ & _ & _ & _ & _ & E).
  split_and!; [|unfold put_by; by rewrite E|done]. unfold clean. by rewrite E.
Qed.

(** The worker of shard [i] holds no item of a settled call. *)
Lemma settled_busy id i x w : settled id w → busy_at w i = [x] → it_call x ≠ id.
Proof. intros Hs Hb. apply (Hs i). rewrite Hb. apply list_elem_of_here. Qed.

Lemma saved_ends id tx i o w w' :
  saved_ok id tx w → worker_ends i o w = Some w' → saved_ok id tx w'.
Proof.
  intros (Hc & Ht & Hs) H. assert (Hs' := settled_ends _ _ _ _ _ Hs H).
  apply worker_ends_effect in H as (x & Hb & _ & _ & _ & _ & _ & _ & _ & _ & _ & _ & _ & E).
  split_and!; [|unfold put_by; by rewrite E|done].
  intros y o'. rewrite E. cbn. rewrite elem_of_app, list_elem_of_singleton.
  intros [Hin|[= -> ->]] Hy; [by eapply Hc|]. by apply (settled_busy _ _ _ _ Hs) in Hb.
Qed.

Lemma call_gets n i w w' : call_inv n w → worker_gets i w = Some w' → call_inv n w'.
Proof.
  intros HC H. destruct (call w) as [|tx j x rest touched|tx remaining|tx] eqn:Hcall.
  all: pose proof (worker_gets_effect _ _ _ H)
         as (y & _ & _ & _ & _ & Hu & _ & _ & _ & Ef & Ec & En & _ & E).
  all: unfold call_inv in *; rewrite Ec; rewrite Hcall in *; unfold recorded, put_by, current in *;
    rewrite ?En, ?E, ?Ef; try done.
  - destruct HC as (H1 & H2 & H3). split_and!; try done. intros z k Hz Hk. rewrite Hu. by apply (H3 z).
  - apply (saved_gets _ _ _ _ _ HC) in H. unfold saved_ok, put_by in H. by rewrite E in H.
Qed.

Lemma recorded_ends i o w w' : recorded w → worker_ends i o w = Some w' → recorded w'.
Proof.
  intros HR (x & _ & _ & _ & _ & _ & _ & _ & _ & Ef & _ & En & _ & E)%worker_ends_effect y e.
  unfold current. rewrite E, Ef, En. cbn. rewrite elem_of_app, list_elem_of_singleton.
  intros [Hin|[= -> <-]] Hy; apply elem_of_app; [left; by eapply HR|right]. apply list_elem_of_here.
Qed.

Lemma call_ends_worker n i o w w' :
  queue_inv n w → call_inv n w → worker_ends i o w = Some w' → call_inv n w'.
Proof.
  intros HQ HC H. assert (HR := λ hr, recorded_ends _ _ _ _ hr H).
  destruct (call w) as [|tx j x rest touched|tx remaining|tx] eqn:Hcall.
  all: pose proof (worker_ends_effect _ _ _ _ H)
         as (y & Hb & _ & _ & _ & Hu & _ & _ & _ & _ & Ec & En & _ & E).
  all: unfold call_inv in *; rewrite Ec; rewrite Hcall in *.
  - done.
  - destruct HC as (H1 & H2 & H3). split; [by apply HR|].
    unfold current, put_by in *. by rewrite En, E.
  - destruct HC as (H1 & H2 & H3). split; [by apply HR|].
    unfold current, put_by in *. rewrite En, E. split; [done|]. intros z k Hz Hk. rewrite Hu.
    destruct (H3 z k Hz Hk) as [?|H0]; [by left|right]. case_decide as Hki; [|unfold py_len; cbn; lia].
    subst k. pose proof (qi_unfinished _ _ HQ i) as Hq. rewrite Hb in Hq. unfold py_len in Hq.
    cbn in Hq. lia.
  - apply (saved_ends _ _ _ _ _ _ HC) in H. unfold saved_ok, current, put_by in *.
    by rewrite En, E in *.
Qed.

(** *** The loop over the changes *)

Lemma put_by_other id id' s xs w :
  (∀ x, x ∈ xs → it_call x = id) → id' ≠ id → put_by (put_world s xs w) id' = put_by w id'.
Proof.
  intros Hx Hne. unfold put_by. cbn. rewrite of_call_app.
  unfold of_call at 2. rewrite filter_none, app_nil_r; [done|].
  intros x Hin. rewrite (Hx x Hin). congruence.
Qed.

Lemma put_by_own id s xs w :
  (∀ x, x ∈ xs → it_call x = id) → put_by (put_world s xs w) id = put_by w id ++ xs.
Proof.
  intros Hx. unfold put_by. cbn. rewrite of_call_app. f_equal.
  by apply filter_all.
Qed.

(** A call that is over is not disturbed by what another call puts. *)
Lemma saved_put id id' tx n s xs touched w :
  fan_effect id n (_shards (handler w)) s xs touched → id' ≠ id →
  saved_ok id' tx w → saved_ok id' tx (put_world s xs w).
Proof.
  intros [Hl Hi Hu Hx] Hne (Hc & Ht & Hs). split_and!; [done| |].
  - rewrite (put_by_other id); [done| |done]. intros x Hin. by apply Hx.
  - intros j x. change (busy_at (put_world s xs w) j) with (busy_at w j).
    change (items_at (put_world s xs w) j) with (fan_items_at s j). rewrite Hi, (assoc_L (++)).
    intros [Hin|Hin]%elem_of_app; [by apply (Hs j)|].
    apply list_elem_of_filter in Hin as [_ Hin]. destruct (Hx x Hin) as [-> _]. congruence.
Qed.

(** What the loop relies on: the items put so far by the call. *)
Definition fanning (n : Z) (tx : Transaction) (changes : list ChangeEvent) (touched : gset nat)
    (w : Pool) : Prop :=
  recorded w ∧
  tx_items (current w) (tx_changes tx) = put_by w (current w) ++ tx_items (current w) changes ∧
  ∀ y j, y ∈ put_by w (current w) → item_shard n y = Some j → j ∈ touched.

(** What the joins rely on. *)
Definition joining (n : Z) (tx : Transaction) (remaining : gset nat) (w : Pool) : Prop :=
  recorded w ∧ tx_items (current w) (tx_changes tx) = put_by w (current w) ∧
  ∀ y j, y ∈ put_by w (current w) → item_shard n y = Some j →
         j ∈ remaining ∨ unfinished_at w j = 0.

(** The invariants but for the current call. *)
Record pool_rest (n : Z) (w : Pool) : Prop := {
  pr_queue : queue_inv n w;
  pr_running : stopping w = Running;
  pr_fresh x : x ∈ accepted (pool_log w) → (it_call x < calls w)%nat;
  pr_called : (0 < calls w)%nat;
  pr_saved id tx : (id, tx, CallSaved) ∈ results (pool_log w) →
    (id < current w)%nat ∧ saved_ok id tx w;
}.

Record pool_ok (n : Z) (w : Pool) : Prop := {
  po_inv : pool_inv n w;
  po_running : call w ≠ HIdle → stopping w = Running;
}.

(** A call ends without having saved. *)
Lemma call_ends_rest n tx r w :
  pool_rest n w → r ≠ CallSaved → pool_ok n (call_ends tx r w).
Proof.
  intros [HQ HS HF HC HD] Hr. split; [|done].
  constructor; try done; [by apply (queue_same n w)|]. intros id tx' [Hin|Hin]%elem_of_app.
  - destruct (HD _ _ Hin) as [Hlt (H1 & H2 & H3)]. unfold current in Hlt. cbn. split_and!; try done. lia.
  - apply list_elem_of_singleton in Hin. congruence.
Qed.

(** The call goes on waiting. *)
Lemma call_waits_rest n c w :
  pool_rest n w → call_inv n (with_call c w) → pool_ok n (with_call c w).
Proof.
  intros [HQ HS HF HC HD] Hc. split; [|done].
  constructor; try done; [by apply (queue_same n w)|]. intros id tx' Hin. destruct (HD _ _ Hin) as [Hlt (H1 & H2 & H3)]. unfold current in *. cbn.
  split_and!; try done; lia.
Qed.

Lemma joins_ok n tx remaining w :
  pool_rest n w → joining n tx remaining w → pool_ok n (joins tx remaining w).
Proof.
  intros HR (H1 & H2 & H3). unfold joins. case_bool_decide as Hrem; [|by apply call_waits_rest].
  subst remaining. unfold joins_done. destruct (_failures (handler w)) as [|f fs] eqn:Hf.
  - apply call_waits_rest; [done|]. unfold call_inv. cbn. split_and!; [|done|].
    + intros x [e|] Hin Hx; [|done]. pose proof (H1 x e Hin Hx) as Hn. rewrite Hf in Hn.
      by apply elem_of_nil in Hn.
    + intros i x Hin Hx. pose proof (pr_queue _ _ HR) as HQ.
      destruct (held_accepted n w i x HQ Hin) as [Hacc Hsh].
      assert (Hput : x ∈ put_by w (current w)) by (by apply list_elem_of_filter).
      destruct (H3 x i Hput Hsh) as [Hn|Hu]; [by apply not_elem_of_empty in Hn|].
      pose proof (qi_unfinished _ _ HQ i) as Hq. rewrite Hu, <- py_len_app in Hq.
      change (busy_at (with_call (HSaving tx) w) i ++ items_at (with_call (HSaving tx) w) i)
        with (busy_at w i ++ items_at w i) in Hin.
      destruct (busy_at w i ++ items_at w i); [by apply elem_of_nil in Hin|].
      unfold py_len in Hq. cbn in Hq. lia.
  - apply call_ends_rest; [|done]. destruct HR as [HQ HS HF HC HD]. constructor; try done.
    by apply (queue_same n w).
Qed.

Lemma rest_put n s xs touched w :
  pool_rest n w → fan_effect (current w) n (_shards (handler w)) s xs touched →
  pool_rest n (put_world s xs w).
Proof.
  intros [HQ HS HF HC HD] He. constructor; try done.
  - eapply queue_put; [by rewrite HS|done|exact He].
  - intros x [Hin|Hin]%elem_of_app; [by apply HF|].
    destruct (fe_call _ _ _ _ _ _ He x Hin) as [-> _]. unfold current. cbn. lia.
  - intros id tx Hin. destruct (HD _ _ Hin) as [Hlt Hok]. split; [done|].
    eapply saved_put; [exact He| |done]. lia.
Qed.

Lemma fan_ok n tx changes touched w :
  pool_rest n w → fanning n tx changes touched w → pool_ok n (fan tx changes touched w).
Proof.
  intros HR (H1 & H2 & H3). unfold fan. rewrite (qi_count _ _ (pr_queue _ _ HR)).
  change (Nat.pred (calls w)) with (current w).
  destruct (fan_out (current w) n changes touched (_shards (handler w))) as [[p s] xs] eqn:Hf.
  apply fan_out_effect in Hf as (touched' & Hsub & He & Hp).
  pose proof (rest_put _ _ _ _ _ HR He) as HR'.
  change (with_pool_log (log_accepted xs (pool_log w)) (with_handler (set_shards s (handler w)) w))
    with (put_world s xs w).
  assert (Hmine : ∀ x, x ∈ xs → it_call x = current w) by (intros x Hx; by apply He).
  assert (Hown := put_by_own (current w) s xs w Hmine).
  assert (Htouched : ∀ y j, y ∈ put_by (put_world s xs w) (current w) → item_shard n y = Some j →
                            j ∈ touched').
  { intros y j. rewrite Hown. intros [Hy|Hy]%elem_of_app Hj; [by apply Hsub, (H3 y)|].
    destruct (fe_call _ _ _ _ _ _ He y Hy) as (_ & k & Hk & Hin). congruence. }
  destruct p as [i x rest t|t|e].
  - destruct Hp as (-> & Hp & Hx & Hsh & Hi & _). apply call_waits_rest; [done|].
    split_and!; try done.
    change (tx_items (current w) (tx_changes tx) =
            put_by (put_world s xs w) (current w) ++ x :: tx_items (current w) rest).
    by rewrite Hown, H2, Hp, <- (assoc_L (++)).
  - destruct Hp as [-> Hp]. apply joins_ok; [done|]. split_and!; [done| |].
    + change (current (put_world s xs w)) with (current w). by rewrite Hown, H2, Hp.
    + intros y j Hy Hj. left. by apply (Htouched y).
  - by apply call_ends_rest.
Qed.

(** ** Every step keeps the invariant *)

Lemma ok_rest n w : pool_ok n w → call w ≠ HIdle → pool_rest n w.
Proof.
  intros [[HQ HF HC HI HD] HS] Hc. constructor; try done; [by apply HS|by apply HC|].
  intros id tx Hin. destruct (HD _ _ Hin) as (Hlt & Hne & H1 & H2 & H3). specialize (Hne Hc).
  split; [|by split_and!]. unfold current in *. lia.
Qed.

Lemma handle_ok n tx w :
  pool_ok n w → call w = HIdle → stopping w = Running → pool_ok n (handle tx w).
Proof.
  intros [[HQ HF HC HI HD] HS] Hc Hst. unfold handle.
  set (w1 := mkPool (handler w) (call w) (S (calls w)) (stopping w) (pool_log w)).
  assert (Hnone : put_by w1 (current w1) = []).
  { unfold put_by, of_call. apply filter_none. intros x Hx. specialize (HF x Hx).
    unfold current. cbn. lia. }
  apply fan_ok.
  - constructor; try done; [by apply (queue_same n w)|..].
    + intros x Hx. specialize (HF x Hx). cbn. lia.
    + cbn. lia.
    + intros id tx' Hin. destruct (HD _ _ Hin) as (Hlt & _ & H1 & H2 & H3). by split.
  - split; [|split; [by rewrite Hnone|]].
    + intros x e Hin Hx. exfalso.
      assert (Hin' : x ∈ (processed (pool_log w)).*1).
      { change x with (x, Some e).1. by apply list_elem_of_fmap_2. }
      destruct (qi_processed _ _ HQ x Hin') as [i Hi].
      assert (Hacc : x ∈ on n i (accepted (pool_log w))).
      { rewrite (qi_items _ _ HQ). apply elem_of_app. left. by apply list_elem_of_filter. }
      apply list_elem_of_filter in Hacc as [_ Hacc]. specialize (HF x Hacc).
      unfold current in Hx. cbn in Hx. lia.
    + rewrite Hnone. intros y j Hy. by apply elem_of_nil in Hy.
Qed.

Lemma put_ok n tx i x rest touched q w :
  pool_ok n w → call w = HPutting tx i x rest touched → _shards (handler w) !! i = Some q →
  pool_ok n (put_resumes tx i x rest touched q w).
Proof.
  intros HO Hc Hq. pose proof (ok_rest n w HO) as HR. rewrite Hc in HR. specialize (HR ltac:(done)).
  pose proof (pi_call _ _ (po_inv _ _ HO)) as HI. unfold call_inv in HI. rewrite Hc in HI.
  destruct HI as (H1 & H2 & H3 & H4 & H5 & H6).
  assert (He : fan_effect (current w) n (_shards (handler w))
                 (<[i := sq_put x q]> (_shards (handler w))) [x] touched).
  { constructor.
    - by rewrite length_insert.
    - intros j. by destruct (fan_put n (_shards (handler w)) i j q x Hq H4).
    - intros j. by destruct (fan_put n (_shards (handler w)) i j q x Hq H4).
    - intros y ->%list_elem_of_singleton. split; [done|]. by exists i. }
  unfold put_resumes. apply fan_ok; [exact (rest_put _ _ _ _ _ HR He)|].
  assert (Hown := put_by_own (current w) (<[i := sq_put x q]> (_shards (handler w))) [x] w
                    ltac:(by intros y ->%list_elem_of_singleton)).
  unfold fanning. change (current (with_pool_log _ _)) with (current w).
  unfold put_world in Hown. rewrite Hown. split; [done|]. split; [by rewrite H2, <- (assoc_L (++))|].
  intros y j [Hy|Hy]%elem_of_app Hj; [by apply (H6 y)|].
  apply list_elem_of_singleton in Hy as ->. congruence.
Qed.

Lemma join_ok n tx remaining i q w :
  pool_ok n w → call w = HJoining tx remaining → _shards (handler w) !! i = Some q →
  sq_joined q = true → pool_ok n (joins tx (remaining ∖ {[ i ]}) w).
Proof.
  intros HO Hc Hq Hj. pose proof (ok_rest n w HO) as HR. rewrite Hc in HR. specialize (HR ltac:(done)).
  pose proof (pi_call _ _ (po_inv _ _ HO)) as HI. unfold call_inv in HI. rewrite Hc in HI.
  destruct HI as (H1 & H2 & H3). apply joins_ok; [done|]. split_and!; try done.
  intros y j Hy Hsh. destruct (decide (j = i)) as [->|Hji].
  - right. unfold unfinished_at. rewrite Hq. unfold sq_joined in Hj. by zbool.
  - destruct (H3 y j Hy Hsh) as [Hin|?]; [left; set_solver|by right].
Qed.

Lemma saved_call_ok n tx w :
  pool_ok n w → call w = HSaving tx → pool_ok n (call_ends tx CallSaved w).
Proof.
  intros HO Hc. pose proof (ok_rest n w HO) as HR. rewrite Hc in HR. specialize (HR ltac:(done)).
  pose proof (pi_call _ _ (po_inv _ _ HO)) as HI. unfold call_inv in HI. rewrite Hc in HI.
  destruct HR as [HQ HS HF HC HD]. split; [|done].
  constructor; try done; [by apply (queue_same n w)|].
  intros id tx' [Hin|Hin]%elem_of_app.
  - destruct (HD _ _ Hin) as [Hlt (H1 & H2 & H3)]. unfold current in Hlt. cbn. split_and!; try done. lia.
  - apply list_elem_of_singleton in Hin as [= -> ->]. cbn. destruct HI as (H1 & H2 & H3).
    split_and!; try done. unfold current. lia.
Qed.

(** *** Workers' steps *)

(** The workers run until [stop] is done, one per shard. *)
Record workers_ok (n : Z) (w : Pool) : Prop := {
  wo_length : length (_workers (handler w)) = Z.to_nat n;
  wo_ended i wk : _workers (handler w) !! i = Some wk → (wk = WEnded ↔ stopping w = Stopped);
}.

Lemma gets_running n i w w' : workers_ok n w → worker_gets i w = Some w' → stopping w ≠ Stopped.
Proof.
  unfold worker_gets. intros He H Hs. destruct (_workers (handler w) !! i) as [wk|] eqn:Hw; [|done].
  by rewrite (proj2 (wo_ended _ _ He i wk Hw) Hs) in H.
Qed.

Lemma ends_running n i o w w' : workers_ok n w → worker_ends i o w = Some w' → stopping w ≠ Stopped.
Proof.
  unfold worker_ends. intros He H Hs. destruct (_workers (handler w) !! i) as [wk|] eqn:Hw; [|done].
  by rewrite (proj2 (wo_ended _ _ He i wk Hw) Hs) in H.
Qed.

Lemma gets_ok n i w w' : pool_ok n w → worker_gets i w = Some w' → pool_ok n w'.
Proof.
  intros [[HQ HF HC HI HD] HS] H. pose proof (queue_gets _ _ _ _ HQ H) as HQ'.
  pose proof (call_gets _ _ _ _ HI H) as HI'.
  assert (HD' := λ id tx Hok, saved_gets id tx _ _ _ Hok H).
  apply worker_gets_effect in H as (x & _ & _ & _ & _ & _ & _ & _ & _ & _ & Ec & En & Es & E).
  split; [|by rewrite Ec, Es]. constructor; unfold current; rewrite ?E, ?En, ?Ec; try done.
  intros id tx Hin. destruct (HD _ _ Hin) as (? & ? & Hok). split_and!; [done..| | |];
    by apply (HD' _ _ Hok).
Qed.

Lemma ends_ok n i o w w' :
  pool_ok n w → stopping w ≠ Stopped → worker_ends i o w = Some w' → pool_ok n w'.
Proof.
  intros [[HQ HF HC HI HD] HS] Hst H. pose proof (queue_ends _ _ _ _ _ Hst HQ H) as HQ'.
  pose proof (call_ends_worker _ _ _ _ _ HQ HI H) as HI'.
  assert (HD' := λ id tx Hok, saved_ends id tx _ _ _ _ Hok H).
  apply worker_ends_effect in H as (x & _ & _ & _ & _ & _ & _ & _ & _ & _ & Ec & En & Es & E).
  split; [|by rewrite Ec, Es]. constructor; unfold current; rewrite ?E, ?En, ?Ec; try done.
  intros id tx Hin. destruct (HD _ _ Hin) as (? & ? & Hok). split_and!; [done..| | |];
    by apply (HD' _ _ Hok).
Qed.

(** *** Stopping *)

Lemma pool_same n w w' :
  pool_inv n w → queue_inv n w' → handler w' = handler w → call w' = call w → calls w' = calls w →
  pool_log w' = pool_log w → pool_inv n w'.
Proof.
  intros [HQ HF HC HI HD] HQ' E1 E2 E3 E4.
  constructor; unfold call_inv, recorded, clean, settled, put_by, current, busy_at, items_at,
    unfinished_at in *; rewrite ?E1, ?E2, ?E3, ?E4; auto.
Qed.

Lemma on_busy n (ws : list worker) : ∀ k i,
  (∀ j wk x, ws !! j = Some wk → x ∈ busy wk → item_shard n x = Some (k + j)%nat) →
  on n (k + i) (mjoin (busy <$> ws)) = match ws !! i with Some wk => busy wk | None => [] end ∧
  ∀ j, (j < k)%nat → on n j (mjoin (busy <$> ws)) = [].
Proof.
  induction ws as [|wk ws IH]; intros k i Hx; [done|].
  destruct (IH (S k) (Nat.pred i)) as [IH1 IH2].
  { intros j wk' x Hj Hin. rewrite (Hx (S j) wk' x Hj Hin). f_equal. lia. }
  assert (Hwk : ∀ j, on n j (busy wk) = if decide (j = k) then busy wk else []).
  { intros j. assert (Hk := λ x Hin, Hx 0%nat wk x eq_refl Hin). case_decide as Hj.
    - apply filter_all. intros x Hin. rewrite (Hk x Hin). subst. f_equal. lia.
    - apply filter_none. intros x Hin. rewrite (Hk x Hin). intros [= He]. lia. }
  cbn. setoid_rewrite on_app. split.
  - rewrite Hwk. destruct i as [|i]; cbn.
    + rewrite decide_True, IH2, app_nil_r by lia. done.
    + rewrite decide_False by lia. rewrite <- plus_n_Sm. exact IH1.
  - intros j Hj. rewrite Hwk, decide_False, IH2 by lia. done.
Qed.

Lemma cancel_queue n w : stopping w ≠ Stopped → queue_inv n w → queue_inv n (cancel_workers w).
Proof.
  intros Hst HQ. pose proof HQ as [H1 H2 H3 H4 H5 H6 H7]. specialize (H5 Hst).
  assert (Hbusy : ∀ i, on n i (mjoin (busy <$> _workers (handler w))) = busy_at w i).
  { intros i. apply (on_busy n _ 0 i). intros j wk x Hj Hx. apply (busy_on n w _ _ HQ).
    unfold busy_at. cbn. by rewrite Hj. }
  assert (Hnone : ∀ i, busy_at (cancel_workers w) i = []).
  { intros i. unfold busy_at. cbn. rewrite list_lookup_fmap. by destruct (_workers _ !! i). }
  assert (Hq : ∀ i, items_at (cancel_workers w) i = items_at w i ∧
                    unfinished_at (cancel_workers w) i = py_len (items_at w i)).
  { intros i. specialize (H4 i). unfold items_at, unfinished_at, busy_at in *. cbn.
    rewrite lookup_zip_with. destruct (_shards (handler w) !! i) as [q|] eqn:Hi; [|done].
    destruct (lookup_lt_is_Some_2 (_workers (handler w)) i) as [wk Hwk].
    { rewrite H2. by apply lookup_lt_Some in Hi. }
    rewrite Hwk in *. cbn. unfold cancel_worker, sq_task_done. destruct wk as [|x|]; cbn in *;
      rewrite ?py_len_nil in H4; [by rewrite H4| |by rewrite H4].
    change (py_len [x]) with 1 in H4. pose proof (py_len_nonneg (sq_items q)).
    destruct (sq_unfinished q <=? 0) eqn:Hz; zbool; cbn; [lia|]. split; [done|lia]. }
  constructor; try done.
  - cbn. by rewrite length_fmap, length_zip_with, H2, Nat.min_id.
  - intros i. rewrite (proj1 (Hq i)), Hnone. cbn. rewrite H5, Hbusy.
    specialize (H3 i). rewrite H5 in H3. exact H3.
  - intros i. rewrite (proj1 (Hq i)), (proj2 (Hq i)), Hnone. done.
Qed.

Lemma drain_ok n k w :
  pool_ok n w → call w = HIdle → stopping w ≠ Stopped → pool_ok n (drain_from k w).
Proof.
  intros [HI HS] Hc Hst. unfold drain_from. case_bool_decide; (split; [|cbn; by rewrite Hc]).
  - apply (pool_same n w); [done| |done..]. by apply (queue_same n w); [apply HI|..].
  - pose proof (cancel_queue n w Hst (pi_queue _ _ HI)) as HQ.
    destruct HI as [HQ0 HF HC HI HD]. constructor; try done.
    + unfold call_inv. cbn. by rewrite Hc.
    + intros id tx Hin. destruct (HD id tx Hin) as (? & ? & ? & ? & Hs). split_and!; try done.
      intros i x. unfold busy_at. cbn. rewrite list_lookup_fmap.
      assert (Hi : items_at (cancel_workers w) i ⊆ items_at w i).
      { unfold items_at. cbn. rewrite lookup_zip_with. destruct (_shards (handler w) !! i) as [q|]; [|done].
        destruct (_workers (handler w) !! i) as [wk|]; [|apply list_subseteq_nil]. cbn.
        unfold cancel_worker, sq_task_done. destruct wk; [done| |done]. by destruct (_ <=? 0). }
      intros Hx. apply (Hs i), elem_of_app. right. apply Hi.
      by destruct (_workers (handler w) !! i).
Qed.

Lemma drain_workers n k w :
  workers_ok n w → stopping w ≠ Stopped → workers_ok n (drain_from k w).
Proof.
  intros [Hl He] Hs. unfold drain_from. case_bool_decide; constructor; cbn; try done.
  - intros i wk Hi. rewrite (He i wk Hi). by split.
  - by rewrite length_fmap.
  - intros i wk. rewrite list_lookup_fmap. destruct (_ !! i); [|done]. by intros [= <-].
Qed.

(** A step of a worker. *)
Lemma gets_workers n i w w' : workers_ok n w → worker_gets i w = Some w' → workers_ok n w'.
Proof.
  intros He H. pose proof (gets_running _ _ _ _ He H) as Hs. destruct He as [Hl He]. revert H.
  unfold worker_gets. destruct (_workers (handler w) !! i) as [[]|] eqn:Hw; try done.
  destruct (_shards (handler w) !! i) as [q|]; [|done]. destruct (sq_items q); [done|].
  intros [= <-]. constructor; cbn; [by rewrite length_insert|]. intros j wk.
  rewrite list_lookup_insert_Some. intros [(_ & <- & _)|[_ Hj]]; [by split|by apply (He j)].
Qed.

Lemma ends_workers n i o w w' : workers_ok n w → worker_ends i o w = Some w' → workers_ok n w'.
Proof.
  intros He H. pose proof (ends_running _ _ _ _ _ He H) as Hs. destruct He as [Hl He]. revert H.
  unfold worker_ends. destruct (_workers (handler w) !! i) as [[|x|]|] eqn:Hw; try done.
  destruct (_shards (handler w) !! i) as [q|]; [|done]. destruct (sq_task_done q); [|done].
  intros [= <-]. constructor; destruct o; cbn; rewrite ?length_insert; try done;
    intros j wk; rewrite list_lookup_insert_Some; intros [(_ & <- & _)|[_ Hj]]; try (by split);
    by apply (He j).
Qed.

(** ** Every step keeps the invariant *)

(** The handler's task touches neither the workers nor [stop]. *)
Lemma fan_frame tx changes touched w :
  stopping (fan tx changes touched w) = stopping w ∧
  _workers (handler (fan tx changes touched w)) = _workers (handler w).
Proof.
  unfold fan. destruct (fan_out _ _ _ _ _) as [[p s] xs]. destruct p; [done| |done].
  unfold joins, joins_done. by repeat case_match.
Qed.

Lemma workers_same n w w' :
  workers_ok n w → stopping w' = stopping w ∧ _workers (handler w') = _workers (handler w) →
  workers_ok n w'.
Proof. intros [Hl He] [E1 E2]. constructor; rewrite ?E1, ?E2; done. Qed.

Lemma call_step_ok n ev w w' :
  pool_ok n w → pool_call_event ev w = Some w' →
  pool_ok n w' ∧ stopping w' = stopping w ∧ _workers (handler w') = _workers (handler w).
Proof.
  intros HO. assert (HR := ok_rest n w HO). unfold pool_call_event.
  destruct ev; try done; destruct (call w) as [|tx0 j x rest touched|tx0 remaining|tx0] eqn:Hc;
    try done; try specialize (HR ltac:(done)).
  - destruct (stopping w) eqn:Hs; try done. intros [= <-]. split; [by apply handle_ok|].
    rewrite <- Hs. exact (fan_frame tx _ _ _).
  - destruct (_shards (handler w) !! j) as [q|] eqn:Hq; [|done]. cbn.
    destruct (sq_full q); [done|]. intros [= <-]. split; [by apply put_ok|]. exact (fan_frame tx0 _ _ _).
  - destruct (_shards (handler w) !! shard_id) as [q|] eqn:Hq; [|done]. cbn.
    destruct (bool_decide _ && sq_joined q) eqn:Hb; [|done]. intros [= <-].
    apply andb_prop in Hb as [_ Hj]. split; [by eapply join_ok|].
    unfold joins, joins_done. by repeat case_match.
  - intros [= <-]. split; [by apply saved_call_ok|done].
  - intros [= <-]. split; [by apply call_ends_rest|done].
  - intros [= <-]. split; [by apply call_ends_rest|done].
  - intros [= <-]. split; [by apply call_ends_rest|done].
  - intros [= <-]. split; [by apply call_ends_rest|done].
Qed.

Lemma pool_step_ok n ev w w' :
  pool_ok n w → workers_ok n w → pool_step ev w = Some w' → pool_ok n w' ∧ workers_ok n w'.
Proof.
  intros HO He. unfold pool_step.
  assert (Hcall : ∀ ev, pool_call_event ev w = Some w' → pool_ok n w' ∧ workers_ok n w').
  { intros ev' H. apply (call_step_ok n) in H as [? ?]; [|done]. split; [done|].
    by apply (workers_same n w). }
  assert (Hends : ∀ i o, worker_ends i o w = Some w' → pool_ok n w' ∧ workers_ok n w').
  { intros i o H. pose proof (ends_running _ _ _ _ _ He H) as Hst.
    split; [by eapply ends_ok|by eapply ends_workers]. }
  assert (Hidle : ∀ k, stopping w = Draining k → call w = HIdle).
  { intros k Hk. destruct (call w) eqn:Hc; [done|..];
      by rewrite (po_running _ _ HO) in Hk by congruence. }
  assert (Hdrain : ∀ k, call w = HIdle → stopping w ≠ Stopped →
                        pool_ok n (drain_from k w) ∧ workers_ok n (drain_from k w)).
  { intros k Hc Hs. split; [by apply drain_ok|by apply drain_workers]. }
  destruct ev; try (by apply Hcall); try (by apply Hends).
  - intros H. split; [by eapply gets_ok|by eapply gets_workers].
  - destruct (catchable e); [apply Hends|done].
  - destruct (call w) eqn:Hc; try done. destruct (stopping w) eqn:Hs; try done. intros [= <-].
    by apply Hdrain.
  - destruct (stopping w) as [|k|] eqn:Hs; try done. destruct (_ !! k) as [q|]; [|done]. cbn.
    destruct (sq_joined q); [|done]. intros [= <-]. apply Hdrain; [by eapply Hidle|done].
  - destruct (stopping w) as [|k|] eqn:Hs; try done. intros [= <-].
    apply Hdrain; [by eapply Hidle|done].
Qed.

Lemma init_ok n maxsize : pool_ok n (pool_init n maxsize) ∧ workers_ok n (pool_init n maxsize).
Proof.
  split; cycle 1.
  { constructor; cbn; [by rewrite length_replicate|].
    intros i wk [-> _]%lookup_replicate. by split. }
  split; [|done].
  assert (Hq : ∀ i, busy_at (pool_init n maxsize) i = [] ∧ items_at (pool_init n maxsize) i = [] ∧
                    unfinished_at (pool_init n maxsize) i = 0).
  { intros i. unfold busy_at, items_at, unfinished_at. cbn.
    destruct (decide (i < Z.to_nat n)%nat) as [Hi|Hi].
    - by rewrite !lookup_replicate_2.
    - by rewrite !lookup_ge_None_2 by (rewrite length_replicate; lia). }
  constructor; try done; try (by intros ? ?%elem_of_nil); [|by intros ? ? ?%elem_of_nil].
  constructor; try done; try (by intros ? ?%elem_of_nil).
  - cbn. by rewrite !length_replicate.
  - intros i. by destruct (Hq i) as (-> & -> & _).
  - intros i. by destruct (Hq i) as (-> & -> & ->).
Qed.

Lemma reachable_ok n maxsize w : pool_reachable n maxsize w → pool_ok n w ∧ workers_ok n w.
Proof.
  intros [evs H]. revert H. assert (H0 := init_ok n maxsize). revert H0.
  generalize (pool_init n maxsize). induction evs as [|ev evs IH]; intros w0 H0 H.
  { by injection H as <-. }
  cbn in H. destruct (pool_step ev w0) as [w1|] eqn:H1; [|done]. apply (IH w1); [|done].
  destruct H0. by eapply pool_step_ok.
Qed.

(** ** The order in which items are put *)

(** The items of the calls so far, call after call, in the order of their changes. *)
Definition ended_items (w : Pool) : list item :=
  mjoin ((λ r : nat * Transaction * call_result, tx_items r.1.1 (tx_changes r.1.2)) <$>
           results (pool_log w)).

Definition call_tx (c : call_state) : option Transaction :=
  match c with HIdle => None | HPutting tx _ _ _ _ | HJoining tx _ | HSaving tx => Some tx end.

Definition called_items (w : Pool) : list item :=
  ended_items w ++ match call_tx (call w) with
                   | Some tx => tx_items (current w) (tx_changes tx)
                   | None => []
                   end.

(** What was put are items of the calls, in this order; the current call has still to
    put the item it waits with and those after it. *)
Definition order_inv (w : Pool) : Prop :=
  match call w with
  | HPutting tx _ x rest _ => ∃ put, accepted (pool_log w) `sublist_of` ended_items w ++ put ∧
      tx_items (current w) (tx_changes tx) = put ++ x :: tx_items (current w) rest
  | _ => accepted (pool_log w) `sublist_of` called_items w
  end.

Lemma order_called w : order_inv w → accepted (pool_log w) `sublist_of` called_items w.
Proof.
  unfold order_inv, called_items. destruct (call w); try done. intros (put & Hs & Ht).
  cbn [call_tx]. rewrite Ht, (assoc_L (++)). by apply sublist_inserts_r.
Qed.

Lemma order_same w w' :
  order_inv w → call w' = call w → calls w' = calls w →
  accepted (pool_log w') = accepted (pool_log w) → results (pool_log w') = results (pool_log w) →
  order_inv w'.
Proof.
  unfold order_inv, called_items, ended_items, current. by intros H -> -> -> ->.
Qed.

Lemma fan_out_prefix id n changes : ∀ touched s p s' xs,
  fan_out id n changes touched s = (p, s', xs) → xs `prefix_of` tx_items id changes.
Proof.
  induction changes as [|c changes IH]; intros touched s p s' xs; cbn [fan_out].
  { by intros [= <- <- <-]. }
  unfold tx_items. rewrite filter_cons. destruct (is_published c) eqn:Hc; cycle 1.
  { case_decide as Hd; [by apply Is_true_true in Hd; congruence|]. apply IH. }
  rewrite decide_True by (by apply Is_true_true). rewrite fmap_cons. cbn [negb].
  destruct (route n (new c)) as [[payload i]|e] eqn:Hr;
    [|intros [= <- <- <-]; apply prefix_nil].
  apply (route_item _ _ _ _ id) in Hr as [Hnew _]. rewrite Hnew.
  destruct (s !! i) as [q|]; [|intros [= <- <- <-]; apply prefix_nil].
  destruct (sq_full q); [intros [= <- <- <-]; apply prefix_nil|].
  destruct (fan_out id n changes _ _) as [[p1 s1] xs1] eqn:Hf. intros [= <- <- <-].
  apply prefix_cons. by eapply IH.
Qed.

Lemma ends_order tx r put rest w :
  accepted (pool_log w) `sublist_of` ended_items w ++ put →
  tx_items (current w) (tx_changes tx) = put ++ rest → order_inv (call_ends tx r w).
Proof.
  intros Hs Ht. change (accepted (pool_log w) `sublist_of` called_items (call_ends tx r w)).
  unfold called_items, ended_items. cbn [call_ends pool_log with_call with_pool_log log_result results
    call_tx call]. rewrite fmap_app, join_app, app_nil_r. cbn. fold (current w).
  rewrite app_nil_r, Ht, (assoc_L (++)). apply sublist_inserts_r. exact Hs.
Qed.

Lemma joins_order tx remaining w :
  accepted (pool_log w) `sublist_of` ended_items w ++ tx_items (current w) (tx_changes tx) →
  order_inv (joins tx remaining w).
Proof.
  intros Hs. unfold joins, joins_done. case_bool_decide; [|exact Hs].
  destruct (_failures (handler w)); [exact Hs|].
  apply (ends_order _ _ (tx_items (current w) (tx_changes tx)) []); [exact Hs|].
  by rewrite app_nil_r.
Qed.

Lemma fan_order tx changes touched put w :
  accepted (pool_log w) `sublist_of` ended_items w ++ put →
  tx_items (current w) (tx_changes tx) = put ++ tx_items (current w) changes →
  order_inv (fan tx changes touched w).
Proof.
  intros Hs Ht. unfold fan. destruct (fan_out _ _ _ _ _) as [[p s] xs] eqn:Hf.
  change (with_pool_log (log_accepted xs (pool_log w)) (with_handler (set_shards s (handler w)) w))
    with (put_world s xs w).
  assert (Hput : accepted (pool_log (put_world s xs w)) `sublist_of`
                 ended_items (put_world s xs w) ++ put ++ xs).
  { cbn. rewrite (assoc_L (++)). by apply sublist_app. }
  pose proof (fan_out_prefix _ _ _ _ _ _ _ _ Hf) as [tail Htail].
  apply fan_out_effect in Hf as (touched' & _ & _ & Hp). fold (current w) in Hp, Htail.
  destruct p as [i x rest t|t|e].
  - destruct Hp as (_ & Hp & _). exists (put ++ xs). split; [exact Hput|].
    change (tx_items (current w) (tx_changes tx) = (put ++ xs) ++ x :: tx_items (current w) rest).
    by rewrite Ht, Hp, <- (assoc_L (++)).
  - destruct Hp as [_ Hp]. apply joins_order.
    change (current (put_world s xs w)) with (current w). by rewrite Ht, Hp.
  - apply (ends_order _ _ (put ++ xs) tail); [exact Hput|].
    change (current (put_world s xs w)) with (current w).
    rewrite Ht, <- (assoc_L (++)). f_equal. exact Htail.
Qed.

Lemma pool_step_order ev w w' : order_inv w → pool_step ev w = Some w' → order_inv w'.
Proof.
  intros HI H. pose proof (order_called w HI) as Hc. unfold order_inv, called_items in HI, Hc.
  assert (Hends : ∀ i o, worker_ends i o w = Some w' → order_inv w').
  { intros i o (x & _ & _ & _ & _ & _ & _ & _ & _ & _ & Ec & En & _ & E)%worker_ends_effect.
    by apply (order_same w); rewrite ?E. }
  assert (Hdrain : ∀ k, order_inv (drain_from k w)).
  { intros k. apply (order_same w); [exact HI|..]; unfold drain_from; by case_bool_decide. }
  assert (Hend : ∀ tx r, call_tx (call w) = Some tx → order_inv (call_ends tx r w)).
  { intros tx r Ht. rewrite Ht in Hc.
    apply (ends_order _ _ (tx_items (current w) (tx_changes tx)) []); [exact Hc|by rewrite app_nil_r]. }
  destruct ev; cbn [pool_step pool_call_event] in H; try (by eapply Hends).
  - destruct (call w); try done. destruct (stopping w); try done. injection H as <-.
    apply (fan_order _ _ _ []); [|done]. exact Hc.
  - destruct (call w) as [|tx i x rest touched| |] eqn:Hcall; try done.
    destruct (_ !! i) as [q|]; [|done]. cbn in H. destruct (sq_full q); [done|]. injection H as <-.
    destruct HI as (put & Hs & Ht). apply (fan_order _ _ _ (put ++ [x])).
    + cbn. rewrite (assoc_L (++)). by apply sublist_app.
    + rewrite <- (assoc_L (++)). exact Ht.
  - destruct (call w) as [| |tx remaining|] eqn:Hcall; try done.
    destruct (_ !! shard_id) as [q|]; [|done]. cbn in H. destruct (_ && _); [|done].
    injection H as <-. apply joins_order. exact Hc.
  - destruct (call w) eqn:Hcall; try done. injection H as <-. by apply Hend.
  - destruct (call w) eqn:Hcall; try done. injection H as <-. by apply Hend.
  - destruct (call w) eqn:Hcall; try done; injection H as <-; by apply Hend.
  - apply worker_gets_effect in H as (x & _ & _ & _ & _ & _ & _ & _ & _ & _ & Ec & En & _ & E).
    by apply (order_same w); rewrite ?E.
  - destruct (catchable e); [by eapply Hends|done].
  - destruct (call w), (stopping w); try done. injection H as <-. apply Hdrain.
  - destruct (stopping w) as [|k|]; try done. destruct (_ !! k) as [q|]; [|done]. cbn in H.
    destruct (sq_joined q); [|done]. injection H as <-. apply Hdrain.
  - destruct (stopping w) as [|k|]; try done. injection H as <-. apply Hdrain.
Qed.

Lemma reachable_order n maxsize w : pool_reachable n maxsize w → order_inv w.
Proof.
  intros [evs H]. assert (H0 : order_inv (pool_init n maxsize)) by apply sublist_nil_l. revert H0 H.
  generalize (pool_init n maxsize). induction evs as [|ev evs IH]; intros w0 H0 H.
  { by injection H as <-. }
  cbn in H. destruct (pool_step ev w0) as [w1|] eqn:H1; [|done].
  apply (IH w1); [|done]. by eapply pool_step_order.
Qed.

(** ** Order and checkpoints *)

Definition of_entity (e : pystr) : list item → list item := filter (λ x, item_entity x = Some e).

Lemma entity_shard n e s x :
  _shard_for n e = Ok s → item_entity x = Some e → item_shard n x = Some (Z.to_nat s).
Proof.
  unfold item_entity, item_shard, route, payload_entity. intros Hs.
  destruct (it_payload x !! lit "entity_id") as [[e'|]|]; [|done..]. intros [= ->]. cbn. by rewrite Hs.
Qed.

Lemma of_entity_on n e s l :
  _shard_for n e = Ok s → of_entity e (on n (Z.to_nat s) l) = of_entity e l.
Proof.
  intros Hs. unfold of_entity, on. rewrite list_filter_filter. apply list_filter_iff.
  intros x. split; [by intros []|]. intros He. split; [done|by apply (entity_shard n e)].
Qed.

(** C13: per-entity order: in every reachable state of the handler and its workers,
    whatever the interleaving, failures, cancellations and [stop], the events of an
    entity that were put on the queues, in order, are those whose processing ended,
    then those whose worker was cancelled, then at most one being processed, then
    those waiting in the entity's queue: nothing is lost, duplicated or overtaken.
    And they are events of the transactions handed over, transaction after
    transaction in the order of the calls, each in the order of its changes. *)
Theorem entity_order (n maxsize s : Z) (e : pystr) (w : Pool) :
  pool_reachable n maxsize w → _shard_for n e = Ok s →
  of_entity e (accepted (pool_log w)) =
    of_entity e ((processed (pool_log w)).*1) ++ of_entity e (interrupted (pool_log w)) ++
    of_entity e (busy_at w (Z.to_nat s)) ++ of_entity e (items_at w (Z.to_nat s)) ∧
  (length (busy_at w (Z.to_nat s)) <= 1)%nat ∧
  of_entity e ((processed (pool_log w)).*1) `sublist_of` of_entity e (called_items w).
Proof.
  intros Hr Hs. pose proof (order_called w (reachable_order _ _ _ Hr)) as Hord.
  apply reachable_ok in Hr as [HO _].
  pose proof (qi_items _ _ (pi_queue _ _ (po_inv _ _ HO)) (Z.to_nat s)) as H.
  apply (f_equal (of_entity e)) in H. unfold of_entity in H. rewrite !filter_app in H.
  fold (of_entity e) in H. rewrite !(of_entity_on n e s) in H by done.
  split; [exact H|]. split; [unfold busy_at; destruct (_ !! _) as [[]|]; cbn; lia|].
  transitivity (of_entity e (accepted (pool_log w))).
  - rewrite H. by apply sublist_inserts_r.
  - by apply filter_sublist.
Qed.

(** C14: a checkpoint follows the work: when [handle] reaches [checkpoint.save], every
    published change of the transaction has been routed to a shard and processed by its
    worker, in order and exactly once, and none of them failed. *)
Theorem save_after_processing (n maxsize : Z) (tx : Transaction) (w : Pool) :
  pool_reachable n maxsize w → call w = HSaving tx →
  let items := tx_items (current w) (tx_changes tx) in
  (∀ x, x ∈ items → is_Some (item_shard n x)) ∧
  (∀ i, on n i (of_call (current w) ((processed (pool_log w)).*1)) = on n i items) ∧
  (∀ x o, (x, o) ∈ processed (pool_log w) → it_call x = current w → o = None).
Proof.
  intros [HO _]%reachable_ok Hc. pose proof (pi_queue _ _ (po_inv _ _ HO)) as HQ.
  pose proof (pi_call _ _ (po_inv _ _ HO)) as HI. unfold call_inv in HI. rewrite Hc in HI.
  destruct HI as (Hclean & Hitems & Hs). cbn zeta. rewrite Hitems. split_and!; [|intros i|done].
  - intros x [_ Hx]%list_elem_of_filter. by apply (qi_routed _ _ HQ).
  - pose proof (qi_items _ _ HQ i) as H. apply (f_equal (of_call (current w))) in H.
    rewrite !of_call_app, (qi_interrupted _ _ HQ) in H
      by (by rewrite (po_running _ _ HO) by congruence).
    rewrite <- of_call_app in H. unfold of_call at 4 in H.
    rewrite (filter_none _ (busy_at w i ++ items_at w i)), !app_nil_r in H by (intros x; apply Hs).
    unfold put_by, on, of_call in *. rewrite !list_filter_filter in H. rewrite !list_filter_filter.
    rewrite (list_filter_iff _ (λ x, item_shard n x = Some i ∧ it_call x = current w)) in H by tauto.
    rewrite H. apply list_filter_iff. tauto.
Qed.

(** The calls that saved: an ended call whose checkpoint was saved has put exactly its
    transaction's events and all of them were processed without a failure; no later
    step, by another call, a worker or [stop], adds to them. *)
Theorem saved_calls_clean (n maxsize : Z) (id : nat) (tx : Transaction) (w : Pool) :
  pool_reachable n maxsize w → (id, tx, CallSaved) ∈ results (pool_log w) →
  of_call id (accepted (pool_log w)) = tx_items id (tx_changes tx) ∧
  (∀ x o, (x, o) ∈ processed (pool_log w) → it_call x = id → o = None) ∧
  (∀ i x, x ∈ busy_at w i ++ items_at w i → it_call x ≠ id).
Proof.
  intros [HO _]%reachable_ok Hin. destruct (pi_saved _ _ (po_inv _ _ HO) id tx Hin) as (_ & _ & H1 & H2 & H3).
  by split_and!.
Qed.
