(* ===== verification/ShardsLive.v ===== *)
(** Termination of the sharding handler: a call of [handle], and [stop], end under
    every schedule of the pool; and runs that show what a failed or cancelled call
    leaves to the next one. *)
From stdpp Require Import base tactics list numbers strings gmap.
From S2P Require Import Prelude PyStr Errors PyBytes PyHash Pgoutput Abc Transport Handlers.
From S2P Require Import Shards ShardsSpec.

(** ** A measure *)

Definition queued (s : list ShardQueue) : nat := sum_list_with (λ q, length (sq_items q)) s.
Definition in_hand (ws : list worker) : nat := sum_list_with (λ wk, length (busy wk)) ws.
Definition pubs (changes : list ChangeEvent) : nat := length (filter is_published changes).
#[local] Arguments queued : simpl never.
#[local] Arguments in_hand : simpl never.

(** Steps the call can still take: per put, the put, its join and the worker's two. *)
Definition call_cost (c : call_state) : nat :=
  match c with
  | HIdle => 0
  | HSaving _ => 1
  | HJoining _ remaining => size remaining + 2
  | HPutting _ _ _ rest touched => 4 * S (pubs rest) + size touched + 2
  end.

Definition stop_cost (s : stop_state) (shards : nat) : nat :=
  match s with Draining k => S (shards - k) | _ => 0 end.

Definition pool_cost (w : Pool) : nat :=
  2 * queued (_shards (handler w)) + in_hand (_workers (handler w)) + call_cost (call w) +
  stop_cost (stopping w) (length (_shards (handler w))).

Lemma sum_insert {A} (f : A → nat) l i x y :
  l !! i = Some y → (sum_list_with f (<[i:=x]> l) + f y = sum_list_with f l + f x)%nat.
Proof.
  revert i. induction l as [|z l IH]; intros [|i]; cbn; [done..| |].
  - intros [= ->]. lia.
  - intros H. specialize (IH i H). unfold insert in *. lia.
Qed.

Lemma fan_out_cost id n changes : ∀ touched s p s' xs,
  fan_out id n changes touched s = (p, s', xs) →
  length s' = length s ∧
  (2 * queued s' + match p with
                   | FannedOut t => size t
                   | FullAt _ _ rest t => 4 * S (pubs rest) + size t
                   | FanRaised _ => 0
                   end <= 2 * queued s + 4 * pubs changes + size touched + 1)%nat.
Proof.
  unfold pubs. induction changes as [|c changes IH]; intros touched s p s' xs.
  { intros [= <- <- <-]. cbn. lia. }
  cbn [fan_out]. rewrite filter_cons. destruct (is_published c) eqn:Hc; cycle 1.
  { case_decide as Hd; [by apply Is_true_true in Hd; congruence|]. apply IH. }
  rewrite decide_True by (by apply Is_true_true). cbn [negb length].
  destruct (route n (new c)) as [[payload i]|e]; [|intros [= <- <- <-]; lia].
  destruct (s !! i) as [q|] eqn:Hq; [|intros [= <- <- <-]; lia].
  assert (Hsz : (size ({[i]} ∪ touched) <= S (size touched))%nat).
  { rewrite size_union_alt, size_singleton. apply le_n_S, subseteq_size. apply subseteq_difference_l. done. }
  destruct (sq_full q); [intros [= <- <- <-]; lia|].
  destruct (fan_out id n changes _ _) as [[p1 s1] xs1] eqn:Hf. intros [= <- <- <-].
  apply IH in Hf as [Hl Hf]. rewrite length_insert in Hl. split; [done|].
  pose proof (sum_insert (λ q, length (sq_items q)) s i (sq_put (mkItem id payload) q) q Hq) as Hs.
  cbn in Hs. rewrite length_app in Hs. unfold queued in *. cbn in Hs. destruct p1; lia.
Qed.

(** Every event but a new call of [handle] or of [stop]. *)
Definition internal (ev : pool_event) : bool :=
  match ev with PHandle _ | PStop => false | _ => true end.

Lemma joins_cost tx remaining w :
  stopping (joins tx remaining w) = stopping w ∧
  _shards (handler (joins tx remaining w)) = _shards (handler w) ∧
  _workers (handler (joins tx remaining w)) = _workers (handler w) ∧
  (call_cost (call (joins tx remaining w)) <= size remaining + 2)%nat ∧
  (remaining = ∅ → (call_cost (call (joins tx remaining w)) <= 1)%nat).
Proof.
  unfold joins, joins_done. case_bool_decide; repeat case_match; cbn; split_and!; try done; lia.
Qed.

Lemma fan_cost tx changes touched w :
  (pool_cost (fan tx changes touched w) <=
   2 * queued (_shards (handler w)) + in_hand (_workers (handler w)) + 4 * pubs changes +
   size touched + 3 + stop_cost (stopping w) (length (_shards (handler w))))%nat.
Proof.
  unfold fan. destruct (fan_out _ _ _ _ _) as [[p s] xs] eqn:Hf.
  apply fan_out_cost in Hf as [Hl Hf].
  destruct p as [i x rest t|t|e]; [|set (w1 := with_pool_log _ _);
    destruct (joins_cost tx t w1) as (E1 & E2 & E3 & E4 & _)|];
    unfold pool_cost; rewrite ?E1, ?E2, ?E3; cbn; rewrite Hl; try lia.
Qed.

Lemma worker_gets_cost i w w' : worker_gets i w = Some w' → (pool_cost w' < pool_cost w)%nat.
Proof.
  unfold worker_gets. destruct (_workers (handler w) !! i) as [[]|] eqn:Hw; try done.
  destruct (_shards (handler w) !! i) as [q|] eqn:Hq; [|done].
  destruct (sq_items q) as [|x rest] eqn:Hx; [done|]. intros [= <-]. unfold pool_cost, queued, in_hand. cbn.
  pose proof (sum_insert (λ q, length (sq_items q)) _ i (mkShard rest (sq_maxsize q) (sq_unfinished q)) _ Hq) as H1.
  pose proof (sum_insert (λ wk, length (busy wk)) _ i (WProcessing x) _ Hw) as H2.
  rewrite length_insert. cbn beta in *. rewrite Hx in H1. cbn in *. lia.
Qed.

Lemma worker_ends_cost i o w w' : worker_ends i o w = Some w' → (pool_cost w' < pool_cost w)%nat.
Proof.
  unfold worker_ends. destruct (_workers (handler w) !! i) as [[|x|]|] eqn:Hw; try done.
  destruct (_shards (handler w) !! i) as [q|] eqn:Hq; [|done]. unfold sq_task_done.
  destruct (_ <=? 0); [done|]. intros [= <-]. unfold pool_cost, queued, in_hand.
  pose proof (sum_insert (λ q, length (sq_items q)) _ i
    (mkShard (sq_items q) (sq_maxsize q) (sq_unfinished q - 1)) _ Hq) as H1.
  pose proof (sum_insert (λ wk, length (busy wk)) _ i WGetting _ Hw) as H2.
  destruct o; cbn in *; rewrite length_insert; lia.
Qed.

Lemma drain_cost k w :
  stopping w = Draining k → (pool_cost (drain_from (S k) w) < pool_cost w)%nat.
Proof.
  intros Hk. unfold drain_from, pool_cost. rewrite Hk. case_bool_decide; cbn; [lia|].
  assert (Hq : ∀ s ws, (queued (zip_with cancel_worker s ws) <= queued s)%nat).
  { unfold queued. induction s as [|q s IH]; intros [|wk ws]; cbn; try lia. specialize (IH ws).
    unfold cancel_worker at 1, sq_task_done. destruct wk; cbn; [lia| |lia].
    destruct (_ <=? 0); cbn; lia. }
  assert (Hw : ∀ ws : list worker, in_hand (const WEnded <$> ws) = 0%nat).
  { unfold in_hand. by induction ws. }
  rewrite Hw. specialize (Hq (_shards (handler w)) (_workers (handler w))). lia.
Qed.

(** Every internal step costs. *)
Lemma pool_step_cost ev w w' :
  internal ev = true → pool_step ev w = Some w' → (pool_cost w' < pool_cost w)%nat.
Proof.
  assert (Hends : ∀ tx r, call w ≠ HIdle → Some (call_ends tx r w) = Some w' →
                          (pool_cost w' < pool_cost w)%nat).
  { intros tx r Hc [= <-]. unfold pool_cost. cbn. destruct (call w); [done|cbn; lia..]. }
  intros Hev. destruct ev; try done; cbn [pool_step pool_call_event].
  - destruct (call w) as [|tx i x rest touched| |] eqn:Hc; try done.
    destruct (_shards (handler w) !! i) as [q|] eqn:Hq; [|done]. cbn.
    destruct (sq_full q); [done|]. intros [= <-]. unfold put_resumes. set (w1 := with_pool_log _ _).
    pose proof (fan_cost tx rest touched w1) as H. unfold pool_cost in *. rewrite Hc.
    pose proof (sum_insert (λ q, length (sq_items q)) _ i (sq_put x q) _ Hq) as H1.
    subst w1. cbn in *. rewrite length_app, length_insert in *. unfold queued in *. cbn in *. lia.
  - destruct (call w) as [|tx i x rest touched|tx remaining|] eqn:Hc; try done.
    destruct (_shards (handler w) !! shard_id) as [q|] eqn:Hq; [|done]. cbn.
    destruct (bool_decide _ && sq_joined q) eqn:Hb; [|done]. intros [= <-].
    apply andb_prop in Hb as [Hb%bool_decide_eq_true _].
    destruct (joins_cost tx (remaining ∖ {[shard_id]}) w) as (E1 & E2 & E3 & E4 & _).
    unfold pool_cost. rewrite E1, E2, E3, Hc. cbn.
    assert (size (remaining ∖ {[shard_id]}) < size remaining)%nat; [|lia].
    by apply subset_size, subset_difference_elem_of.
  - destruct (call w) eqn:Hc; try done. apply Hends. congruence.
  - destruct (call w) eqn:Hc; try done. apply Hends. congruence.
  - destruct (call w) eqn:Hc; try done; apply Hends; congruence.
  - apply worker_gets_cost.
  - apply worker_ends_cost.
  - destruct (catchable e); [apply worker_ends_cost|done].
  - destruct (stopping w) as [|k|] eqn:Hk; try done. destruct (_ !! k) as [q|]; [|done]. cbn.
    destruct (sq_joined q); [|done]. intros [= <-]. by apply drain_cost.
  - destruct (stopping w) as [|k|] eqn:Hk; try done. intros [= <-]. by apply drain_cost.
Qed.

(** ** Progress *)

Definition in_range (s : list ShardQueue) (touched : gset nat) : Prop :=
  ∀ j, j ∈ touched → (j < length s)%nat.

(** The call waits only for shards there are, and for one at least. *)
Definition call_sized (w : Pool) : Prop :=
  match call w with
  | HPutting _ i _ _ touched =>
      (i < length (_shards (handler w)))%nat ∧ in_range (_shards (handler w)) touched
  | HJoining _ remaining => remaining ≠ ∅ ∧ in_range (_shards (handler w)) remaining
  | _ => True
  end.

Lemma fan_out_range id n changes : ∀ touched s p s' xs,
  fan_out id n changes touched s = (p, s', xs) → in_range s touched →
  match p with
  | FannedOut t => in_range s t
  | FullAt i _ _ t => (i < length s)%nat ∧ in_range s t
  | FanRaised _ => True
  end.
Proof.
  induction changes as [|c changes IH]; intros touched s p s' xs; cbn [fan_out].
  { by intros [= <- <- <-]. }
  destruct (negb (is_published c)); [apply IH|].
  destruct (route n (new c)) as [[payload i]|e]; [|by intros [= <- <- <-]].
  destruct (s !! i) as [q|] eqn:Hq; [|by intros [= <- <- <-]]. intros Hf Hr.
  apply lookup_lt_Some in Hq as Hi.
  assert (Hr' : in_range s ({[i]} ∪ touched)).
  { intros j [->%elem_of_singleton|Hj]%elem_of_union; [done|by apply Hr]. }
  destruct (sq_full q); [by injection Hf as <- <- <-|].
  destruct (fan_out id n changes _ _) as [[p1 s1] xs1] eqn:Hf1. injection Hf as <- <- <-.
  apply IH in Hf1; unfold in_range in *; rewrite ?length_insert in *; done.
Qed.

Lemma joins_sized tx remaining w :
  in_range (_shards (handler w)) remaining → call_sized (joins tx remaining w).
Proof. unfold joins, joins_done. case_bool_decide; [|done]. intros _. by case_match. Qed.

Lemma fan_sized tx changes touched w :
  in_range (_shards (handler w)) touched → call_sized (fan tx changes touched w).
Proof.
  intros Hr. unfold fan. destruct (fan_out _ _ _ _ _) as [[p s] xs] eqn:Hf.
  pose proof (fan_out_cost _ _ _ _ _ _ _ _ Hf) as [Hl _].
  apply fan_out_range in Hf; [|done]. unfold in_range in Hf. rewrite <- Hl in Hf.
  destruct p; [done|by apply joins_sized|done].
Qed.

Lemma sized_same w w' :
  call_sized w → call w' = call w →
  length (_shards (handler w')) = length (_shards (handler w)) → call_sized w'.
Proof. unfold call_sized, in_range. intros Hs -> ->. exact Hs. Qed.

Lemma drain_sized k w :
  length (_workers (handler w)) = length (_shards (handler w)) →
  call_sized w → call_sized (drain_from k w).
Proof.
  intros Hw Hs. apply (sized_same w); [done|..]; unfold drain_from; case_bool_decide; try done.
  cbn. by rewrite length_zip_with, Hw, Nat.min_id.
Qed.

Lemma pool_step_sized n ev w w' :
  queue_inv n w → call_sized w → pool_step ev w = Some w' → call_sized w'.
Proof.
  intros HQ Hs. pose proof (qi_workers _ _ HQ) as Hw. unfold call_sized in Hs.
  assert (Hdrain := λ k, drain_sized k w Hw Hs).
  assert (Hends : ∀ i o, worker_ends i o w = Some w' → call_sized w').
  { intros i o (x & _ & _ & _ & _ & _ & _ & El & _ & _ & Ec & _)%worker_ends_effect.
    by apply (sized_same w). }
  destruct ev; cbn [pool_step pool_call_event]; try apply Hends.
  - destruct (call w); try done. destruct (stopping w); try done. intros [= <-].
    apply fan_sized. intros j Hj. by apply not_elem_of_empty in Hj.
  - destruct (call w) as [|tx i x rest touched| |]; try done. destruct (_ !! i) as [q|]; [|done].
    cbn. destruct (sq_full q); [done|]. intros [= <-]. apply fan_sized. cbn.
    unfold in_range. rewrite length_insert. apply Hs.
  - destruct (call w) as [| |tx remaining|]; try done. destruct (_ !! shard_id) as [q|]; [|done].
    cbn. destruct (_ && _); [|done]. intros [= <-]. apply joins_sized.
    intros j [Hj _]%elem_of_difference. by apply Hs.
  - destruct (call w); try done. by intros [= <-].
  - destruct (call w); try done. by intros [= <-].
  - destruct (call w); try done; by intros [= <-].
  - intros (x & _ & _ & _ & _ & _ & _ & El & _ & _ & Ec & _)%worker_gets_effect.
    by apply (sized_same w).
  - destruct (catchable e); [apply Hends|done].
  - destruct (call w), (stopping w); try done. intros [= <-]. apply Hdrain.
  - destruct (stopping w) as [|k|]; try done. destruct (_ !! k) as [q|]; [|done]. cbn.
    destruct (sq_joined q); [|done]. intros [= <-]. apply Hdrain.
  - destruct (stopping w) as [|k|]; try done. intros [= <-]. apply Hdrain.
Qed.

Lemma pool_steps_inv n evs : ∀ w w',
  pool_ok n w → workers_ok n w → call_sized w → pool_steps evs w = Some w' →
  pool_ok n w' ∧ workers_ok n w' ∧ call_sized w'.
Proof.
  induction evs as [|ev evs IH]; intros w w' HO HW HS H; [by injection H as <-|].
  cbn in H. destruct (pool_step ev w) as [w1|] eqn:H1; [|done].
  destruct (pool_step_ok n ev w w1 HO HW H1). apply (IH w1); try done.
  eapply pool_step_sized; [apply (po_inv _ _ HO)|done|done].
Qed.

(** The steps that need no failure, no cancellation and no timeout. *)
Definition ordinary (ev : pool_event) : bool :=
  match ev with PPut | PJoin _ | PSaved | PGet _ | PDone _ => true | _ => false end.

(** A shard with unfinished items has a worker that can go on. *)
Lemma shard_progress n w i :
  queue_inv n w → workers_ok n w → stopping w = Running → (i < length (_shards (handler w)))%nat →
  0 < unfinished_at w i → ∃ ev, ordinary ev = true ∧ is_Some (pool_step ev w).
Proof.
  intros HQ HW Hr Hi Hu. destruct (lookup_lt_is_Some_2 _ _ Hi) as [q Hq].
  rewrite <- (qi_workers _ _ HQ) in Hi. destruct (lookup_lt_is_Some_2 _ _ Hi) as [wk Hwk].
  pose proof (qi_unfinished _ _ HQ i) as H. pose proof (wo_ended _ _ HW i wk Hwk) as Hne.
  unfold busy_at, items_at, unfinished_at in *. rewrite Hq, Hwk in *. cbn in *.
  destruct wk as [|x|]; cbn in *.
  - exists (PGet i). split; [done|]. cbn. unfold worker_gets. rewrite Hq, Hwk.
    destruct (sq_items q); [unfold py_len in H; cbn in H; lia|done].
  - exists (PDone i). split; [done|]. cbn. unfold worker_ends, sq_task_done. rewrite Hq, Hwk.
    by destruct (Z.leb_spec (sq_unfinished q) 0); [lia|].
  - rewrite Hr in Hne. by specialize (proj1 Hne eq_refl).
Qed.

Lemma call_progress n w :
  pool_ok n w → workers_ok n w → call_sized w →
  call w = HIdle ∨ ∃ ev, ordinary ev = true ∧ is_Some (pool_step ev w).
Proof.
  intros HO HW HS. destruct (call w) as [|tx i x rest touched|tx remaining|tx] eqn:Hc; [by left|right..];
    pose proof (po_running _ _ HO) as Hr; rewrite Hc in Hr; specialize (Hr ltac:(done));
    pose proof (pi_queue _ _ (po_inv _ _ HO)) as HQ; unfold call_sized in HS; rewrite Hc in HS.
  - destruct HS as [Hi _]. destruct (lookup_lt_is_Some_2 _ _ Hi) as [q Hq].
    destruct (sq_full q) eqn:Hf; cycle 1.
    { exists PPut. cbn. rewrite Hc, Hq. cbn. by rewrite Hf. }
    apply (shard_progress n w i); try done. rewrite (qi_unfinished _ _ HQ).
    unfold sq_full in Hf. zbool. unfold items_at. rewrite Hq.
    pose proof (py_len_nonneg (busy_at w i)). lia.
  - destruct HS as [Hne Hin]. destruct (set_choose_L remaining Hne) as [j Hj].
    specialize (Hin j Hj). destruct (lookup_lt_is_Some_2 _ _ Hin) as [q Hq].
    destruct (sq_joined q) eqn:Hjoin.
    { exists (PJoin j). cbn. rewrite Hc, Hq. cbn. rewrite bool_decide_eq_true_2, Hjoin by done. done. }
    apply (shard_progress n w j); try done. pose proof (qi_unfinished _ _ HQ j) as Hu.
    unfold sq_joined in Hjoin. zbool. pose proof (py_len_nonneg (busy_at w j)).
    pose proof (py_len_nonneg (items_at w j)).
    assert (unfinished_at w j ≠ 0); [|lia]. unfold unfinished_at. by rewrite Hq.
  - exists PSaved. cbn. by rewrite Hc.
Qed.

(** C15: a call of [handle] ends: from every reachable state, every schedule of the
    handler's task, its workers, failures, cancellations and timeouts has at most
    [pool_cost w] steps, and as long as the call is not over, the handler or a worker can
    take an ordinary step: no full queue and no [join] waits for ever.  The same bound
    holds for [stop]. *)
Theorem handle_terminates (n maxsize : Z) (w : Pool) (evs : list pool_event) (w' : Pool) :
  pool_reachable n maxsize w → forallb internal evs = true → pool_steps evs w = Some w' →
  (length evs <= pool_cost w)%nat ∧
  (call w' = HIdle ∨ ∃ ev, ordinary ev = true ∧ is_Some (pool_step ev w')).
Proof.
  intros [evs0 H0] Hev H. destruct (init_ok n maxsize) as [HO HW].
  destruct (pool_steps_inv n evs0 _ _ HO HW I H0) as (HO1 & HW1 & HS1).
  destruct (pool_steps_inv n evs _ _ HO1 HW1 HS1 H) as (HO2 & HW2 & HS2).
  split; [|by eapply call_progress]. clear -Hev H. revert w H.
  induction evs as [|ev evs IH]; intros w H; cbn [length]; [lia|].
  cbn in Hev, H.
  apply andb_prop in Hev as [Hev1 Hev2]. destruct (pool_step ev w) as [w1|] eqn:H1; [|done].
  specialize (IH Hev2 w1 H). pose proof (pool_step_cost ev w w1 Hev1 H1). lia.
Qed.

(** ** Concrete runs *)

(** With four shards [a] goes to shard 1, [b] and [c] to shard 3. *)
Definition pool_demo : list pool_event := [PHandle outbox_tx; PGet 1; PGet 3; PDone 3].

Lemma entity_order_witness :
  match pool_steps (pool_demo ++ [PDone 1]) (pool_init 4 50) with
  | Some w => of_entity (lit "a") (accepted (pool_log w)) =
              of_entity (lit "a") ((processed (pool_log w)).*1)
  | None => False
  end.
Proof.
  destruct (pool_steps _ _) as [w|] eqn:E; [|by vm_compute in E].
  destruct (entity_order 4 50 1 (lit "a") w (ex_intro _ _ E) eq_refl) as [H _]. rewrite H.
  vm_compute in E. injection E as <-. vm_compute. reflexivity.
Defined.

Lemma save_after_processing_witness :
  match pool_steps (pool_demo ++ [PDone 1; PJoin 3; PJoin 1]) (pool_init 4 50) with
  | Some w => call w = HSaving outbox_tx ∧
              on 4 3 (of_call 0 ((processed (pool_log w)).*1)) = on 4 3 (tx_items 0 (tx_changes outbox_tx))
  | None => False
  end.
Proof.
  assert (Hw : (λ w, (call w, current w)) <$> pool_steps (pool_demo ++ [PDone 1; PJoin 3; PJoin 1])
                 (pool_init 4 50) = Some (HSaving outbox_tx, 0%nat)) by (vm_compute; reflexivity).
  destruct (pool_steps _ _) as [w|] eqn:E; [|done]. injection Hw as Hc Hn. split; [exact Hc|].
  destruct (save_after_processing 4 50 outbox_tx w (ex_intro _ _ E) Hc) as (_ & H & _).
  rewrite Hn in H. exact (H 3%nat).
Defined.

Lemma saved_calls_clean_witness :
  match pool_steps (pool_demo ++ [PDone 1; PJoin 3; PJoin 1; PSaved]) (pool_init 4 50) with
  | Some w => of_call 0 (accepted (pool_log w)) = tx_items 0 (tx_changes outbox_tx)
  | None => False
  end.
Proof.
  assert (Hw : results ∘ pool_log <$> pool_steps (pool_demo ++ [PDone 1; PJoin 3; PJoin 1; PSaved])
                 (pool_init 4 50) = Some [(0%nat, outbox_tx, CallSaved)]) by (vm_compute; reflexivity).
  destruct (pool_steps _ _) as [w|] eqn:E; [|done]. injection Hw as Hw.
  assert (Hin : (0%nat, outbox_tx, CallSaved) ∈ results (pool_log w)) by (rewrite Hw; left).
  exact (proj1 (saved_calls_clean 4 50 0 outbox_tx w (ex_intro _ _ E) Hin)).
Defined.

Lemma handle_terminates_witness :
  match pool_steps pool_demo (pool_init 4 50) with
  | Some w => pool_cost w = 5%nat ∧
              ∃ ev, ordinary ev = true ∧ is_Some (pool_step ev w)
  | None => False
  end.
Proof.
  assert (Hw : (λ w, (match call w with HIdle => true | _ => false end, pool_cost w)) <$>
                 pool_steps pool_demo (pool_init 4 50) = Some (false, 5%nat))
    by (vm_compute; reflexivity).
  destruct (pool_steps _ _) as [w|] eqn:E; [|done]. injection Hw as Hc Hn. split; [exact Hn|].
  destruct (handle_terminates 4 50 w [] w (ex_intro _ _ E) eq_refl eq_refl) as [_ [Hi|H]];
    [by rewrite Hi in Hc|].
  exact H.
Defined.

(** A call of [handle] that the lost connection cancelled leaves its items to the
    workers; one that fails makes the next call raise, although every event of its own
    transaction was processed. *)
Definition next_tx_of (id : string) : Transaction := mkTransaction 8 639 0 [sample_insert id].

Theorem stale_failure_blames_next_call tag :
  (λ w, (results (pool_log w),
         snd <$> filter (λ p, it_call p.1 = 1%nat) (processed (pool_log w)))) <$>
    pool_steps [PHandle outbox_tx; PGet 1; PCancelHandle; PHandle (next_tx_of "c");
                PFails 1 (HandlerError tag); PGet 3; PDone 3; PGet 3; PDone 3; PJoin 3]
      (pool_init 4 50) =
  Some ([(0%nat, outbox_tx, CallCancelled);
         (1%nat, next_tx_of "c",
          CallRaisedGroup (lit "1 event(s) failed while processing xid 8") [HandlerError tag])],
        [None]).
Proof. vm_compute. reflexivity. Qed.
